(** * Tool ordering and wiping extrusions of BambuStudio (libslic3r/GCode/ToolOrdering.cpp)

    A shallow embedding of the parts of [ToolOrdering] and [WipingExtrusions]
    that the specification talks about, and the properties proved of them.

    Conventions of the embedding.
    - [unsigned int] and [size_t] values are integers of [Z]; a decrement that
      can wrap is written with its modulus.
    - [coordf_t] / [double] / [float] quantities (print heights, volumes) are
      exact rationals of [Q]: comparisons and the arithmetic the code does on
      them are modelled without rounding.
    - [std::vector] is [list]; indexed reads and writes use [!!] and [<[_:=_]>].
    - [std::map] keyed by pointers is a [gmap] keyed by integer identities. *)

From Stdlib Require Import ZArith QArith Qminmax Qabs Lqa Lia List Bool String Sorted.
From stdpp Require Import gmap.

Open Scope Z_scope.

(** ** Data model *)

(** Modelled from the spec: [CustomGCode::Type] is declared in CustomGCode.hpp,
    which is missing; the events are color changes, pauses, tool changes and
    custom g-code, and the code only tells [ColorChange] and [ToolChange] from
    the rest. *)
Inductive CustomGCodeType : Type :=
| ColorChange
| PausePrint
| ToolChange
| Template
| Custom.

(** Modelled from the spec: [CustomGCode::Item] (CustomGCode.hpp, missing), an
    event keyed by height with its type and target extruder; the fields the
    tool ordering reads. *)
Record CustomGCodeItem : Type := mkItem {
  item_print_z : Q;
  item_type : CustomGCodeType;
  item_extruder : Z
}.

(** Modelled from the spec: [CustomGCode::Mode] (CustomGCode.hpp, missing), the
    mode flag of the custom g-code timeline. *)
Inductive CustomGCodeMode : Type :=
| SingleExtruder
| MultiAsSingle
| MultiExtruder.

(** Modelled from the spec: [LayerTools] is declared in ToolOrdering.hpp, which
    is missing; one record per print height, with the fields of the
    specification's data model at the types the code uses them at
    ([extruders] a vector of [unsigned int], [wipe_tower_partitions] a
    [size_t], [extruder_override] 0 for none). *)
Record LayerTools : Type := mkLayerTools {
  print_z : Q;
  has_object : bool;
  has_support : bool;
  extruders : list Z;
  extruder_override : Z;
  has_skirt : bool;
  has_wipe_tower : bool;
  wipe_tower_partitions : Z;
  wipe_tower_layer_height : Q;
  custom_gcode : option CustomGCodeItem
}.

(** [LayerTools(z)]: the constructor used by [initialize_layers]. *)
Definition new_LayerTools (z : Q) : LayerTools :=
  mkLayerTools z false false [] 0 false false 0 0%Q None.

Definition set_extruders (es : list Z) (lt : LayerTools) : LayerTools :=
  mkLayerTools (print_z lt) (has_object lt) (has_support lt) es
    (extruder_override lt) (has_skirt lt) (has_wipe_tower lt)
    (wipe_tower_partitions lt) (wipe_tower_layer_height lt) (custom_gcode lt).

Definition set_has_skirt (b : bool) (lt : LayerTools) : LayerTools :=
  mkLayerTools (print_z lt) (has_object lt) (has_support lt) (extruders lt)
    (extruder_override lt) b (has_wipe_tower lt)
    (wipe_tower_partitions lt) (wipe_tower_layer_height lt) (custom_gcode lt).

Definition set_has_wipe_tower (b : bool) (lt : LayerTools) : LayerTools :=
  mkLayerTools (print_z lt) (has_object lt) (has_support lt) (extruders lt)
    (extruder_override lt) (has_skirt lt) b
    (wipe_tower_partitions lt) (wipe_tower_layer_height lt) (custom_gcode lt).

Definition set_wipe_tower_partitions (n : Z) (lt : LayerTools) : LayerTools :=
  mkLayerTools (print_z lt) (has_object lt) (has_support lt) (extruders lt)
    (extruder_override lt) (has_skirt lt) (has_wipe_tower lt)
    n (wipe_tower_layer_height lt) (custom_gcode lt).

Definition set_wipe_tower_layer_height (h : Q) (lt : LayerTools) : LayerTools :=
  mkLayerTools (print_z lt) (has_object lt) (has_support lt) (extruders lt)
    (extruder_override lt) (has_skirt lt) (has_wipe_tower lt)
    (wipe_tower_partitions lt) h (custom_gcode lt).

Definition set_custom_gcode (g : option CustomGCodeItem) (lt : LayerTools) : LayerTools :=
  mkLayerTools (print_z lt) (has_object lt) (has_support lt) (extruders lt)
    (extruder_override lt) (has_skirt lt) (has_wipe_tower lt)
    (wipe_tower_partitions lt) (wipe_tower_layer_height lt) g.

(** [(unsigned int)-1] and [size_t(-1)]. *)
Definition UINT_MAX : Z := 2 ^ 32 - 1.
Definition SIZE_MAX : Z := 2 ^ 64 - 1.

(** [v.front()] and [v.back()] of a vector known to be non-empty; the default
    is never read on the paths of the source. *)
Definition front (es : list Z) : Z := hd 0 es.
Definition back (es : list Z) : Z := List.last es 0.

(** An extruder list as [sort_remove_duplicates] leaves it. *)
Fixpoint strictly_sorted (es : list Z) : Prop :=
  match es with
  | [] => True
  | a :: rest =>
      match rest with
      | [] => True
      | b :: _ => a < b /\ strictly_sorted rest
      end
  end.

(** ** [ToolOrdering::fill_wipe_tower_partitions]: counting and propagation *)

(** First loop: the minimum number of tool changes of every layer.
    [last_extruder] starts at [size_t(-1)]. *)
Fixpoint count_tool_changes (last_extruder : Z) (lts : list LayerTools)
  : list LayerTools :=
  match lts with
  | [] => []
  | lt :: rest =>
      let n := Z.of_nat (length (extruders lt)) in
      match extruders lt with
      | [] => set_wipe_tower_partitions n lt :: count_tool_changes last_extruder rest
      | f :: _ =>
          let p :=
            if (last_extruder =? SIZE_MAX) || (last_extruder =? f)
            then n - 1 else n in
          set_wipe_tower_partitions p lt
            :: count_tool_changes (back (extruders lt)) rest
      end
  end.

(** One step of the second loop:
    [m_layer_tools[i].wipe_tower_partitions =
       std::max(m_layer_tools[i + 1].wipe_tower_partitions,
                m_layer_tools[i].wipe_tower_partitions)]. *)
Definition propagate_at (i : nat) (lts : list LayerTools) : list LayerTools :=
  match lts !! i, lts !! S i with
  | Some lo, Some up =>
      <[i := set_wipe_tower_partitions
               (Z.max (wipe_tower_partitions up) (wipe_tower_partitions lo)) lo]> lts
  | _, _ => lts
  end.

(** Second loop, [for (i = size - 2; i >= 0; --i)]: [propagate_down k] runs the
    iterations [i = k - 1, ..., 0]. *)
Fixpoint propagate_down (k : nat) (lts : list LayerTools) : list LayerTools :=
  match k with
  | O => lts
  | S i => propagate_down i (propagate_at i lts)
  end.

(** The two loops of lines 752-766. *)
Definition fill_partitions (lts : list LayerTools) : list LayerTools :=
  let counted := count_tool_changes SIZE_MAX lts in
  propagate_down (length counted - 1) counted.

(** What the specification says a layer needs on its own: the last extruder of
    the nearest printing layer below index [i]. *)
Fixpoint prev_printing_last (lts : list LayerTools) (i : nat) : option Z :=
  match i with
  | O => None
  | S j =>
      match lts !! j with
      | Some lt =>
          match extruders lt with
          | [] => prev_printing_last lts j
          | _ :: _ => Some (back (extruders lt))
          end
      | None => prev_printing_last lts j
      end
  end.


(** Every extruder id is a value of [unsigned int]. *)
Definition unsigned_ids (lts : list LayerTools) : Prop :=
  Forall (fun lt => Forall (fun e => 0 <= e <= UINT_MAX) (extruders lt)) lts.



(** ** [sort_remove_duplicates]

    Modelled from the spec: [sort_remove_duplicates] is a utility of libslic3r
    whose file is missing; it deduplicates and sorts a vector: the vector is
    sorted and of every run of equal elements the first is kept. The element
    type comes with its order and equality tests. *)

Section SortRemoveDuplicates.
Context {A : Type} (leb eqb : A -> A -> bool).

Fixpoint insert_sorted (x : A) (l : list A) : list A :=
  match l with
  | [] => [x]
  | y :: rest => if leb x y then x :: l else y :: insert_sorted x rest
  end.

Definition sort_list (l : list A) : list A := fold_right insert_sorted [] l.

Fixpoint unique_from (x : A) (l : list A) : list A :=
  match l with
  | [] => [x]
  | y :: rest => if eqb x y then unique_from x rest else x :: unique_from y rest
  end.

Definition unique (l : list A) : list A :=
  match l with
  | [] => []
  | x :: rest => unique_from x rest
  end.

Definition sort_remove_duplicates (l : list A) : list A := unique (sort_list l).

End SortRemoveDuplicates.

(** ** [ToolOrdering::initialize_layers] *)

Section InitializeLayers.
(** [EPSILON] of libslic3r.h, the tolerance on heights. *)
Variable EPSILON : Q.

(** [0.5 * (zs[i] + zs[j-1])]. *)
Definition mid_z (first last : Q) : Q := ((1 # 2) * (first + last))%Q.

(** The merge loop over the sorted heights. [first] is [zs[i]], [last] is
    [zs[j-1]] and the list holds [zs[j], ...]: while [zs[j] <= zs[i] + EPSILON]
    the inner loop advances [j]; otherwise a record is emitted and [i = j]. *)
Fixpoint merge_close_z (first last : Q) (rest : list Q) : list LayerTools :=
  match rest with
  | [] => [new_LayerTools (mid_z first last)]
  | z :: rest' =>
      if Qle_bool z (first + EPSILON)
      then merge_close_z first z rest'
      else new_LayerTools (mid_z first last) :: merge_close_z z z rest'
  end.

Definition initialize_layers (zs : list Q) : list LayerTools :=
  match sort_remove_duplicates Qle_bool Qeq_bool zs with
  | [] => []
  | z :: rest => merge_close_z z z rest
  end.



End InitializeLayers.




Definition below_z (a b : LayerTools) : Prop := (print_z a < print_z b)%Q.

(** ** The end of [ToolOrdering::collect_extruders] (lines 556-563) *)

(** Every layer's extruders are sorted and deduplicated; a layer that has
    object extrusions but no extruder gets the "don't care" extruder 0. *)
Definition finish_collected_layer (lt : LayerTools) : LayerTools :=
  let es := sort_remove_duplicates Z.leb Z.eqb (extruders lt) in
  set_extruders
    (match es with
     | [] => if has_object lt then [0] else []
     | _ :: _ => es
     end) lt.

Definition finish_collected (lts : list LayerTools) : list LayerTools :=
  map finish_collected_layer lts.

(** ** [ToolOrdering::reorder_extruders] *)

(** [--extruder_id] on an [unsigned int]. *)
Definition decr_uint (e : Z) : Z := (e - 1) mod 2 ^ 32.

(** The first index [i], counted from [start], with [p es[i]]. *)
Fixpoint find_index (p : Z -> bool) (es : list Z) (start : nat) : option nat :=
  match es with
  | [] => None
  | e :: rest => if p e then Some start else find_index p rest (S start)
  end.

(** "Reorder the extruders to start with the last one": the first position
    [i >= 1] holding [last_extruder_id] is searched; the elements before it are
    shifted up by one ([memmove]) and [last_extruder_id] is written in
    front. *)
Definition start_with_last (last_extruder_id : Z) (es : list Z) : list Z :=
  match find_index (Z.eqb last_extruder_id) (tl es) 1 with
  | Some i => last_extruder_id :: take i es ++ drop (S i) es
  | None => es
  end.

(** "On first layer with wipe tower, prefer a soluble extruder at the
    beginning": [std::swap(lt.extruders[i], lt.extruders.front())] for the first
    [i] whose filament is soluble. The ids are still one-based. *)
Definition soluble_first (filament_soluble : Z -> bool) (es : list Z) : list Z :=
  match find_index (fun e => filament_soluble (decr_uint e)) es 0 with
  | Some i =>
      match es !! i with
      | Some e => <[0%nat := e]> (<[i := front es]> es)
      | None => es
      end
  | None => es
  end.

(** "Pop the don't care extruder": [if (lt.extruders.front() == 0)
    lt.extruders.erase(lt.extruders.begin())]. *)
Definition drop_dont_care (es : list Z) : list Z :=
  if front es =? 0 then tl es else es.

(** The treatment of one non-empty layer (lines 621-645 and 718-732).
    [on_first_layer] is the test of line 638, false throughout in the overload
    that takes the first layer's tool order. *)
Definition reorder_layer (filament_soluble : Z -> bool) (on_first_layer : bool)
    (last_extruder_id : Z) (es : list Z) : list Z :=
  if (length es =? 1)%nat && (front es =? 0)
  then [last_extruder_id]
  else
    let es1 := drop_dont_care es in
    let es2 := start_with_last last_extruder_id es1 in
    if on_first_layer then soluble_first filament_soluble es2 else es2.

(** The loop over the layers: empty layers are skipped, and after every
    other layer [last_extruder_id = lt.extruders.back()]. *)
Fixpoint reorder_loop (filament_soluble : Z -> bool) (on_first_layer : LayerTools -> bool)
    (last_extruder_id : Z) (lts : list LayerTools) : list LayerTools :=
  match lts with
  | [] => []
  | lt :: rest =>
      match extruders lt with
      | [] => lt :: reorder_loop filament_soluble on_first_layer last_extruder_id rest
      | _ :: _ =>
          let es := reorder_layer filament_soluble (on_first_layer lt)
                      last_extruder_id (extruders lt) in
          set_extruders es lt
            :: reorder_loop filament_soluble on_first_layer (back es) rest
      end
  end.

(** "Reindex the extruders, so they are zero based, not 1 based." *)
Definition reindex (lts : list LayerTools) : list LayerTools :=
  map (fun lt => set_extruders (map decr_uint (extruders lt)) lt) lts.

(** The first non-zero extruder id of the print, 0 when there is none
    (lines 602-610 and 697-707). *)
Fixpoint first_nonzero_extruder (lts : list LayerTools) : Z :=
  match lts with
  | [] => 0
  | lt :: rest =>
      match List.find (fun e => negb (e =? 0)) (extruders lt) with
      | Some e => e
      | None => first_nonzero_extruder rest
      end
  end.

(** What the reorder loops read of the configuration: whether
    [m_print_config_ptr] is set, [enable_prime_tower], and
    [filament_soluble.get_at]. *)
Record ReorderConfig : Type := mkReorderConfig {
  has_print_config : bool;
  enable_prime_tower : bool;
  filament_soluble : Z -> bool
}.

(** Line 638: [lt == m_layer_tools[0] && m_print_config_ptr &&
    m_print_config_ptr->enable_prime_tower]. Modelled from the spec:
    [LayerTools::operator==] is declared in ToolOrdering.hpp, which is
    missing; a layer is identified by its height, so two records are equal
    when their [print_z] are. *)
Definition is_first_layer_with_prime_tower (cfg : ReorderConfig) (lts : list LayerTools)
    (lt : LayerTools) : bool :=
  match lts with
  | [] => false
  | lt0 :: _ =>
      Qeq_bool (print_z lt) (print_z lt0) && has_print_config cfg && enable_prime_tower cfg
  end.

(** [reorder_extruders(unsigned int last_extruder_id)] up to the call of
    [reorder_extruders_for_minimum_flush_volume]: the layer list as that call
    receives it, or as an early [return] leaves it. *)
Definition reorder_extruders_uint (cfg : ReorderConfig) (last_extruder_id : Z)
    (lts : list LayerTools) : list LayerTools :=
  match lts with
  | [] => []
  | _ :: _ =>
      let start :=
        if last_extruder_id =? UINT_MAX
        then first_nonzero_extruder lts
        else (last_extruder_id + 1) mod 2 ^ 32 in
      if (last_extruder_id =? UINT_MAX) && (start =? 0)
      then lts
      else reindex (reorder_loop (filament_soluble cfg)
                      (is_first_layer_with_prime_tower cfg lts) start lts)
  end.

(** The first layer in [reorder_extruders(std::vector<unsigned int>)]
    (lines 667-691): the extruders named by [tool_order_layer0] come first, in
    that order, each found entry being overwritten by [(unsigned int)-1]; then
    the remaining non-zero entries. *)
Fixpoint take_tool_order (tool_order : list Z) (layer0_extruders acc : list Z)
  : list Z * list Z :=
  match tool_order with
  | [] => (layer0_extruders, acc)
  | extruder_id :: rest =>
      match find_index (Z.eqb extruder_id) layer0_extruders 0 with
      | Some i =>
          take_tool_order rest (<[i := UINT_MAX]> layer0_extruders) (acc ++ [extruder_id])
      | None => take_tool_order rest layer0_extruders acc
      end
  end.

Definition reorder_first_layer (tool_order_layer0 : list Z) (es : list Z) : list Z :=
  let '(layer0_extruders, acc) := take_tool_order tool_order_layer0 es [] in
  let acc' :=
    acc ++ List.filter (fun e => negb (e =? 0) && negb (e =? UINT_MAX)) layer0_extruders in
  match acc', tool_order_layer0 with
  | [], t :: _ => [t]
  | _, _ => acc'
  end.

(** [reorder_extruders(std::vector<unsigned int> tool_order_layer0)] up to the
    call of [reorder_extruders_for_minimum_flush_volume]. *)
Definition reorder_extruders_vec (cfg : ReorderConfig) (tool_order_layer0 : list Z)
    (lts : list LayerTools) : list LayerTools :=
  match lts with
  | [] => []
  | lt0 :: rest =>
      let es0 := reorder_first_layer tool_order_layer0 (extruders lt0) in
      let last_extruder_id :=
        match es0 with
        | [] => first_nonzero_extruder rest
        | _ :: _ => back es0
        end in
      reindex (set_extruders es0 lt0
                 :: reorder_loop (filament_soluble cfg) (fun _ => false)
                      last_extruder_id rest)
  end.


(** A layer list as [collect_extruders] hands it to [reorder_extruders] on a
    printer with [filament_count] filaments: sorted ids without duplicates,
    each 0 ("don't care") or a one-based filament id. *)
Definition collected_layer (filament_count : Z) (lt : LayerTools) : Prop :=
  strictly_sorted (extruders lt) /\
  Forall (fun e => 0 <= e <= filament_count) (extruders lt).

Definition zero_based_ids (filament_count : Z) (lts : list LayerTools) : Prop :=
  Forall (fun lt => Forall (fun e => 0 <= e < filament_count) (extruders lt)) lts.

(** The overload taking a tool order has an extruder to start from: the first
    layer prints something after its reordering, or a later layer names a
    non-zero extruder. *)
Definition start_extruder_known (tool_order_layer0 : list Z) (lts : list LayerTools) : Prop :=
  match lts with
  | [] => True
  | lt0 :: rest =>
      reorder_first_layer tool_order_layer0 (extruders lt0) <> [] \/
      first_nonzero_extruder rest <> 0
  end.

(** ** Filament grouping: TPU rules and capacities *)

(** A call returns normally or throws [Slic3r::RuntimeError]. *)
Inductive result (A : Type) : Type :=
| Ok (a : A)
| RuntimeError (msg : string).
Arguments Ok {A} a.
Arguments RuntimeError {A} msg.

Inductive PrintSequence : Type := ByLayer | ByObject.
Inductive FilamentMapMode : Type := fmmAuto | fmmManual.

(** The configuration values the grouping reads. [get_at] accessors are
    functions of the index; sizes of option vectors are numbers. *)
Record GroupConfig : Type := mkGroupConfig {
  master_extruder_id : Z;                 (* one-based *)
  filament_type : Z -> string;            (* filament_type.get_at *)
  nozzle_count : Z;                       (* nozzle_diameter.size() *)
  filament_count : nat;                   (* filament_colour.values.size() *)
  nozzle_hrc : Z -> Z;                    (* get_hrc_by_nozzle_type(nozzle_type.get_at(eid)) *)
  required_nozzle_HRC : Z -> Z;           (* required_nozzle_HRC.get_at *)
  extruder_ams_counts : list (list (Z * Z)); (* get_extruder_ams_count(extruder_ams_count) *)
  print_sequence : PrintSequence
}.

(** [get_filament_by_type(used_filaments, config, "TPU")]. *)
Definition is_tpu (cfg : GroupConfig) (filament_id : Z) : bool :=
  String.eqb (filament_type cfg filament_id) "TPU".

Definition get_tpu_filaments (cfg : GroupConfig) (used_filaments : list Z) : gset Z :=
  list_to_set (List.filter (is_tpu cfg) used_filaments).

(** [set.insert] into one entry of a [std::vector<std::set<int>>]. *)
Definition insert_at (i : Z) (fs : gset Z) (sets : list (gset Z)) : list (gset Z) :=
  if i <? 0 then sets
  else alter (fun s => fs ∪ s) (Z.to_nat i) sets.

(** The nozzle hardness loop of [get_physical_unprintables]. *)
Fixpoint add_hrc_unprintables (cfg : GroupConfig) (used_filaments : list Z)
    (eid : Z) (sets : list (gset Z)) : list (gset Z) :=
  match sets with
  | [] => []
  | s :: rest =>
      (list_to_set
         (List.filter (fun f => nozzle_hrc cfg eid <? required_nozzle_HRC cfg f) used_filaments)
       ∪ s)
      :: add_hrc_unprintables cfg used_filaments (eid + 1) rest
  end.

(** [ToolOrdering::get_physical_unprintables]. *)
Definition get_physical_unprintables (cfg : GroupConfig) (used_filaments : list Z)
  : result (list (gset Z)) :=
  let master := master_extruder_id cfg - 1 in
  let tpu_filaments := get_tpu_filaments cfg used_filaments in
  if (1 <? size tpu_filaments)%nat
  then RuntimeError "Only supports up to one TPU filament."
  else
    let physical_unprintables := replicate (Z.to_nat (nozzle_count cfg)) (∅ : gset Z) in
    if nozzle_count cfg <? 2 then Ok physical_unprintables
    else
      let extruder_without_tpu := 1 - master in
      Ok (add_hrc_unprintables cfg used_filaments 0
            (insert_at extruder_without_tpu tpu_filaments physical_unprintables)).

(** [filament_maps[filament_id]]. *)
Definition map_at (filament_maps : list Z) (filament_id : Z) : Z :=
  nth (Z.to_nat filament_id) filament_maps 0.

(** The loop of [ToolOrdering::check_tpu_group]: [None] is the [return false]
    on the second TPU filament, otherwise the final [check_extruder_id] and
    [extruder_filament_nums]. *)
Fixpoint check_tpu_loop (cfg : GroupConfig) (filament_maps : list Z)
    (used_filaments : list Z) (check_extruder_id : Z)
    (extruder_filament_nums : gmap Z (list Z)) : option (Z * gmap Z (list Z)) :=
  match used_filaments with
  | [] => Some (check_extruder_id, extruder_filament_nums)
  | filament_id :: rest =>
      let extruder_id := map_at filament_maps filament_id in
      let nums :=
        <[extruder_id := default [] (extruder_filament_nums !! extruder_id) ++ [filament_id]]>
          extruder_filament_nums in
      if is_tpu cfg filament_id
      then
        if check_extruder_id =? -1
        then check_tpu_loop cfg filament_maps rest (map_at filament_maps filament_id) nums
        else None
      else check_tpu_loop cfg filament_maps rest check_extruder_id nums
  end.

(** [ToolOrdering::check_tpu_group]; [filament_maps] is zero-based. *)
Definition check_tpu_group (cfg : GroupConfig) (used_filaments : list Z)
    (filament_maps : list Z) : bool :=
  let master := master_extruder_id cfg - 1 in
  match check_tpu_loop cfg filament_maps used_filaments (-1) ∅ with
  | None => false
  | Some (check_extruder_id, nums) =>
      negb (negb (check_extruder_id =? -1) &&
            (negb (check_extruder_id =? master) ||
             (1 <? length (default [] (nums !! check_extruder_id)))%nat))
  end.

(** Modelled from the spec: [collect_sorted_used_filaments] lives in
    GCode/ToolOrderUtils, which is missing; it gives the set of filament ids
    actually used across the whole job: the ids of all layers, sorted, without
    duplicates. *)
Definition collect_sorted_used_filaments (layer_filaments : list (list Z)) : list Z :=
  sort_remove_duplicates Z.leb Z.eqb (concat layer_filaments).

(** The capacities of lines 973-985: 16 per extruder unless AMS counts are
    configured; then the sum of slots-per-unit times units, and 1 where that
    sum is 0. *)
Definition ams_slots (ams_count : list (Z * Z)) : Z :=
  fold_left (fun acc kv => acc + fst kv * snd kv) ams_count 0.

Definition group_size (cfg : GroupConfig) : list Z :=
  match extruder_ams_counts cfg with
  | [] => [16; 16]
  | counts =>
      map (fun size => if size =? 0 then 1 else size)
        (map ams_slots counts ++ drop (length counts) [16; 16])
  end.

(** [FilamentGroupContext], as far as this file fills it. *)
Record FilamentGroupContext : Type := mkContext {
  physical_unprintables : list (gset Z);
  geometric_unprintables : list (gset Z);
  max_group_size : list Z;
  total_filament_num : nat;
  ctx_master_extruder_id : Z
}.

Section Grouping.
(** The grouping of a job without TPU (lines 1009-1038):
    [FilamentGroup::calc_filament_group], [optimize_group_for_master_extruder]
    and [select_best_group_for_ams] live in other files. *)
Variable optimized_filament_group :
  FilamentGroupContext -> list (list Z) -> list Z -> list Z.

(** The sequencing of the layers, [reorder_filaments_for_minimum_flush_volume],
    lives in another file: from the zero-based filament map, the layers'
    filaments and [reorder_first_layer] it gives the filament sequences. *)
Variable reorder_filaments_for_minimum_flush_volume :
  list Z -> list (list Z) -> bool -> list (list Z).

(** [ToolOrdering::get_recommended_filament_maps], called with a configuration. *)
Definition get_recommended_filament_maps (cfg : GroupConfig)
    (layer_filaments : list (list Z))
    (physical geometric : list (gset Z)) : list Z :=
  match layer_filaments with
  | [] => []
  | _ :: _ =>
      let filament_nums := filament_count cfg in
      if nozzle_count cfg =? 2
      then
        let context :=
          mkContext physical geometric (group_size cfg) filament_nums
            (master_extruder_id cfg - 1) in
        let used_filaments := collect_sorted_used_filaments layer_filaments in
        let tpu_filaments := get_tpu_filaments cfg used_filaments in
        if decide (tpu_filaments = ∅)
        then optimized_filament_group context layer_filaments used_filaments
        else
          map (fun fidx =>
                 if decide (fidx ∈ tpu_filaments)
                 then ctx_master_extruder_id context
                 else 1 - ctx_master_extruder_id context)
            (map Z.of_nat (seq 0 filament_nums))
      else replicate filament_nums 0
  end.

(** What the driver reads of the [Print]. *)
Record PrintState : Type := mkPrintState {
  filament_maps : list Z;                 (* one-based *)
  filament_map_mode : FilamentMapMode;
  object_count : nat;
  unprintable_filament_ids : list (list Z)
}.

(** [ToolOrdering::get_geometrical_unprintables]. *)
Definition get_geometrical_unprintables (cfg : GroupConfig)
    (unprintable_arrs : list (list Z)) : list (gset Z) :=
  let unprintables := replicate (Z.to_nat (nozzle_count cfg)) (∅ : gset Z) in
  if nozzle_count cfg <? 2 then unprintables
  else
    let sets := map (fun arr => list_to_set (map (fun item => item - 1) arr)) unprintable_arrs in
    sets ++ drop (length sets) unprintables.

(** The filament map [reorder_extruders_for_minimum_flush_volume] settles on
    (lines 1086-1149), zero-based; [None] is the plain [return] of line 1113. *)
Definition settle_filament_maps (cfg : GroupConfig) (print : PrintState)
    (layer_filaments : list (list Z)) (used_filaments : list Z)
    (physical geometric : list (gset Z)) : result (option (list Z)) :=
  if 1 <? nozzle_count cfg
  then
    match print_sequence cfg, (object_count print =? 1)%nat with
    | ByObject, false => Ok (Some (map (fun v => v - 1) (filament_maps print)))
    | _, _ =>
        let maps1 :=
          match filament_map_mode print with
          | fmmAuto =>
              match get_recommended_filament_maps cfg layer_filaments physical geometric with
              | [] => None
              | m => Some (map (fun v => v + 1) m)
              end
          | fmmManual => Some (filament_maps print)
          end in
        match maps1 with
        | None => Ok None
        | Some m1 =>
            let maps := map (fun v => v - 1) m1 in
            if check_tpu_group cfg used_filaments maps
            then Ok (Some maps)
            else
              match filament_map_mode print with
              | fmmManual =>
                  RuntimeError "Manual grouping error: TPU can only be placed in a nozzle alone."
              | fmmAuto =>
                  RuntimeError "Auto grouping error: TPU can only be placed in a nozzle alone."
              end
        end
    end
  else if nozzle_count cfg =? 1
  then
    let maps := filament_maps print in
    let maps' := if forallb (Z.eqb 1) maps then maps else map (fun _ => 1) maps in
    Ok (Some (map (fun v => v - 1) maps'))
  else Ok (Some (replicate (filament_count cfg) 0)).

(** [m_layer_tools[i].extruders = std::move(filament_sequences[i])] for every
    sequence. *)
Fixpoint assign_sequences (sequences : list (list Z)) (lts : list LayerTools)
  : list LayerTools :=
  match sequences, lts with
  | s :: sequences', lt :: lts' => set_extruders s lt :: assign_sequences sequences' lts'
  | _, _ => lts
  end.

(** [ToolOrdering::reorder_extruders_for_minimum_flush_volume]: the layers with
    their final filament sequences and the zero-based filament map, or the
    error thrown. The statistics it also fills are left out. *)
Definition reorder_extruders_for_minimum_flush_volume (cfg : option GroupConfig)
    (print : PrintState) (reorder_first_layer_flag : bool) (lts : list LayerTools)
  : result (list LayerTools) :=
  match cfg, lts with
  | Some cfg, _ :: _ =>
      let layer_filaments := map extruders lts in
      let used_filaments := collect_sorted_used_filaments layer_filaments in
      let geometric := get_geometrical_unprintables cfg (unprintable_filament_ids print) in
      match get_physical_unprintables cfg used_filaments with
      | RuntimeError msg => RuntimeError msg
      | Ok physical =>
          match settle_filament_maps cfg print layer_filaments used_filaments
                  physical geometric with
          | RuntimeError msg => RuntimeError msg
          | Ok None => Ok lts
          | Ok (Some maps) =>
              Ok (assign_sequences
                    (reorder_filaments_for_minimum_flush_volume maps layer_filaments
                       reorder_first_layer_flag) lts)
          end
      end
  | _, _ => Ok lts
  end.

End Grouping.

(** What [check_tpu_group] accepts, in the words of its comments: no TPU
    filament among the used ones, or exactly one, mapped to the master
    extruder, with no other used filament mapped to that extruder. *)
Definition tpu_alone_on_master (cfg : GroupConfig) (used_filaments filament_maps : list Z)
  : Prop :=
  match List.filter (is_tpu cfg) used_filaments with
  | [] => True
  | [t] =>
      map_at filament_maps t = master_extruder_id cfg - 1 /\
      List.filter (fun f => map_at filament_maps f =? map_at filament_maps t) used_filaments = [t]
  | _ :: _ :: _ => False
  end.

Definition is_error {A : Type} (r : result A) : bool :=
  match r with
  | Ok _ => false
  | RuntimeError _ => true
  end.

(** The number of used filaments a zero-based map puts on extruder [e]. *)
Definition assigned_count (filament_maps used_filaments : list Z) (e : Z) : nat :=
  length (List.filter (fun f => map_at filament_maps f =? e) used_filaments).



(** Sample jobs for the grouping: filament 0 is TPU, or filaments 0 and 1 are,
    the others PLA; the grouping and sequencing of the other files are stood
    in for by a constant map and by the identity. *)
Definition sample_types_one_tpu (f : Z) : string := if f =? 0 then "TPU" else "PLA".
Definition sample_types_two_tpu (f : Z) : string := if f <? 2 then "TPU" else "PLA".

Definition sample_group_config (types : Z -> string) (nozzles : Z) (seq : PrintSequence)
    (ams : list (list (Z * Z))) : GroupConfig :=
  mkGroupConfig 1 types nozzles 3 (fun _ => 60) (fun _ => 0) ams seq.

Definition sample_print (maps : list Z) (mode : FilamentMapMode) (objects : nat)
  : PrintState :=
  mkPrintState maps mode objects [].

Definition sample_group (_ : FilamentGroupContext) (_ : list (list Z)) (_ : list Z)
  : list Z := [0; 0; 0].

Definition sample_sequencer (_ : list Z) (layer_filaments : list (list Z)) (_ : bool)
  : list (list Z) := layer_filaments.

Definition sample_layers : list LayerTools :=
  [set_extruders [0; 1; 2] (new_LayerTools (1 # 5))].

(** ** [ToolOrdering::assign_custom_gcodes] *)

(** The modes of lines 1299-1308. *)
Definition print_mode (num_filaments : Z) (object_extruders_size : nat) : CustomGCodeMode :=
  if num_filaments =? 1 then SingleExtruder
  else if (object_extruders_size =? 1)%nat then MultiAsSingle
  else MultiExtruder.

Definition is_multi_extruder (m : CustomGCodeMode) : bool :=
  match m with
  | MultiExtruder => true
  | _ => false
  end.

Definition is_single_extruder (m : CustomGCodeMode) : bool :=
  match m with
  | SingleExtruder => true
  | _ => false
  end.

Definition is_color_change (t : CustomGCodeType) : bool :=
  match t with
  | ColorChange => true
  | _ => false
  end.

Definition is_tool_change (t : CustomGCodeType) : bool :=
  match t with
  | ToolChange => true
  | _ => false
  end.

(** The lambda [apply_custom_gcode_to_layer]. [extruder_printing_above] is the
    [std::vector<unsigned char>] of the chosen layer. *)
Definition apply_custom_gcode_to_layer (mode model_mode : CustomGCodeMode)
    (num_filaments : Z) (lt : LayerTools) (extruder_printing_above : list bool)
    (item : CustomGCodeItem) : LayerTools :=
  let ignore_tool_and_color_changes :=
    negb (Bool.eqb (is_multi_extruder mode) (is_multi_extruder model_mode)) in
  let tool_changes_as_color_changes :=
    is_single_extruder mode
    && match model_mode with MultiAsSingle => true | _ => false end in
  let color_change := is_color_change (item_type item) in
  let tool_change := is_tool_change (item_type item) in
  let pause_or_custom_gcode := negb color_change && negb tool_change in
  let apply_color_change :=
    negb ignore_tool_and_color_changes &&
    (if color_change
     then is_single_extruder mode
          || ((item_extruder item <=? num_filaments)
              && nth (Z.to_nat ((item_extruder item - 1) mod 2 ^ 32))
                   extruder_printing_above false)
     else tool_change && tool_changes_as_color_changes) in
  if pause_or_custom_gcode || apply_color_change
  then set_custom_gcode (Some item) lt
  else lt.

(** [extruder_printing_above[i] = true] for the extruders of a layer. *)
Definition mark_printing (es : list Z) (above : list bool) : list bool :=
  fold_left (fun acc i => <[Z.to_nat i := true]> acc) es above.

(** [extruder_print_above_by_layer]: for every layer index the extruders
    printing on that layer or on a layer above it; the source fills it from
    the top layer down. *)
Fixpoint extruder_print_above_by_layer (num_filaments : Z) (lts : list LayerTools)
  : list (list bool) :=
  match lts with
  | [] => []
  | lt :: rest =>
      let above_rest := extruder_print_above_by_layer num_filaments rest in
      mark_printing (extruders lt)
        (match above_rest with
         | [] => replicate (Z.to_nat num_filaments) false
         | above :: _ => above
         end)
      :: above_rest
  end.

(** [std::upper_bound] over the layers, sorted by [print_z]: the index of the
    first layer with [z < lt.print_z]. *)
Fixpoint upper_bound (z : Q) (lts : list LayerTools) : nat :=
  match lts with
  | [] => 0
  | lt :: rest => if Qlt_le_dec z (print_z lt) then 0 else S (upper_bound z rest)
  end.

(** The layer an event at height [z] goes to (lines 1348-1366). *)
Definition target_layer (z : Q) (lts : list LayerTools) : nat :=
  let upper_layer_idx := upper_bound z lts in
  if (upper_layer_idx =? 0)%nat then 0%nat
  else if (upper_layer_idx =? length lts)%nat then (upper_layer_idx - 1)%nat
  else
    let lower_layer_idx := (upper_layer_idx - 1)%nat in
    match lts !! lower_layer_idx, lts !! upper_layer_idx with
    | Some lower, Some upper =>
        let gap_to_lower := Qabs (z - print_z lower) in
        let gap_to_upper := Qabs (z - print_z upper) in
        if Qlt_le_dec gap_to_lower gap_to_upper then lower_layer_idx else upper_layer_idx
    | _, _ => upper_layer_idx
    end.

(** One turn of the loop over the events. *)
Definition assign_custom_gcode (mode model_mode : CustomGCodeMode) (num_filaments : Z)
    (above : list (list bool)) (item : CustomGCodeItem) (lts : list LayerTools)
  : list LayerTools :=
  if is_tool_change (item_type item) then lts
  else
    let k := target_layer (item_print_z item) lts in
    match lts !! k with
    | Some lt =>
        <[k := apply_custom_gcode_to_layer mode model_mode num_filaments lt
                 (default [] (above !! k)) item]> lts
    | None => lts
    end.

(** [ToolOrdering::assign_custom_gcodes]: the events are visited from the last
    to the first. *)
Definition assign_custom_gcodes (num_filaments : Z) (object_extruders_size : nat)
    (model_mode : CustomGCodeMode) (gcodes : list CustomGCodeItem)
    (lts : list LayerTools) : list LayerTools :=
  let mode := print_mode num_filaments object_extruders_size in
  let above := extruder_print_above_by_layer num_filaments lts in
  fold_left (fun acc item => assign_custom_gcode mode model_mode num_filaments above item acc)
    (rev gcodes) lts.

(** The zero-based extruder [e] prints on layer [k] or on a layer above it. *)
Definition prints_at_or_above (lts : list LayerTools) (k : nat) (e : Z) : Prop :=
  exists j lt, (k <= j)%nat /\ lts !! j = Some lt /\ In e (extruders lt).

(** The layers are in strictly increasing order of [print_z]. *)
Definition increasing_z (lts : list LayerTools) : Prop := StronglySorted below_z lts.

(** Whether an event is attached to the layer it goes to: pauses and custom
    g-code always; a color change unless the modes disagree, and then on a
    single-extruder print always, otherwise only if its extruder exists and
    still prints there or above; tool changes never reach this point. *)
Definition event_attaches (mode model_mode : CustomGCodeMode) (num_filaments : Z)
    (lts : list LayerTools) (k : nat) (item : CustomGCodeItem) : Prop :=
  match item_type item with
  | ColorChange =>
      is_multi_extruder mode = is_multi_extruder model_mode /\
      (mode = SingleExtruder \/
       (item_extruder item <= num_filaments /\
        prints_at_or_above lts k (item_extruder item - 1)))
  | ToolChange => False
  | _ => True
  end.

(** ** [ToolOrdering::mark_skirt_layers] *)

(** [for (; j < size && !m_layer_tools[j].has_object; ++j);] over the layers
    from index [j] on. *)
Fixpoint next_object_layer (j : nat) (from_j : list LayerTools) : nat :=
  match from_j with
  | [] => j
  | lt :: rest => if has_object lt then j else next_object_layer (S j) rest
  end.

(** [while (m_layer_tools[k].extruders.empty()) --k;]. [None] when the loop
    would step below index 0. *)
Fixpoint skip_empty_down (lts : list LayerTools) (k : nat) : option nat :=
  match lts !! k with
  | None => None
  | Some lt =>
      match extruders lt with
      | _ :: _ => Some k
      | [] =>
          match k with
          | O => None
          | S k' => skip_empty_down lts k'
          end
      end
  end.

Section MarkSkirtLayers.
Variables (EPSILON max_layer_height : Q).

(** The loop [for (k = i + 1; k < j; ++k)] marking intermediate layers, from
    its current [k] and [last_z]. The loop runs on [fuel]; [None] stands for
    an exhausted [fuel] or an access outside the vector. *)
Fixpoint mark_intermediate (fuel : nat) (lts : list LayerTools) (j k : nat) (last_z : Q)
  : option (list LayerTools) :=
  match fuel with
  | O => None
  | S fuel' =>
      if (k <? j)%nat
      then
        match lts !! S k with
        | None => None
        | Some next =>
            if Qlt_le_dec (max_layer_height + EPSILON) (print_z next - last_z)
            then
              match skip_empty_down lts k with
              | None => None
              | Some k' =>
                  match lts !! k' with
                  | None => None
                  | Some lt =>
                      if has_skirt lt then Some lts
                      else mark_intermediate fuel' (<[k' := set_has_skirt true lt]> lts)
                             j (S k') (print_z lt)
                  end
              end
            else mark_intermediate fuel' lts j (S k) last_z
        end
      else Some lts
  end.

(** The outer [for (;;)] from its current [i]. *)
Fixpoint mark_from (fuel : nat) (lts : list LayerTools) (i : nat)
  : option (list LayerTools) :=
  match fuel with
  | O => None
  | S fuel' =>
      match lts !! i with
      | None => None
      | Some lt =>
          let lts1 := <[i := set_has_skirt true lt]> lts in
          let j := next_object_layer (S i) (drop (S i) lts1) in
          if (j =? length lts1)%nat then Some lts1
          else
            match mark_intermediate (S (length lts) * S (length lts)) lts1 j (S i) (print_z lt) with
            | None => None
            | Some lts2 => mark_from fuel' lts2 j
            end
      end
  end.

(** [ToolOrdering::mark_skirt_layers]. *)
Definition mark_skirt_layers (lts : list LayerTools) : option (list LayerTools) :=
  match lts with
  | [] => Some lts
  | lt0 :: _ =>
      match extruders lt0 with
      | [] => Some lts
      | _ :: _ => mark_from (S (length lts)) lts 0
      end
  end.

End MarkSkirtLayers.

(** A layer after skirt marking: unchanged, or newly marked, and then it has
    extruders or object extrusions. *)
Definition skirt_added (a b : LayerTools) : Prop :=
  b = a \/
  (b = set_has_skirt true a /\ (extruders a <> [] \/ has_object a = true)).


(** The number of layers not yet marked for the skirt. *)
Definition unmarked (lts : list LayerTools) : nat :=
  length (List.filter (fun lt => negb (has_skirt lt)) lts).

(** The first layer prints something. *)
Definition first_layer_prints (lts : list LayerTools) : Prop :=
  exists lt0, lts !! 0%nat = Some lt0 /\ extruders lt0 <> [].

(** ** [WipingExtrusions] *)

(** Modelled from the spec: [WipingExtrusions] is declared in ToolOrdering.hpp,
    which is missing; the per-layer side table mapping an extrusion entity and
    its object to a per-copy extruder override list, with the tables of the
    support overrides and the two flags the code sets. Extrusion entities and
    print objects are identified by integers standing for their addresses;
    [ExtruderPerCopy] is a vector of [int]. *)
Record WipingExtrusions : Type := mkWiping {
  entity_map : gmap (Z * Z) (list Z);
  support_map : gmap Z Z;
  support_intf_map : gmap Z Z;
  something_overridden : bool;
  something_overridable : bool
}.

Definition empty_wiping : WipingExtrusions := mkWiping ∅ ∅ ∅ false false.

(** [v.resize(n, x)]. *)
Definition resize (n : nat) (x : Z) (v : list Z) : list Z :=
  take n v ++ replicate (n - length v) x.

(** [WipingExtrusions::set_extruder_override]. *)
Definition set_extruder_override (entity object : Z) (copy_id : nat) (extruder : Z)
    (num_of_copies : nat) (w : WipingExtrusions) : WipingExtrusions :=
  let copies_vector :=
    resize num_of_copies (-1) (default [] (entity_map w !! (entity, object))) in
  mkWiping (<[(entity, object) := <[copy_id := extruder]> copies_vector]> (entity_map w))
    (support_map w) (support_intf_map w) true (something_overridable w).









(** ** [WipingExtrusions::mark_wiping_extrusions] *)

(** Modelled from the spec: [ExtrusionRole] is declared in ExtrusionEntity.h,
    which is missing; the kinds of extrusion (perimeters, infills, support
    body and interface, ...) under the names the code uses. *)
Inductive ExtrusionRole : Type :=
| erNone | erPerimeter | erExternalPerimeter | erOverhangPerimeter
| erInternalInfill | erSolidInfill | erTopSolidInfill | erBottomSurface
| erIroning | erBridgeInfill | erGapFill | erSkirt | erBrim
| erSupportMaterial | erSupportMaterialInterface | erSupportTransition
| erWipeTower | erCustom | erMixed.

Definition role_eqb (a b : ExtrusionRole) : bool :=
  match a, b with
  | erNone, erNone | erPerimeter, erPerimeter
  | erExternalPerimeter, erExternalPerimeter
  | erOverhangPerimeter, erOverhangPerimeter
  | erInternalInfill, erInternalInfill | erSolidInfill, erSolidInfill
  | erTopSolidInfill, erTopSolidInfill | erBottomSurface, erBottomSurface
  | erIroning, erIroning | erBridgeInfill, erBridgeInfill
  | erGapFill, erGapFill | erSkirt, erSkirt | erBrim, erBrim
  | erSupportMaterial, erSupportMaterial
  | erSupportMaterialInterface, erSupportMaterialInterface
  | erSupportTransition, erSupportTransition
  | erWipeTower, erWipeTower | erCustom, erCustom | erMixed, erMixed => true
  | _, _ => false
  end.

(** An [ExtrusionEntityCollection]: its identity, [role()], the role of
    [entities.front()], and [total_volume()]. *)
Record ExtrusionEntityCollection : Type := mkEEC {
  eec_id : Z;
  eec_role : ExtrusionRole;
  eec_front_role : ExtrusionRole;
  eec_total_volume : Q
}.

(** The filaments of a [PrintRegion]'s configuration, one-based. *)
Record PrintRegionConfig : Type := mkRegionConfig {
  wall_filament : Z;
  sparse_infill_filament : Z;
  solid_infill_filament : Z
}.

Record LayerRegion : Type := mkLayerRegion {
  region : PrintRegionConfig;
  fills : list ExtrusionEntityCollection;
  perimeters : list ExtrusionEntityCollection
}.

(** An entity of [support_fills]: [role()] and [total_volume()]. *)
Record SupportEntity : Type := mkSupportEntity {
  support_role : ExtrusionRole;
  support_volume : Q
}.

(** A [PrintObject] as the wiping pass of one layer sees it. [this_layer] and
    [this_support_layer] are what [get_layer_at_printz] and
    [get_support_layer_at_printz] return for the layer's [print_z]. *)
Record PrintObject : Type := mkPrintObject {
  object_id : Z;
  flush_into_objects : bool;
  flush_into_infill : bool;
  flush_into_support : bool;
  support_filament : Z;
  support_interface_filament : Z;
  support_interface_not_for_body : bool;
  instances : nat;
  this_layer : option (list LayerRegion);
  this_support_layer : option (list SupportEntity)
}.

Record WipeConfig : Type := mkWipeConfig {
  wipe_filament_soluble : Z -> bool;      (* filament_soluble.get_at *)
  wipe_filament_is_support : Z -> bool;   (* filament_is_support.get_at *)
  is_infill_first : bool
}.

(** [a < b] on heights and volumes. *)
Definition Qltb (a b : Q) : bool := if Qlt_le_dec a b then true else false.

(** [LayerTools::is_extruder_order]. *)
Fixpoint extruder_order_scan (a b : Z) (es : list Z) : bool :=
  match es with
  | [] => false
  | e :: rest =>
      if e =? a then true
      else if e =? b then false
      else extruder_order_scan a b rest
  end.

Definition is_extruder_order (lt : LayerTools) (a b : Z) : bool :=
  if a =? b then false else extruder_order_scan a b (extruders lt).

(** [LayerTools::wall_filament], an [unsigned int]. *)
Definition layer_wall_filament (lt : LayerTools) (r : PrintRegionConfig) : Z :=
  ((if extruder_override lt =? 0 then wall_filament r else extruder_override lt) - 1)
    mod 2 ^ 32.

Section MarkWipingExtrusions.
(** [is_infill] and [is_solid_infill] of ExtrusionEntity.h, taken as given. *)
Variables (is_infill is_solid_infill : ExtrusionRole -> bool).

(** [LayerTools::extruder]. *)
Definition layer_extruder (lt : LayerTools) (eec : ExtrusionEntityCollection)
    (r : PrintRegionConfig) : Z :=
  let extruder :=
    if extruder_override lt =? 0
    then
      if is_infill (eec_role eec)
      then if is_solid_infill (eec_front_role eec)
           then solid_infill_filament r else sparse_infill_filament r
      else wall_filament r
    else extruder_override lt in
  if extruder =? 0 then 0 else extruder - 1.

(** [WipingExtrusions::is_overriddable]. *)
Definition is_overriddable (lt : LayerTools) (cfg : WipeConfig)
    (eec : ExtrusionEntityCollection) (object : PrintObject) (r : PrintRegionConfig) : bool :=
  if wipe_filament_soluble cfg (layer_extruder lt eec r) then false
  else if flush_into_objects object then true
  else if negb (flush_into_infill object) || negb (role_eqb (eec_role eec) erInternalInfill)
  then false
  else true.

(** Modelled from the spec: [is_entity_overridden], [is_support_overridden]
    and [is_support_interface_overridden] are declared in ToolOrdering.hpp,
    which is missing; an entry of the side table that is not the
    "not yet assigned" sentinel -1 counts as overridden, and so does an object
    with an entry in the support tables. *)
Definition is_entity_overridden (w : WipingExtrusions) (entity object : Z) (copy_id : nat)
  : bool :=
  match entity_map w !! (entity, object) with
  | None => false
  | Some v => negb (nth copy_id v (-1) =? -1)
  end.

Definition is_support_overridden (w : WipingExtrusions) (object : Z) : bool :=
  bool_decide (is_Some (support_map w !! object)).

Definition is_support_interface_overridden (w : WipingExtrusions) (object : Z) : bool :=
  bool_decide (is_Some (support_intf_map w !! object)).

(** [set_support_extruder_override] and
    [set_support_interface_extruder_override]: [emplace] keeps an entry that
    exists. *)
Definition set_support_extruder_override (object extruder : Z) (w : WipingExtrusions)
  : WipingExtrusions :=
  mkWiping (entity_map w)
    (match support_map w !! object with
     | Some _ => support_map w
     | None => <[object := extruder]> (support_map w)
     end)
    (support_intf_map w) true (something_overridable w).

Definition set_support_interface_extruder_override (object extruder : Z)
    (w : WipingExtrusions) : WipingExtrusions :=
  mkWiping (entity_map w) (support_map w)
    (match support_intf_map w !! object with
     | Some _ => support_intf_map w
     | None => <[object := extruder]> (support_intf_map w)
     end)
    true (something_overridable w).

(** The state of a run: the side table, what is left of [volume_to_wipe], and
    a record, kept for the statement of the contract only, of the volumes the
    run has subtracted from [volume_to_wipe], in order. *)
Record WipeState : Type := mkWipeState {
  wiping : WipingExtrusions;
  volume_to_wipe : Q;
  absorbed : list Q
}.

(** A loop body goes on, or leaves the function by [return 0.f]. *)
Inductive flow : Type :=
| Continue (s : WipeState)
| Return0 (s : WipeState).

Fixpoint for_each {A : Type} (body : A -> WipeState -> flow) (l : list A) (s : WipeState)
  : flow :=
  match l with
  | [] => Continue s
  | x :: rest =>
      match body x s with
      | Continue s' => for_each body rest s'
      | Return0 s' => Return0 s'
      end
  end.

Definition and_then (f : flow) (k : WipeState -> flow) : flow :=
  match f with
  | Continue s => k s
  | Return0 s => Return0 s
  end.

(** [volume_to_wipe -= volume]. *)
Definition subtract_volume (volume : Q) (s : WipeState) : WipeState :=
  mkWipeState (wiping s) (volume_to_wipe s - volume)%Q (absorbed s ++ [volume]).

(** [if (volume_to_wipe <= 0.f) return 0.f;]. *)
Definition check_done (s : WipeState) : flow :=
  if Qlt_le_dec 0 (volume_to_wipe s) then Continue s else Return0 s.

(** "This infill will be used to wipe this extruder" (lines 1543-1546 and
    1557-1560). *)
Definition wipe_into (fill : ExtrusionEntityCollection) (object : PrintObject) (copy : nat)
    (new_extruder : Z) (s : WipeState) : flow :=
  check_done
    (subtract_volume (eec_total_volume fill)
       (mkWipeState
          (set_extruder_override (eec_id fill) (object_id object) copy new_extruder
             (instances object) (wiping s))
          (volume_to_wipe s) (absorbed s))).

Section OneToolChange.
Variables (lt : LayerTools) (cfg : WipeConfig) (old_extruder new_extruder : Z).

(** The loop over the infills of a region (lines 1529-1548). *)
Definition wipe_into_fill (object : PrintObject) (copy : nat) (r : PrintRegionConfig)
    (fill : ExtrusionEntityCollection) (s : WipeState) : flow :=
  let wipe_into_infill_only := negb (flush_into_objects object) && flush_into_infill object in
  if negb (is_overriddable lt cfg fill object r) then Continue s
  else if wipe_into_infill_only && negb (is_infill_first cfg)
          && negb (is_extruder_order lt (layer_wall_filament lt r) new_extruder)
  then Continue s
  else if negb (is_entity_overridden (wiping s) (eec_id fill) (object_id object) copy)
          && Qltb 0 (eec_total_volume fill)
  then wipe_into fill object copy new_extruder s
  else Continue s.

(** The loop over the perimeters of a region (lines 1554-1562). *)
Definition wipe_into_perimeter (object : PrintObject) (copy : nat) (r : PrintRegionConfig)
    (fill : ExtrusionEntityCollection) (s : WipeState) : flow :=
  if is_overriddable lt cfg fill object r
     && negb (is_entity_overridden (wiping s) (eec_id fill) (object_id object) copy)
     && Qltb 0 (eec_total_volume fill)
  then wipe_into fill object copy new_extruder s
  else Continue s.

(** The body of the loop over the regions (lines 1521-1564). *)
Definition wipe_into_region (perimeters_done : bool) (object : PrintObject) (copy : nat)
    (layerm : LayerRegion) (s : WipeState) : flow :=
  if negb (flush_into_infill object) && negb (flush_into_objects object)
     && negb (flush_into_support object)
  then Continue s
  else
    let wipe_into_infill_only := negb (flush_into_objects object) && flush_into_infill object in
    and_then
      (if negb (Bool.eqb (is_infill_first cfg) perimeters_done) || wipe_into_infill_only
       then for_each (wipe_into_fill object copy (region layerm)) (fills layerm) s
       else Continue s)
      (fun s1 =>
         if flush_into_objects object && Bool.eqb (is_infill_first cfg) perimeters_done
         then for_each (wipe_into_perimeter object copy (region layerm)) (perimeters layerm) s1
         else Continue s1).

(** The loops over the support entities (lines 1583-1589 and 1594-1600). *)
Definition wipe_into_support_entity (counts : ExtrusionRole -> bool) (ee : SupportEntity)
    (s : WipeState) : flow :=
  check_done (if counts (support_role ee) then subtract_volume (support_volume ee) s else s).

(** The support block (lines 1567-1603). *)
Definition wipe_into_support (object : PrintObject) (s : WipeState) : flow :=
  if flush_into_support object
  then
    match this_support_layer object with
    | None => Continue s
    | Some entities =>
        let support_overriddable := support_filament object =? 0 in
        let support_intf_overriddable := support_interface_filament object =? 0 in
        if negb support_overriddable && negb support_intf_overriddable then Continue s
        else
          and_then
            (if support_overriddable
                && negb (is_support_overridden (wiping s) (object_id object))
                && negb (support_interface_not_for_body object
                         && negb support_intf_overriddable
                         && ((new_extruder =? support_interface_filament object - 1)
                             || (old_extruder =? support_interface_filament object - 1)))
             then
               for_each
                 (wipe_into_support_entity
                    (fun r => role_eqb r erSupportMaterial || role_eqb r erSupportTransition))
                 entities
                 (mkWipeState
                    (set_support_extruder_override (object_id object) new_extruder (wiping s))
                    (volume_to_wipe s) (absorbed s))
             else Continue s)
            (fun s1 =>
               if support_intf_overriddable
                  && negb (is_support_interface_overridden (wiping s1) (object_id object))
               then
                 for_each
                   (wipe_into_support_entity (fun r => role_eqb r erSupportMaterialInterface))
                   entities
                   (mkWipeState
                      (set_support_interface_extruder_override (object_id object)
                         new_extruder (wiping s1))
                      (volume_to_wipe s1) (absorbed s1))
               else Continue s1)
    end
  else Continue s.

(** The body of the loop over the objects, for one object (lines 1510-1604). *)
Definition wipe_into_object (perimeters_done : bool) (object : PrintObject) (s : WipeState)
  : flow :=
  match this_layer object with
  | None => Continue s
  | Some regions =>
      for_each
        (fun copy s0 =>
           and_then (for_each (wipe_into_region perimeters_done object copy) regions s0)
             (wipe_into_support object))
        (seq 0 (instances object)) s
  end.

(** The comparison of line 1487: objects dedicated to wiping first, then by
    id. *)
Definition object_before (a b : PrintObject) : bool :=
  if negb (Bool.eqb (flush_into_objects a) (flush_into_objects b))
  then flush_into_objects a
  else object_id a <? object_id b.

Definition sorted_objects (objects : list PrintObject) : list PrintObject :=
  sort_list (fun a b => negb (object_before b a)) objects.

(** The objects the first pass visits: the loop restarts, with
    [perimeters_done] set, at the first object that is not dedicated to
    wiping, or at the end of the list. *)
Fixpoint dedicated_prefix (objects : list PrintObject) : list PrintObject :=
  match objects with
  | [] => []
  | o :: rest => if flush_into_objects o then o :: dedicated_prefix rest else []
  end.

(** [std::max(0.f, volume_to_wipe)]. *)
Definition max_zero (v : Q) : Q := if Qlt_le_dec 0 v then v else 0%Q.

(** [WipingExtrusions::mark_wiping_extrusions]: the returned volume and the
    final state. *)
Definition mark_wiping_extrusions (objects : list PrintObject) (w : WipingExtrusions)
    (volume : Q) : Q * WipeState :=
  let start := mkWipeState w volume [] in
  if negb (something_overridable w)
     || negb (Qltb 0 volume)
     || wipe_filament_soluble cfg old_extruder
     || wipe_filament_soluble cfg new_extruder
  then (max_zero volume, start)
  else if wipe_filament_is_support cfg old_extruder
          || wipe_filament_is_support cfg new_extruder
  then (max_zero volume, start)
  else
    let object_list := sorted_objects objects in
    match
      and_then (for_each (wipe_into_object false) (dedicated_prefix object_list) start)
        (for_each (wipe_into_object true) object_list)
    with
    | Return0 s => (0%Q, s)
    | Continue s => (volume_to_wipe s, s)
    end.

End OneToolChange.
End MarkWipingExtrusions.




(** One-based filament ids up to [n]. *)
Definition one_based (n : Z) (es : list Z) : Prop := Forall (fun e => 1 <= e <= n) es.

(** What [check_tpu_loop] holds after the used filaments [pre]: the filaments
    of every extruder, and the extruder of the one TPU filament seen. *)
Definition loop_summary (cfg : GroupConfig) (maps pre : list Z) (c : Z)
    (nums : gmap Z (list Z)) : Prop :=
  (forall e, default [] (nums !! e) = List.filter (fun f => map_at maps f =? e) pre) /\
  match List.filter (is_tpu cfg) pre with
  | [] => c = -1
  | [t] => c = map_at maps t
  | _ :: _ :: _ => False
  end.


(** ** [ToolOrdering::fill_wipe_tower_partitions]: the wipe tower layers *)

(** [for (; j < size && !p(m_layer_tools[j]); ++j);] over the layers from
    index [j] on: the first index whose layer satisfies [p], or the size. *)
Fixpoint first_layer_from (p : LayerTools -> bool) (j : nat) (from_j : list LayerTools)
  : nat :=
  match from_j with
  | [] => j
  | lt :: rest => if p lt then j else first_layer_from p (S j) rest
  end.

Section FillWipeTowerPartitions.
Variables (EPSILON : Q) (timelapse_smooth : bool).
Variables (object_bottom_z max_layer_height : Q).

(** "This is a hack to get the ball rolling" (lines 769-771). *)
Definition mark_wipe_tower_layers (lts : list LayerTools) : list LayerTools :=
  map (fun lt =>
         set_has_wipe_tower
           (has_object lt && (timelapse_smooth || (0 <? wipe_tower_partitions lt))
            || Qltb (print_z lt) (object_bottom_z + EPSILON)) lt) lts.

(** The layer inserted into the raft separation gap (lines 787-803), for the
    last raft layer [lt] at index [i]. A read past the end of the vector
    leaves the layers as they are. *)
Definition fill_raft_gap (i : nat) (lt : LayerTools) (lts : list LayerTools)
  : list LayerTools :=
  let j := first_layer_from has_wipe_tower (S i) (drop (S i) lts) in
  match lts !! j with
  | None => lts
  | Some lt_object =>
      let gap := (print_z lt_object - print_z lt)%Q in
      if Qltb (max_layer_height + EPSILON) gap
      then
        let z_new := ((1 # 2) * (print_z lt + print_z lt_object))%Q in
        let j' :=
          first_layer_from (fun l => negb (Qltb (print_z l) (z_new - EPSILON)))
            (S i) (drop (S i) lts) in
        match lts !! j' with
        | None => lts
        | Some lt_next =>
            if Qltb (Qabs (print_z lt_next - z_new)) EPSILON
            then <[j' := set_has_wipe_tower true lt_next]> lts
            else
              let lt_extra :=
                set_wipe_tower_partitions (wipe_tower_partitions lt_next)
                  (set_extruders [front (extruders lt_next)]
                     (set_has_wipe_tower true (new_LayerTools z_new))) in
              take j' lts ++ lt_extra :: drop j' lts
        end
      else lts
  end.

(** "Test for a raft" (lines 774-809): the first pair of neighbours around
    [object_bottom_z] is treated and the loop left. [i] is the index of the
    head of [from_i]. *)
Fixpoint insert_raft_layer (lts : list LayerTools) (i : nat) (from_i : list LayerTools)
  : list LayerTools :=
  match from_i with
  | lt :: ((lt_next :: _) as rest) =>
      if Qltb (print_z lt) (object_bottom_z + EPSILON)
         && negb (Qltb (print_z lt_next) (object_bottom_z + EPSILON))
      then fill_raft_gap i lt lts
      else insert_raft_layer lts (S i) rest
  | _ => lts
  end.

(** The [while (++j < size - 1 && !m_layer_tools[j].has_wipe_tower)] loop of
    lines 826-830 over the indices [js] still to come. *)
Fixpoint limit_wipe_tower_gap (js : list nat) (lts : list LayerTools) (last_z : Q)
  : list LayerTools :=
  match js with
  | [] => lts
  | j :: js' =>
      match lts !! j, lts !! S j with
      | Some lt, Some above =>
          if has_wipe_tower lt then lts
          else if Qltb (max_layer_height + EPSILON) (print_z above - last_z)
          then limit_wipe_tower_gap js' (<[j := set_has_wipe_tower true lt]> lts) (print_z lt)
          else limit_wipe_tower_gap js' lts last_z
      | _, _ => lts
      end
  end.

(** The loop of lines 816-831 over the indices [todo] still to come. *)
Fixpoint mark_missed_wipe_tower_layers (todo : list nat) (lts : list LayerTools)
  : list LayerTools :=
  match todo with
  | [] => lts
  | i :: todo' =>
      match lts !! i, lts !! S i with
      | Some lt, Some lt_next =>
          match extruders lt, extruders lt_next with
          | [], _ | _, [] => lts
          | _ :: _, _ :: _ =>
              let lts1 :=
                if negb (has_wipe_tower lt_next)
                   && (negb (front (extruders lt_next) =? back (extruders lt))
                       || (1 <? length (extruders lt_next))%nat)
                then <[S i := set_has_wipe_tower true lt_next]> lts
                else lts in
              mark_missed_wipe_tower_layers todo'
                (limit_wipe_tower_gap
                   (seq (S (S i)) (length lts - 1 - S (S i))) lts1 (print_z lt_next))
          end
      | _, _ => lts
      end
  end.

(** "Calculate the wipe_tower_layer_height values" (lines 834-839). *)
Fixpoint set_wipe_tower_layer_heights (wipe_tower_print_z_last : Q) (lts : list LayerTools)
  : list LayerTools :=
  match lts with
  | [] => []
  | lt :: rest =>
      if has_wipe_tower lt
      then set_wipe_tower_layer_height (print_z lt - wipe_tower_print_z_last) lt
             :: set_wipe_tower_layer_heights (print_z lt) rest
      else lt :: set_wipe_tower_layer_heights wipe_tower_print_z_last rest
  end.

(** [ToolOrdering::fill_wipe_tower_partitions]. *)
Definition fill_wipe_tower_partitions (lts : list LayerTools) : list LayerTools :=
  let lts1 := mark_wipe_tower_layers (fill_partitions lts) in
  let lts2 := insert_raft_layer lts1 0 lts1 in
  let lts3 := mark_missed_wipe_tower_layers (seq 0 (length lts2 - 1)) lts2 in
  set_wipe_tower_layer_heights 0 lts3.

End FillWipeTowerPartitions.



(** * The rest of the file: helpers, statistics and look-ups *)

(** ** [WipingExtrusions]: the non-soluble extruders of the layer *)

(** The test of [first_nonsoluble_extruder_on_layer] and
    [last_nonsoluble_extruder_on_layer]: neither [filament_soluble] nor
    [filament_is_support]. *)
Definition is_nonsoluble (cfg : WipeConfig) (e : Z) : bool :=
  negb (wipe_filament_soluble cfg e) && negb (wipe_filament_is_support cfg e).

(** An [unsigned int] converted to [int], and an [int] converted to
    [unsigned int]. *)
Definition as_int (u : Z) : Z := if u <? 2 ^ 31 then u else u - 2 ^ 32.

Definition as_unsigned (i : Z) : Z := i mod 2 ^ 32.

(** [WipingExtrusions::first_nonsoluble_extruder_on_layer]; the extruder, an
    [unsigned int], is returned as an [int]. *)
Definition first_nonsoluble_extruder_on_layer (cfg : WipeConfig) (lt : LayerTools) : Z :=
  match List.find (is_nonsoluble cfg) (extruders lt) with
  | Some e => as_int e
  | None => -1
  end.

(** [WipingExtrusions::last_nonsoluble_extruder_on_layer], over [rbegin()] to
    [rend()]. *)
Definition last_nonsoluble_extruder_on_layer (cfg : WipeConfig) (lt : LayerTools) : Z :=
  match List.find (is_nonsoluble cfg) (rev (extruders lt)) with
  | Some e => as_int e
  | None => -1
  end.

(** ** [WipingExtrusions]: the support overrides *)

(** [WipingExtrusions::get_support_extruder_overrides] and
    [get_support_interface_extruder_overrides]: the stored extruder, or -1. *)
Definition get_support_extruder_overrides (w : WipingExtrusions) (object : Z) : Z :=
  match support_map w !! object with
  | Some e => e
  | None => -1
  end.

Definition get_support_interface_extruder_overrides (w : WipingExtrusions) (object : Z) : Z :=
  match support_intf_map w !! object with
  | Some e => e
  | None => -1
  end.

(** ** Frames *)

(** Of a layer only the extruders have changed. *)
Definition only_extruders_changed (a b : LayerTools) : Prop :=
  b = set_extruders (extruders b) a.

(** The spec of the first layer's order in
    [reorder_extruders(std::vector<unsigned int>)]: the extruders the tool
    order names, in its order, then the other extruders of the layer that are
    not 0, in theirs. *)
Definition named_first (tool_order es : list Z) : list Z :=
  List.filter (fun t => existsb (Z.eqb t) es) tool_order
  ++ List.filter (fun e => negb (e =? 0) && negb (existsb (Z.eqb e) tool_order)) es.

(** An entry of [layer0_extruders] is overwritten by [(unsigned int)-1] once
    the tool order has named it. *)
Definition taken_out (taken es : list Z) : list Z :=
  map (fun e => if existsb (Z.eqb e) taken then UINT_MAX else e) es.

(** ** [ToolOrdering::collect_extruder_statistics] *)

Record ExtruderStatistics : Type := mkStatistics {
  first_printing_extruder : Z;
  last_printing_extruder : Z;
  all_printing_extruders : list Z
}.

(** The extruders of the first layer that prints something. *)
Fixpoint first_printing_layer (lts : list LayerTools) : option (list Z) :=
  match lts with
  | [] => None
  | lt :: rest =>
      match extruders lt with
      | [] => first_printing_layer rest
      | es => Some es
      end
  end.

(** [append(m_all_printing_extruders, lt.extruders);
    sort_remove_duplicates(m_all_printing_extruders);] for every layer. *)
Definition collect_all_printing_extruders (lts : list LayerTools) : list Z :=
  fold_left (fun acc lt => sort_remove_duplicates Z.leb Z.eqb (acc ++ extruders lt)) lts [].

(** [ToolOrdering::collect_extruder_statistics]: [(unsigned int)-1] stands for
    "no extruder"; with [prime_multi_material] the first printing extruder is
    moved to the end of the priming sequence. *)
Definition collect_extruder_statistics (prime_multi_material : bool) (lts : list LayerTools)
  : ExtruderStatistics :=
  let first :=
    match first_printing_layer lts with
    | Some es => front es
    | None => UINT_MAX
    end in
  let last :=
    match first_printing_layer (rev lts) with
    | Some es => back es
    | None => UINT_MAX
    end in
  let all := collect_all_printing_extruders lts in
  match prime_multi_material, all with
  | true, _ :: _ =>
      let all' := List.filter (fun eid => negb (eid =? first)) all ++ [first] in
      mkStatistics (front all') last all'
  | _, _ => mkStatistics first last all
  end.

(** ** [calc_max_layer_height] *)

(** [std::min] and [std::max] as the standard library defines them. *)
Definition std_min (a b : Q) : Q := if Qltb b a then b else a.
Definition std_max (a b : Q) : Q := if Qltb a b then b else a.

(** The limit of one nozzle, given as the pair of its [max_layer_height] and
    [nozzle_diameter]: [mlh == 0. ? 0.75 * nozzle_diameter : mlh]. *)
Definition nozzle_limit (nozzle : Q * Q) : Q :=
  if Qeq_bool (fst nozzle) 0 then ((3 # 4) * snd nozzle)%Q else fst nozzle.

(** [calc_max_layer_height]; [DBL_MAX] is
    [std::numeric_limits<double>::max()]. *)
Definition calc_max_layer_height (DBL_MAX : Q) (nozzles : list (Q * Q))
    (max_object_layer_height : Q) : Q :=
  std_max (fold_left (fun max_layer_height nozzle => std_min max_layer_height (nozzle_limit nozzle))
             nozzles DBL_MAX)
    max_object_layer_height.

(** ** [calc_filament_change_info_by_toolorder] *)

(** The state of the loop over the items: [last_filament_per_extruder], a
    table of two entries that start as [(unsigned int)-1],
    [flush_volume_per_filament] and [total_filament_change_count]. *)
Record FilamentChangeState : Type := mkChangeState {
  last_filament_per_extruder : list Z;
  flush_volume_per_filament : gmap Z Z;
  total_filament_change_count : Z
}.

(** One item of a layer sequence. [flush extruder_id last_filament item] is
    the entry of the flush matrix as the [int] the source converts it to. The
    table has two entries: an extruder id other than 0 and 1 is outside it in
    the source; here such a read gives [(unsigned int)-1] and such a write is
    lost. *)
Definition filament_change_step (filament_map : list Z) (flush : Z -> Z -> Z -> Z)
    (st : FilamentChangeState) (item : Z) : FilamentChangeState :=
  let extruder_id := map_at filament_map item in
  let last_filament := nth (Z.to_nat extruder_id) (last_filament_per_extruder st) UINT_MAX in
  let changed := negb (last_filament =? UINT_MAX) && negb (last_filament =? item) in
  mkChangeState
    (<[Z.to_nat extruder_id := item]> (last_filament_per_extruder st))
    (if changed
     then <[item := default 0 (flush_volume_per_filament st !! item)
                    + flush extruder_id last_filament item]> (flush_volume_per_filament st)
     else flush_volume_per_filament st)
    (if changed then total_filament_change_count st + 1 else total_filament_change_count st).

(** The first loop of [calc_filament_change_info_by_toolorder]: the flush
    volume per filament and the number of filament changes. The flush weight,
    which the source derives from the volumes in floating point, is left
    out. *)
Definition calc_filament_change_info_by_toolorder (filament_map : list Z)
    (flush : Z -> Z -> Z -> Z) (layer_sequences : list (list Z)) : FilamentChangeState :=
  fold_left (fun st ls => fold_left (filament_change_step filament_map flush) ls st)
    layer_sequences (mkChangeState [UINT_MAX; UINT_MAX] ∅ 0).

(** The number of places in a sequence where a filament follows a different
    one. *)
Fixpoint filament_changes (l : list Z) : Z :=
  match l with
  | a :: ((b :: _) as rest) => (if a =? b then 0 else 1) + filament_changes rest
  | _ => 0
  end.

(** The items of the layer sequences that are printed by extruder [e]. *)
Definition printed_by (filament_map : list Z) (e : Z) (layer_sequences : list (list Z))
  : list Z :=
  List.filter (fun item => map_at filament_map item =? e) (concat layer_sequences).

(** ** [ToolOrdering::tools_for_layer] *)

(** [std::lower_bound(begin, end, LayerTools(z))] over layers sorted by
    [print_z]: the index of the first layer that is not below [z]. Modelled
    from the spec: [LayerTools::operator<] is declared in ToolOrdering.hpp,
    which is missing; the layers are ordered by their height [print_z]. *)
Fixpoint lower_bound (z : Q) (lts : list LayerTools) : nat :=
  match lts with
  | [] => 0
  | lt :: rest => if Qltb (print_z lt) z then S (lower_bound z rest) else 0
  end.

(** The loop [for (++it; it != end; ++it)] of [tools_for_layer] followed by
    [--it]: [i] is the index of the nearest layer so far, [dist_min] its
    distance, and [rest] holds the layers after it. *)
Fixpoint nearer_layers (z dist_min : Q) (i : nat) (rest : list LayerTools) : nat * Q :=
  match rest with
  | [] => (i, dist_min)
  | lt :: rest' =>
      let d := Qabs (print_z lt - z) in
      if Qlt_le_dec d dist_min then nearer_layers z d (S i) rest' else (i, dist_min)
  end.

(** [ToolOrdering::tools_for_layer]: the index of the layer returned; [None]
    where one of the two assertions fails. *)
Definition tools_for_layer (EPSILON : Q) (lts : list LayerTools) (z : Q) : option nat :=
  let i0 := lower_bound (z - EPSILON) lts in
  match lts !! i0 with
  | None => None
  | Some lt0 =>
      let '(i, dist_min) := nearer_layers z (Qabs (print_z lt0 - z)) i0 (drop (S i0) lts) in
      if Qltb dist_min EPSILON then Some i else None
  end.

(** ** [ToolOrdering::generate_first_layer_tool_order] *)

(** The first loop (lines 331-351): [min_areas_per_extruder], a
    [std::map<int, double>]. A slice is the pair of the [wall_filament] of its
    region and of its contour area; the slices are those of the first layer
    that the [offset_ex] test keeps, in the order the loops visit them. *)
Definition min_areas_per_extruder (slices : list (Z * Q)) : gmap Z Q :=
  fold_left
    (fun m slice =>
       match m !! fst slice with
       | None => <[fst slice := snd slice]> m
       | Some area => if Qltb (snd slice) area then <[fst slice := snd slice]> m else m
       end)
    slices ∅.

(** [min_areas_per_extruder.at(extruder_id)], for a key of the map. *)
Definition area_at (m : gmap Z Q) (extruder_id : Z) : Q := default 0%Q (m !! extruder_id).

(** The body of the second loop (lines 354-361): the extruder is inserted in
    front of the first one whose smallest area is smaller than its own. *)
Fixpoint insert_tool (m : gmap Z Q) (extruder_id : Z) (tool_order : list Z) : list Z :=
  match tool_order with
  | [] => [extruder_id]
  | t :: rest =>
      if Qltb (area_at m t) (area_at m extruder_id)
      then extruder_id :: tool_order
      else t :: insert_tool m extruder_id rest
  end.

(** The second loop: the keys of the map are visited in increasing order. *)
Definition tool_order_by_area (slices : list (Z * Q)) : list Z :=
  let m := min_areas_per_extruder slices in
  fold_left (fun tool_order extruder_id => insert_tool m extruder_id tool_order)
    (sort_list Z.leb (elements (dom m))) [].

(** The comparison handed to [std::sort] (lines 367-375): both extruders are
    in [first_layer_print_sequence] and the first comes earlier. *)
Definition sequence_before (print_sequence_1st : list Z) (lh rh : Z) : bool :=
  match find_index (Z.eqb lh) print_sequence_1st 0, find_index (Z.eqb rh) print_sequence_1st 0 with
  | Some i, Some j => (i <? j)%nat
  | _, _ => false
  end.

(** [ToolOrdering::generate_first_layer_tool_order]. [std::sort] is applied
    when the option is set and at least as long as the tool order; it is
    written as an insertion sort, which gives the one sorted list whenever the
    comparison orders the extruders strictly, that is when every extruder of
    the tool order occurs in the sequence. *)
Definition generate_first_layer_tool_order (slices : list (Z * Q))
    (first_layer_print_sequence : option (list Z)) : list Z :=
  let tool_order := tool_order_by_area slices in
  match first_layer_print_sequence with
  | Some print_sequence_1st =>
      if (length tool_order <=? length print_sequence_1st)%nat
      then sort_list (fun lh rh => negb (sequence_before print_sequence_1st rh lh)) tool_order
      else tool_order
  | None => tool_order
  end.

(** The position of an extruder in the sequence; the length of the sequence
    if it does not occur. *)
Definition sequence_position (print_sequence_1st : list Z) (e : Z) : nat :=
  match find_index (Z.eqb e) print_sequence_1st 0 with
  | Some i => i
  | None => length print_sequence_1st
  end.

(** ** The wipe tower layers *)

(** The test of lines 769-771, on a layer as the propagation left it. *)
Definition needs_wipe_tower (EPSILON : Q) (timelapse_smooth : bool) (object_bottom_z : Q)
    (lt : LayerTools) : bool :=
  has_object lt && (timelapse_smooth || (0 <? wipe_tower_partitions lt))
  || Qltb (print_z lt) (object_bottom_z + EPSILON).

(** The sum of the [wipe_tower_layer_height]s of the wipe tower layers. *)
Fixpoint wipe_tower_height (lts : list LayerTools) : Q :=
  match lts with
  | [] => 0
  | lt :: rest =>
      ((if has_wipe_tower lt then wipe_tower_layer_height lt else 0) + wipe_tower_height rest)%Q
  end.

(** The [print_z] of the last wipe tower layer, [start] if there is none. *)
Fixpoint wipe_tower_top (start : Q) (lts : list LayerTools) : Q :=
  match lts with
  | [] => start
  | lt :: rest => wipe_tower_top (if has_wipe_tower lt then print_z lt else start) rest
  end.

(** What the loop holds after the items [done]: for each of the two extruders
    the last filament it printed, and the changes counted so far. *)
Definition change_summary (filament_map : list Z) (done : list Z) (st : FilamentChangeState)
  : Prop :=
  let on e := List.filter (fun item => map_at filament_map item =? e) done in
  last_filament_per_extruder st
  = [match on 0 with [] => UINT_MAX | _ :: _ => List.last (on 0) 0 end;
     match on 1 with [] => UINT_MAX | _ :: _ => List.last (on 1) 0 end] /\
  total_filament_change_count st = filament_changes (on 0) + filament_changes (on 1).

(** The order of the tool order: by decreasing smallest area. *)
Definition by_area (m : gmap Z Q) (a b : Z) : Prop := (area_at m b <= area_at m a)%Q.

(** A layer that the test asks a wipe tower for has one. *)
Definition tower_where_needed (EPSILON : Q) (timelapse_smooth : bool) (object_bottom_z : Q)
    (lt : LayerTools) : Prop :=
  needs_wipe_tower EPSILON timelapse_smooth object_bottom_z lt = true ->
  has_wipe_tower lt = true.

(** ** The filaments of a region on a layer *)

(** [LayerTools::sparse_infill_filament] and
    [LayerTools::solid_infill_filament], both [unsigned int]. *)
Definition layer_sparse_infill_filament (lt : LayerTools) (r : PrintRegionConfig) : Z :=
  ((if extruder_override lt =? 0 then sparse_infill_filament r else extruder_override lt) - 1)
    mod 2 ^ 32.

Definition layer_solid_infill_filament (lt : LayerTools) (r : PrintRegionConfig) : Z :=
  ((if extruder_override lt =? 0 then solid_infill_filament r else extruder_override lt) - 1)
    mod 2 ^ 32.

(** What the three assertions of [LayerTools::extruder] ask of a region, with
    the filaments as values of [unsigned int]. *)
Definition region_filaments_set (r : PrintRegionConfig) : Prop :=
  0 < wall_filament r <= UINT_MAX /\
  0 < sparse_infill_filament r <= UINT_MAX /\
  0 < solid_infill_filament r <= UINT_MAX.

(** ** The gaps of the skirt *)

(** Two skirt layers with no skirt layer between them are neighbours in the
    layer list, or at most [bound] apart. *)
Definition skirt_gap_ok (bound : Q) (out : list LayerTools) : Prop :=
  forall m1 m2 a b, (m1 < m2)%nat ->
    out !! m1 = Some a -> out !! m2 = Some b ->
    has_skirt a = true -> has_skirt b = true ->
    (forall m c, (m1 < m < m2)%nat -> out !! m = Some c -> has_skirt c = false) ->
    m2 = S m1 \/ (print_z b - print_z a <= bound)%Q.

(** What the loops of [mark_skirt_layers] hold when [p] is the last layer
    marked so far, on a layer list without empty layers. *)
Definition skirt_upto (bound : Q) (lts : list LayerTools) (p : nat) : Prop :=
  (exists a, lts !! p = Some a /\ has_skirt a = true) /\
  (forall m c, (p < m)%nat -> lts !! m = Some c -> has_skirt c = false) /\
  skirt_gap_ok bound lts /\
  Forall (fun lt => extruders lt <> []) lts.

(** The next layer to look at is the neighbour of the last marked layer [a]
    at [p], or within the bound of it. *)
Definition skirt_within_reach (bound : Q) (lts : list LayerTools) (p : nat) (a : LayerTools)
    (k : nat) : Prop :=
  k = S p \/ forall b, lts !! k = Some b -> (print_z b - print_z a <= bound)%Q.

(** ** Forcing the order of perimeters and infills *)

(** Modelled from the spec: [LayerTools::has_extruder] is declared in
    ToolOrdering.hpp, which is missing; it looks the extruder up in the
    layer's list. *)
Definition has_extruder (lt : LayerTools) (extruder : Z) : bool :=
  existsb (Z.eqb extruder) (extruders lt).

Section EnsurePerimetersInfillsOrder.
Variables (is_infill is_solid_infill : ExtrusionRole -> bool).
Variables (lt : LayerTools) (cfg : WipeConfig).

(** The body of the loop over the infills (lines 1641-1663), with
    [first_nonsoluble_extruder] and [last_nonsoluble_extruder] as the
    [unsigned int]s they are kept in. As the parentheses of lines 1656-1657
    stand, the second argument of [is_extruder_order] is the disjunction
    [last_nonsoluble_extruder || ! lt.has_extruder(...)], converted to
    [unsigned int]: 1 or 0. The extruder is passed on as an [int]. *)
Definition force_fill (first last : Z) (object : PrintObject) (copy : nat)
    (r : PrintRegionConfig) (w : WipingExtrusions) (fill : ExtrusionEntityCollection)
  : WipingExtrusions :=
  if negb (is_overriddable is_infill is_solid_infill lt cfg fill object r)
     || is_entity_overridden w (eec_id fill) (object_id object) copy
  then w
  else if is_infill_first cfg
          || is_extruder_order lt (layer_wall_filament lt r)
               (if negb (last =? 0)
                   || negb (has_extruder lt (layer_sparse_infill_filament lt r))
                then 1 else 0)
  then set_extruder_override (eec_id fill) (object_id object) copy
         (as_int (if is_infill_first cfg then first else last)) (instances object) w
  else w.

(** The body of the loop over the perimeters (lines 1666-1670). *)
Definition force_perimeter (first last : Z) (object : PrintObject) (copy : nat)
    (r : PrintRegionConfig) (w : WipingExtrusions) (fill : ExtrusionEntityCollection)
  : WipingExtrusions :=
  if is_overriddable is_infill is_solid_infill lt cfg fill object r
     && negb (is_entity_overridden w (eec_id fill) (object_id object) copy)
  then set_extruder_override (eec_id fill) (object_id object) copy
         (as_int (if is_infill_first cfg then last else first)) (instances object) w
  else w.

(** The body of the loop over the regions (lines 1634-1671). *)
Definition force_region (first last : Z) (object : PrintObject) (copy : nat)
    (w : WipingExtrusions) (layerm : LayerRegion) : WipingExtrusions :=
  if negb (flush_into_infill object) && negb (flush_into_objects object) then w
  else
    fold_left (force_perimeter first last object copy (region layerm)) (perimeters layerm)
      (fold_left (force_fill first last object copy (region layerm)) (fills layerm) w).

(** The body of the loop over the objects (lines 1626-1673). *)
Definition force_object (first last : Z) (w : WipingExtrusions) (object : PrintObject)
  : WipingExtrusions :=
  match this_layer object with
  | None => w
  | Some regions =>
      fold_left
        (fun w0 copy => fold_left (force_region first last object copy) regions w0)
        (seq 0 (instances object)) w
  end.

(** [WipingExtrusions::ensure_perimeters_infills_order], over
    [print.objects()]. *)
Definition ensure_perimeters_infills_order (objects : list PrintObject)
    (w : WipingExtrusions) : WipingExtrusions :=
  if negb (something_overridable w) then w
  else
    let first_nonsoluble_extruder := as_unsigned (first_nonsoluble_extruder_on_layer cfg lt) in
    let last_nonsoluble_extruder := as_unsigned (last_nonsoluble_extruder_on_layer cfg lt) in
    fold_left (force_object first_nonsoluble_extruder last_nonsoluble_extruder) objects w.

End EnsurePerimetersInfillsOrder.

(** ** What the side table holds *)

(** The extruder the entity table holds for a copy of an entity of an
    object, when it is not the "not yet assigned" -1. *)
Definition override_at (w : WipingExtrusions) (entity object : Z) (copy : nat) : option Z :=
  match entity_map w !! (entity, object) with
  | Some v =>
      match v !! copy with
      | Some x => if x =? -1 then None else Some x
      | None => None
      end
  | None => None
  end.

(** The object [o] of [objects] has the copy [c]. *)
Definition has_copy (objects : list PrintObject) (o : Z) (c : nat) : Prop :=
  forall obj, In obj objects -> object_id obj = o -> (c < instances obj)%nat.

(** From [w] to [w'] overrides were only added, each of them an [allowed]
    extruder: what [w] holds for the copies of the objects, [w'] holds as
    well, and what [w'] holds [w] held or is [allowed]. *)
Definition overrides_added (allowed : Z -> Prop) (objects : list PrintObject)
    (w w' : WipingExtrusions) : Prop :=
  (forall e o c x, override_at w e o c = Some x -> has_copy objects o c ->
     override_at w' e o c = Some x) /\
  (forall e o c y, override_at w' e o c = Some y ->
     override_at w e o c = Some y \/ allowed y) /\
  (forall o x, support_map w !! o = Some x -> support_map w' !! o = Some x) /\
  (forall o y, support_map w' !! o = Some y -> support_map w !! o = Some y \/ allowed y) /\
  (forall o x, support_intf_map w !! o = Some x -> support_intf_map w' !! o = Some x) /\
  (forall o y, support_intf_map w' !! o = Some y ->
     support_intf_map w !! o = Some y \/ allowed y).

(** The state a loop of [mark_wiping_extrusions] ends in. *)
Definition flow_state (f : flow) : WipeState :=
  match f with
  | Continue s => s
  | Return0 s => s
  end.

(** ** [ToolOrdering::collect_extruders] *)

Definition set_has_object (b : bool) (lt : LayerTools) : LayerTools :=
  mkLayerTools (print_z lt) b (has_support lt) (extruders lt)
    (extruder_override lt) (has_skirt lt) (has_wipe_tower lt)
    (wipe_tower_partitions lt) (wipe_tower_layer_height lt) (custom_gcode lt).

Definition set_has_support (b : bool) (lt : LayerTools) : LayerTools :=
  mkLayerTools (print_z lt) (has_object lt) b (extruders lt)
    (extruder_override lt) (has_skirt lt) (has_wipe_tower lt)
    (wipe_tower_partitions lt) (wipe_tower_layer_height lt) (custom_gcode lt).

Definition set_layer_extruder_override (e : Z) (lt : LayerTools) : LayerTools :=
  mkLayerTools (print_z lt) (has_object lt) (has_support lt) (extruders lt)
    e (has_skirt lt) (has_wipe_tower lt)
    (wipe_tower_partitions lt) (wipe_tower_layer_height lt) (custom_gcode lt).

(** [layer_tools.extruders.push_back(e)]. *)
Definition push_back (e : Z) (lt : LayerTools) : LayerTools :=
  set_extruders (extruders lt ++ [e]) lt.

(** A [SupportLayer]: [print_z] and [support_fills.role()]. *)
Record SupportLayer : Type := mkSupportLayer {
  support_print_z : Q;
  support_fills_role : ExtrusionRole
}.

(** A [Layer]: [print_z] and [regions()]. *)
Record Layer : Type := mkLayer {
  layer_print_z : Q;
  layer_regions : list LayerRegion
}.

(** A [PrintObject] as [collect_extruders] sees it: its configuration,
    [layers()] and [support_layers()]. *)
Record SlicedObject : Type := mkSlicedObject {
  sliced_object : PrintObject;
  object_layers : list Layer;
  object_support_layers : list SupportLayer
}.

(** A loop whose body can fail an assertion. *)
Fixpoint fold_left_option {A S : Type} (f : S -> A -> option S) (l : list A) (s : S)
  : option S :=
  match l with
  | [] => Some s
  | x :: rest =>
      match f s x with
      | Some s' => fold_left_option f rest s'
      | None => None
      end
  end.

Section CollectExtruders.
Variable EPSILON : Q.
(** [is_solid_infill] of ExtrusionEntity.h and [entities.empty()] of an
    extrusion collection, taken as given. *)
Variable is_solid_infill : ExtrusionRole -> bool.
Variable entities_empty : ExtrusionEntityCollection -> bool.
(** What [WipingExtrusions::is_overriddable_and_mark] of ToolOrdering.hpp
    returns for an entity, an object and a region on the layer as it stands,
    taken as given. The mark it leaves, like the one of
    [is_support_overriddable_and_mark], goes to the layer's
    [WipingExtrusions], which is no field of [LayerTools] here. *)
Variable is_overriddable_and_mark :
  LayerTools -> ExtrusionEntityCollection -> PrintObject -> PrintRegionConfig -> bool.
(** [m_print_config_ptr != nullptr]. *)
Variable has_print_config : bool.

(** The body of the loop over the support layers (lines 458-473). The
    filaments of the object's configuration, [int]s, are kept in
    [unsigned int]s. [None] where an assertion of [tools_for_layer] fails. *)
Definition collect_support_layer (object : PrintObject) (lts : list LayerTools)
    (support_layer : SupportLayer) : option (list LayerTools) :=
  match tools_for_layer EPSILON lts (support_print_z support_layer) with
  | None => None
  | Some i =>
      let role := support_fills_role support_layer in
      let has_support :=
        role_eqb role erMixed || role_eqb role erSupportMaterial
        || role_eqb role erSupportTransition in
      let has_interface := role_eqb role erMixed || role_eqb role erSupportMaterialInterface in
      let extruder_support := as_unsigned (support_filament object) in
      let extruder_interface := as_unsigned (support_interface_filament object) in
      Some
        (alter
           (fun layer_tools =>
              let lt1 :=
                if has_support then push_back extruder_support layer_tools else layer_tools in
              let lt2 := if has_interface then push_back extruder_interface lt1 else lt1 in
              if has_support || has_interface then set_has_support true lt2 else lt2)
           i lts)
  end.

(** The loop of line 490: the iterator passes the switches below
    [print_z + EPSILON], each of which sets [extruder_override]. *)
Fixpoint advance_override (z : Q) (switches : list (Q * Z)) (extruder_override : Z)
  : list (Q * Z) * Z :=
  match switches with
  | [] => ([], extruder_override)
  | (switch_z, e) :: rest =>
      if Qltb switch_z (z + EPSILON)
      then advance_override z rest (as_unsigned (as_int e))
      else (switches, extruder_override)
  end.

(** [fill->entities.empty() ? erNone : fill->entities.front()->role()]. *)
Definition fill_role (fill : ExtrusionEntityCollection) : ExtrusionRole :=
  if entities_empty fill then erNone else eec_front_role fill.

(** The perimeters of a region (lines 500-518): the layer, and the extruder
    pushed if one is. *)
Definition collect_perimeters (object : PrintObject) (extruder_override : Z)
    (layerm : LayerRegion) (layer_tools : LayerTools) : LayerTools * option Z :=
  match perimeters layerm with
  | [] => (layer_tools, None)
  | _ :: _ =>
      let something_nonoverriddable :=
        if has_print_config
        then existsb
               (fun eec =>
                  negb (is_overriddable_and_mark layer_tools eec object (region layerm)))
               (perimeters layerm)
        else true in
      let e :=
        if extruder_override =? 0 then as_unsigned (wall_filament (region layerm))
        else extruder_override in
      if something_nonoverriddable
      then (set_has_object true (push_back e layer_tools), Some e)
      else (set_has_object true layer_tools, None)
  end.

(** The infills of a region (lines 520-548). *)
Definition collect_fills (object : PrintObject) (extruder_override : Z)
    (layerm : LayerRegion) (layer_tools : LayerTools) : LayerTools :=
  let roles := map fill_role (fills layerm) in
  let has_solid_infill := existsb is_solid_infill roles in
  let has_infill :=
    existsb (fun role => negb (is_solid_infill role) && negb (role_eqb role erNone)) roles in
  let something_nonoverriddable :=
    has_print_config
    && existsb
         (fun fill => negb (is_overriddable_and_mark layer_tools fill object (region layerm)))
         (fills layerm) in
  let lt1 :=
    if something_nonoverriddable || negb has_print_config
    then
      if extruder_override =? 0
      then
        let lt0 :=
          if has_solid_infill
          then push_back (as_unsigned (solid_infill_filament (region layerm))) layer_tools
          else layer_tools in
        if has_infill
        then push_back (as_unsigned (sparse_infill_filament (region layerm))) lt0
        else lt0
      else if has_solid_infill || has_infill then push_back extruder_override layer_tools
      else layer_tools
    else layer_tools in
  if has_solid_infill || has_infill then set_has_object true lt1 else lt1.

(** The body of the loop over the regions of a layer (lines 497-549), on the
    layer and [firstLayerExtruders], a vector of [int]. *)
Definition collect_region (object : PrintObject) (extruder_override : Z) (layerCount : nat)
    (st : LayerTools * list Z) (layerm : LayerRegion) : LayerTools * list Z :=
  let '(lt1, pushed) := collect_perimeters object extruder_override layerm (fst st) in
  (collect_fills object extruder_override layerm lt1,
   match pushed with
   | Some e => if (layerCount =? 0)%nat then snd st ++ [as_int e] else snd st
   | None => snd st
   end).

(** The state of the loop over the layers of the object: the layers of the
    tool ordering, the switches the iterator has not passed,
    [extruder_override], [layerCount] and [firstLayerExtruders]. *)
Record CollectState : Type := mkCollectState {
  collected_layers : list LayerTools;
  remaining_switches : list (Q * Z);
  current_override : Z;
  layerCount : nat;
  firstLayerExtruders : list Z
}.

(** The body of the loop over the layers of the object (lines 486-551). *)
Definition collect_object_layer (object : PrintObject) (st : CollectState) (layer : Layer)
  : option CollectState :=
  match tools_for_layer EPSILON (collected_layers st) (layer_print_z layer) with
  | None => None
  | Some i =>
      match collected_layers st !! i with
      | None => None
      | Some layer_tools =>
          let '(switches, extruder_override) :=
            advance_override (layer_print_z layer) (remaining_switches st)
              (current_override st) in
          let '(layer_tools', first) :=
            fold_left (collect_region object extruder_override (layerCount st))
              (layer_regions layer)
              (set_layer_extruder_override extruder_override layer_tools,
               firstLayerExtruders st) in
          Some (mkCollectState (<[i := layer_tools']> (collected_layers st)) switches
                  extruder_override (S (layerCount st)) first)
      end
  end.

(** [ToolOrdering::collect_extruders]: the layers, and what is stored as the
    [object_first_layer_wall_extruders] of the object; [None] where an
    assertion of [tools_for_layer] fails. *)
Definition collect_extruders (object : SlicedObject)
    (per_layer_extruder_switches : list (Q * Z)) (lts : list LayerTools)
  : option (list LayerTools * list Z) :=
  match
    fold_left_option (collect_support_layer (sliced_object object))
      (object_support_layers object) lts
  with
  | None => None
  | Some lts1 =>
      match
        fold_left_option (collect_object_layer (sliced_object object)) (object_layers object)
          (mkCollectState lts1 per_layer_extruder_switches 0 0 [])
      with
      | None => None
      | Some st =>
          Some (finish_collected (collected_layers st),
                sort_remove_duplicates Z.leb Z.eqb (firstLayerExtruders st))
      end
  end.

End CollectExtruders.

(** From [a] to [b] a layer has only collected: its height is the same, it
    has kept its extruders, and its flags were not taken away. *)
Definition layer_grown (a b : LayerTools) : Prop :=
  print_z a = print_z b /\
  (forall e, In e (extruders a) -> In e (extruders b)) /\
  (has_object a = true -> has_object b = true) /\
  (has_support a = true -> has_support b = true).

(** The heights the constructors hand to [initialize_layers] for an object:
    those of its layers, then those of its support layers. *)
Definition object_heights (object : SlicedObject) : list Q :=
  map layer_print_z (object_layers object)
  ++ map support_print_z (object_support_layers object).

(** What a support layer asks of the layer it is collected into. *)
Definition support_collected (object : PrintObject) (support_layer : SupportLayer)
    (lt : LayerTools) : Prop :=
  let role := support_fills_role support_layer in
  (role = erMixed \/ role = erSupportMaterial \/ role = erSupportTransition ->
   has_support lt = true /\ In (as_unsigned (support_filament object)) (extruders lt)) /\
  (role = erMixed \/ role = erSupportMaterialInterface ->
   has_support lt = true /\
   In (as_unsigned (support_interface_filament object)) (extruders lt)).

(** What a region of an object layer asks of the layer it is collected into
    when no extruder override is in force. [rejected] says of a list of
    entities that there is no print configuration or that
    [is_overriddable_and_mark] turns one of them down. *)
Definition region_collected (is_solid_infill : ExtrusionRole -> bool)
    (fill_role : ExtrusionEntityCollection -> ExtrusionRole)
    (rejected : list ExtrusionEntityCollection -> Prop)
    (layerm : LayerRegion) (lt : LayerTools) : Prop :=
  let r := region layerm in
  let solid := exists fill, In fill (fills layerm) /\ is_solid_infill (fill_role fill) = true in
  let sparse :=
    exists fill, In fill (fills layerm) /\ is_solid_infill (fill_role fill) = false /\
                 fill_role fill <> erNone in
  (perimeters layerm <> [] \/ solid \/ sparse -> has_object lt = true) /\
  (perimeters layerm <> [] -> rejected (perimeters layerm) ->
   In (as_unsigned (wall_filament r)) (extruders lt)) /\
  (solid -> rejected (fills layerm) ->
   In (as_unsigned (solid_infill_filament r)) (extruders lt)) /\
  (sparse -> rejected (fills layerm) ->
   In (as_unsigned (sparse_infill_filament r)) (extruders lt)).

(** [tools_for_layer] finds for the height [z] a layer of which [holds]
    holds. *)
Definition collected_at (EPSILON z : Q) (holds : LayerTools -> Prop)
    (lts : list LayerTools) : Prop :=
  exists i lt, tools_for_layer EPSILON lts z = Some i /\ lts !! i = Some lt /\ holds lt.

(** ** [generate_combinations] *)

(** [a < b] on the flags of a [std::vector<bool>]. *)
Definition bool_lt (a b : bool) : bool := negb a && b.

(** The index of the last element of [l] that is smaller than [x]. *)
Fixpoint last_smaller (x : bool) (l : list bool) : option nat :=
  match l with
  | [] => None
  | y :: rest =>
      match last_smaller x rest with
      | Some j => Some (S j)
      | None => if bool_lt y x then Some 0%nat else None
      end
  end.

(** The previous permutation in lexicographic order, as the algorithm of
    [std::prev_permutation] finds it: at the last position whose element is
    followed by a smaller one, the element is exchanged with the last
    element after it that is smaller, and what follows the position is
    reversed. [None] when no element is followed by a smaller one. *)
Fixpoint previous_permutation (l : list bool) : option (list bool) :=
  match l with
  | [] => None
  | x :: rest =>
      match previous_permutation rest with
      | Some rest' => Some (x :: rest')
      | None =>
          match rest with
          | y :: _ =>
              if bool_lt y x
              then match last_smaller x rest with
                   | Some j => Some (nth j rest x :: rev (<[j := x]> rest))
                   | None => None
                   end
              else None
          | [] => None
          end
      end
  end.

(** [std::prev_permutation(flags.begin(), flags.end())]: the flags after the
    call and the value returned. Without a previous permutation the flags
    are left reversed, as the last permutation. *)
Definition prev_permutation (flags : list bool) : list bool * bool :=
  match previous_permutation flags with
  | Some flags' => (flags', true)
  | None => (rev flags, false)
  end.

(** The loop over [j] (lines 891-897): [group1] takes the extruders whose
    flag is set, [group2] the others. *)
Fixpoint split_by_flags (flags : list bool) (extruders : list Z) : list Z * list Z :=
  match flags, extruders with
  | f :: flags', e :: extruders' =>
      let '(group1, group2) := split_by_flags flags' extruders' in
      if f then (e :: group1, group2) else (group1, e :: group2)
  | _, _ => ([], [])
  end.

(** The pair that is inserted (lines 890-901): the groups, swapped when
    [group1] is the larger one. *)
Definition ordered_split (flags : list bool) (extruders : list Z) : list Z * list Z :=
  let '(group1, group2) := split_by_flags flags extruders in
  if (length group2 <? length group1)%nat then (group2, group1) else (group1, group2).

(** The [do ... while] loop (lines 889-903), over the [std::set] of pairs. *)
Fixpoint combinations_loop (fuel : nat) (extruders : list Z) (flags : list bool)
    (unique_combinations : gset (list Z * list Z)) : option (gset (list Z * list Z)) :=
  match fuel with
  | O => None
  | S fuel' =>
      let combinations := {[ordered_split flags extruders]} ∪ unique_combinations in
      let '(flags', more) := prev_permutation flags in
      if more then combinations_loop fuel' extruders flags' combinations
      else Some combinations
  end.

(** [generate_combinations]: for [i] from 1 to [n / 2] the flags start as [i]
    times [true] followed by [false]. [None] when the fuel of a loop runs
    out. *)
Definition generate_combinations (fuel : nat) (extruders : list Z)
  : option (gset (list Z * list Z)) :=
  let n := length extruders in
  match extruders with
  | [] => Some ∅
  | _ :: _ =>
      fold_left_option
        (fun unique_combinations i =>
           combinations_loop fuel extruders
             (replicate i true ++ replicate (n - i) false) unique_combinations)
        (seq 1 (n / 2)) ∅
  end.

(** The number of flags that are set, and the flags read as a binary
    number, first flag first. *)
Definition weight (flags : list bool) : nat := length (List.filter id flags).

Fixpoint flags_value (flags : list bool) : nat :=
  match flags with
  | [] => 0
  | b :: rest => ((if b then 2 ^ length rest else 0) + flags_value rest)%nat
  end.
(** * Properties *)

(** ** Wipe tower partitions *)



Lemma prev_printing_last_app (pre rest : list LayerTools) (i : nat) :
  (i <= length pre)%nat ->
  prev_printing_last (pre ++ rest) i = prev_printing_last pre i.
Proof.
  induction i as [|j IH]; intros Hi; simpl; [reflexivity|].
  rewrite lookup_app_l by lia. rewrite IH by lia. reflexivity.
Qed.







(** *** The passes after the propagation *)




Section WipeTowerFacts.
Variables (EPSILON : Q) (timelapse_smooth : bool).
Variables (object_bottom_z max_layer_height : Q).








End WipeTowerFacts.

(** A raft layer at 0.2 under an object starting at 1.0, with a maximum layer
    height of 0.3: the function inserts a wipe tower layer at 0.6, which prints
    with the first extruder of the layer above and takes its partitions. *)
Example fill_wipe_tower_partitions_raft :
  let raft := set_extruders [0] (new_LayerTools (1 # 5)) in
  let object := mkLayerTools 1 true false [0; 1] 0 false false 0 0%Q None in
  let out := fill_wipe_tower_partitions (1 # 10000) false (7 # 10) (3 # 10) [raft; object] in
  map wipe_tower_partitions out = [1; 1; 1] /\
  map extruders out = [[0]; [0]; [0; 1]] /\
  map has_wipe_tower out = [true; true; true] /\
  Forall2 Qeq (map print_z out) [1 # 5; 3 # 5; 1%Q] /\
  Forall2 Qeq (map wipe_tower_layer_height out) [1 # 5; 2 # 5; 2 # 5].
Proof.
  repeat split; try reflexivity; repeat constructor.
Qed.



(** ** Sorting *)

Section SortFacts.
Context {A : Type} (leb eqb : A -> A -> bool).
Hypothesis eqb_eq : forall x y, eqb x y = true <-> x = y.

Lemma insert_sorted_elem (x z : A) (l : list A) :
  In z (insert_sorted leb x l) <-> z = x \/ In z l.
Proof.
  induction l as [|y rest IH]; simpl; [intuition congruence|].
  destruct (leb x y); simpl; [intuition congruence|]. rewrite IH. tauto.
Qed.

Lemma sort_list_elem (z : A) (l : list A) : In z (sort_list leb l) <-> In z l.
Proof.
  induction l as [|x rest IH]; simpl; [tauto|].
  rewrite insert_sorted_elem, IH. intuition congruence.
Qed.

Lemma unique_from_elem (x z : A) (l : list A) :
  In z (unique_from eqb x l) <-> In z (x :: l).
Proof using All.
  revert x. induction l as [|y rest IH]; intros x; simpl; [tauto|].
  destruct (eqb x y) eqn:Hxy.
  - apply eqb_eq in Hxy. subst y. rewrite IH. simpl. tauto.
  - simpl. rewrite IH. simpl. tauto.
Qed.

Lemma sort_remove_duplicates_elem (z : A) (l : list A) :
  In z (sort_remove_duplicates leb eqb l) <-> In z l.
Proof using All.
  unfold sort_remove_duplicates, unique. rewrite <- (sort_list_elem z l).
  destruct (sort_list leb l) as [|x rest]; [tauto|]. apply unique_from_elem.
Qed.

End SortFacts.

(** ** Layer heights *)

Lemma insert_sorted_Qle (x : Q) (l : list Q) :
  StronglySorted Qle l -> StronglySorted Qle (insert_sorted Qle_bool x l).
Proof.
  induction l as [|y rest IH]; intros Hs; simpl.
  - constructor; constructor.
  - destruct (Qle_bool x y) eqn:Hxy.
    + apply Qle_bool_iff in Hxy. constructor; [exact Hs|].
      constructor; [exact Hxy|]. apply StronglySorted_inv in Hs as [_ Hall].
      eapply List.Forall_impl; [|exact Hall]. intros z Hz. simpl in Hz.
      eapply Qle_trans; eassumption.
    + assert (Hyx : (y <= x)%Q).
      { destruct (Qlt_le_dec y x) as [H|H]; [now apply Qlt_le_weak|].
        apply Qle_bool_iff in H. congruence. }
      apply StronglySorted_inv in Hs as [Hs Hall]. constructor; [now apply IH|].
      clear IH Hs Hxy. induction rest as [|z rest IH]; simpl.
      * constructor; [exact Hyx|constructor].
      * inversion Hall; subst. destruct (Qle_bool x z); constructor; auto.
Qed.

Lemma sort_list_Qle (l : list Q) : StronglySorted Qle (sort_list Qle_bool l).
Proof.
  induction l as [|x rest IH]; simpl; [constructor|]. now apply insert_sorted_Qle.
Qed.

(** After [unique], a sorted list is strictly increasing. *)
Lemma unique_from_strict (x : Q) (l : list Q) :
  StronglySorted Qle (x :: l) ->
  StronglySorted Qlt (unique_from Qeq_bool x l) /\
  (exists tl, unique_from Qeq_bool x l = x :: tl) /\
  (forall z, In z (x :: l) -> exists z', In z' (unique_from Qeq_bool x l) /\ (z == z')%Q) /\
  (forall z', In z' (unique_from Qeq_bool x l) -> In z' (x :: l)).
Proof.
  revert x. induction l as [|y rest IH]; intros x Hs.
  - simpl. repeat split.
    + constructor; constructor.
    + now exists [].
    + intros z Hz. exists x. split; [now left|].
      destruct Hz as [Hz|[]]. subst z. reflexivity.
    + intros z' H; exact H.
  - apply StronglySorted_inv in Hs as [Hs Hall]. simpl.
    destruct (Qeq_bool x y) eqn:Hxy.
    + apply Qeq_bool_iff in Hxy.
      assert (Hs' : StronglySorted Qle (x :: rest)).
      { apply StronglySorted_inv in Hs as [Hs Hall']. constructor; [exact Hs|].
        eapply List.Forall_impl; [|exact Hall']. intros z Hz. simpl in Hz.
        now rewrite Hxy. }
      destruct (IH x Hs') as (H1 & H2 & H3 & H4).
      split; [exact H1|]. split; [exact H2|]. split.
      * intros z Hz. destruct Hz as [Hz|[Hz|Hin]].
        -- apply H3. now left.
        -- subst z. destruct (H3 x (or_introl eq_refl)) as (z' & Hz' & Heq).
           exists z'. split; [exact Hz'|]. now rewrite <- Hxy.
        -- apply H3. now right.
      * intros z' Hz'. destruct (H4 z' Hz') as [Hz|Hin]; [now left|right; now right].
    + assert (Hxy' : (x < y)%Q).
      { inversion Hall as [|? ? Hle ?]; subst. apply Qle_lteq in Hle as [Hle|Hle]; [exact Hle|].
        apply Qeq_bool_iff in Hle. congruence. }
      destruct (IH y Hs) as (H1 & (tl & H2) & H3 & H4).
      split; [|split; [eauto|split]].
      * constructor; [exact H1|]. rewrite List.Forall_forall. intros z' Hz'.
        apply H4 in Hz'.
        destruct Hz' as [Hz|Hin]; [now subst z'|].
        apply StronglySorted_inv in Hs as [_ Hally]. rewrite List.Forall_forall in Hally.
        eapply Qlt_le_trans; [exact Hxy'|]. now apply Hally.
      * intros z Hz. destruct Hz as [Hz|Hin].
        -- exists x. split; [now left|]. subst z. reflexivity.
        -- destruct (H3 z Hin) as (z' & Hz' & Heq). exists z'. split; [now right|exact Heq].
      * intros z' Hz'. destruct Hz' as [Hz|Hin]; [now left|]. right. now apply H4.
Qed.

Lemma sort_remove_duplicates_strict (zs : list Q) :
  StronglySorted Qlt (sort_remove_duplicates Qle_bool Qeq_bool zs) /\
  (forall z, In z zs ->
     exists z', In z' (sort_remove_duplicates Qle_bool Qeq_bool zs) /\ (z == z')%Q) /\
  (forall z', In z' (sort_remove_duplicates Qle_bool Qeq_bool zs) -> In z' zs).
Proof.
  unfold sort_remove_duplicates, unique.
  pose proof (sort_list_Qle zs) as Hs.
  pose proof (fun z => sort_list_elem Qle_bool z zs) as Hin.
  destruct (sort_list Qle_bool zs) as [|x rest].
  - repeat split; [constructor| |intros ? []].
    intros z Hz. apply Hin in Hz. destruct Hz.
  - destruct (unique_from_strict x rest Hs) as (H1 & _ & H3 & H4). repeat split.
    + exact H1.
    + intros z Hz. apply H3. now apply Hin.
    + intros z' Hz'. apply Hin. now apply H4.
Qed.

Section InitializeLayersFacts.
Variable EPSILON : Q.






Lemma merge_close_z_increasing (rest : list Q) (first last : Q) :
  (first <= last)%Q ->
  StronglySorted Qlt (last :: rest) ->
  StronglySorted below_z (merge_close_z EPSILON first last rest) /\
  Forall (fun lt => (first <= print_z lt)%Q) (merge_close_z EPSILON first last rest).
Proof.
  revert first last. induction rest as [|z rest IH]; intros first last Hfl Hs; simpl.
  - split; constructor; try constructor. unfold mid_z; simpl. lra.
  - apply StronglySorted_inv in Hs as [Hs Hall].
    assert (Hlz : (last < z)%Q) by (inversion Hall; assumption).
    destruct (Qle_bool z (first + EPSILON)).
    + apply IH; [lra|exact Hs].
    + destruct (IH z z ltac:(lra) Hs) as [Hsorted Hlow]. split.
      * constructor; [exact Hsorted|]. eapply List.Forall_impl; [|exact Hlow].
        intros lt Hlt. unfold below_z, mid_z. simpl in *. lra.
      * constructor; [unfold mid_z; simpl; lra|].
        eapply List.Forall_impl; [|exact Hlow]. intros lt Hlt. simpl in *. lra.
Qed.

End InitializeLayersFacts.




(** ** Reordering the extruders *)

Lemma find_index_spec (p : Z -> bool) (es : list Z) (start : nat) :
  match find_index p es start with
  | Some i => exists e, (start <= i)%nat /\ es !! (i - start)%nat = Some e /\ p e = true
  | None => Forall (fun e => p e = false) es
  end.
Proof.
  revert start. induction es as [|e rest IH]; intros start; simpl; [constructor|].
  destruct (p e) eqn:Hp.
  - exists e. rewrite Nat.sub_diag. auto.
  - specialize (IH (S start)). destruct (find_index p rest (S start)) as [i|].
    + destruct IH as (e' & Hle & Hlook & Hp'). exists e'. split; [lia|]. split; [|exact Hp'].
      replace (i - start)%nat with (S (i - S start)) by lia. exact Hlook.
    + constructor; assumption.
Qed.

(** Where [start_with_last] finds the carried extruder, it moves that
    occurrence to the front and keeps the order of the others. *)
Lemma start_with_last_moves (last : Z) (es : list Z) :
  In last es ->
  exists i, es !! i = Some last /\
            start_with_last last es = last :: take i es ++ drop (S i) es.
Proof.
  intros Hin. unfold start_with_last.
  pose proof (find_index_spec (Z.eqb last) (tl es) 1) as Hspec.
  destruct (find_index (Z.eqb last) (tl es) 1) as [i|].
  - destruct Hspec as (e & Hle & Hlook & Heq). apply Z.eqb_eq in Heq. subst e.
    exists i. split; [|reflexivity].
    destruct es as [|a rest]; [destruct Hin|]. simpl in Hlook.
    destruct i as [|i]; [lia|]. simpl in *. rewrite ?Nat.sub_0_r in Hlook. exact Hlook.
  - destruct es as [|a rest]; [destruct Hin|]. simpl in Hspec.
    destruct Hin as [->|Hin].
    + exists 0%nat. split; reflexivity.
    + rewrite List.Forall_forall in Hspec. specialize (Hspec _ Hin).
      rewrite Z.eqb_refl in Hspec. discriminate.
Qed.

Lemma start_with_last_absent (last : Z) (es : list Z) :
  ~ In last es -> start_with_last last es = es.
Proof.
  intros Hnot. unfold start_with_last.
  pose proof (find_index_spec (Z.eqb last) (tl es) 1) as Hspec.
  destruct (find_index (Z.eqb last) (tl es) 1) as [i|]; [|reflexivity].
  destruct Hspec as (e & Hle & Hlook & Heq). apply Z.eqb_eq in Heq. subst e.
  exfalso. apply Hnot. destruct es as [|a rest]; [destruct (i - 1)%nat; discriminate|].
  right. apply list_elem_of_In. eapply list_elem_of_lookup_2. exact Hlook.
Qed.

Lemma take_drop_middle_perm (es : list Z) (i : nat) (x : Z) :
  es !! i = Some x -> Permutation (x :: take i es ++ drop (S i) es) es.
Proof.
  intros Hi. rewrite <- (take_drop_middle es i x Hi) at 3.
  apply Permutation_middle.
Qed.

Lemma start_with_last_perm (last : Z) (es : list Z) :
  Permutation (start_with_last last es) es.
Proof.
  destruct (in_dec Z.eq_dec last es) as [Hin|Hnot].
  - destruct (start_with_last_moves last es Hin) as (i & Hi & ->).
    now apply take_drop_middle_perm.
  - now rewrite start_with_last_absent.
Qed.

Lemma soluble_first_length (fs : Z -> bool) (es : list Z) :
  length (soluble_first fs es) = length es.
Proof.
  unfold soluble_first. destruct (find_index _ es 0) as [i|]; [|reflexivity].
  destruct (es !! i); [|reflexivity]. now rewrite !length_insert.
Qed.

Lemma start_with_last_length (last : Z) (es : list Z) :
  length (start_with_last last es) = length es.
Proof. apply Permutation_length, start_with_last_perm. Qed.

Lemma reorder_layer_nonempty (fs : Z -> bool) (b : bool) (last : Z) (es : list Z) :
  es <> [] -> reorder_layer fs b last es <> [].
Proof.
  intros Hne. unfold reorder_layer.
  destruct ((length es =? 1)%nat && (front es =? 0)) eqn:Hone; [discriminate|].
  assert (Hlen : (0 < length (drop_dont_care es))%nat).
  { unfold drop_dont_care. destruct es as [|a [|b' rest]]; [congruence| |].
    - simpl in *. destruct (a =? 0); [discriminate|simpl; lia].
    - simpl. destruct (a =? 0); simpl; lia. }
  intros Heq. apply (f_equal (@length Z)) in Heq. simpl in Heq.
  destruct b; rewrite ?soluble_first_length, start_with_last_length in Heq; lia.
Qed.





(** ** What [collect_extruders] hands over *)

Lemma insert_sorted_Zle (x : Z) (l : list Z) :
  StronglySorted Z.le l -> StronglySorted Z.le (insert_sorted Z.leb x l).
Proof.
  induction l as [|y rest IH]; intros Hs; simpl.
  - constructor; constructor.
  - destruct (Z.leb_spec x y) as [Hxy|Hxy].
    + constructor; [exact Hs|]. constructor; [exact Hxy|].
      apply StronglySorted_inv in Hs as [_ Hall].
      eapply List.Forall_impl; [|exact Hall]. intros z Hz. simpl in Hz. lia.
    + apply StronglySorted_inv in Hs as [Hs Hall]. constructor; [now apply IH|].
      rewrite List.Forall_forall in *. intros z Hz.
      apply insert_sorted_elem in Hz as [->|Hz]; [lia|now apply Hall].
Qed.

Lemma sort_list_Zle (l : list Z) : StronglySorted Z.le (sort_list Z.leb l).
Proof.
  induction l as [|x rest IH]; simpl; [constructor|]. now apply insert_sorted_Zle.
Qed.

Lemma unique_from_strictly_sorted (x : Z) (l : list Z) :
  StronglySorted Z.le (x :: l) ->
  strictly_sorted (unique_from Z.eqb x l) /\
  exists tl, unique_from Z.eqb x l = x :: tl.
Proof.
  revert x. induction l as [|y rest IH]; intros x Hs; simpl.
  - split; [exact I|now exists []].
  - apply StronglySorted_inv in Hs as [Hs Hall].
    assert (Hxy : x <= y) by (inversion Hall; assumption).
    destruct (Z.eqb_spec x y) as [->|Hne].
    + now apply IH.
    + destruct (IH y Hs) as (Hsorted & tl & Heq). split; [|eauto].
      rewrite Heq in *. simpl. split; [lia|exact Hsorted].
Qed.

Lemma sort_remove_duplicates_strictly_sorted (l : list Z) :
  strictly_sorted (sort_remove_duplicates Z.leb Z.eqb l).
Proof.
  unfold sort_remove_duplicates, unique. pose proof (sort_list_Zle l) as Hs.
  destruct (sort_list Z.leb l) as [|x rest]; [exact I|].
  now apply unique_from_strictly_sorted.
Qed.

(** The layers [collect_extruders] leaves are as [reorder_extruders] expects
    them, when the configured filaments are within [0, n]. *)
Lemma finish_collected_layers (n : Z) (lts : list LayerTools) :
  0 <= n ->
  Forall (fun lt => Forall (fun e => 0 <= e <= n) (extruders lt)) lts ->
  Forall (collected_layer n) (finish_collected lts).
Proof.
  intros Hn Hall. unfold finish_collected. rewrite List.Forall_map.
  eapply List.Forall_impl; [|exact Hall]. intros lt Hlt. simpl in Hlt.
  unfold collected_layer, finish_collected_layer. simpl.
  pose proof (sort_remove_duplicates_strictly_sorted (extruders lt)) as Hsorted.
  assert (Hrange : Forall (fun e => 0 <= e <= n)
                     (sort_remove_duplicates Z.leb Z.eqb (extruders lt))).
  { rewrite List.Forall_forall in *. intros e He. apply Hlt.
    exact (proj1 (sort_remove_duplicates_elem Z.leb Z.eqb Z.eqb_eq e (extruders lt)) He). }
  destruct (sort_remove_duplicates Z.leb Z.eqb (extruders lt)) as [|e es].
  - destruct (has_object lt); split; simpl; auto. constructor; [lia|constructor].
  - split; assumption.
Qed.

(** ** Zero-based extruder ids *)


Lemma strictly_sorted_tail_positive (a : Z) (es : list Z) :
  0 <= a -> strictly_sorted (a :: es) -> Forall (fun e => 1 <= e) es.
Proof.
  revert a. induction es as [|b rest IH]; intros a Ha Hs; [constructor|].
  destruct Hs as [Hab Hs]. constructor; [lia|]. apply (IH b); [lia|exact Hs].
Qed.

Lemma drop_dont_care_one_based (n : Z) (es : list Z) :
  strictly_sorted es -> Forall (fun e => 0 <= e <= n) es ->
  one_based n (drop_dont_care es).
Proof.
  intros Hs Hall. unfold drop_dont_care, one_based.
  destruct es as [|a rest]; [simpl; destruct (0 =? 0); constructor|].
  inversion Hall as [|? ? Ha Hrest]; subst.
  pose proof (strictly_sorted_tail_positive a rest ltac:(lia) Hs) as Hpos.
  assert (Htail : Forall (fun e => 1 <= e <= n) rest).
  { rewrite List.Forall_forall in *. intros e He.
    specialize (Hpos e He). specialize (Hrest e He). lia. }
  simpl. destruct (a =? 0) eqn:H0; [exact Htail|].
  apply Z.eqb_neq in H0. constructor; [lia|exact Htail].
Qed.

Lemma one_based_perm (n : Z) (es es' : list Z) :
  Permutation es' es -> one_based n es -> one_based n es'.
Proof.
  intros Hperm Hall. unfold one_based in *. rewrite List.Forall_forall in *.
  intros e He. apply Hall. eapply Permutation_in; eassumption.
Qed.

Lemma soluble_first_perm (fs : Z -> bool) (es : list Z) :
  forall e, In e (soluble_first fs es) -> In e es.
Proof.
  intros e. unfold soluble_first. destruct (find_index _ es 0) as [i|]; [|auto].
  destruct (es !! i) as [x|] eqn:Hx; [|auto].
  intros Hin. apply list_elem_of_In in Hin. apply list_elem_of_lookup in Hin as [k Hk].
  destruct (decide (k = 0%nat)) as [->|Hk0].
  - destruct es as [|a rest]; [discriminate|]. simpl in Hk.
    destruct i; simpl in Hk; injection Hk as <-;
      apply list_elem_of_In; eapply list_elem_of_lookup_2; exact Hx.
  - rewrite list_lookup_insert_ne in Hk by lia.
    destruct (decide (k = i)) as [->|Hki].
    + pose proof (lookup_lt_Some _ _ _ Hx) as Hlt.
      rewrite list_lookup_insert_eq in Hk by exact Hlt. injection Hk as <-.
      destruct es as [|a rest]; [discriminate|]. now left.
    + rewrite list_lookup_insert_ne in Hk by lia.
      apply list_elem_of_In. eapply list_elem_of_lookup_2. exact Hk.
Qed.

Lemma reorder_layer_one_based (n : Z) (fs : Z -> bool) (b : bool) (last : Z) (es : list Z) :
  strictly_sorted es -> Forall (fun e => 0 <= e <= n) es -> 1 <= last <= n ->
  one_based n (reorder_layer fs b last es).
Proof.
  intros Hs Hall Hlast. unfold reorder_layer.
  destruct ((length es =? 1)%nat && (front es =? 0)); [constructor; [exact Hlast|constructor]|].
  assert (H2 : one_based n (start_with_last last (drop_dont_care es))).
  { eapply one_based_perm; [apply start_with_last_perm|].
    now apply drop_dont_care_one_based. }
  destruct b; [|exact H2]. unfold one_based in *. rewrite List.Forall_forall in *.
  intros e He. apply H2. eapply soluble_first_perm. exact He.
Qed.

Lemma back_one_based (n : Z) (es : list Z) :
  es <> [] -> one_based n es -> 1 <= back es <= n.
Proof.
  intros Hne Hall. unfold back, one_based in *.
  destruct es as [|a rest]; [congruence|]. apply (exists_last (l := a :: rest)) in Hne.
  destruct Hne as [l' [x Heq]]. rewrite Heq in *. rewrite last_last.
  rewrite List.Forall_forall in Hall. apply Hall. apply in_or_app. right. now left.
Qed.

Lemma reorder_loop_one_based (n : Z) (fs : Z -> bool) (rule : LayerTools -> bool)
    (lts : list LayerTools) (start : Z) :
  1 <= start <= n -> Forall (collected_layer n) lts ->
  Forall (fun lt => one_based n (extruders lt)) (reorder_loop fs rule start lts).
Proof.
  revert start. induction lts as [|lt rest IH]; intros start Hstart Hall; [constructor|].
  inversion Hall as [|? ? [Hs Hr] Hrest]; subst. simpl.
  destruct (extruders lt) as [|e es] eqn:He.
  - constructor; [rewrite He; constructor|]. now apply IH.
  - rewrite <- He in *.
    pose proof (reorder_layer_one_based n fs (rule lt) start (extruders lt) Hs Hr Hstart) as H1.
    constructor; [exact H1|]. apply IH; [|exact Hrest].
    apply back_one_based; [|exact H1]. apply reorder_layer_nonempty. rewrite He. discriminate.
Qed.

Lemma reindex_zero_based (n : Z) (lts : list LayerTools) :
  n <= UINT_MAX ->
  Forall (fun lt => one_based n (extruders lt)) lts ->
  zero_based_ids n (reindex lts).
Proof.
  intros Hn Hall. unfold zero_based_ids, reindex. rewrite List.Forall_map.
  eapply List.Forall_impl; [|exact Hall]. intros lt Hlt. simpl.
  rewrite List.Forall_map. eapply List.Forall_impl; [|exact Hlt].
  intros e He. simpl in He. unfold decr_uint, UINT_MAX in *.
  rewrite Z.mod_small; lia.
Qed.

Lemma first_nonzero_extruder_spec (n : Z) (lts : list LayerTools) :
  Forall (collected_layer n) lts ->
  (first_nonzero_extruder lts = 0 /\
   Forall (fun lt => Forall (fun e => e = 0) (extruders lt)) lts)
  \/ 1 <= first_nonzero_extruder lts <= n.
Proof.
  induction lts as [|lt rest IH]; intros Hall; [left; split; [reflexivity|constructor]|].
  inversion Hall as [|? ? [Hs Hr] Hrest]; subst. simpl.
  destruct (List.find (fun e => negb (e =? 0)) (extruders lt)) as [e|] eqn:Hfind.
  - right. apply find_some in Hfind as [Hin Hnz]. rewrite List.Forall_forall in Hr.
    specialize (Hr e Hin). apply negb_true_iff, Z.eqb_neq in Hnz. lia.
  - destruct (IH Hrest) as [[H0 Hzero]|Hpos]; [left|now right].
    split; [exact H0|]. constructor; [|exact Hzero].
    rewrite List.Forall_forall. intros e He.
    pose proof (find_none _ _ Hfind e He) as Hnz. simpl in Hnz.
    apply negb_false_iff, Z.eqb_eq in Hnz. exact Hnz.
Qed.

(** The overload taking the previous extruder hands zero-based ids on, also
    when it returns early because nothing but "don't care" was collected. *)
Lemma reorder_extruders_uint_zero_based (n : Z) (cfg : ReorderConfig)
    (last_extruder_id : Z) (lts : list LayerTools) :
  0 < n <= UINT_MAX ->
  last_extruder_id = UINT_MAX \/ 0 <= last_extruder_id < n ->
  Forall (collected_layer n) lts ->
  zero_based_ids n (reorder_extruders_uint cfg last_extruder_id lts).
Proof.
  intros Hn Hlast Hall. unfold reorder_extruders_uint.
  destruct lts as [|lt0 rest] eqn:Hl; [constructor|]. rewrite <- Hl in *. clear Hl.
  destruct (last_extruder_id =? UINT_MAX) eqn:Hmax; cbn [andb].
  - destruct (first_nonzero_extruder_spec n lts Hall) as [[H0 Hzero]|Hpos].
    + rewrite H0. change (0 =? 0) with true. cbv iota. unfold zero_based_ids.
      eapply List.Forall_impl; [|exact Hzero]. intros lt Hlt. simpl in Hlt.
      eapply List.Forall_impl; [|exact Hlt]. intros e ->. simpl. lia.
    + assert ((first_nonzero_extruder lts =? 0) = false) as -> by (apply Z.eqb_neq; lia).
      apply reindex_zero_based; [lia|]. now apply reorder_loop_one_based.
  - apply Z.eqb_neq in Hmax. destruct Hlast as [Hlast|Hlast]; [congruence|].
    apply reindex_zero_based; [lia|]. apply reorder_loop_one_based; [|exact Hall].
    unfold UINT_MAX in *. rewrite Z.mod_small; lia.
Qed.

Lemma take_tool_order_spec (tool : list Z) (l acc l' acc' : list Z) :
  take_tool_order tool l acc = (l', acc') ->
  (forall e, In e acc' -> In e acc \/ In e tool) /\
  (forall e, In e l' -> In e l \/ e = UINT_MAX).
Proof.
  revert l acc. induction tool as [|t rest IH]; intros l acc Heq; simpl in Heq.
  - injection Heq as <- <-. auto.
  - destruct (find_index (Z.eqb t) l 0) as [i|].
    + destruct (IH _ _ Heq) as [Hacc Hl]. split.
      * intros e He. destruct (Hacc e He) as [H|H]; [|right; now right].
        apply in_app_or in H as [H|[<-|[]]]; [now left|right; now left].
      * intros e He. destruct (Hl e He) as [H|H]; [|now right].
        apply list_elem_of_In in H. apply list_elem_of_lookup in H as [k Hk].
        destruct (decide (k = i)) as [->|Hne].
        -- destruct (decide (i < length l)%nat) as [Hlt|Hge].
           ++ rewrite list_lookup_insert_eq in Hk by exact Hlt. right. congruence.
           ++ rewrite list_insert_ge in Hk by lia. left.
              apply list_elem_of_In. eapply list_elem_of_lookup_2. exact Hk.
        -- rewrite list_lookup_insert_ne in Hk by lia. left.
           apply list_elem_of_In. eapply list_elem_of_lookup_2. exact Hk.
    + destruct (IH _ _ Heq) as [Hacc Hl]. split; [|exact Hl].
      intros e He. destruct (Hacc e He) as [H|H]; [now left|right; now right].
Qed.

Lemma reorder_first_layer_one_based (n : Z) (tool es : list Z) :
  n < UINT_MAX -> one_based n tool -> Forall (fun e => 0 <= e <= n) es ->
  one_based n (reorder_first_layer tool es).
Proof.
  intros Hn Htool Hes. unfold reorder_first_layer.
  destruct (take_tool_order tool es []) as [l' acc'] eqn:Htake.
  destruct (take_tool_order_spec _ _ _ _ _ Htake) as [Hacc Hl].
  assert (Hall : one_based n
            (acc' ++ List.filter (fun e => negb (e =? 0) && negb (e =? UINT_MAX)) l')).
  { unfold one_based in *. rewrite List.Forall_forall in *. intros e He.
    apply in_app_or in He as [He|He].
    - destruct (Hacc e He) as [[]|H]. now apply Htool.
    - apply filter_In in He as [He Hp]. apply andb_true_iff in Hp as [H0 Hmax].
      apply negb_true_iff in H0, Hmax. apply Z.eqb_neq in H0, Hmax.
      destruct (Hl e He) as [H|H]; [|congruence].
      specialize (Hes e H). lia. }
  destruct (acc' ++ List.filter _ l') as [|a rest] eqn:Hacc'; [|exact Hall].
  destruct tool as [|t tool']; [constructor|].
  inversion Htool; subst. constructor; [assumption|constructor].
Qed.

(** The overload taking the first layer's tool order hands zero-based ids on,
    provided it has an extruder to start from. *)
Lemma reorder_extruders_vec_zero_based (n : Z) (cfg : ReorderConfig)
    (tool_order_layer0 : list Z) (lts : list LayerTools) :
  0 < n < UINT_MAX ->
  one_based n tool_order_layer0 ->
  Forall (collected_layer n) lts ->
  start_extruder_known tool_order_layer0 lts ->
  zero_based_ids n (reorder_extruders_vec cfg tool_order_layer0 lts).
Proof.
  intros Hn Htool Hall Hknown. unfold reorder_extruders_vec.
  destruct lts as [|lt0 rest]; [constructor|].
  inversion Hall as [|? ? [Hs0 Hr0] Hrest]; subst.
  pose proof (reorder_first_layer_one_based n tool_order_layer0 (extruders lt0)
                ltac:(lia) Htool Hr0) as H0.
  apply reindex_zero_based; [lia|]. constructor; [exact H0|].
  apply reorder_loop_one_based; [|exact Hrest].
  destruct (reorder_first_layer tool_order_layer0 (extruders lt0)) as [|a es0] eqn:Hes0.
  - destruct Hknown as [Hk|Hk]; [congruence|].
    destruct (first_nonzero_extruder_spec n rest Hrest) as [[Hz _]|Hpos]; [congruence|exact Hpos].
  - apply back_one_based; [discriminate|exact H0].
Qed.

(** C5 at its failing input. A print whose two layers collected only the
    "don't care" extruder, reordered with an empty first-layer tool order on a
    four-filament printer: the second layer ends up with the id 4294967295,
    the wrapped decrement of 0, outside [0, 4). The overload taking the
    previous extruder returns early on the same layers and leaves them at
    [[0]]. *)
Lemma reorder_extruders_vec_dont_care_wraps :
  let cfg := mkReorderConfig false false (fun _ => false) in
  let lts := [set_extruders [0] (new_LayerTools (1 # 5));
              set_extruders [0] (new_LayerTools (2 # 5))] in
  Forall (collected_layer 4) lts /\
  map extruders (reorder_extruders_vec cfg [] lts) = [[]; [4294967295]] /\
  ~ zero_based_ids 4 (reorder_extruders_vec cfg [] lts) /\
  map extruders (reorder_extruders_uint cfg UINT_MAX lts) = [[0]; [0]].
Proof.
  intros cfg lts. split; [|split; [reflexivity|split; [|reflexivity]]].
  - unfold lts, collected_layer. repeat constructor; simpl; lia.
  - intros H. unfold zero_based_ids in H.
    apply Forall_cons_1 in H as [_ H]. apply Forall_cons_1 in H as [H _].
    vm_compute in H. apply Forall_cons_1 in H as [[_ H] _]. discriminate H.
Qed.

(** ** TPU rules of the grouping *)


Lemma collect_sorted_used_filaments_elem (layer_filaments : list (list Z)) (f : Z) :
  In f (collect_sorted_used_filaments layer_filaments) <->
  exists layer, In layer layer_filaments /\ In f layer.
Proof.
  unfold collect_sorted_used_filaments.
  rewrite (sort_remove_duplicates_elem Z.leb Z.eqb Z.eqb_eq), in_concat. reflexivity.
Qed.

Lemma two_elements_size (X : gset Z) (x y : Z) :
  x ∈ X -> y ∈ X -> x <> y -> (1 < size X)%nat.
Proof.
  intros Hx Hy Hne.
  assert (Hsub : ({[x]} ∪ {[y]} : gset Z) ⊆ X).
  { apply union_subseteq. split; now apply singleton_subseteq_l. }
  assert (Hdisj : ({[x]} : gset Z) ## {[y]}).
  { apply disjoint_singleton_l. now apply not_elem_of_singleton. }
  apply subseteq_size in Hsub. rewrite (size_union _ _ Hdisj) in Hsub.
  rewrite !size_singleton in Hsub. lia.
Qed.

Lemma get_tpu_filaments_elem (cfg : GroupConfig) (used : list Z) (f : Z) :
  f ∈ get_tpu_filaments cfg used <-> In f used /\ is_tpu cfg f = true.
Proof.
  unfold get_tpu_filaments. split; intros Hf.
  - apply elem_of_list_to_set in Hf. apply list_elem_of_In in Hf. now apply filter_In in Hf.
  - apply elem_of_list_to_set. apply list_elem_of_In. now apply filter_In.
Qed.

Lemma check_tpu_loop_spec (cfg : GroupConfig) (maps rest pre : list Z) (c : Z)
    (nums : gmap Z (list Z)) :
  Forall (fun f => 0 <= map_at maps f) (pre ++ rest) ->
  loop_summary cfg maps pre c nums ->
  match check_tpu_loop cfg maps rest c nums with
  | None => (2 <= length (List.filter (is_tpu cfg) (pre ++ rest)))%nat
  | Some (c', nums') => loop_summary cfg maps (pre ++ rest) c' nums'
  end.
Proof.
  revert pre c nums. induction rest as [|f rest IH]; intros pre c nums Hpos [Hnums Htpu].
  - simpl. rewrite app_nil_r. split; assumption.
  - assert (Hnums' : forall e,
              default [] (<[map_at maps f := default [] (nums !! map_at maps f) ++ [f]]> nums !! e)
              = List.filter (fun f0 => map_at maps f0 =? e) (pre ++ [f])).
    { intros e. rewrite List.filter_app. simpl.
      destruct (Z.eqb_spec (map_at maps f) e) as [->|Hne].
      - rewrite lookup_insert_eq. simpl. now rewrite Hnums.
      - rewrite lookup_insert_ne by exact Hne. rewrite app_nil_r. apply Hnums. }
    assert (Hfpos : 0 <= map_at maps f).
    { rewrite List.Forall_forall in Hpos. apply Hpos. apply in_or_app. right. now left. }
    replace (pre ++ f :: rest) with ((pre ++ [f]) ++ rest) in * by (now rewrite <- app_assoc).
    simpl. destruct (is_tpu cfg f) eqn:Hf.
    + destruct (c =? -1) eqn:Hc.
      * apply IH; [exact Hpos|]. split; [exact Hnums'|].
        rewrite List.filter_app. simpl. rewrite Hf. apply Z.eqb_eq in Hc.
        destruct (List.filter (is_tpu cfg) pre) as [|t [|t' ts]] eqn:Hpre;
          [reflexivity| |destruct Htpu].
        exfalso. assert (Hin : In t pre).
        { eapply (proj1 (filter_In _ t pre)). rewrite Hpre. now left. }
        rewrite List.Forall_forall in Hpos. specialize (Hpos t).
        rewrite <- Htpu, Hc in Hpos. 
        assert (0 <= -1); [|lia]. apply Hpos. apply in_or_app. left.
        apply in_or_app. now left.
      * apply Z.eqb_neq in Hc. rewrite !List.filter_app, !length_app. simpl. rewrite Hf.
        destruct (List.filter (is_tpu cfg) pre) as [|t ts]; [congruence|].
        simpl. lia.
    + apply IH; [exact Hpos|]. split; [exact Hnums'|].
      rewrite List.filter_app. simpl. rewrite Hf, app_nil_r. exact Htpu.
Qed.

(** [check_tpu_group] accepts exactly the maps that leave the TPU filament
    alone on the master extruder. *)
Lemma check_tpu_group_spec (cfg : GroupConfig) (used maps : list Z) :
  Forall (fun f => 0 <= map_at maps f) used ->
  check_tpu_group cfg used maps = true <-> tpu_alone_on_master cfg used maps.
Proof.
  intros Hpos. unfold check_tpu_group, tpu_alone_on_master.
  pose proof (check_tpu_loop_spec cfg maps used [] (-1) ∅ Hpos) as Hspec.
  simpl in Hspec. specialize (Hspec (conj (fun e => eq_refl) eq_refl)).
  destruct (check_tpu_loop cfg maps used (-1) ∅) as [[c nums]|].
  - destruct Hspec as [Hnums Htpu]. rewrite Hnums.
    destruct (List.filter (is_tpu cfg) used) as [|t [|t' ts]] eqn:Hfil.
    + subst c. simpl. tauto.
    + subst c. assert (Hin : In t used).
      { eapply (proj1 (filter_In _ t used)). rewrite Hfil. now left. }
      assert (Hge : 0 <= map_at maps t)
        by (rewrite List.Forall_forall in Hpos; now apply Hpos).
      assert ((map_at maps t =? -1) = false) as -> by (apply Z.eqb_neq; lia).
      simpl negb at 2. rewrite andb_true_l, negb_true_iff, orb_false_iff.
      rewrite negb_false_iff, Z.eqb_eq, Nat.ltb_ge.
      assert (Hint : In t (List.filter (fun f => map_at maps f =? map_at maps t) used)).
      { apply filter_In. split; [exact Hin|apply Z.eqb_refl]. }
      split.
      * intros [Hm Hlen]. split; [exact Hm|].
        destruct (List.filter (fun f => map_at maps f =? map_at maps t) used)
          as [|a [|b rest]]; [destruct Hint| |simpl in Hlen; lia].
        destruct Hint as [->|[]]. reflexivity.
      * intros [Hm ->]. split; [exact Hm|simpl; lia].
    + destruct Htpu.
  - split; [discriminate|].
    destruct (List.filter (is_tpu cfg) used) as [|t [|t' ts]];
      simpl in Hspec; [lia|lia|tauto].
Qed.

(** Two TPU filaments among the used ones: [get_physical_unprintables] throws,
    whatever the number of nozzles. *)
Lemma two_tpu_throw (grp : FilamentGroupContext -> list (list Z) -> list Z -> list Z)
    (sequencer : list Z -> list (list Z) -> bool -> list (list Z))
    (cfg : GroupConfig) (print : PrintState) (flag : bool)
    (lts : list LayerTools) (t1 t2 : Z) :
  lts <> [] ->
  In t1 (collect_sorted_used_filaments (map extruders lts)) ->
  In t2 (collect_sorted_used_filaments (map extruders lts)) ->
  t1 <> t2 -> is_tpu cfg t1 = true -> is_tpu cfg t2 = true ->
  reorder_extruders_for_minimum_flush_volume grp sequencer (Some cfg) print flag lts
  = RuntimeError "Only supports up to one TPU filament.".
Proof.
  intros Hne H1 H2 Hdiff Ht1 Ht2. unfold reorder_extruders_for_minimum_flush_volume.
  destruct lts as [|lt rest]; [congruence|]. unfold get_physical_unprintables.
  set (used := collect_sorted_used_filaments (map extruders (lt :: rest))) in *.
  assert (Hsize : (1 < size (get_tpu_filaments cfg used))%nat).
  { apply (two_elements_size _ t1 t2); [| |exact Hdiff];
      apply get_tpu_filaments_elem; auto. }
  apply Nat.ltb_lt in Hsize. now rewrite Hsize.
Qed.

Lemma map_at_pred (maps : list Z) (f : Z) :
  Forall (fun v => 1 <= v) maps -> 0 <= map_at (map (fun v => v - 1) maps) f.
Proof.
  intros Hall. unfold map_at. revert maps Hall.
  induction (Z.to_nat f) as [|k IH]; intros [|v maps] Hall; simpl; try lia.
  - inversion Hall; subst. lia.
  - apply IH. now inversion Hall.
Qed.

(** A manual map that does not leave the TPU filament alone on the master
    extruder is refused where the check is made: more than one nozzle, and not
    printing several objects one after the other. *)
Lemma manual_map_throw (grp : FilamentGroupContext -> list (list Z) -> list Z -> list Z)
    (sequencer : list Z -> list (list Z) -> bool -> list (list Z))
    (cfg : GroupConfig) (print : PrintState) (flag : bool)
    (lts : list LayerTools) :
  lts <> [] ->
  1 < nozzle_count cfg ->
  print_sequence cfg = ByLayer \/ object_count print = 1%nat ->
  filament_map_mode print = fmmManual ->
  Forall (fun v => 1 <= v) (filament_maps print) ->
  ~ tpu_alone_on_master cfg (collect_sorted_used_filaments (map extruders lts))
      (map (fun v => v - 1) (filament_maps print)) ->
  is_error (reorder_extruders_for_minimum_flush_volume grp sequencer (Some cfg) print flag lts) = true.
Proof.
  intros Hne Hnoz Hseq Hmode Hmaps Hbad.
  unfold reorder_extruders_for_minimum_flush_volume.
  destruct lts as [|lt rest]; [congruence|].
  set (used := collect_sorted_used_filaments (map extruders (lt :: rest))) in *.
  destruct (get_physical_unprintables cfg used) as [physical|msg]; [|reflexivity].
  unfold settle_filament_maps. apply Z.ltb_lt in Hnoz. rewrite Hnoz, Hmode.
  assert (Hcheck : check_tpu_group cfg used (map (fun v => v - 1) (filament_maps print)) = false).
  { apply not_true_is_false. intros Hc. apply Hbad. apply check_tpu_group_spec; [|exact Hc].
    rewrite List.Forall_forall. intros f _. now apply map_at_pred. }
  destruct Hseq as [Hseq|Hobj].
  - rewrite Hseq, Hcheck. reflexivity.
  - rewrite Hobj. simpl. rewrite Hcheck. destruct (print_sequence cfg); reflexivity.
Qed.

Lemma filter_agree (p q : Z -> bool) (l : list Z) :
  (forall f, In f l -> q f = p f) -> List.filter q l = List.filter p l.
Proof.
  induction l as [|a rest IH]; intros Hpq; [reflexivity|]. simpl.
  rewrite (Hpq a (or_introl eq_refl)). rewrite IH; [reflexivity|].
  intros f Hf. apply Hpq. now right.
Qed.

Lemma map_at_seq (g : Z -> Z) (n : nat) (f : Z) :
  0 <= f < Z.of_nat n ->
  map_at (map g (map Z.of_nat (seq 0 n))) f = g f.
Proof.
  intros Hf. unfold map_at. rewrite List.map_map.
  rewrite (nth_indep _ 0 (g (Z.of_nat 0))) by (rewrite length_map, length_seq; lia).
  rewrite (List.map_nth (fun x => g (Z.of_nat x))). rewrite seq_nth by lia.
  simpl. f_equal. lia.
Qed.

(** The automatic grouping of a two-nozzle job with exactly one used TPU
    filament: the TPU filament on the master extruder, every other filament on
    the other one; [check_tpu_group] accepts it. *)
Lemma one_tpu_recommended (grp : FilamentGroupContext -> list (list Z) -> list Z -> list Z)
    (cfg : GroupConfig) (layer_filaments : list (list Z))
    (physical geometric : list (gset Z)) (t : Z) :
  layer_filaments <> [] ->
  nozzle_count cfg = 2 ->
  1 <= master_extruder_id cfg <= 2 ->
  List.filter (is_tpu cfg) (collect_sorted_used_filaments layer_filaments) = [t] ->
  Forall (fun f => 0 <= f < Z.of_nat (filament_count cfg))
    (collect_sorted_used_filaments layer_filaments) ->
  let maps := get_recommended_filament_maps grp cfg layer_filaments physical geometric in
  map_at maps t = master_extruder_id cfg - 1 /\
  (forall f, 0 <= f < Z.of_nat (filament_count cfg) -> f <> t ->
     map_at maps f = 1 - (master_extruder_id cfg - 1)) /\
  tpu_alone_on_master cfg (collect_sorted_used_filaments layer_filaments) maps /\
  check_tpu_group cfg (collect_sorted_used_filaments layer_filaments) maps = true.
Proof.
  intros Hne Hnoz Hmaster Htpu Hrange maps.
  set (used := collect_sorted_used_filaments layer_filaments) in *.
  assert (Htin : In t used /\ is_tpu cfg t = true).
  { apply filter_In. rewrite Htpu. now left. }
  assert (Honly : forall f, In f used -> is_tpu cfg f = true -> f = t).
  { intros f Hf Hp. assert (Hin : In f (List.filter (is_tpu cfg) used))
      by (apply filter_In; auto).
    rewrite Htpu in Hin. destruct Hin as [<-|[]]. reflexivity. }
  assert (Hset : forall f, f ∈ get_tpu_filaments cfg used <-> In f used /\ is_tpu cfg f = true)
    by (intros f; apply get_tpu_filaments_elem).
  assert (Hmaps : maps
            = map (fun fidx => if decide (fidx ∈ get_tpu_filaments cfg used)
                               then master_extruder_id cfg - 1
                               else 1 - (master_extruder_id cfg - 1))
                (map Z.of_nat (seq 0 (filament_count cfg)))).
  { unfold maps, get_recommended_filament_maps.
    destruct layer_filaments as [|l ls]; [congruence|]. rewrite Hnoz. simpl Z.eqb. cbv iota.
    fold used. destruct (decide (get_tpu_filaments cfg used = ∅)) as [Hempty|_]; [|reflexivity].
    exfalso. assert (Ht : t ∈ get_tpu_filaments cfg used) by (apply Hset; exact Htin).
    rewrite Hempty in Ht. now apply not_elem_of_empty in Ht. }
  assert (Ht : map_at maps t = master_extruder_id cfg - 1).
  { rewrite Hmaps, map_at_seq.
    - destruct (decide (t ∈ get_tpu_filaments cfg used)) as [_|Hn]; [reflexivity|].
      exfalso. apply Hn. now apply Hset.
    - rewrite List.Forall_forall in Hrange. apply Hrange. tauto. }
  assert (Hother : forall f, 0 <= f < Z.of_nat (filament_count cfg) -> f <> t ->
            map_at maps f = 1 - (master_extruder_id cfg - 1)).
  { intros f Hf Hft. rewrite Hmaps, map_at_seq by exact Hf.
    destruct (decide (f ∈ get_tpu_filaments cfg used)) as [Hin|_]; [|reflexivity].
    exfalso. apply Hft. apply Hset in Hin as [Hin Hp]. now apply Honly. }
  assert (Halone : tpu_alone_on_master cfg used maps).
  { unfold tpu_alone_on_master. rewrite Htpu. split; [exact Ht|].
    rewrite <- Htpu. apply filter_agree. intros f Hf.
    destruct (Z.eq_dec f t) as [->|Hft].
    - rewrite Z.eqb_refl. symmetry. tauto.
    - rewrite Hother, Ht; [|rewrite List.Forall_forall in Hrange; now apply Hrange|exact Hft].
      destruct (is_tpu cfg f) eqn:Hp; [exfalso; apply Hft; now apply Honly|].
      apply Z.eqb_neq. lia. }
  split; [exact Ht|]. split; [exact Hother|]. split; [exact Halone|].
  apply check_tpu_group_spec; [|exact Halone].
  rewrite List.Forall_forall. intros f Hf. destruct (Z.eq_dec f t) as [->|Hft].
  - rewrite Ht. lia.
  - rewrite Hother; [lia| |exact Hft]. rewrite List.Forall_forall in Hrange. now apply Hrange.
Qed.

Lemma map_succ_pred (m : list Z) :
  map (fun v => v - 1) (map (fun v => v + 1) m) = m.
Proof.
  induction m as [|a rest IH]; simpl; [reflexivity|]. rewrite IH. f_equal. lia.
Qed.

(** The automatic map is checked in the same place. *)
Lemma auto_map_checked (grp : FilamentGroupContext -> list (list Z) -> list Z -> list Z)
    (sequencer : list Z -> list (list Z) -> bool -> list (list Z))
    (cfg : GroupConfig) (print : PrintState) (flag : bool)
    (lts : list LayerTools) (physical : list (gset Z)) :
  lts <> [] ->
  1 < nozzle_count cfg ->
  print_sequence cfg = ByLayer \/ object_count print = 1%nat ->
  filament_map_mode print = fmmAuto ->
  get_physical_unprintables cfg (collect_sorted_used_filaments (map extruders lts))
  = Ok physical ->
  let maps :=
    get_recommended_filament_maps grp cfg (map extruders lts) physical
      (get_geometrical_unprintables cfg (unprintable_filament_ids print)) in
  maps <> [] ->
  is_error (reorder_extruders_for_minimum_flush_volume grp sequencer (Some cfg) print flag lts)
  = negb (check_tpu_group cfg (collect_sorted_used_filaments (map extruders lts)) maps).
Proof.
  intros Hne Hnoz Hseq Hmode Hphys maps Hmaps.
  unfold reorder_extruders_for_minimum_flush_volume.
  destruct lts as [|lt rest]; [congruence|]. rewrite Hphys.
  unfold settle_filament_maps. apply Z.ltb_lt in Hnoz. rewrite Hnoz, Hmode.
  fold maps. destruct maps as [|a m] eqn:Hm; [congruence|]. rewrite <- Hm.
  assert (Hgoal :
    is_error
      match
        (if check_tpu_group cfg
              (collect_sorted_used_filaments (map extruders (lt :: rest)))
              (map (fun v => v - 1) (map (fun v => v + 1) maps))
         then Ok (Some (map (fun v => v - 1) (map (fun v => v + 1) maps)))
         else RuntimeError
                "Auto grouping error: TPU can only be placed in a nozzle alone.")
      with
      | Ok (Some maps0) =>
          Ok (assign_sequences
                (sequencer maps0 (map extruders (lt :: rest)) flag) (lt :: rest))
      | Ok None => Ok (lt :: rest)
      | RuntimeError msg => RuntimeError msg
      end
    = negb (check_tpu_group cfg
              (collect_sorted_used_filaments (map extruders (lt :: rest))) maps)).
  { rewrite map_succ_pred. destruct (check_tpu_group _ _ maps); reflexivity. }
  destruct Hseq as [Hseq|Hobj].
  - rewrite Hseq. rewrite Hm in *. exact Hgoal.
  - rewrite Hobj. rewrite Hm in *. destruct (print_sequence cfg); exact Hgoal.
Qed.

(** C2 (amended). With a configuration and a non-empty layer list: (1) two
    different TPU filaments among the used ones make the driver throw, on any
    printer; (2) on a printer with more than one nozzle, when printing by layer
    or a single object, a manual map that does not leave the only TPU filament
    alone on the master extruder makes the driver throw, and (3) the
    automatic map is put to the same test; (4) on a two-nozzle printer with
    exactly one used TPU filament the automatic map puts that filament on the
    master extruder and every other filament on the other extruder, which
    passes the test. Single-nozzle printers and by-object prints of several
    objects are not tested here. *)
Theorem tpu_rules (grp : FilamentGroupContext -> list (list Z) -> list Z -> list Z)
    (sequencer : list Z -> list (list Z) -> bool -> list (list Z))
    (cfg : GroupConfig) (print : PrintState) (flag : bool) (lts : list LayerTools) :
  lts <> [] ->
  let used := collect_sorted_used_filaments (map extruders lts) in
  let run :=
    reorder_extruders_for_minimum_flush_volume grp sequencer (Some cfg) print flag lts in
  (forall t1 t2, In t1 used -> In t2 used -> t1 <> t2 ->
     is_tpu cfg t1 = true -> is_tpu cfg t2 = true ->
     run = RuntimeError "Only supports up to one TPU filament.") /\
  (1 < nozzle_count cfg ->
   print_sequence cfg = ByLayer \/ object_count print = 1%nat ->
   filament_map_mode print = fmmManual ->
   Forall (fun v => 1 <= v) (filament_maps print) ->
   ~ tpu_alone_on_master cfg used (map (fun v => v - 1) (filament_maps print)) ->
   is_error run = true) /\
  (1 < nozzle_count cfg ->
   print_sequence cfg = ByLayer \/ object_count print = 1%nat ->
   filament_map_mode print = fmmAuto ->
   forall physical, get_physical_unprintables cfg used = Ok physical ->
   let maps :=
     get_recommended_filament_maps grp cfg (map extruders lts) physical
       (get_geometrical_unprintables cfg (unprintable_filament_ids print)) in
   maps <> [] ->
   is_error run = negb (check_tpu_group cfg used maps)) /\
  (nozzle_count cfg = 2 ->
   1 <= master_extruder_id cfg <= 2 ->
   forall t, List.filter (is_tpu cfg) used = [t] ->
   Forall (fun f => 0 <= f < Z.of_nat (filament_count cfg)) used ->
   forall physical geometric,
     let maps := get_recommended_filament_maps grp cfg (map extruders lts) physical geometric in
     map_at maps t = master_extruder_id cfg - 1 /\
     (forall f, 0 <= f < Z.of_nat (filament_count cfg) -> f <> t ->
        map_at maps f = 1 - (master_extruder_id cfg - 1)) /\
     tpu_alone_on_master cfg used maps /\
     check_tpu_group cfg used maps = true).
Proof.
  intros Hne used run. split; [|split; [|split]].
  - intros t1 t2 H1 H2 Hd Hp1 Hp2.
    exact (two_tpu_throw grp sequencer cfg print flag lts t1 t2 Hne H1 H2 Hd Hp1 Hp2).
  - intros. now apply manual_map_throw.
  - intros Hnoz Hseq Hmode physical Hphys maps Hmaps.
    now apply auto_map_checked.
  - intros Hnoz Hmaster t Htpu Hrange physical geometric.
    apply one_tpu_recommended; auto.
    destruct lts; [congruence|discriminate].
Qed.

(** C2 on sample jobs with three filaments on one layer: two TPU filaments
    throw; with one TPU filament on a two-nozzle printer the automatic map is
    [0; 1; 1]. *)
Lemma tpu_rules_witness :
  sample_layers <> [] /\
  reorder_extruders_for_minimum_flush_volume sample_group sample_sequencer
    (Some (sample_group_config sample_types_two_tpu 2 ByLayer []))
    (sample_print [1; 1; 1] fmmAuto 1) true sample_layers
  = RuntimeError "Only supports up to one TPU filament." /\
  get_recommended_filament_maps sample_group
    (sample_group_config sample_types_one_tpu 2 ByLayer [])
    (map extruders sample_layers) [] []
  = [0; 1; 1].
Proof.
  assert (Hne : sample_layers <> []) by discriminate.
  split; [exact Hne|]. split; [|reflexivity].
  refine (proj1 (tpu_rules sample_group sample_sequencer
                   (sample_group_config sample_types_two_tpu 2 ByLayer [])
                   (sample_print [1; 1; 1] fmmAuto 1) true sample_layers Hne)
            0 1 _ _ _ eq_refl eq_refl).
  - vm_compute. now left.
  - vm_compute. right. now left.
  - discriminate.
Defined.

(** C2 as stated fails where the test is not made. A single-nozzle printer
    prints the TPU filament 0 together with filaments 1 and 2 on its only
    extruder, and a by-object print of two objects on a two-nozzle printer
    keeps a manual map with the TPU filament on the non-master extruder 2:
    neither makes the driver throw. *)
Lemma tpu_not_checked_everywhere :
  let single :=
    reorder_extruders_for_minimum_flush_volume sample_group sample_sequencer
      (Some (sample_group_config sample_types_one_tpu 1 ByLayer []))
      (sample_print [1; 1; 1] fmmManual 1) true sample_layers in
  let by_object :=
    reorder_extruders_for_minimum_flush_volume sample_group sample_sequencer
      (Some (sample_group_config sample_types_one_tpu 2 ByObject []))
      (sample_print [2; 1; 1] fmmManual 2) true sample_layers in
  ~ tpu_alone_on_master (sample_group_config sample_types_one_tpu 1 ByLayer [])
      (collect_sorted_used_filaments (map extruders sample_layers)) [0; 0; 0] /\
  is_error single = false /\
  ~ tpu_alone_on_master (sample_group_config sample_types_one_tpu 2 ByObject [])
      (collect_sorted_used_filaments (map extruders sample_layers)) [1; 0; 0] /\
  is_error by_object = false.
Proof.
  split; [|split; [reflexivity|split; [|reflexivity]]].
  - vm_compute. intros [_ H]. discriminate H.
  - vm_compute. intros [H _]. discriminate H.
Qed.

(** ** Capacities of the extruders *)

Lemma group_size_lookup (cfg : GroupConfig) (i : nat) (counts : list (Z * Z)) :
  extruder_ams_counts cfg !! i = Some counts ->
  group_size cfg !! i
  = Some (if ams_slots counts =? 0 then 1 else ams_slots counts).
Proof.
  intros Hi. unfold group_size.
  destruct (extruder_ams_counts cfg) as [|c0 cs] eqn:Hc; [discriminate|].
  rewrite <- Hc in *. rewrite list_lookup_fmap.
  rewrite lookup_app_l by (rewrite length_map; eapply lookup_lt_Some; exact Hi).
  rewrite list_lookup_fmap, Hi. reflexivity.
Qed.

Lemma tpu_path_lookup (grp : FilamentGroupContext -> list (list Z) -> list Z -> list Z)
    (cfg : GroupConfig) (layer_filaments : list (list Z))
    (physical geometric : list (gset Z)) (f : Z) :
  layer_filaments <> [] ->
  nozzle_count cfg = 2 ->
  get_tpu_filaments cfg (collect_sorted_used_filaments layer_filaments) <> ∅ ->
  In f (collect_sorted_used_filaments layer_filaments) ->
  0 <= f < Z.of_nat (filament_count cfg) ->
  map_at (get_recommended_filament_maps grp cfg layer_filaments physical geometric) f
  = if is_tpu cfg f then master_extruder_id cfg - 1 else 1 - (master_extruder_id cfg - 1).
Proof.
  intros Hne Hnoz Htpu Hin Hf. unfold get_recommended_filament_maps.
  destruct layer_filaments as [|l ls]; [congruence|]. rewrite Hnoz. simpl Z.eqb. cbv iota.
  destruct (decide (get_tpu_filaments cfg (collect_sorted_used_filaments (l :: ls)) = ∅))
    as [Hempty|_]; [congruence|].
  rewrite map_at_seq by exact Hf. simpl ctx_master_extruder_id.
  destruct (decide (f ∈ get_tpu_filaments cfg (collect_sorted_used_filaments (l :: ls))))
    as [Hel|Hnel].
  - apply get_tpu_filaments_elem in Hel as [_ ->]. reflexivity.
  - destruct (is_tpu cfg f) eqn:Hp; [|reflexivity].
    exfalso. apply Hnel. apply get_tpu_filaments_elem. auto.
Qed.

Lemma filter_none (l : list Z) : List.filter (fun _ : Z => false) l = [].
Proof. induction l; [reflexivity|assumption]. Qed.

(** On the TPU path of [get_recommended_filament_maps] the capacity is not
    consulted: the master extruder gets exactly the used TPU filaments, the
    other extruder all other used filaments and any further extruder none. *)
Lemma tpu_path_counts (grp : FilamentGroupContext -> list (list Z) -> list Z -> list Z)
    (cfg : GroupConfig) (layer_filaments : list (list Z))
    (physical geometric : list (gset Z)) :
  layer_filaments <> [] ->
  nozzle_count cfg = 2 ->
  get_tpu_filaments cfg (collect_sorted_used_filaments layer_filaments) <> ∅ ->
  Forall (fun f => 0 <= f < Z.of_nat (filament_count cfg))
    (collect_sorted_used_filaments layer_filaments) ->
  let used := collect_sorted_used_filaments layer_filaments in
  let maps := get_recommended_filament_maps grp cfg layer_filaments physical geometric in
  let master := master_extruder_id cfg - 1 in
  (extruder_ams_counts cfg = [] -> group_size cfg = [16; 16]) /\
  (forall i counts, extruder_ams_counts cfg !! i = Some counts ->
     group_size cfg !! i = Some (if ams_slots counts =? 0 then 1 else ams_slots counts)) /\
  assigned_count maps used master = length (List.filter (is_tpu cfg) used) /\
  assigned_count maps used (1 - master)
  = length (List.filter (fun f => negb (is_tpu cfg f)) used) /\
  (forall e, e <> master -> e <> 1 - master -> assigned_count maps used e = 0%nat).
Proof.
  intros Hne Hnoz Htpu Hrange used maps master.
  assert (Hlook : forall f, In f used ->
            map_at maps f = if is_tpu cfg f then master else 1 - master).
  { intros f Hf. apply tpu_path_lookup; auto.
    rewrite List.Forall_forall in Hrange. now apply Hrange. }
  split; [|split; [|split; [|split]]].
  - intros Hnil. unfold group_size. now rewrite Hnil.
  - intros i counts. apply group_size_lookup.
  - unfold assigned_count. f_equal. apply filter_agree. intros f Hf.
    rewrite (Hlook f Hf). destruct (is_tpu cfg f); [apply Z.eqb_refl|].
    apply Z.eqb_neq. lia.
  - unfold assigned_count. f_equal. apply filter_agree. intros f Hf.
    rewrite (Hlook f Hf). destruct (is_tpu cfg f); simpl; [|apply Z.eqb_refl].
    apply Z.eqb_neq. lia.
  - intros e He1 He2. unfold assigned_count.
    rewrite (filter_agree (fun _ => false)); [now rewrite filter_none|].
    intros f Hf. rewrite (Hlook f Hf). destruct (is_tpu cfg f); apply Z.eqb_neq; congruence.
Qed.

(** Where no grouping meets the constraints the TPU path still returns one,
    without an error: two extruders without AMS have capacity 1 each; of the
    used filaments 0 (TPU), 1 and 2 the automatic map [0; 1; 1] puts two on
    extruder 1. *)
Example tpu_path_beyond_capacity :
  let cfg := sample_group_config sample_types_one_tpu 2 ByLayer [[]; []] in
  let used := collect_sorted_used_filaments (map extruders sample_layers) in
  let maps := get_recommended_filament_maps sample_group cfg
                (map extruders sample_layers) [] [] in
  group_size cfg = [1; 1] /\
  maps = [0; 1; 1] /\
  used = [0; 1; 2] /\
  exists capacity, group_size cfg !! 1%nat = Some capacity /\
                   capacity < Z.of_nat (assigned_count maps used 1).
Proof.
  split; [reflexivity|]. split; [reflexivity|]. split; [reflexivity|].
  exists 1. split; reflexivity.
Qed.






(** ** Custom g-code events *)

Lemma gap_below (z a : Q) : (a <= z)%Q -> (Qabs (z - a) == z - a)%Q.
Proof. intros H. apply Qabs_pos. lra. Qed.

Lemma gap_above (z a : Q) : (z <= a)%Q -> (Qabs (z - a) == a - z)%Q.
Proof. intros H. rewrite Qabs_neg by lra. lra. Qed.

Lemma increasing_z_lookup (lts : list LayerTools) (i j : nat) (a b : LayerTools) :
  increasing_z lts -> (i < j)%nat -> lts !! i = Some a -> lts !! j = Some b ->
  (print_z a < print_z b)%Q.
Proof.
  intros Hs. revert i j. induction Hs as [|lt rest Hs IH Hall]; intros i j Hij Ha Hb.
  - discriminate.
  - destruct j as [|j]; [lia|]. simpl in Hb. destruct i as [|i].
    + injection Ha as <-. rewrite List.Forall_forall in Hall. apply Hall.
      apply list_elem_of_In. eapply list_elem_of_lookup_2. exact Hb.
    + simpl in Ha. apply (IH i j); [lia|assumption|assumption].
Qed.

Lemma upper_bound_spec (z : Q) (lts : list LayerTools) :
  increasing_z lts ->
  (upper_bound z lts <= length lts)%nat /\
  (forall j lt, (j < upper_bound z lts)%nat -> lts !! j = Some lt -> (print_z lt <= z)%Q) /\
  (forall j lt, (upper_bound z lts <= j)%nat -> lts !! j = Some lt -> (z < print_z lt)%Q).
Proof.
  intros Hs. induction Hs as [|lt0 rest Hs IH Hall]; simpl.
  - split; [lia|]. split; intros j lt; [lia|discriminate].
  - destruct (Qlt_le_dec z (print_z lt0)) as [Hlt|Hle].
    + split; [lia|]. split; [intros; lia|]. intros j lt _ Hj. destruct j as [|j].
      * injection Hj as <-. exact Hlt.
      * simpl in Hj. rewrite List.Forall_forall in Hall.
        assert (Hb : below_z lt0 lt).
        { apply Hall. apply list_elem_of_In. eapply list_elem_of_lookup_2. exact Hj. }
        unfold below_z in Hb. lra.
    + destruct IH as (Hlen & Hlow & Hhigh). split; [lia|]. split.
      * intros j lt Hj Hlook. destruct j as [|j]; [injection Hlook as <-; exact Hle|].
        simpl in Hlook. apply (Hlow j); [lia|exact Hlook].
      * intros j lt Hj Hlook. destruct j as [|j]; [lia|].
        simpl in Hlook. apply (Hhigh j); [lia|exact Hlook].
Qed.

(** The layer an event goes to is a nearest one, and among equally near
    layers the upper one. *)
Lemma target_layer_nearest (z : Q) (lts : list LayerTools) :
  increasing_z lts -> lts <> [] ->
  exists ltk, lts !! target_layer z lts = Some ltk /\
    forall j ltj, lts !! j = Some ltj ->
      (Qabs (z - print_z ltk) <= Qabs (z - print_z ltj))%Q /\
      ((Qabs (z - print_z ltj) == Qabs (z - print_z ltk))%Q ->
       (print_z ltj <= print_z ltk)%Q).
Proof.
  intros Hs Hne. destruct (upper_bound_spec z lts Hs) as (Hlen & Hlow & Hhigh).
  assert (Hmono : forall i j a b, (i <= j)%nat -> lts !! i = Some a -> lts !! j = Some b ->
            (print_z a <= print_z b)%Q).
  { intros i j a b Hij Ha Hb. destruct (decide (i = j)) as [->|Hneq].
    - assert (a = b) as -> by congruence. lra.
    - apply Qlt_le_weak. apply (increasing_z_lookup lts i j); auto. lia. }
  assert (Hpos : (0 < length lts)%nat) by (destruct lts; [congruence|simpl; lia]).
  unfold target_layer. set (u := upper_bound z lts) in *.
  destruct (u =? 0)%nat eqn:Hu0.
  - apply Nat.eqb_eq in Hu0.
    destruct (lookup_lt_is_Some_2 lts 0 Hpos) as [lt0 H0]. exists lt0. split; [exact H0|].
    intros j ltj Hj. pose proof (Hhigh 0%nat lt0 ltac:(lia) H0) as Hz0.
    pose proof (Hhigh j ltj ltac:(lia) Hj) as Hzj.
    pose proof (Hmono 0%nat j lt0 ltj ltac:(lia) H0 Hj) as H0j.
    rewrite !gap_above by lra. split; [lra|]. intros Heq. lra.
  - apply Nat.eqb_neq in Hu0. destruct (u =? length lts)%nat eqn:Hun.
    + apply Nat.eqb_eq in Hun.
      destruct (lookup_lt_is_Some_2 lts (u - 1) ltac:(lia)) as [ltk Hk].
      exists ltk. split; [exact Hk|]. intros j ltj Hj.
      pose proof (lookup_lt_Some _ _ _ Hj) as Hjlen.
      pose proof (Hlow (u - 1)%nat ltk ltac:(lia) Hk) as Hzk.
      pose proof (Hlow j ltj ltac:(lia) Hj) as Hzj.
      pose proof (Hmono j (u - 1)%nat ltj ltk ltac:(lia) Hj Hk) as Hjk.
      rewrite !gap_below by lra. split; [lra|]. intros Heq. lra.
    + apply Nat.eqb_neq in Hun.
      destruct (lookup_lt_is_Some_2 lts (u - 1) ltac:(lia)) as [lower Hlo].
      destruct (lookup_lt_is_Some_2 lts u ltac:(lia)) as [upper Hup].
      rewrite Hlo, Hup.
      pose proof (Hlow (u - 1)%nat lower ltac:(lia) Hlo) as Hzl.
      pose proof (Hhigh u upper ltac:(lia) Hup) as Hzu.
      pose proof (gap_below z (print_z lower) Hzl) as Gl.
      pose proof (gap_above z (print_z upper) (Qlt_le_weak _ _ Hzu)) as Gu.
      destruct (Qlt_le_dec (Qabs (z - print_z lower)) (Qabs (z - print_z upper)))
        as [Hnear|Hnear];
        rewrite Gl, Gu in Hnear.
      * exists lower. split; [exact Hlo|]. intros j ltj Hj. rewrite Gl.
        destruct (decide (j < u)%nat) as [Hju|Hju].
        -- pose proof (Hlow j ltj Hju Hj) as Hzj.
           pose proof (Hmono j (u - 1)%nat ltj lower ltac:(lia) Hj Hlo) as Hjl.
           rewrite (gap_below z (print_z ltj)) by lra. split; [lra|]. intros Heq. lra.
        -- pose proof (Hhigh j ltj ltac:(lia) Hj) as Hzj.
           pose proof (Hmono u j upper ltj ltac:(lia) Hup Hj) as Huj.
           rewrite (gap_above z (print_z ltj)) by lra. split; [lra|]. intros Heq. lra.
      * exists upper. split; [exact Hup|]. intros j ltj Hj. rewrite Gu.
        destruct (decide (j < u)%nat) as [Hju|Hju].
        -- pose proof (Hlow j ltj Hju Hj) as Hzj.
           pose proof (Hmono j (u - 1)%nat ltj lower ltac:(lia) Hj Hlo) as Hjl.
           rewrite (gap_below z (print_z ltj)) by lra. split; [lra|]. intros Heq. lra.
        -- pose proof (Hhigh j ltj ltac:(lia) Hj) as Hzj.
           pose proof (Hmono u j upper ltj ltac:(lia) Hup Hj) as Huj.
           rewrite (gap_above z (print_z ltj)) by lra. split; [lra|]. intros Heq. lra.
Qed.

Lemma mark_printing_length (es : list Z) (above : list bool) :
  length (mark_printing es above) = length above.
Proof.
  unfold mark_printing. revert above. induction es as [|e es IH]; intros above; simpl.
  - reflexivity.
  - rewrite IH. apply length_insert.
Qed.

Lemma mark_printing_nth (es : list Z) (above : list bool) (i : nat) :
  Forall (fun e => 0 <= e) es ->
  nth i (mark_printing es above) false = true <->
  nth i above false = true \/ ((i < length above)%nat /\ In (Z.of_nat i) es).
Proof.
  unfold mark_printing. revert above. induction es as [|e es IH]; intros above Hpos; simpl.
  - tauto.
  - inversion Hpos as [|? ? He Hes]; subst. rewrite (IH _ Hes). rewrite length_insert.
    rewrite !nth_lookup. destruct (decide (i = Z.to_nat e)) as [->|Hne].
    + destruct (decide (Z.to_nat e < length above)%nat) as [Hlt|Hge].
      * rewrite list_lookup_insert_eq by exact Hlt. simpl. split; [|tauto].
        intros _. right. split; [exact Hlt|]. left. lia.
      * rewrite list_insert_ge by lia. split; [|tauto].
        intros [H|[Hlt _]]; [now left|lia].
    + rewrite list_lookup_insert_ne by auto. split.
      * intros [H|[Hlt Hin]]; [now left|]. right. split; [exact Hlt|now right].
      * intros [H|[Hlt [Heq|Hin]]]; [now left|lia|]. right. auto.
Qed.

Lemma extruder_print_above_length (num : Z) (lts : list LayerTools) :
  length (extruder_print_above_by_layer num lts) = length lts /\
  Forall (fun v => length v = Z.to_nat num) (extruder_print_above_by_layer num lts).
Proof.
  induction lts as [|lt rest [IHlen IHall]]; simpl; [split; [reflexivity|constructor]|].
  split; [now rewrite IHlen|]. constructor; [|exact IHall].
  rewrite mark_printing_length.
  destruct (extruder_print_above_by_layer num rest) as [|v vs].
  - apply length_replicate.
  - now inversion IHall.
Qed.

Lemma prints_at_or_above_cons (lt : LayerTools) (rest : list LayerTools) (e : Z) :
  prints_at_or_above (lt :: rest) 0 e <->
  In e (extruders lt) \/ prints_at_or_above rest 0 e.
Proof.
  unfold prints_at_or_above. split.
  - intros (j & l & _ & Hj & Hin). destruct j as [|j].
    + injection Hj as <-. now left.
    + right. exists j, l. split; [lia|]. auto.
  - intros [Hin|(j & l & _ & Hj & Hin)].
    + exists 0%nat, lt. split; [lia|]. auto.
    + exists (S j), l. split; [lia|]. auto.
Qed.

Lemma prints_at_or_above_succ (lt : LayerTools) (rest : list LayerTools) (k : nat) (e : Z) :
  prints_at_or_above (lt :: rest) (S k) e <-> prints_at_or_above rest k e.
Proof.
  unfold prints_at_or_above. split.
  - intros (j & l & Hkj & Hj & Hin). destruct j as [|j]; [lia|].
    exists j, l. split; [lia|]. auto.
  - intros (j & l & Hkj & Hj & Hin). exists (S j), l. split; [lia|]. auto.
Qed.

(** The vector of a layer marks exactly the extruders printing on that layer
    or above it. *)
Lemma extruder_print_above_spec (num : Z) (lts : list LayerTools) (k : nat)
    (v : list bool) (e : Z) :
  unsigned_ids lts ->
  extruder_print_above_by_layer num lts !! k = Some v ->
  0 <= e < num ->
  nth (Z.to_nat e) v false = true <-> prints_at_or_above lts k e.
Proof.
  intros Hids. revert k v. induction lts as [|lt rest IH]; intros k v Hk He; [discriminate|].
  inversion Hids as [|? ? Hlt Hrest]; subst. specialize (IH Hrest).
  destruct k as [|k].
  - simpl in Hk. injection Hk as <-. rewrite prints_at_or_above_cons.
    rewrite mark_printing_nth.
    2:{ eapply List.Forall_impl; [|exact Hlt]. intros a Ha. simpl in Ha. lia. }
    rewrite Z2Nat.id by lia.
    destruct (extruder_print_above_length num rest) as [Hlen Hall].
    destruct (extruder_print_above_by_layer num rest) as [|v0 vs] eqn:Hab.
    + destruct rest as [|r rest']; [|simpl in Hlen; discriminate].
      rewrite length_replicate. split.
      * intros [H|[_ Hin]]; [|now left].
        rewrite nth_lookup, lookup_replicate_2 in H by lia. discriminate.
      * intros [Hin|(j & l & _ & Hj & _)]; [|destruct j; discriminate].
        right. split; [lia|exact Hin].
    + inversion Hall as [|? ? Hv0 _]; subst. rewrite Hv0.
      rewrite (IH 0%nat v0 eq_refl He). split.
      * intros [H|[_ Hin]]; [now right|now left].
      * intros [Hin|H]; [|now left]. right. split; [lia|exact Hin].
  - simpl in Hk. rewrite prints_at_or_above_succ. now apply IH.
Qed.

Lemma extruder_print_above_ext (num : Z) (l1 l2 : list LayerTools) :
  map extruders l1 = map extruders l2 ->
  extruder_print_above_by_layer num l1 = extruder_print_above_by_layer num l2.
Proof.
  revert l2. induction l1 as [|a r1 IH]; intros [|b r2] Heq; try discriminate; [reflexivity|].
  simpl in Heq. injection Heq as Hab Hr. simpl. rewrite (IH r2 Hr), Hab. reflexivity.
Qed.

(** An event changes nothing but the [custom_gcode] of one layer, so the
    events of [assign_custom_gcodes] are all placed against the same heights
    and the same extruders. *)
Lemma assign_custom_gcode_keeps (mode model_mode : CustomGCodeMode) (num : Z)
    (above : list (list bool)) (item : CustomGCodeItem) (lts : list LayerTools) :
  map print_z (assign_custom_gcode mode model_mode num above item lts) = map print_z lts /\
  map extruders (assign_custom_gcode mode model_mode num above item lts) = map extruders lts.
Proof.
  unfold assign_custom_gcode. destruct (is_tool_change (item_type item)); [auto|].
  destruct (lts !! target_layer (item_print_z item) lts) as [lt|] eqn:Hk; [|auto].
  assert (Hsame : forall {B : Type} (f : LayerTools -> B) (lt' : LayerTools),
            f lt' = f lt ->
            map f (<[target_layer (item_print_z item) lts := lt']> lts) = map f lts).
  { intros B f lt' Hf. change (map f) with (fmap (M := list) f).
    rewrite list_fmap_insert, Hf. apply list_insert_id. now rewrite list_lookup_fmap, Hk. }
  unfold apply_custom_gcode_to_layer.
  destruct (_ || _); split; apply Hsame; reflexivity.
Qed.

Lemma assign_custom_gcodes_keeps (num : Z) (object_extruders_size : nat)
    (model_mode : CustomGCodeMode) (gcodes : list CustomGCodeItem) (lts : list LayerTools) :
  map print_z (assign_custom_gcodes num object_extruders_size model_mode gcodes lts)
  = map print_z lts /\
  map extruders (assign_custom_gcodes num object_extruders_size model_mode gcodes lts)
  = map extruders lts.
Proof.
  unfold assign_custom_gcodes. generalize (extruder_print_above_by_layer num lts) as above.
  intros above. generalize (rev gcodes) as items. intros items. revert lts.
  induction items as [|item items IH]; intros lts; simpl; [auto|].
  destruct (IH (assign_custom_gcode (print_mode num object_extruders_size) model_mode num
                  above item lts)) as [Hz He].
  destruct (assign_custom_gcode_keeps (print_mode num object_extruders_size) model_mode num
              above item lts) as [Hz' He'].
  split; congruence.
Qed.

(** C6 (amended). An event that is not a tool change goes to the layer whose
    [print_z] is nearest its height, the upper one of two equally near layers.
    A pause or custom g-code is attached there. A color change is attached
    there unless the print's and the model's modes disagree about being
    multi-extruder; on a single-extruder print it is then always attached, and
    otherwise only if its extruder exists and prints on that layer or on a
    layer above it; a color change that is not attached leaves all layers as
    they were. *)
Theorem custom_gcode_nearest_layer (mode model_mode : CustomGCodeMode) (num_filaments : Z)
    (lts : list LayerTools) (item : CustomGCodeItem) :
  increasing_z lts -> lts <> [] -> unsigned_ids lts ->
  0 <= num_filaments <= UINT_MAX ->
  1 <= item_extruder item ->
  item_type item <> ToolChange ->
  let z := item_print_z item in
  let k := target_layer z lts in
  let out :=
    assign_custom_gcode mode model_mode num_filaments
      (extruder_print_above_by_layer num_filaments lts) item lts in
  exists ltk, lts !! k = Some ltk /\
    (forall j ltj, lts !! j = Some ltj ->
       (Qabs (z - print_z ltk) <= Qabs (z - print_z ltj))%Q /\
       ((Qabs (z - print_z ltj) == Qabs (z - print_z ltk))%Q ->
        (print_z ltj <= print_z ltk)%Q)) /\
    (event_attaches mode model_mode num_filaments lts k item ->
     out = <[k := set_custom_gcode (Some item) ltk]> lts) /\
    (~ event_attaches mode model_mode num_filaments lts k item -> out = lts).
Proof.
  intros Hs Hne Hids Hnum Hext Htype z k out.
  destruct (target_layer_nearest z lts Hs Hne) as (ltk & Hk & Hnear). fold k in Hk.
  exists ltk. split; [exact Hk|]. split; [exact Hnear|].
  destruct (extruder_print_above_length num_filaments lts) as [Hlen _].
  destruct (lookup_lt_is_Some_2 (extruder_print_above_by_layer num_filaments lts) k)
    as [v Hv]; [rewrite Hlen; eapply lookup_lt_Some; exact Hk|].
  assert (Hout : out
            = <[k := apply_custom_gcode_to_layer mode model_mode num_filaments ltk v item]> lts).
  { unfold out, assign_custom_gcode. fold z. fold k. rewrite Hk, Hv.
    destruct (item_type item); try reflexivity. congruence. }
  assert (Hsame : <[k := ltk]> lts = lts) by (now apply list_insert_id).
  assert (Hmulti : negb (negb (Bool.eqb (is_multi_extruder mode) (is_multi_extruder model_mode)))
                   = true <-> is_multi_extruder mode = is_multi_extruder model_mode).
  { rewrite negb_involutive. apply Bool.eqb_true_iff. }
  assert (Hsingle : is_single_extruder mode = true <-> mode = SingleExtruder)
    by (destruct mode; simpl; intuition congruence).
  rewrite Hout. unfold apply_custom_gcode_to_layer, event_attaches.
  destruct (item_type item) eqn:Hty; simpl; try (split; [reflexivity|tauto]).
  - set (attach :=
           negb (negb (Bool.eqb (is_multi_extruder mode) (is_multi_extruder model_mode)))
           && (is_single_extruder mode
               || (item_extruder item <=? num_filaments)
                  && nth (Z.to_nat ((item_extruder item - 1) mod 2 ^ 32)) v false)).
    assert (Hattach : attach = true <->
              is_multi_extruder mode = is_multi_extruder model_mode /\
              (mode = SingleExtruder \/
               (item_extruder item <= num_filaments /\
                prints_at_or_above lts k (item_extruder item - 1)))).
    { unfold attach. rewrite andb_true_iff, orb_true_iff, andb_true_iff.
      rewrite Hmulti, Hsingle, Z.leb_le.
      assert (Hidx : item_extruder item <= num_filaments ->
                (nth (Z.to_nat ((item_extruder item - 1) mod 2 ^ 32)) v false = true <->
                 prints_at_or_above lts k (item_extruder item - 1))).
      { intros Hle. unfold UINT_MAX in Hnum. rewrite Z.mod_small by lia.
        apply (extruder_print_above_spec num_filaments lts k v); [exact Hids|exact Hv|lia]. }
      tauto. }
    destruct attach.
    + split; [reflexivity|]. intros Hnot. exfalso. apply Hnot. now apply Hattach.
    + split; [|intros _; exact Hsame]. intros Hyes. apply Hattach in Hyes. discriminate.
  - congruence.
Qed.

(** C6 on two layers at 5.0 and 5.2 printing extruders [0; 1] and [0] on a
    two-filament multi-extruder print: a pause at 5.1 goes to the upper layer,
    and a color change of extruder 2 at 5.15 is dropped. *)
Lemma custom_gcode_nearest_layer_witness :
  let lts := [set_extruders [0; 1] (new_LayerTools 5);
              set_extruders [0] (new_LayerTools (26 # 5))] in
  target_layer (51 # 10) lts = 1%nat /\
  assign_custom_gcode MultiExtruder MultiExtruder 2
    (extruder_print_above_by_layer 2 lts) (mkItem (103 # 20) ColorChange 2) lts = lts.
Proof.
  intros lts. split; [reflexivity|].
  assert (Hs : increasing_z lts).
  { unfold increasing_z, lts. repeat constructor. }
  assert (Hids : unsigned_ids lts).
  { unfold unsigned_ids, lts, UINT_MAX. repeat constructor; simpl; lia. }
  destruct (custom_gcode_nearest_layer MultiExtruder MultiExtruder 2 lts
              (mkItem (103 # 20) ColorChange 2) Hs ltac:(discriminate) Hids
              ltac:(unfold UINT_MAX; lia) ltac:(simpl; lia) ltac:(discriminate))
    as (ltk & _ & _ & _ & Hdrop).
  apply Hdrop. unfold event_attaches. simpl.
  intros [_ [H|[_ (j & l & Hj & Hl & Hin)]]]; [discriminate|].
  change (target_layer (103 # 20) lts) with 1%nat in Hj.
  destruct j as [|[|j]]; [lia| |discriminate].
  injection Hl as <-. simpl in Hin. destruct Hin as [H|[]]. discriminate.
Defined.

(** C6 as stated fails on a single-extruder print: a color change is attached
    although its extruder prints neither on the chosen layer nor above it, be
    it extruder 2 of a single-filament print, or extruder 1 when the chosen
    top layer is empty. *)
Lemma color_change_kept_on_single_extruder :
  let lts := [set_extruders [0] (new_LayerTools 5)] in
  let item := mkItem 5 ColorChange 2 in
  let lts' := [set_extruders [0] (new_LayerTools 5); new_LayerTools (26 # 5)] in
  let item' := mkItem (26 # 5) ColorChange 1 in
  ~ prints_at_or_above lts (target_layer 5 lts) 1 /\
  map custom_gcode
    (assign_custom_gcodes 1 1 MultiAsSingle [item] lts) = [Some item] /\
  ~ prints_at_or_above lts' (target_layer (26 # 5) lts') 0 /\
  map custom_gcode
    (assign_custom_gcodes 1 1 SingleExtruder [item'] lts') = [None; Some item'].
Proof.
  split; [|split; [reflexivity|split; [|reflexivity]]].
  - intros (j & l & _ & Hl & Hin). destruct j as [|j]; [|discriminate].
    injection Hl as <-. simpl in Hin. destruct Hin as [H|[]]. discriminate.
  - intros (j & l & Hj & Hl & Hin).
    change (target_layer (26 # 5) [set_extruders [0] (new_LayerTools 5); new_LayerTools (26 # 5)])
      with 1%nat in Hj.
    destruct j as [|[|j]]; [lia| |discriminate]. injection Hl as <-. destruct Hin.
Qed.

(** Events are visited from the last to the first, and a layer holds one
    event: of a pause at 5 and a custom g-code at 6 that both go to the only
    layer, the pause, visited later, is the one that stays. *)
Example custom_gcode_later_visit_replaces :
  let lts := [set_extruders [0] (new_LayerTools 5)] in
  let pause := mkItem 5 PausePrint 1 in
  let custom := mkItem 6 Custom 1 in
  map custom_gcode (assign_custom_gcodes 1 1 SingleExtruder [pause; custom] lts)
  = [Some pause].
Proof. reflexivity. Qed.

(** ** Skirt layers *)

Lemma skirt_added_refl (lts : list LayerTools) : Forall2 skirt_added lts lts.
Proof. induction lts; constructor; [now left|assumption]. Qed.

Lemma skirt_added_step (a b c : LayerTools) :
  skirt_added a b -> skirt_added b c -> skirt_added a c.
Proof.
  intros [->|[-> Ha]] [->|[-> Hb]].
  - now left.
  - right. auto.
  - right. auto.
  - right. split; [destruct a; reflexivity|exact Ha].
Qed.

Lemma skirt_added_trans (l1 l2 l3 : list LayerTools) :
  Forall2 skirt_added l1 l2 -> Forall2 skirt_added l2 l3 -> Forall2 skirt_added l1 l3.
Proof.
  intros H12. revert l3. induction H12 as [|a b l1 l2 Hab H12 IH]; intros l3 H23.
  - inversion H23. constructor.
  - inversion H23 as [|? c ? l3' Hbc H23']; subst. constructor.
    + eapply skirt_added_step; eassumption.
    + now apply IH.
Qed.

Lemma skirt_added_insert (lts : list LayerTools) (k : nat) (lt : LayerTools) :
  lts !! k = Some lt ->
  extruders lt <> [] \/ has_object lt = true ->
  Forall2 skirt_added lts (<[k := set_has_skirt true lt]> lts).
Proof.
  revert k. induction lts as [|a rest IH]; intros k Hk Hcond; [discriminate|].
  destruct k as [|k]; simpl.
  - injection Hk as ->. constructor; [right; auto|apply skirt_added_refl].
  - constructor; [now left|]. now apply IH.
Qed.

Lemma skip_empty_down_spec (lts : list LayerTools) (k k' : nat) :
  skip_empty_down lts k = Some k' ->
  (k' <= k)%nat /\ exists lt, lts !! k' = Some lt /\ extruders lt <> [].
Proof.
  revert k'. induction k as [|k IH]; intros k'; simpl.
  - destruct (lts !! 0%nat) as [lt|] eqn:H0; [|discriminate].
    destruct (extruders lt) eqn:He; [discriminate|]. intros [= <-].
    split; [lia|]. exists lt. split; [exact H0|]. rewrite He. discriminate.
  - destruct (lts !! S k) as [lt|] eqn:Hk; [|discriminate].
    destruct (extruders lt) eqn:He.
    + intros H. destruct (IH _ H) as [Hle Hex]. split; [lia|exact Hex].
    + intros [= <-]. split; [lia|]. exists lt. split; [exact Hk|]. rewrite He. discriminate.
Qed.

Section SkirtFacts.
Variables (EPSILON max_layer_height : Q).

Lemma mark_intermediate_added (fuel : nat) (lts out : list LayerTools) (j k : nat) (last_z : Q) :
  mark_intermediate EPSILON max_layer_height fuel lts j k last_z = Some out ->
  Forall2 skirt_added lts out.
Proof.
  revert lts k last_z. induction fuel as [|fuel IH]; intros lts k last_z; simpl; [discriminate|].
  destruct (k <? j)%nat; [|intros [= <-]; apply skirt_added_refl].
  destruct (lts !! S k) as [next|]; [|discriminate].
  destruct (Qlt_le_dec (max_layer_height + EPSILON) (print_z next - last_z)); [|apply IH].
  destruct (skip_empty_down lts k) as [k'|] eqn:Hskip; [|discriminate].
  destruct (skip_empty_down_spec lts k k' Hskip) as (_ & lt & Hlt & Hne).
  rewrite Hlt. destruct (has_skirt lt); [intros [= <-]; apply skirt_added_refl|].
  intros Hrec. eapply skirt_added_trans; [|apply (IH _ _ _ Hrec)].
  apply skirt_added_insert; auto.
Qed.

Lemma next_object_layer_spec (j : nat) (from_j : list LayerTools) :
  (j <= next_object_layer j from_j <= j + length from_j)%nat /\
  (forall m lt, (m < next_object_layer j from_j - j)%nat -> from_j !! m = Some lt ->
     has_object lt = false) /\
  (forall lt, from_j !! (next_object_layer j from_j - j)%nat = Some lt -> has_object lt = true).
Proof.
  revert j. induction from_j as [|a rest IH]; intros j; simpl.
  - split; [lia|]. split; [intros; lia|]. intros lt H. destruct (j - j)%nat; discriminate.
  - destruct (has_object a) eqn:Ha.
    + split; [lia|]. rewrite Nat.sub_diag. split; [intros; lia|]. now intros lt [= <-].
    + destruct (IH (S j)) as (Hrange & Hbefore & Hat). split; [lia|]. split.
      * intros m lt Hm Hlook. destruct m as [|m]; [now injection Hlook as <-|].
        simpl in Hlook. apply (Hbefore m); [lia|exact Hlook].
      * intros lt Hlook.
        replace (next_object_layer (S j) rest - j)%nat
          with (S (next_object_layer (S j) rest - S j)) in Hlook by lia.
        simpl in Hlook. now apply Hat.
Qed.

Lemma skirt_added_lookup (lts out : list LayerTools) (i : nat) (a : LayerTools) :
  Forall2 skirt_added lts out -> lts !! i = Some a ->
  exists b, out !! i = Some b /\ skirt_added a b.
Proof.
  intros H. revert i. induction H as [|x y l1 l2 Hxy H IH]; intros i Hi; [discriminate|].
  destruct i as [|i]; simpl in *.
  - injection Hi as ->. eauto.
  - now apply IH.
Qed.

Lemma skirt_added_fields (a b : LayerTools) :
  skirt_added a b ->
  has_object b = has_object a /\ extruders b = extruders a /\ print_z b = print_z a /\
  (has_skirt a = true -> has_skirt b = true).
Proof. intros [->|[-> _]]; simpl; auto. Qed.

End SkirtFacts.

Section SkirtLoop.
Variables (EPSILON max_layer_height : Q).


Lemma mark_from_unfold (fuel : nat) (lts : list LayerTools) (i : nat) :
  mark_from EPSILON max_layer_height (S fuel) lts i
  = match lts !! i with
    | None => None
    | Some lt =>
        if (next_object_layer (S i) (drop (S i) (<[i := set_has_skirt true lt]> lts))
            =? length (<[i := set_has_skirt true lt]> lts))%nat
        then Some (<[i := set_has_skirt true lt]> lts)
        else
          match mark_intermediate EPSILON max_layer_height
                  (S (length lts) * S (length lts))
                  (<[i := set_has_skirt true lt]> lts)
                  (next_object_layer (S i) (drop (S i) (<[i := set_has_skirt true lt]> lts)))
                  (S i) (print_z lt) with
          | None => None
          | Some lts2 =>
              mark_from EPSILON max_layer_height fuel lts2
                (next_object_layer (S i) (drop (S i) (<[i := set_has_skirt true lt]> lts)))
          end
    end.
Proof. reflexivity. Qed.


End SkirtLoop.

Lemma unmarked_insert (lts : list LayerTools) (k : nat) (lt : LayerTools) :
  lts !! k = Some lt -> has_skirt lt = false ->
  S (unmarked (<[k := set_has_skirt true lt]> lts)) = unmarked lts.
Proof.
  unfold unmarked. revert k. induction lts as [|a rest IH]; intros k Hk Hs; [discriminate|].
  destruct k as [|k]; simpl.
  - injection Hk as ->. rewrite Hs. reflexivity.
  - simpl in Hk. destruct (negb (has_skirt a)); simpl; rewrite (IH k Hk Hs); reflexivity.
Qed.

Lemma unmarked_le (lts : list LayerTools) : (unmarked lts <= length lts)%nat.
Proof. unfold unmarked. apply List.filter_length_le. Qed.

Lemma first_layer_prints_added (l1 l2 : list LayerTools) :
  Forall2 skirt_added l1 l2 -> first_layer_prints l1 -> first_layer_prints l2.
Proof.
  intros H (a & Ha & Hne). destruct (skirt_added_lookup l1 l2 0 a H Ha) as (b & Hb & Hab).
  exists b. split; [exact Hb|]. now rewrite (proj1 (proj2 (skirt_added_fields a b Hab))).
Qed.

Lemma skip_empty_down_total (lts : list LayerTools) (k : nat) :
  first_layer_prints lts -> (k < length lts)%nat ->
  exists k', skip_empty_down lts k = Some k'.
Proof.
  intros (lt0 & H0 & Hne). induction k as [|k IH]; intros Hk; simpl.
  - rewrite H0. destruct (extruders lt0); [congruence|eauto].
  - destruct (lookup_lt_is_Some_2 lts (S k) Hk) as [lt Hlt]. rewrite Hlt.
    destruct (extruders lt); [apply IH; lia|eauto].
Qed.

Section SkirtTermination.
Variables (EPSILON max_layer_height : Q).

Lemma mark_intermediate_total (fuel : nat) (lts : list LayerTools) (j k : nat) (last_z : Q) :
  first_layer_prints lts -> (j < length lts)%nat ->
  (unmarked lts * S (length lts) + (j - k) < fuel)%nat ->
  exists out, mark_intermediate EPSILON max_layer_height fuel lts j k last_z = Some out.
Proof.
  revert lts k last_z. induction fuel as [|fuel IH]; intros lts k last_z Hfirst Hj Hfuel; [lia|].
  simpl. destruct (k <? j)%nat eqn:Hkj; [|eauto]. apply Nat.ltb_lt in Hkj.
  destruct (lookup_lt_is_Some_2 lts (S k) ltac:(lia)) as [next Hnext]. rewrite Hnext.
  destruct (Qlt_le_dec (max_layer_height + EPSILON) (print_z next - last_z)).
  - destruct (skip_empty_down_total lts k Hfirst ltac:(lia)) as [k' Hskip]. rewrite Hskip.
    destruct (skip_empty_down_spec lts k k' Hskip) as (Hle & lt & Hlt & Hne). rewrite Hlt.
    destruct (has_skirt lt) eqn:Hs; [eauto|].
    pose proof (unmarked_insert lts k' lt Hlt Hs) as Hun.
    apply IH.
    + eapply first_layer_prints_added; [|exact Hfirst]. apply skirt_added_insert; auto.
    + now rewrite length_insert.
    + rewrite length_insert. rewrite <- Hun in Hfuel.
      set (P := (unmarked (<[k' := set_has_skirt true lt]> lts) * S (length lts))%nat) in *.
      simpl in Hfuel. fold P in Hfuel. lia.
  - apply IH; [exact Hfirst|exact Hj|lia].
Qed.

Lemma mark_from_total (fuel : nat) (lts : list LayerTools) (i : nat) :
  first_layer_prints lts -> (i < length lts)%nat -> (length lts - i < fuel)%nat ->
  exists out, mark_from EPSILON max_layer_height fuel lts i = Some out.
Proof.
  revert lts i. induction fuel as [|fuel IH]; intros lts i Hfirst Hi Hfuel; [lia|].
  rewrite mark_from_unfold. destruct (lookup_lt_is_Some_2 lts i Hi) as [lt Hlt]. rewrite Hlt.
  set (lts1 := <[i := set_has_skirt true lt]> lts).
  assert (Hlen1 : length lts1 = length lts) by apply length_insert.
  destruct (next_object_layer_spec (S i) (drop (S i) lts1)) as (Hrange & _ & _).
  rewrite length_drop in Hrange.
  set (j := next_object_layer (S i) (drop (S i) lts1)) in *.
  destruct (j =? length lts1)%nat eqn:Hj; [eauto|]. apply Nat.eqb_neq in Hj.
  assert (Hfirst1 : first_layer_prints lts1).
  { destruct Hfirst as (lt0 & H0 & Hne). destruct i as [|i].
    - exists (set_has_skirt true lt). split; [apply list_lookup_insert_eq; lia|].
      assert (lt0 = lt) as <- by congruence. exact Hne.
    - exists lt0. split; [|exact Hne]. unfold lts1. now rewrite list_lookup_insert_ne by lia. }
  destruct (mark_intermediate_total (S (length lts) * S (length lts)) lts1 j (S i) (print_z lt))
    as [lts2 Hinner]; [exact Hfirst1|lia| |].
  { rewrite Hlen1. pose proof (unmarked_le lts1) as Hun. rewrite Hlen1 in Hun. nia. }
  rewrite Hinner. pose proof (mark_intermediate_added _ _ _ _ _ _ _ _ Hinner) as H12.
  pose proof (Forall2_length _ _ _ H12) as Hlen2.
  apply IH; [eapply first_layer_prints_added; eassumption|lia|lia].
Qed.

End SkirtTermination.



(** ** Extruder overrides *)

Lemma resize_length (n : nat) (x : Z) (v : list Z) : length (resize n x v) = n.
Proof. unfold resize. rewrite length_app, length_take, length_replicate. lia. Qed.









(** ** Wiping into extrusions *)






Section WipingFacts.
Variables (is_infill is_solid_infill : ExtrusionRole -> bool).
Variables (lt : LayerTools) (cfg : WipeConfig) (old_extruder new_extruder : Z).
Variable requested : Q.






End WipingFacts.



(** A run on one object dedicated to wiping, with one copy and a region
    holding infills of volumes 3 and 5, the print being perimeters-first: asked
    for 4, the infills absorb 3 and then 5 and nothing is left; asked for 10,
    the volume 2 is left for the wipe tower. *)
Example mark_wiping_extrusions_sample :
  let r := mkRegionConfig 1 1 1 in
  let layerm := mkLayerRegion r [mkEEC 11 erInternalInfill erInternalInfill 3;
                                 mkEEC 12 erInternalInfill erInternalInfill 5] [] in
  let object := mkPrintObject 1 true true false 1 1 false 1 (Some [layerm]) None in
  let cfg := mkWipeConfig (fun _ => false) (fun _ => false) false in
  let lt := set_extruders [0; 1] (new_LayerTools (1 # 5)) in
  let w := mkWiping ∅ ∅ ∅ false true in
  let run v := mark_wiping_extrusions (fun _ => true) (fun _ => false) lt cfg 0 1 [object] w v in
  fst (run 4%Q) = 0%Q /\
  absorbed (snd (run 4%Q)) = [3%Q; 5%Q] /\
  (fst (run 10%Q) == 2)%Q /\
  entity_map (wiping (snd (run 10%Q))) !! (11, 1) = Some [1].
Proof. repeat split; reflexivity. Qed.

(** * Further properties of the code *)

(** ** The order of the extruders on a layer *)

Lemma extruder_order_scan_present (a b : Z) (es : list Z) :
  extruder_order_scan a b es = true -> In a es.
Proof.
  induction es as [|e es IH]; simpl; [discriminate|].
  destruct (Z.eqb_spec e a) as [->|_]; [now left|].
  destruct (e =? b); [discriminate|]. intros H. right. now apply IH.
Qed.

Lemma extruder_order_scan_absent (a b : Z) (es : list Z) :
  In a es -> ~ In b es -> extruder_order_scan a b es = true.
Proof.
  induction es as [|e es IH]; simpl; [intros []|]. intros Ha Hb.
  destruct (Z.eqb_spec e a) as [_|Hea]; [reflexivity|].
  destruct (Z.eqb_spec e b) as [->|_]; [exfalso; apply Hb; now left|].
  apply IH; [|tauto]. destruct Ha as [Ha|Ha]; [congruence|exact Ha].
Qed.

Lemma extruder_order_scan_total (a b : Z) (es : list Z) :
  In a es -> extruder_order_scan a b es = true \/ extruder_order_scan b a es = true.
Proof.
  induction es as [|e es IH]; simpl; [intros []|]. intros Ha.
  destruct (Z.eqb_spec e a) as [_|Hea]; [now left|].
  destruct (Z.eqb_spec e b) as [_|Heb]; [now right|].
  apply IH. destruct Ha as [Ha|Ha]; [congruence|exact Ha].
Qed.

Lemma extruder_order_scan_asym (a b : Z) (es : list Z) :
  a <> b -> extruder_order_scan a b es = true -> extruder_order_scan b a es = false.
Proof.
  intros Hab. induction es as [|e es IH]; simpl; [reflexivity|].
  destruct (Z.eqb_spec e a) as [->|Hea].
  - intros _. destruct (Z.eqb_spec a b); [congruence|reflexivity].
  - destruct (Z.eqb_spec e b) as [_|Heb]; [discriminate|exact IH].
Qed.

Lemma extruder_order_scan_trans (a b c : Z) (es : list Z) :
  a <> b -> b <> c ->
  extruder_order_scan a b es = true -> extruder_order_scan b c es = true ->
  a <> c /\ extruder_order_scan a c es = true.
Proof.
  intros Hab Hbc. induction es as [|e es IH]; simpl; [discriminate|].
  destruct (Z.eqb_spec e a) as [->|Hea].
  - intros _. destruct (Z.eqb_spec a b) as [|_]; [congruence|].
    destruct (Z.eqb_spec a c) as [|Hac]; [discriminate|]. intros _. now split.
  - destruct (Z.eqb_spec e b) as [_|Heb]; [discriminate|].
    destruct (Z.eqb_spec e c) as [_|Hec]; [discriminate|]. exact IH.
Qed.

(** X1. [LayerTools::is_extruder_order] is a strict order on the extruders of
    the layer: no extruder comes before itself, two extruders never come before
    each other, the relation is transitive, and of two different extruders of
    the layer one comes before the other. Only an extruder of the layer comes
    before anything, and it comes before every extruder that is not on the
    layer. *)
Theorem is_extruder_order_strict (lt : LayerTools) (a b c : Z) :
  is_extruder_order lt a a = false /\
  (is_extruder_order lt a b = true -> is_extruder_order lt b a = false) /\
  (is_extruder_order lt a b = true -> is_extruder_order lt b c = true ->
   is_extruder_order lt a c = true) /\
  (a <> b -> In a (extruders lt) -> In b (extruders lt) ->
   is_extruder_order lt a b = true \/ is_extruder_order lt b a = true) /\
  (is_extruder_order lt a b = true -> In a (extruders lt)) /\
  (a <> b -> In a (extruders lt) -> ~ In b (extruders lt) ->
   is_extruder_order lt a b = true).
Proof.
  unfold is_extruder_order. split; [now rewrite Z.eqb_refl|].
  split; [|split; [|split; [|split]]].
  - destruct (Z.eqb_spec a b) as [|Hab]; [discriminate|]. intros H.
    destruct (Z.eqb_spec b a) as [|_]; [reflexivity|]. now apply extruder_order_scan_asym.
  - destruct (Z.eqb_spec a b) as [|Hab]; [discriminate|].
    destruct (Z.eqb_spec b c) as [|Hbc]; [discriminate|]. intros H1 H2.
    destruct (extruder_order_scan_trans a b c (extruders lt) Hab Hbc H1 H2) as [Hac H].
    destruct (Z.eqb_spec a c) as [|_]; [contradiction|exact H].
  - intros Hab Ha _. destruct (Z.eqb_spec a b) as [|_]; [contradiction|].
    destruct (Z.eqb_spec b a) as [|_]; [congruence|].
    now apply extruder_order_scan_total.
  - destruct (Z.eqb_spec a b) as [|_]; [discriminate|]. apply extruder_order_scan_present.
  - intros Hab Ha Hb. destruct (Z.eqb_spec a b) as [|_]; [contradiction|].
    now apply extruder_order_scan_absent.
Qed.

(** ** The non-soluble extruders of a layer *)

Lemma find_first_split {A : Type} (p : A -> bool) (l : list A) :
  match List.find p l with
  | Some x => exists pre post, l = pre ++ x :: post /\ p x = true /\
                               Forall (fun y => p y = false) pre
  | None => Forall (fun y => p y = false) l
  end.
Proof.
  induction l as [|y l IH]; simpl; [constructor|].
  destruct (p y) eqn:Hy.
  - exists [], l. split; [reflexivity|]. split; [exact Hy|constructor].
  - destruct (List.find p l) as [x|].
    + destruct IH as (pre & post & -> & Hx & Hpre).
      exists (y :: pre), post. split; [reflexivity|]. split; [exact Hx|].
      constructor; assumption.
    + constructor; assumption.
Qed.

Lemma extruder_order_scan_prefix (a b : Z) (pre post : list Z) :
  ~ In a pre -> ~ In b pre ->
  extruder_order_scan a b (pre ++ a :: post) = true.
Proof.
  induction pre as [|e pre IH]; simpl; intros Ha Hb.
  - now rewrite Z.eqb_refl.
  - destruct (Z.eqb_spec e a) as [_|_]; [reflexivity|].
    destruct (Z.eqb_spec e b) as [->|_]; [exfalso; apply Hb; now left|].
    apply IH; tauto.
Qed.

Lemma as_int_small (e : Z) : 0 <= e < 2 ^ 31 -> as_int e = e.
Proof. intros He. unfold as_int. destruct (Z.ltb_spec e (2 ^ 31)); lia. Qed.

(** X2. On a layer whose extruder ids fit an [int],
    [first_nonsoluble_extruder_on_layer] and
    [last_nonsoluble_extruder_on_layer] return -1 exactly when every extruder
    of the layer is soluble or a support filament. Otherwise the first one
    returns the first extruder of the layer that is neither, the second the
    last such extruder, and unless the two are the same extruder the first
    comes before the last in the sense of [is_extruder_order]. *)
Theorem nonsoluble_extruders_on_layer (cfg : WipeConfig) (lt : LayerTools) :
  Forall (fun e => 0 <= e < 2 ^ 31) (extruders lt) ->
  let first := first_nonsoluble_extruder_on_layer cfg lt in
  let last := last_nonsoluble_extruder_on_layer cfg lt in
  (first = -1 <-> Forall (fun e => is_nonsoluble cfg e = false) (extruders lt)) /\
  (last = -1 <-> first = -1) /\
  (first <> -1 ->
     (exists pre post, extruders lt = pre ++ first :: post /\
        is_nonsoluble cfg first = true /\
        Forall (fun e => is_nonsoluble cfg e = false) pre) /\
     (exists pre post, extruders lt = pre ++ last :: post /\
        is_nonsoluble cfg last = true /\
        Forall (fun e => is_nonsoluble cfg e = false) post) /\
     (first <> last -> is_extruder_order lt first last = true)).
Proof.
  intros Hpos first last.
  unfold first_nonsoluble_extruder_on_layer, last_nonsoluble_extruder_on_layer in *.
  pose proof (find_first_split (is_nonsoluble cfg) (extruders lt)) as Hf.
  pose proof (find_first_split (is_nonsoluble cfg) (rev (extruders lt))) as Hl.
  assert (Hin : forall e, In e (extruders lt) -> e <> -1).
  { intros e He. rewrite List.Forall_forall in Hpos. specialize (Hpos e He). lia. }
  destruct (List.find (is_nonsoluble cfg) (extruders lt)) as [f|] eqn:Hff.
  - destruct Hf as (pre & post & Hes & Hf & Hpre).
    assert (Hfin : In f (extruders lt)) by (rewrite Hes; apply in_elt).
    destruct (List.find (is_nonsoluble cfg) (rev (extruders lt))) as [l|] eqn:Hfl.
    + destruct Hl as (pre' & post' & Hrev & Hl & Hpre').
      assert (Hes' : extruders lt = rev post' ++ l :: rev pre').
      { rewrite <- (rev_involutive (extruders lt)), Hrev, rev_app_distr. simpl.
        now rewrite <- app_assoc. }
      assert (Hlin : In l (extruders lt)) by (rewrite Hes'; apply in_elt).
      subst first last.
      rewrite (as_int_small f), (as_int_small l)
        by (rewrite List.Forall_forall in Hpos; now apply Hpos).
      split.
      { split; [intros H; exfalso; now apply (Hin f)|].
        intros Hall. rewrite List.Forall_forall in Hall. rewrite (Hall f Hfin) in Hf.
        discriminate. }
      split; [split; intros H; exfalso; [now apply (Hin l)|now apply (Hin f)]|].
      intros _. split; [exists pre, post; auto|]. split.
      { exists (rev post'), (rev pre'). split; [exact Hes'|]. split; [exact Hl|].
        apply List.Forall_forall. intros e He. rewrite List.Forall_forall in Hpre'.
        apply Hpre'. now apply in_rev. }
      intros Hne. unfold is_extruder_order.
      destruct (Z.eqb_spec f l) as [|_]; [contradiction|]. rewrite Hes.
      rewrite List.Forall_forall in Hpre.
      apply extruder_order_scan_prefix.
      * intros Hc. specialize (Hpre f Hc). congruence.
      * intros Hc. specialize (Hpre l Hc). congruence.
    + exfalso. rewrite List.Forall_forall in Hl. specialize (Hl f).
      rewrite Hl in Hf; [discriminate|]. now apply in_rev in Hfin.
  - subst first last. split; [tauto|].
    destruct (List.find (is_nonsoluble cfg) (rev (extruders lt))) as [l|] eqn:Hfl.
    + exfalso. destruct Hl as (pre' & post' & Hrev & Hl & _).
      rewrite List.Forall_forall in Hf. specialize (Hf l). rewrite Hf in Hl; [discriminate|].
      apply in_rev. rewrite Hrev. apply in_elt.
    + split; [tauto|]. intros H. congruence.
Qed.

(** X2 on a layer printing the extruders 0 to 3 of which 0 is soluble and 3
    a support filament: the first is 1, the last 2, and 1 comes before 2. *)
Lemma nonsoluble_extruders_on_layer_witness :
  let cfg := mkWipeConfig (fun e => e =? 0) (fun e => e =? 3) false in
  let lt := set_extruders [0; 1; 2; 3] (new_LayerTools (1 # 5)) in
  Forall (fun e => 0 <= e < 2 ^ 31) (extruders lt) /\
  first_nonsoluble_extruder_on_layer cfg lt = 1 /\
  last_nonsoluble_extruder_on_layer cfg lt = 2 /\
  is_extruder_order lt 1 2 = true.
Proof.
  intros cfg lt.
  assert (Hpos : Forall (fun e => 0 <= e < 2 ^ 31) (extruders lt)).
  { simpl. repeat constructor; lia. }
  split; [exact Hpos|]. split; [reflexivity|]. split; [reflexivity|].
  refine (proj2 (proj2 (proj2 (proj2 (nonsoluble_extruders_on_layer cfg lt Hpos)) _)) _);
    discriminate.
Defined.

(** ** Support overrides *)

(** X3. The support override of an object is written once: after
    [set_support_extruder_override] the query returns the extruder of the
    first call for that object, whatever later calls pass; an object never
    set reads as -1; a call for one object changes neither the answer for
    another object, nor the entity table, nor the table of the support
    interfaces, and it sets [something_overridden]. *)
Theorem support_override_first_wins (w : WipingExtrusions) (object other e1 e2 : Z) :
  let w1 := set_support_extruder_override object e1 w in
  let w2 := set_support_extruder_override object e2 w1 in
  get_support_extruder_overrides empty_wiping object = -1 /\
  (support_map w !! object = None -> get_support_extruder_overrides w1 object = e1) /\
  (forall e0, support_map w !! object = Some e0 ->
     get_support_extruder_overrides w1 object = e0) /\
  get_support_extruder_overrides w2 object = get_support_extruder_overrides w1 object /\
  (other <> object ->
   get_support_extruder_overrides w1 other = get_support_extruder_overrides w other) /\
  entity_map w1 = entity_map w /\
  support_intf_map w1 = support_intf_map w /\
  something_overridden w1 = true.
Proof.
  intros w1 w2. subst w2 w1.
  unfold get_support_extruder_overrides, set_support_extruder_override.
  cbn [support_map entity_map support_intf_map something_overridden empty_wiping].
  split; [now rewrite lookup_empty|].
  destruct (support_map w !! object) as [e0|] eqn:Hw.
  - rewrite !Hw. split; [discriminate|]. split; [now intros e [= <-]|].
    split; [reflexivity|]. split; [reflexivity|]. auto.
  - rewrite !lookup_insert_eq. split; [reflexivity|]. split; [discriminate|].
    split; [reflexivity|]. split; [|auto].
    intros Hne. now rewrite lookup_insert_ne by congruence.
Qed.

(** ** Unprintable filaments *)

Lemma size_two_elements (X : gset Z) :
  (1 < size X)%nat -> exists x y, x ∈ X /\ y ∈ X /\ x <> y.
Proof.
  intros Hsize.
  destruct (set_choose_L X) as [x Hx].
  { intros ->. rewrite size_empty in Hsize. lia. }
  assert (Hrest : (0 < size (X ∖ {[x]}))%nat).
  { rewrite size_difference by (now apply singleton_subseteq_l).
    rewrite size_singleton. lia. }
  destruct (set_choose_L (X ∖ {[x]})) as [y Hy].
  { intros Heq. rewrite Heq, size_empty in Hrest. lia. }
  apply elem_of_difference in Hy as [Hy Hne].
  exists x, y. split; [exact Hx|]. split; [exact Hy|].
  intros ->. apply Hne. now apply elem_of_singleton.
Qed.

Lemma add_hrc_unprintables_lookup (cfg : GroupConfig) (used : list Z) (sets : list (gset Z))
    (eid : Z) (e : nat) :
  add_hrc_unprintables cfg used eid sets !! e
  = (fun s => list_to_set
                (List.filter (fun f => nozzle_hrc cfg (eid + Z.of_nat e) <? required_nozzle_HRC cfg f)
                   used) ∪ s) <$> sets !! e.
Proof.
  revert eid e. induction sets as [|s rest IH]; intros eid e; [reflexivity|].
  destruct e as [|e]; simpl.
  - now rewrite Z.add_0_r.
  - rewrite IH. replace (eid + 1 + Z.of_nat e) with (eid + Z.of_nat (S e)) by lia.
    reflexivity.
Qed.

Lemma add_hrc_unprintables_length (cfg : GroupConfig) (used : list Z) (sets : list (gset Z))
    (eid : Z) :
  length (add_hrc_unprintables cfg used eid sets) = length sets.
Proof.
  revert eid. induction sets as [|s rest IH]; intros eid; simpl; [reflexivity|].
  now rewrite IH.
Qed.

(** X4. [get_physical_unprintables] throws exactly when two different used
    filaments are of type TPU. Otherwise it returns one set per extruder: all
    empty on a printer with fewer than two extruders, and else the set of
    extruder [e] holds a used filament exactly if the filament is TPU and [e]
    is the extruder other than the master, or the filament requires a harder
    nozzle than that of [e]. *)
Theorem get_physical_unprintables_sets (cfg : GroupConfig) (used : list Z) :
  (is_error (get_physical_unprintables cfg used) = true <->
   exists t1 t2, t1 <> t2 /\ In t1 used /\ In t2 used /\
                 is_tpu cfg t1 = true /\ is_tpu cfg t2 = true) /\
  (forall sets, get_physical_unprintables cfg used = Ok sets ->
     length sets = Z.to_nat (nozzle_count cfg) /\
     (nozzle_count cfg < 2 -> Forall (fun s => s = ∅) sets) /\
     (2 <= nozzle_count cfg ->
      forall (e : nat) s f, sets !! e = Some s ->
        f ∈ s <->
        In f used /\
        (is_tpu cfg f = true /\ Z.of_nat e = 1 - (master_extruder_id cfg - 1) \/
         nozzle_hrc cfg (Z.of_nat e) < required_nozzle_HRC cfg f))).
Proof.
  unfold get_physical_unprintables.
  destruct (1 <? size (get_tpu_filaments cfg used))%nat eqn:Hsize.
  - apply Nat.ltb_lt in Hsize. split; [|discriminate].
    split; [intros _|reflexivity].
    destruct (size_two_elements _ Hsize) as (x & y & Hx & Hy & Hne).
    apply get_tpu_filaments_elem in Hx as [Hx Hpx], Hy as [Hy Hpy].
    exists x, y. auto.
  - apply Nat.ltb_ge in Hsize. split.
    { split.
      - destruct (nozzle_count cfg <? 2); discriminate.
      - intros (t1 & t2 & Hne & H1 & H2 & Hp1 & Hp2). exfalso.
        assert (1 < size (get_tpu_filaments cfg used))%nat; [|lia].
        apply (two_elements_size _ t1 t2); [| |exact Hne];
          apply get_tpu_filaments_elem; auto. }
    intros sets. destruct (Z.ltb_spec (nozzle_count cfg) 2) as [Hlt|Hge]; intros [= <-].
    + split; [apply length_replicate|]. split; [|lia].
      intros _. apply Forall_replicate. reflexivity.
    + split.
      { rewrite add_hrc_unprintables_length. unfold insert_at.
        destruct (_ <? 0); [|rewrite length_alter]; apply length_replicate. }
      split; [lia|]. intros _ e s f He.
      rewrite add_hrc_unprintables_lookup in He. simpl in He.
      set (other := 1 - (master_extruder_id cfg - 1)) in *.
      destruct (insert_at other (get_tpu_filaments cfg used)
                  (replicate (Z.to_nat (nozzle_count cfg)) ∅) !! e) as [s0|] eqn:Hs0;
        [|discriminate].
      injection He as <-.
      assert (Hemp : f ∈ s0 <-> In f used /\ is_tpu cfg f = true /\ Z.of_nat e = other).
      { unfold insert_at in Hs0. destruct (Z.ltb_spec other 0) as [Hneg|Hpos].
        - apply lookup_replicate in Hs0 as [-> _]. split; [set_solver|].
          intros (_ & _ & Heq). lia.
        - destruct (decide (e = Z.to_nat other)) as [->|Hne].
          + rewrite list_lookup_alter_eq in Hs0.
            destruct (replicate _ _ !! Z.to_nat other) as [s1|] eqn:Hs1; [|discriminate].
            apply lookup_replicate in Hs1 as [-> _]. injection Hs0 as <-.
            rewrite union_empty_r_L, get_tpu_filaments_elem. rewrite Z2Nat.id by lia. tauto.
          + rewrite list_lookup_alter_ne in Hs0 by congruence.
            apply lookup_replicate in Hs0 as [-> _]. split; [set_solver|].
            intros (_ & _ & Heq). exfalso. apply Hne. lia. }
      rewrite elem_of_union, Hemp, elem_of_list_to_set, list_elem_of_In, filter_In, Z.ltb_lt.
      tauto.
Qed.

Lemma geometrical_lookup (cfg : GroupConfig) (arrs : list (list Z)) (e : nat) (s : gset Z) :
  (map (fun arr => list_to_set (map (fun item => item - 1) arr)) arrs
     ++ drop (length (map (fun arr : list Z => (list_to_set (map (fun item => item - 1) arr) : gset Z)) arrs))
          (replicate (Z.to_nat (nozzle_count cfg)) (∅ : gset Z))) !! e = Some s ->
  forall f, f ∈ s <-> exists arr, arrs !! e = Some arr /\ In (f + 1) arr.
Proof.
  intros He f. rewrite length_map in He.
  destruct (decide (e < length arrs)%nat) as [Hlt|Hge].
  - rewrite lookup_app_l in He by (now rewrite length_map).
    rewrite list_lookup_fmap in He.
    destruct (arrs !! e) as [arr|] eqn:Harr; [|discriminate]. injection He as <-.
    rewrite elem_of_list_to_set, list_elem_of_In, in_map_iff. split.
    + intros (x & Hx & Hin). exists arr. split; [reflexivity|].
      now replace (f + 1) with x by lia.
    + intros (arr' & [= <-] & Hin). exists (f + 1). split; [lia|exact Hin].
  - rewrite lookup_app_r in He by (rewrite length_map; lia).
    rewrite lookup_drop in He. apply lookup_replicate in He as [-> _].
    split; [set_solver|]. intros (arr & Harr & _).
    apply lookup_lt_Some in Harr. lia.
Qed.

(** X5. [get_geometrical_unprintables], given at most one array per extruder,
    returns one set per extruder: all empty on a printer with fewer than two
    extruders, and else the set of extruder [e] holds the zero-based ids of
    the one-based filaments of the [e]-th array, and is empty where there is
    no such array. *)
Theorem get_geometrical_unprintables_sets (cfg : GroupConfig) (arrs : list (list Z)) :
  (length arrs <= Z.to_nat (nozzle_count cfg))%nat ->
  let sets := get_geometrical_unprintables cfg arrs in
  length sets = Z.to_nat (nozzle_count cfg) /\
  (nozzle_count cfg < 2 -> Forall (fun s => s = ∅) sets) /\
  (2 <= nozzle_count cfg ->
   forall (e : nat) s f, sets !! e = Some s ->
     f ∈ s <-> exists arr, arrs !! e = Some arr /\ In (f + 1) arr).
Proof.
  intros Hlen sets. subst sets. unfold get_geometrical_unprintables.
  destruct (Z.ltb_spec (nozzle_count cfg) 2) as [Hlt|Hge].
  - split; [apply length_replicate|]. split; [|lia].
    intros _. apply Forall_replicate. reflexivity.
  - split.
    { rewrite length_app, length_drop, !length_map, length_replicate. lia. }
    split; [lia|]. intros _ e s f He. now apply (geometrical_lookup cfg arrs e s).
Qed.

(** X5 on a two-extruder printer whose first extruder cannot print the
    filaments 2 and 3: the sets are {1, 2} and the empty set. *)
Lemma get_geometrical_unprintables_sets_witness :
  let cfg := sample_group_config sample_types_one_tpu 2 ByLayer [] in
  (length [[2; 3]] <= Z.to_nat (nozzle_count cfg))%nat /\
  length (get_geometrical_unprintables cfg [[2; 3]]) = 2%nat /\
  get_geometrical_unprintables cfg [[2; 3]] = [{[1; 2]}; ∅].
Proof.
  intros cfg.
  assert (Hlen : (length [[2; 3]] <= Z.to_nat (nozzle_count cfg))%nat) by (simpl; lia).
  split; [exact Hlen|]. split.
  - exact (proj1 (get_geometrical_unprintables_sets cfg [[2; 3]] Hlen)).
  - vm_compute. reflexivity.
Defined.

(** ** The TPU test *)

(** X6. [check_tpu_group] accepts a zero-based filament map exactly when no
    used filament is TPU, or exactly one is, it is mapped to the master
    extruder, and no other used filament is mapped to the same extruder. *)
Theorem check_tpu_group_accepts (cfg : GroupConfig) (used maps : list Z) :
  Forall (fun f => 0 <= map_at maps f) used ->
  check_tpu_group cfg used maps = true <-> tpu_alone_on_master cfg used maps.
Proof. apply check_tpu_group_spec. Qed.

(** X6 on three used filaments of which filament 0 is TPU, the master
    extruder being the first: the map [0; 1; 1] is accepted, the map
    [0; 0; 1] is not. *)
Lemma check_tpu_group_accepts_witness :
  let cfg := sample_group_config sample_types_one_tpu 2 ByLayer [] in
  Forall (fun f => 0 <= map_at [0; 1; 1] f) [0; 1; 2] /\
  check_tpu_group cfg [0; 1; 2] [0; 1; 1] = true /\
  check_tpu_group cfg [0; 1; 2] [0; 0; 1] = false.
Proof.
  intros cfg.
  assert (Hpos : Forall (fun f => 0 <= map_at [0; 1; 1] f) [0; 1; 2]).
  { repeat constructor; vm_compute; discriminate. }
  split; [exact Hpos|]. split; [|reflexivity].
  apply (proj2 (check_tpu_group_accepts cfg [0; 1; 2] [0; 1; 1] Hpos)).
  vm_compute. split; reflexivity.
Defined.

(** ** What [collect_extruders] leaves *)

(** X7. At the end of [collect_extruders] every layer's extruder list is in
    strictly increasing order, so without duplicates; it holds the extruders
    collected for the layer, and a layer with object extrusions for which
    nothing was collected holds the "don't care" extruder 0 alone, so that no
    layer with object extrusions is left without an extruder. Nothing else of
    the layer changes. *)
Theorem collect_extruders_sorted_unique (lts : list LayerTools) :
  length (finish_collected lts) = length lts /\
  forall i lt, lts !! i = Some lt ->
    exists lt', finish_collected lts !! i = Some lt' /\
      only_extruders_changed lt lt' /\
      strictly_sorted (extruders lt') /\
      (has_object lt = true -> extruders lt' <> []) /\
      (extruders lt <> [] -> forall e, In e (extruders lt') <-> In e (extruders lt)) /\
      (extruders lt = [] -> extruders lt' = if has_object lt then [0] else []).
Proof.
  unfold finish_collected. split; [apply length_map|].
  intros i lt Hi. exists (finish_collected_layer lt).
  split; [now rewrite list_lookup_fmap, Hi|].
  unfold finish_collected_layer, only_extruders_changed.
  pose proof (sort_remove_duplicates_strictly_sorted (extruders lt)) as Hs.
  pose proof (fun e => sort_remove_duplicates_elem Z.leb Z.eqb Z.eqb_eq e (extruders lt)) as Hel.
  destruct (sort_remove_duplicates Z.leb Z.eqb (extruders lt)) as [|a es] eqn:Hsrd.
  - simpl. split; [reflexivity|]. split; [now destruct (has_object lt)|].
    split; [intros ->; discriminate|]. split.
    + intros Hne. destruct (extruders lt) as [|x xs]; [congruence|].
      exfalso. apply (proj2 (Hel x)). now left.
    + reflexivity.
  - simpl. split; [reflexivity|]. split; [exact Hs|]. split; [discriminate|].
    split; [intros _ e; apply Hel|].
    intros Hnil. rewrite Hnil in Hsrd. discriminate.
Qed.

(** ** The ids [reorder_extruders] hands on *)

Lemma reorder_loop_frame (fs : Z -> bool) (rule : LayerTools -> bool) (start : Z)
    (lts : list LayerTools) :
  Forall2 only_extruders_changed lts (reorder_loop fs rule start lts).
Proof.
  revert start. induction lts as [|lt rest IH]; intros start; simpl; [constructor|].
  destruct (extruders lt) as [|e es] eqn:He.
  - constructor; [|apply IH]. unfold only_extruders_changed. destruct lt; simpl in *.
    now subst.
  - constructor; [reflexivity|apply IH].
Qed.

Lemma reindex_frame (lts : list LayerTools) :
  Forall2 only_extruders_changed lts (reindex lts).
Proof.
  unfold reindex. induction lts as [|lt rest IH]; simpl; constructor; [reflexivity|exact IH].
Qed.

Lemma only_extruders_changed_refl (lts : list LayerTools) :
  Forall2 only_extruders_changed lts lts.
Proof.
  induction lts as [|lt rest IH]; constructor; [|exact IH].
  unfold only_extruders_changed. now destruct lt.
Qed.

Lemma only_extruders_changed_trans (l1 l2 l3 : list LayerTools) :
  Forall2 only_extruders_changed l1 l2 -> Forall2 only_extruders_changed l2 l3 ->
  Forall2 only_extruders_changed l1 l3.
Proof.
  intros H12. revert l3. induction H12 as [|a b l1 l2 Hab _ IH]; intros l3 H23.
  - inversion H23. constructor.
  - inversion H23 as [|? c ? l3' Hbc Hrest]; subst. constructor; [|now apply IH].
    unfold only_extruders_changed in *. rewrite Hbc, Hab. reflexivity.
Qed.

(** X8. Given layers as [collect_extruders] leaves them on a printer with [n]
    filaments, both overloads of [reorder_extruders] hand on layers whose
    extruder ids all lie in [0, n), having changed nothing but the extruder
    lists: the overload taking the previous extruder always, the overload
    taking the first layer's tool order when that order names filaments of the
    printer and there is an extruder to start from (the first layer prints
    something, or a later layer names a filament). *)
Theorem reorder_extruders_in_range (n : Z) (cfg : ReorderConfig) (last_extruder_id : Z)
    (tool_order_layer0 : list Z) (lts : list LayerTools) :
  0 < n < UINT_MAX ->
  Forall (collected_layer n) lts ->
  (last_extruder_id = UINT_MAX \/ 0 <= last_extruder_id < n ->
   zero_based_ids n (reorder_extruders_uint cfg last_extruder_id lts) /\
   Forall2 only_extruders_changed lts (reorder_extruders_uint cfg last_extruder_id lts)) /\
  (one_based n tool_order_layer0 -> start_extruder_known tool_order_layer0 lts ->
   zero_based_ids n (reorder_extruders_vec cfg tool_order_layer0 lts) /\
   Forall2 only_extruders_changed lts (reorder_extruders_vec cfg tool_order_layer0 lts)).
Proof.
  intros Hn Hall. split.
  - intros Hlast. split; [apply reorder_extruders_uint_zero_based; auto; lia|].
    unfold reorder_extruders_uint. destruct lts as [|lt0 rest] eqn:Hl; [constructor|].
    rewrite <- Hl. destruct (_ && _); [apply only_extruders_changed_refl|].
    eapply only_extruders_changed_trans; [apply reorder_loop_frame|apply reindex_frame].
  - intros Htool Hknown. split; [now apply reorder_extruders_vec_zero_based|].
    unfold reorder_extruders_vec. destruct lts as [|lt0 rest]; [constructor|].
    eapply only_extruders_changed_trans; [|apply reindex_frame].
    constructor; [reflexivity|apply reorder_loop_frame].
Qed.

(** X8 on a four-filament printer whose two layers collected [1; 2] and
    [2; 3]: started after the zero-based extruder 1, the layers come out as
    [1; 0] and [1; 2], all ids below 4. *)
Lemma reorder_extruders_in_range_witness :
  let cfg := mkReorderConfig false false (fun _ => false) in
  let lts := [set_extruders [1; 2] (new_LayerTools (1 # 5));
              set_extruders [2; 3] (new_LayerTools (2 # 5))] in
  0 < 4 < UINT_MAX /\
  Forall (collected_layer 4) lts /\
  map extruders (reorder_extruders_uint cfg 1 lts) = [[1; 0]; [1; 2]] /\
  zero_based_ids 4 (reorder_extruders_uint cfg 1 lts).
Proof.
  intros cfg lts.
  assert (Hn : 0 < 4 < UINT_MAX) by (unfold UINT_MAX; lia).
  assert (Hall : Forall (collected_layer 4) lts).
  { repeat constructor; simpl; lia. }
  split; [exact Hn|]. split; [exact Hall|]. split; [reflexivity|].
  refine (proj1 (proj1 (reorder_extruders_in_range 4 cfg 1 [] lts Hn Hall) _)).
  right. lia.
Defined.

(** ** The first layer's tool order *)

Lemma existsb_eqb_In (x : Z) (l : list Z) : existsb (Z.eqb x) l = true <-> In x l.
Proof.
  rewrite existsb_exists. split.
  - intros (y & Hy & Heq). apply Z.eqb_eq in Heq. now subst.
  - intros Hin. exists x. split; [exact Hin|apply Z.eqb_refl].
Qed.

Lemma taken_out_ext (t1 t2 es : list Z) :
  (forall e, In e es -> (In e t1 <-> In e t2)) -> taken_out t1 es = taken_out t2 es.
Proof.
  intros Hext. unfold taken_out. apply map_ext_in. intros e He.
  destruct (existsb (Z.eqb e) t1) eqn:H1, (existsb (Z.eqb e) t2) eqn:H2; try reflexivity.
  - apply existsb_eqb_In, (Hext e He), existsb_eqb_In in H1. congruence.
  - apply existsb_eqb_In, (Hext e He), existsb_eqb_In in H2. congruence.
Qed.

Lemma taken_out_none (es : list Z) : taken_out [] es = es.
Proof. unfold taken_out. simpl. apply map_id. Qed.

Lemma find_index_taken_out (t : Z) (taken es : list Z) (start : nat) :
  List.NoDup es -> ~ In UINT_MAX es -> t <> UINT_MAX ->
  match find_index (Z.eqb t) (taken_out taken es) start with
  | Some i =>
      (start <= i)%nat /\ In t es /\ ~ In t taken /\
      <[(i - start)%nat := UINT_MAX]> (taken_out taken es) = taken_out (t :: taken) es
  | None => ~ In t es \/ In t taken
  end.
Proof.
  intros Hnd Hmax Ht. revert start.
  induction es as [|e es IH]; intros start; simpl; [now left|].
  inversion Hnd as [|? ? He Hnd']; subst.
  assert (Hmax' : ~ In UINT_MAX es) by (intros H; apply Hmax; now right).
  assert (He' : e <> UINT_MAX) by (intros ->; apply Hmax; now left).
  destruct (existsb (Z.eqb e) taken) eqn:Htaken.
  - destruct (Z.eqb_spec t UINT_MAX) as [|_]; [contradiction|].
    specialize (IH Hnd' Hmax' (S start)).
    destruct (find_index (Z.eqb t) (taken_out taken es) (S start)) as [i|].
    + destruct IH as (Hle & Hin & Hnot & Hins).
      split; [lia|]. split; [now right|]. split; [exact Hnot|].
      replace (i - start)%nat with (S (i - S start)) by lia. simpl.
      rewrite Hins, orb_true_r. reflexivity.
    + destruct IH as [Hnot|Hin]; [|now right].
      destruct (Z.eq_dec t e) as [->|Hne]; [right; now apply existsb_eqb_In|].
      left. intros [H|H]; [congruence|contradiction].
  - destruct (Z.eqb_spec t e) as [->|Hne].
    + split; [lia|]. split; [now left|]. split.
      { intros Hin. apply existsb_eqb_In in Hin. congruence. }
      rewrite Nat.sub_diag. simpl. rewrite Z.eqb_refl. simpl. f_equal.
      apply taken_out_ext. intros x Hx. simpl. split; [tauto|].
      intros [<-|H]; [contradiction|exact H].
    + specialize (IH Hnd' Hmax' (S start)).
      destruct (find_index (Z.eqb t) (taken_out taken es) (S start)) as [i|].
      * destruct IH as (Hle & Hin & Hnot & Hins).
        split; [lia|]. split; [now right|]. split; [exact Hnot|].
        replace (i - start)%nat with (S (i - S start)) by lia. simpl.
        rewrite Hins, orb_false_r. destruct (Z.eqb_spec e t) as [|_]; [congruence|reflexivity].
      * destruct IH as [Hnot|Hin]; [|now right].
        left. intros [H|H]; [congruence|contradiction].
Qed.

Lemma take_tool_order_taken (tool es taken acc : list Z) :
  List.NoDup es -> ~ In UINT_MAX es -> List.NoDup tool -> ~ In UINT_MAX tool ->
  (forall t, In t tool -> ~ In t taken) ->
  exists taken',
    (forall x, In x taken' <-> In x taken \/ (In x tool /\ In x es)) /\
    take_tool_order tool (taken_out taken es) acc
    = (taken_out taken' es, acc ++ List.filter (fun t => existsb (Z.eqb t) es) tool).
Proof.
  intros Hnd Hmax. revert taken acc.
  induction tool as [|t tool IH]; intros taken acc Hndt Hmaxt Hfresh; simpl.
  - exists taken. split; [tauto|]. now rewrite app_nil_r.
  - inversion Hndt as [|? ? Ht Hndt']; subst.
    assert (Htm : t <> UINT_MAX) by (intros ->; apply Hmaxt; now left).
    assert (Hmaxt' : ~ In UINT_MAX tool) by (intros H; apply Hmaxt; now right).
    pose proof (find_index_taken_out t taken es 0 Hnd Hmax Htm) as Hfind.
    destruct (find_index (Z.eqb t) (taken_out taken es) 0) as [i|].
    + destruct Hfind as (_ & Hin & Hnot & Hins). rewrite Nat.sub_0_r in Hins.
      rewrite Hins.
      destruct (IH (t :: taken) (acc ++ [t]) Hndt' Hmaxt') as (taken' & Hmem & Heq).
      { intros x Hx [<-|H]; [contradiction|]. apply (Hfresh x); [now right|exact H]. }
      exists taken'. split.
      * intros x. rewrite Hmem. simpl. split.
        -- intros [[<-|H]|[H1 H2]]; auto.
        -- intros [H|[[<-|H1] H2]]; auto.
      * rewrite Heq. apply existsb_eqb_In in Hin. rewrite Hin.
        now rewrite <- app_assoc.
    + destruct (IH taken acc Hndt' Hmaxt') as (taken' & Hmem & Heq).
      { intros x Hx. apply Hfresh. now right. }
      assert (Hnot : ~ In t es).
      { destruct Hfind as [H|H]; [exact H|]. exfalso. apply (Hfresh t); [now left|exact H]. }
      exists taken'. split.
      * intros x. rewrite Hmem. simpl. split; [tauto|].
        intros [H|[[<-|H1] H2]]; auto. contradiction.
      * rewrite Heq. destruct (existsb (Z.eqb t) es) eqn:Hex; [|reflexivity].
        apply existsb_eqb_In in Hex. contradiction.
Qed.

(** X9. The first layer in [reorder_extruders(std::vector<unsigned int>)]:
    for a duplicate-free tool order and a duplicate-free collected list, the
    layer prints first the extruders the tool order names, in the tool order's
    order, and then its other extruders that are not 0, in the order they
    were collected in; when that leaves nothing, it prints the first extruder
    of the tool order, and nothing if the tool order is empty. *)
Theorem reorder_first_layer_named_first (tool_order_layer0 es : list Z) :
  List.NoDup es -> ~ In UINT_MAX es ->
  List.NoDup tool_order_layer0 -> ~ In UINT_MAX tool_order_layer0 ->
  reorder_first_layer tool_order_layer0 es
  = match named_first tool_order_layer0 es, tool_order_layer0 with
    | [], t :: _ => [t]
    | named, _ => named
    end.
Proof.
  intros Hnd Hmax Hndt Hmaxt. unfold reorder_first_layer.
  destruct (take_tool_order_taken tool_order_layer0 es [] [] Hnd Hmax Hndt Hmaxt)
    as (taken' & Hmem & Heq); [intros t _ []|].
  rewrite taken_out_none in Heq. rewrite Heq. simpl.
  assert (Hrest :
    List.filter (fun e => negb (e =? 0) && negb (e =? UINT_MAX)) (taken_out taken' es)
    = List.filter (fun e => negb (e =? 0) && negb (existsb (Z.eqb e) tool_order_layer0)) es).
  { clear Heq. assert (Hsub : forall e, In e es -> In e es) by auto. revert Hsub.
    generalize es at 1 3 4 as l. induction l as [|e l IH]; intros Hsub; [reflexivity|].
    assert (He : In e es) by (apply Hsub; now left).
    assert (Hem : e <> UINT_MAX) by (intros ->; contradiction).
    simpl. rewrite IH by (intros x Hx; apply Hsub; now right).
    destruct (existsb (Z.eqb e) taken') eqn:Htaken.
    - apply existsb_eqb_In, Hmem in Htaken. destruct Htaken as [[]|[Ht _]].
      apply existsb_eqb_In in Ht. rewrite Ht.
      change (UINT_MAX =? UINT_MAX) with true. rewrite !andb_false_r. reflexivity.
    - assert (Hnt : existsb (Z.eqb e) tool_order_layer0 = false).
      { destruct (existsb (Z.eqb e) tool_order_layer0) eqn:Hex; [|reflexivity].
        apply existsb_eqb_In in Hex.
        assert (In e taken') by (apply Hmem; auto).
        apply existsb_eqb_In in H. congruence. }
      rewrite Hnt. destruct (Z.eqb_spec e UINT_MAX) as [|_]; [contradiction|reflexivity]. }
  rewrite Hrest. fold (named_first tool_order_layer0 es).
  destruct (named_first tool_order_layer0 es), tool_order_layer0; reflexivity.
Qed.

(** X9 on a first layer that collected [0; 1; 2; 4] under the tool order
    [4; 3; 1]: the layer prints 4, 1 and then 2. *)
Lemma reorder_first_layer_named_first_witness :
  List.NoDup [0; 1; 2; 4] /\ ~ In UINT_MAX [0; 1; 2; 4] /\
  List.NoDup [4; 3; 1] /\ ~ In UINT_MAX [4; 3; 1] /\
  reorder_first_layer [4; 3; 1] [0; 1; 2; 4] = [4; 1; 2].
Proof.
  assert (H1 : List.NoDup [0; 1; 2; 4]).
  { repeat constructor; simpl; intuition discriminate. }
  assert (H2 : ~ In UINT_MAX [0; 1; 2; 4]) by (simpl; intuition discriminate).
  assert (H3 : List.NoDup [4; 3; 1]).
  { repeat constructor; simpl; intuition discriminate. }
  assert (H4 : ~ In UINT_MAX [4; 3; 1]) by (simpl; intuition discriminate).
  split; [exact H1|]. split; [exact H2|]. split; [exact H3|]. split; [exact H4|].
  rewrite (reorder_first_layer_named_first [4; 3; 1] [0; 1; 2; 4] H1 H2 H3 H4).
  reflexivity.
Defined.

(** ** Extruder statistics *)

Lemma strictly_sorted_above (a : Z) (es : list Z) :
  strictly_sorted (a :: es) -> Forall (fun e => a < e) es.
Proof.
  revert a. induction es as [|b rest IH]; intros a Hs; [constructor|].
  destruct Hs as [Hab Hs]. constructor; [exact Hab|].
  eapply List.Forall_impl; [|apply (IH b Hs)]. intros e He. simpl in He. lia.
Qed.

Lemma strictly_sorted_tail (a : Z) (es : list Z) :
  strictly_sorted (a :: es) -> strictly_sorted es.
Proof. destruct es as [|b rest]; [constructor|]. now intros [_ Hs]. Qed.

Lemma filter_out_absent (f : Z) (es : list Z) :
  ~ In f es -> List.filter (fun eid => negb (eid =? f)) es = es.
Proof.
  induction es as [|e es IH]; intros Hnot; [reflexivity|]. simpl.
  destruct (Z.eqb_spec e f) as [->|_]; [exfalso; apply Hnot; now left|].
  simpl. f_equal. apply IH. intros H. apply Hnot. now right.
Qed.

Lemma filter_out_perm (f : Z) (es : list Z) :
  strictly_sorted es -> In f es ->
  Permutation (List.filter (fun eid => negb (eid =? f)) es ++ [f]) es.
Proof.
  induction es as [|e es IH]; intros Hs Hin; [destruct Hin|].
  pose proof (strictly_sorted_above e es Hs) as Habove.
  simpl. destruct (Z.eqb_spec e f) as [->|Hne]; simpl.
  - rewrite filter_out_absent.
    + symmetry. apply Permutation_cons_append.
    + intros H. rewrite List.Forall_forall in Habove. specialize (Habove f H). lia.
  - apply perm_skip. apply IH; [now apply strictly_sorted_tail in Hs|].
    destruct Hin as [H|H]; [congruence|exact H].
Qed.

Lemma collect_all_fold (lts : list LayerTools) (acc : list Z) :
  strictly_sorted acc ->
  let all := fold_left (fun acc lt => sort_remove_duplicates Z.leb Z.eqb (acc ++ extruders lt))
               lts acc in
  strictly_sorted all /\
  forall e, In e all <-> In e acc \/ exists lt, In lt lts /\ In e (extruders lt).
Proof.
  revert acc. induction lts as [|lt rest IH]; intros acc Hs; simpl.
  - split; [exact Hs|]. intros e. split; [auto|]. intros [H|(lt & [] & _)]. exact H.
  - destruct (IH (sort_remove_duplicates Z.leb Z.eqb (acc ++ extruders lt))
                (sort_remove_duplicates_strictly_sorted _)) as [Hs' Hmem].
    split; [exact Hs'|]. intros e. rewrite Hmem.
    rewrite (sort_remove_duplicates_elem Z.leb Z.eqb Z.eqb_eq), in_app_iff. split.
    + intros [[H|H]|(lt' & Hlt' & He)]; [now left| |].
      * right. exists lt. split; [now left|exact H].
      * right. exists lt'. split; [now right|exact He].
    + intros [H|(lt' & [<-|Hlt'] & He)]; [left; now left|left; now right|].
      right. exists lt'. auto.
Qed.

Lemma first_printing_layer_spec (lts : list LayerTools) :
  match first_printing_layer lts with
  | Some es => es <> [] /\ exists lt, In lt lts /\ extruders lt = es
  | None => Forall (fun lt => extruders lt = []) lts
  end.
Proof.
  induction lts as [|lt rest IH]; simpl; [constructor|].
  destruct (extruders lt) as [|e es] eqn:He.
  - destruct (first_printing_layer rest) as [es'|].
    + destruct IH as (Hne & lt' & Hin & Heq). split; [exact Hne|].
      exists lt'. split; [now right|exact Heq].
    + constructor; assumption.
  - split; [discriminate|]. exists lt. split; [now left|exact He].
Qed.

Lemma front_In (es : list Z) : es <> [] -> In (front es) es.
Proof. destruct es; [congruence|]. intros _. now left. Qed.

Lemma back_In (es : list Z) : es <> [] -> In (back es) es.
Proof.
  intros Hne. destruct (exists_last Hne) as (l & x & ->). unfold back.
  rewrite last_last. apply in_or_app. right. now left.
Qed.

(** X10. [collect_extruder_statistics] without priming: the list of all
    printing extruders is in strictly increasing order and holds exactly the
    extruders of the layers; when no layer prints, the first and the last
    printing extruder are both [(unsigned int)-1] and the list is empty;
    otherwise both are in the list. With [prime_multi_material] the list is
    the same extruders in priming order, which ends with the first printing
    extruder, and the first printing extruder reported is the first one
    primed; the last printing extruder is not affected. *)
Theorem collect_extruder_statistics_all (lts : list LayerTools) :
  let plain := collect_extruder_statistics false lts in
  let primed := collect_extruder_statistics true lts in
  strictly_sorted (all_printing_extruders plain) /\
  (forall e, In e (all_printing_extruders plain) <->
             exists lt, In lt lts /\ In e (extruders lt)) /\
  (Forall (fun lt => extruders lt = []) lts ->
   first_printing_extruder plain = UINT_MAX /\ last_printing_extruder plain = UINT_MAX /\
   all_printing_extruders plain = [] /\ primed = plain) /\
  (~ Forall (fun lt => extruders lt = []) lts ->
   In (first_printing_extruder plain) (all_printing_extruders plain) /\
   In (last_printing_extruder plain) (all_printing_extruders plain) /\
   Permutation (all_printing_extruders primed) (all_printing_extruders plain) /\
   back (all_printing_extruders primed) = first_printing_extruder plain /\
   first_printing_extruder primed = front (all_printing_extruders primed) /\
   last_printing_extruder primed = last_printing_extruder plain).
Proof.
  intros plain primed. subst plain primed. unfold collect_extruder_statistics.
  cbn [first_printing_extruder last_printing_extruder all_printing_extruders].
  destruct (collect_all_fold lts [] I) as [Hs Hmem]. fold (collect_all_printing_extruders lts) in *.
  assert (Hmem' : forall e, In e (collect_all_printing_extruders lts) <->
                            exists lt, In lt lts /\ In e (extruders lt)).
  { intros e. rewrite Hmem. split; [intros [[]|H]; exact H|auto]. }
  split; [exact Hs|]. split; [exact Hmem'|].
  pose proof (first_printing_layer_spec lts) as Hfirst.
  pose proof (first_printing_layer_spec (rev lts)) as Hlast.
  split.
  - intros Hall.
    assert (Hnil : collect_all_printing_extruders lts = []).
    { destruct (collect_all_printing_extruders lts) as [|e es]; [reflexivity|].
      exfalso. destruct (proj1 (Hmem' e) ltac:(now left)) as (lt & Hlt & He).
      rewrite List.Forall_forall in Hall. rewrite (Hall lt Hlt) in He. destruct He. }
    rewrite Hnil.
    destruct (first_printing_layer lts) as [es|].
    { exfalso. destruct Hfirst as (Hne & lt & Hlt & Heq).
      rewrite List.Forall_forall in Hall. rewrite (Hall lt Hlt) in Heq. congruence. }
    destruct (first_printing_layer (rev lts)) as [es|].
    { exfalso. destruct Hlast as (Hne & lt & Hlt & Heq). apply in_rev in Hlt.
      rewrite List.Forall_forall in Hall. rewrite (Hall lt Hlt) in Heq. congruence. }
    auto.
  - intros Hsome.
    destruct (first_printing_layer lts) as [es|]; [|contradiction].
    destruct Hfirst as (Hne & lt & Hlt & Heq).
    assert (Hfin : In (front es) (collect_all_printing_extruders lts)).
    { apply Hmem'. exists lt. split; [exact Hlt|]. rewrite Heq. now apply front_In. }
    destruct (first_printing_layer (rev lts)) as [es'|].
    2:{ exfalso. apply Hsome. rewrite List.Forall_forall in *. intros x Hx.
        apply Hlast. now apply in_rev in Hx. }
    destruct Hlast as (Hne' & lt' & Hlt' & Heq'). apply in_rev in Hlt'.
    assert (Hlin : In (back es') (collect_all_printing_extruders lts)).
    { apply Hmem'. exists lt'. split; [exact Hlt'|]. rewrite Heq'. now apply back_In. }
    split; [exact Hfin|]. split; [exact Hlin|].
    destruct (collect_all_printing_extruders lts) as [|a all] eqn:Hall; [destruct Hfin|].
    cbn [first_printing_extruder last_printing_extruder all_printing_extruders].
    split; [now apply filter_out_perm|]. split; [|auto].
    unfold back. apply last_last.
Qed.

(** The statistics of a print whose layers print [1; 2], nothing and [0; 2]:
    the first printing extruder is 1, the last 2, all are [0; 1; 2]; primed,
    the sequence is [0; 2; 1] and starts with extruder 0. *)
Example collect_extruder_statistics_sample :
  let lts := [set_extruders [1; 2] (new_LayerTools (1 # 5)); new_LayerTools (2 # 5);
              set_extruders [0; 2] (new_LayerTools (3 # 5))] in
  collect_extruder_statistics false lts = mkStatistics 1 2 [0; 1; 2] /\
  collect_extruder_statistics true lts = mkStatistics 0 2 [0; 2; 1].
Proof. split; reflexivity. Qed.

(** ** The maximum layer height *)





(** [calc_max_layer_height] for nozzles of 0.4 and 0.6 with no configured
    maximum and with a maximum of 0.28: the limits are 0.3 and 0.28, so an
    object printed at 0.2 gives 0.28 and an object printed at 0.35 gives
    0.35. *)
Example calc_max_layer_height_sample :
  calc_max_layer_height 1000000 [(0, 2 # 5); (7 # 25, 3 # 5)]%Q (1 # 5) = (7 # 25)%Q /\
  calc_max_layer_height 1000000 [(0, 2 # 5); (7 # 25, 3 # 5)]%Q (7 # 20) = (7 # 20)%Q.
Proof. split; reflexivity. Qed.

(** ** Counting filament changes *)

Lemma filament_changes_snoc (l : list Z) (x : Z) :
  filament_changes (l ++ [x])
  = filament_changes l
    + match l with
      | [] => 0
      | _ :: _ => if List.last l 0 =? x then 0 else 1
      end.
Proof.
  induction l as [|a l IH]; [reflexivity|].
  destruct l as [|b l]; [simpl; lia|].
  change (filament_changes ((a :: b :: l) ++ [x]))
    with ((if a =? b then 0 else 1) + filament_changes ((b :: l) ++ [x])).
  rewrite IH.
  change (filament_changes (a :: b :: l))
    with ((if a =? b then 0 else 1) + filament_changes (b :: l)).
  change (List.last (a :: b :: l) 0) with (List.last (b :: l) 0). lia.
Qed.

Lemma last_nonempty_snoc (l : list Z) (x : Z) :
  match l ++ [x] with [] => UINT_MAX | _ :: _ => List.last (l ++ [x]) 0 end = x.
Proof. rewrite last_last. now destruct l. Qed.

Lemma filament_change_step_summary (filament_map : list Z) (flush : Z -> Z -> Z -> Z)
    (done : list Z) (st : FilamentChangeState) (item : Z) :
  map_at filament_map item = 0 \/ map_at filament_map item = 1 ->
  0 <= item < UINT_MAX ->
  Forall (fun i => 0 <= i < UINT_MAX) done ->
  change_summary filament_map done st ->
  change_summary filament_map (done ++ [item]) (filament_change_step filament_map flush st item).
Proof.
  intros Hext Hitem Hdone [Hlast Hcount]. unfold change_summary, filament_change_step.
  cbn [last_filament_per_extruder total_filament_change_count]. cbv zeta.
  rewrite !List.filter_app. simpl. rewrite Hlast, Hcount.
  assert (Hne : forall (l : list Z), Forall (fun i => 0 <= i < UINT_MAX) l ->
            ((match l with [] => UINT_MAX | _ :: _ => List.last l 0 end) =? UINT_MAX)
            = match l with [] => true | _ :: _ => false end).
  { intros l Hl. destruct l as [|a l]; [reflexivity|].
    apply Z.eqb_neq. assert (Hin : In (List.last (a :: l) 0) (a :: l)).
    { change (List.last (a :: l) 0) with (back (a :: l)). now apply back_In. }
    rewrite List.Forall_forall in Hl. specialize (Hl _ Hin). lia. }
  assert (Hfil : forall e, Forall (fun i => 0 <= i < UINT_MAX)
                   (List.filter (fun i => map_at filament_map i =? e) done)).
  { intros e. rewrite List.Forall_forall in *. intros x Hx. apply filter_In in Hx as [Hx _].
    now apply Hdone. }
  destruct Hext as [He|He]; rewrite He; simpl.
  - rewrite app_nil_r, (Hne _ (Hfil 0)), filament_changes_snoc, last_nonempty_snoc.
    split; [reflexivity|].
    destruct (List.filter (fun i => map_at filament_map i =? 0) done) as [|a l];
      [simpl; lia|].
    remember (List.last (a :: l) 0) as x. remember (filament_changes (a :: l)) as n.
    destruct (x =? item); cbn [negb andb]; lia.
  - rewrite app_nil_r, (Hne _ (Hfil 1)), filament_changes_snoc, last_nonempty_snoc.
    split; [reflexivity|].
    destruct (List.filter (fun i => map_at filament_map i =? 1) done) as [|a l];
      [simpl; lia|].
    remember (List.last (a :: l) 0) as x. remember (filament_changes (a :: l)) as n.
    destruct (x =? item); cbn [negb andb]; lia.
Qed.

Lemma filament_change_fold_summary (filament_map : list Z) (flush : Z -> Z -> Z -> Z)
    (items done : list Z) (st : FilamentChangeState) :
  Forall (fun i => (map_at filament_map i = 0 \/ map_at filament_map i = 1) /\
                   0 <= i < UINT_MAX) items ->
  Forall (fun i => 0 <= i < UINT_MAX) done ->
  change_summary filament_map done st ->
  change_summary filament_map (done ++ items)
    (fold_left (filament_change_step filament_map flush) items st).
Proof.
  revert done st. induction items as [|item items IH]; intros done st Hitems Hdone Hsum.
  - now rewrite app_nil_r.
  - inversion Hitems as [|? ? [Hext Hitem] Hrest]; subst. simpl.
    replace (done ++ item :: items) with ((done ++ [item]) ++ items)
      by (now rewrite <- app_assoc).
    apply IH; [exact Hrest| |].
    + apply Forall_app. split; [exact Hdone|]. constructor; [exact Hitem|constructor].
    + now apply filament_change_step_summary.
Qed.

(** X12. [calc_filament_change_info_by_toolorder] counts the filament changes
    extruder by extruder: with every printed filament mapped to extruder 0 or
    1, the count is the number of places where, among the items printed by
    extruder 0, a filament follows a different one, plus the same number for
    extruder 1. Layer boundaries play no part, and a filament that an
    extruder still holds costs no change, whatever the other extruder printed
    in between. *)
Theorem filament_change_count_per_extruder (filament_map : list Z)
    (flush : Z -> Z -> Z -> Z) (layer_sequences : list (list Z)) :
  Forall (fun item => (map_at filament_map item = 0 \/ map_at filament_map item = 1) /\
                      0 <= item < UINT_MAX) (concat layer_sequences) ->
  total_filament_change_count
    (calc_filament_change_info_by_toolorder filament_map flush layer_sequences)
  = filament_changes (printed_by filament_map 0 layer_sequences)
    + filament_changes (printed_by filament_map 1 layer_sequences).
Proof.
  intros Hall. unfold calc_filament_change_info_by_toolorder, printed_by.
  assert (Hflat : forall lss st,
            fold_left (fun st ls => fold_left (filament_change_step filament_map flush) ls st)
              lss st
            = fold_left (filament_change_step filament_map flush) (concat lss) st).
  { induction lss as [|ls lss IH]; intros st; [reflexivity|].
    simpl. rewrite IH, fold_left_app. reflexivity. }
  rewrite Hflat.
  pose proof (filament_change_fold_summary filament_map flush (concat layer_sequences) []
                (mkChangeState [UINT_MAX; UINT_MAX] ∅ 0) Hall ltac:(constructor)) as Hsum.
  apply Hsum. split; reflexivity.
Qed.

(** X12 on two layers printing the filaments [0; 1; 2] and [2; 0] with
    filament 1 on the second extruder: the first extruder prints 0, 2, 2, 0
    and changes twice, the second prints 1 alone. *)
Lemma filament_change_count_per_extruder_witness :
  Forall (fun item => (map_at [0; 1; 0] item = 0 \/ map_at [0; 1; 0] item = 1) /\
                      0 <= item < UINT_MAX) (concat [[0; 1; 2]; [2; 0]]) /\
  total_filament_change_count
    (calc_filament_change_info_by_toolorder [0; 1; 0] (fun _ _ _ => 10) [[0; 1; 2]; [2; 0]])
  = 2.
Proof.
  assert (Hall : Forall (fun item => (map_at [0; 1; 0] item = 0 \/ map_at [0; 1; 0] item = 1) /\
                                     0 <= item < UINT_MAX) (concat [[0; 1; 2]; [2; 0]])).
  { simpl. unfold UINT_MAX.
    repeat (constructor; [split; [first [now left|now right]|lia]|]). constructor. }
  split; [exact Hall|].
  rewrite (filament_change_count_per_extruder [0; 1; 0] (fun _ _ _ => 10)
             [[0; 1; 2]; [2; 0]] Hall).
  reflexivity.
Defined.

(** ** Looking a layer up by its height *)

Lemma lower_bound_spec (z : Q) (lts : list LayerTools) :
  increasing_z lts ->
  (lower_bound z lts <= length lts)%nat /\
  (forall k lt, (k < lower_bound z lts)%nat -> lts !! k = Some lt -> (print_z lt < z)%Q) /\
  (forall k lt, (lower_bound z lts <= k)%nat -> lts !! k = Some lt -> (z <= print_z lt)%Q).
Proof.
  unfold increasing_z. induction lts as [|lt rest IH]; intros Hs; simpl.
  - split; [lia|]. split; intros k a; [lia|discriminate].
  - apply StronglySorted_inv in Hs as [Hs Hall]. unfold Qltb.
    destruct (Qlt_le_dec (print_z lt) z) as [Hlt|Hge].
    + destruct (IH Hs) as (Hlen & Hbelow & Habove). split; [lia|]. split.
      * intros [|k] a Hk Ha; simpl in Ha; [now injection Ha as <-|].
        apply (Hbelow k); [lia|exact Ha].
      * intros [|k] a Hk Ha; [lia|]. simpl in Ha. apply (Habove k); [lia|exact Ha].
    + split; [lia|]. split; [intros k a; lia|].
      intros [|k] a _ Ha; simpl in Ha; [now injection Ha as <-|].
      rewrite List.Forall_forall in Hall.
      assert (Hin : In a rest) by (apply list_elem_of_In; eapply list_elem_of_lookup_2; eauto).
      specialize (Hall a Hin). unfold below_z in Hall. lra.
Qed.

Lemma distance_past_minimum (z a b c : Q) :
  (a < b)%Q -> (b <= c)%Q -> (Qabs (a - z) <= Qabs (b - z))%Q ->
  (Qabs (a - z) <= Qabs (c - z))%Q.
Proof.
  intros Hab Hbc.
  apply (Qabs_case (a - z)); intros Ha; apply (Qabs_case (b - z)); intros Hb;
    apply (Qabs_case (c - z)); intros Hc; lra.
Qed.

Lemma nearer_layers_cons (z d : Q) (i : nat) (lt : LayerTools) (rest : list LayerTools) :
  nearer_layers z d i (lt :: rest)
  = if Qlt_le_dec (Qabs (print_z lt - z)) d
    then nearer_layers z (Qabs (print_z lt - z)) (S i) rest
    else (i, d).
Proof. reflexivity. Qed.

Lemma nearer_layers_spec (z : Q) (rest : list LayerTools) (cur : LayerTools) (i : nat) :
  StronglySorted below_z (cur :: rest) ->
  exists lt',
    (i <= fst (nearer_layers z (Qabs (print_z cur - z)) i rest))%nat /\
    (cur :: rest) !! (fst (nearer_layers z (Qabs (print_z cur - z)) i rest) - i)%nat = Some lt' /\
    snd (nearer_layers z (Qabs (print_z cur - z)) i rest) = Qabs (print_z lt' - z) /\
    forall k ltk, (cur :: rest) !! k = Some ltk ->
      (Qabs (print_z lt' - z) <= Qabs (print_z ltk - z))%Q.
Proof.
  revert cur i. induction rest as [|nxt rest IH]; intros cur i Hs.
  - cbn [nearer_layers fst snd]. exists cur. split; [lia|]. rewrite Nat.sub_diag.
    split; [reflexivity|].
    split; [reflexivity|]. intros [|k] ltk Hk; simpl in Hk; [|discriminate].
    injection Hk as <-. apply Qle_refl.
  - apply StronglySorted_inv in Hs as [Hs Hall]. rewrite nearer_layers_cons.
    destruct (Qlt_le_dec (Qabs (print_z nxt - z)) (Qabs (print_z cur - z))) as [Hlt|Hge].
    + destruct (IH nxt (S i) Hs) as (lt' & Hle & Hlook & Hd & Hmin).
      exists lt'. split; [lia|]. split.
      { replace (fst (nearer_layers z (Qabs (print_z nxt - z)) (S i) rest) - i)%nat
          with (S (fst (nearer_layers z (Qabs (print_z nxt - z)) (S i) rest) - S i)) by lia.
        exact Hlook. }
      split; [exact Hd|]. intros [|k] ltk Hk; simpl in Hk.
      * injection Hk as <-. specialize (Hmin 0%nat nxt eq_refl). lra.
      * now apply (Hmin k).
    + cbn [fst snd]. exists cur. split; [lia|]. rewrite Nat.sub_diag.
      split; [reflexivity|]. split; [reflexivity|].
      intros [|k] ltk Hk; simpl in Hk; [injection Hk as <-; apply Qle_refl|].
      assert (Hcn : (print_z cur < print_z nxt)%Q) by (inversion Hall; assumption).
      apply (distance_past_minimum z (print_z cur) (print_z nxt) (print_z ltk));
        [exact Hcn| |exact Hge].
      destruct k as [|k]; simpl in Hk; [injection Hk as <-; apply Qle_refl|].
      apply StronglySorted_inv in Hs as [_ Hall']. rewrite List.Forall_forall in Hall'.
      assert (Hin : In ltk rest) by (apply list_elem_of_In; eapply list_elem_of_lookup_2; eauto).
      specialize (Hall' ltk Hin). unfold below_z in Hall'. lra.
Qed.

Lemma increasing_z_drop (lts : list LayerTools) (i : nat) (lt : LayerTools) :
  increasing_z lts -> lts !! i = Some lt -> StronglySorted below_z (lt :: drop (S i) lts).
Proof.
  unfold increasing_z. revert i. induction lts as [|a rest IH]; intros i Hs Hi; [discriminate|].
  destruct i as [|i]; simpl in *.
  - injection Hi as <-. rewrite drop_0. exact Hs.
  - apply StronglySorted_inv in Hs as [Hs _]. now apply IH.
Qed.

Lemma tools_for_layer_found (EPSILON : Q) (lts : list LayerTools) (z : Q) :
  increasing_z lts ->
  (exists j ltj, lts !! j = Some ltj /\ (Qabs (print_z ltj - z) < EPSILON)%Q) ->
  exists i lti,
    tools_for_layer EPSILON lts z = Some i /\ lts !! i = Some lti /\
    (Qabs (print_z lti - z) < EPSILON)%Q /\
    forall k ltk, lts !! k = Some ltk -> (Qabs (print_z lti - z) <= Qabs (print_z ltk - z))%Q.
Proof.
  intros Hs (j & ltj & Hj & Hnear). unfold tools_for_layer.
  destruct (lower_bound_spec (z - EPSILON) lts Hs) as (Hlen & Hbelow & Habove).
  set (i0 := lower_bound (z - EPSILON) lts) in *.
  assert (Hfar : forall k ltk, (k < i0)%nat -> lts !! k = Some ltk ->
                   (EPSILON < Qabs (print_z ltk - z))%Q).
  { intros k ltk Hk Hlk. specialize (Hbelow k ltk Hk Hlk).
    apply (Qabs_case (print_z ltk - z)); intros; lra. }
  assert (Hij : (i0 <= j)%nat).
  { destruct (le_lt_dec i0 j) as [H|H]; [exact H|].
    specialize (Hfar j ltj H Hj). lra. }
  destruct (lts !! i0) as [lt0|] eqn:Hi0.
  2:{ apply lookup_ge_None in Hi0. apply lookup_lt_Some in Hj. lia. }
  pose proof (increasing_z_drop lts i0 lt0 Hs Hi0) as Hs0.
  destruct (nearer_layers_spec z (drop (S i0) lts) lt0 i0 Hs0)
    as (lt' & Hle & Hlook & Hd & Hmin).
  destruct (nearer_layers z (Qabs (print_z lt0 - z)) i0 (drop (S i0) lts)) as [i d] eqn:Hscan.
  cbn [fst snd] in Hle, Hlook, Hd. subst d.
  assert (Hsuffix : forall k, (lt0 :: drop (S i0) lts) !! k = lts !! (i0 + k)%nat).
  { intros [|k]; simpl; [now rewrite Nat.add_0_r, Hi0|].
    rewrite lookup_drop. f_equal. lia. }
  assert (Hj' : (Qabs (print_z lt' - z) <= Qabs (print_z ltj - z))%Q).
  { apply (Hmin (j - i0)%nat). rewrite Hsuffix. now replace (i0 + (j - i0))%nat with j by lia. }
  assert (Hclose : (Qabs (print_z lt' - z) < EPSILON)%Q) by lra.
  unfold Qltb. destruct (Qlt_le_dec (Qabs (print_z lt' - z)) EPSILON) as [_|Hc]; [|lra].
  exists i, lt'. split; [reflexivity|]. split.
  { rewrite Hsuffix in Hlook. now replace (i0 + (i - i0))%nat with i in Hlook by lia. }
  split; [exact Hclose|]. intros k ltk Hk.
  destruct (le_lt_dec i0 k) as [Hge|Hlt].
  - apply (Hmin (k - i0)%nat). rewrite Hsuffix.
    now replace (i0 + (k - i0))%nat with k by lia.
  - specialize (Hfar k ltk Hlt Hk). lra.
Qed.

(** X13. [tools_for_layer] on layers in increasing order of [print_z]: when
    some layer lies less than [EPSILON] from the height asked for, both
    assertions hold and the layer returned is a nearest one, less than
    [EPSILON] away; and whenever a layer is returned, it lies less than
    [EPSILON] from the height. *)
Theorem tools_for_layer_nearest (EPSILON : Q) (lts : list LayerTools) (z : Q) :
  increasing_z lts ->
  ((exists j ltj, lts !! j = Some ltj /\ (Qabs (print_z ltj - z) < EPSILON)%Q) ->
   exists i lti,
     tools_for_layer EPSILON lts z = Some i /\ lts !! i = Some lti /\
     (Qabs (print_z lti - z) < EPSILON)%Q /\
     forall k ltk, lts !! k = Some ltk ->
       (Qabs (print_z lti - z) <= Qabs (print_z ltk - z))%Q) /\
  (forall i, tools_for_layer EPSILON lts z = Some i ->
     exists lti, lts !! i = Some lti /\ (Qabs (print_z lti - z) < EPSILON)%Q).
Proof.
  intros Hs. split; [now apply tools_for_layer_found|].
  intros i. unfold tools_for_layer.
  destruct (lts !! lower_bound (z - EPSILON) lts) as [lt0|] eqn:Hi0; [|discriminate].
  pose proof (increasing_z_drop lts _ lt0 Hs Hi0) as Hs0.
  destruct (nearer_layers_spec z (drop (S (lower_bound (z - EPSILON) lts)) lts) lt0
              (lower_bound (z - EPSILON) lts) Hs0) as (lt' & Hle & Hlook & Hd & _).
  destruct (nearer_layers z _ _ _) as [i' d]. cbn [fst snd] in Hle, Hlook, Hd. subst d.
  unfold Qltb. destruct (Qlt_le_dec (Qabs (print_z lt' - z)) EPSILON) as [Hc|_]; [|discriminate].
  intros [= <-]. exists lt'. split; [|exact Hc].
  set (i0 := lower_bound (z - EPSILON) lts) in *.
  destruct (i' - i0)%nat as [|k] eqn:Hk; simpl in Hlook.
  - injection Hlook as <-. now replace i' with i0 by lia.
  - rewrite lookup_drop in Hlook. now replace (S i0 + k)%nat with i' in Hlook by lia.
Qed.

(** X13 on layers at 0.2, 0.4 and 0.6 with the tolerance 1e-4: the height
    0.40005 is looked up as layer 1. *)
Lemma tools_for_layer_nearest_witness :
  let lts := [new_LayerTools (1 # 5); new_LayerTools (2 # 5); new_LayerTools (3 # 5)] in
  increasing_z lts /\
  tools_for_layer (1 # 10000) lts (8001 # 20000) = Some 1%nat /\
  exists lti, lts !! 1%nat = Some lti /\
              (Qabs (print_z lti - (8001 # 20000)) < 1 # 10000)%Q.
Proof.
  intros lts.
  assert (Hs : increasing_z lts).
  { unfold increasing_z, lts. repeat constructor. }
  split; [exact Hs|]. split; [reflexivity|].
  exact (proj2 (tools_for_layer_nearest (1 # 10000) lts (8001 # 20000) Hs) 1%nat eq_refl).
Defined.

Section LayerLookupFacts.
Variable EPSILON : Q.

Lemma merge_close_z_covers (rest : list Q) (first last : Q) :
  (0 <= EPSILON)%Q ->
  StronglySorted Qlt (last :: rest) ->
  (first <= last)%Q -> (last <= first + EPSILON)%Q ->
  forall z, ((first <= z)%Q /\ (z <= last)%Q) \/ In z rest ->
    exists lt, In lt (merge_close_z EPSILON first last rest) /\
               (Qabs (print_z lt - z) <= (1 # 2) * EPSILON)%Q.
Proof.
  intros Heps. revert first last.
  induction rest as [|z' rest IH]; intros first last Hs Hfl Hle z Hz.
  - destruct Hz as [[Hz1 Hz2]|[]]. exists (new_LayerTools (mid_z first last)).
    split; [now left|]. cbn [print_z new_LayerTools]. unfold mid_z.
    apply (Qabs_case ((1 # 2) * (first + last) - z)); intros; lra.
  - apply StronglySorted_inv in Hs as [Hs Hall].
    assert (Hlz : (last < z')%Q) by (inversion Hall; assumption).
    cbn [merge_close_z]. destruct (Qle_bool z' (first + EPSILON)) eqn:Hclose.
    + apply Qle_bool_iff in Hclose. apply IH; [exact Hs|lra|exact Hclose|].
      destruct Hz as [[Hz1 Hz2]|[<-|Hin]]; [left; split; lra|left; split; lra|now right].
    + destruct Hz as [[Hz1 Hz2]|Hz].
      * exists (new_LayerTools (mid_z first last)). split; [now left|].
        cbn [print_z new_LayerTools]. unfold mid_z.
        apply (Qabs_case ((1 # 2) * (first + last) - z)); intros; lra.
      * destruct (IH z' z' Hs ltac:(lra) ltac:(lra) z) as (lt & Hlt & Hd).
        { destruct Hz as [<-|Hin]; [left; split; lra|now right]. }
        exists lt. split; [now right|exact Hd].
Qed.

Lemma initialize_layers_covers (zs : list Q) (z : Q) :
  (0 <= EPSILON)%Q -> In z zs ->
  exists lt, In lt (initialize_layers EPSILON zs) /\
             (Qabs (print_z lt - z) <= (1 # 2) * EPSILON)%Q.
Proof.
  intros Heps Hz. unfold initialize_layers.
  destruct (sort_remove_duplicates_strict zs) as (Hstrict & Hcover & _).
  destruct (Hcover z Hz) as (z' & Hz' & Heq).
  destruct (sort_remove_duplicates Qle_bool Qeq_bool zs) as [|first rest]; [destruct Hz'|].
  destruct (merge_close_z_covers rest first first Heps Hstrict ltac:(lra) ltac:(lra) z')
    as (lt & Hlt & Hd).
  { destruct Hz' as [<-|Hin]; [left; split; lra|now right]. }
  exists lt. split; [exact Hlt|].
  assert (Hsame : (Qabs (print_z lt - z) == Qabs (print_z lt - z'))%Q) by now rewrite Heq.
  now rewrite Hsame.
Qed.

Lemma initialize_layers_increasing (zs : list Q) :
  increasing_z (initialize_layers EPSILON zs).
Proof.
  unfold increasing_z, initialize_layers.
  destruct (sort_remove_duplicates_strict zs) as (Hstrict & _ & _).
  destruct (sort_remove_duplicates Qle_bool Qeq_bool zs) as [|first rest]; [constructor|].
  apply merge_close_z_increasing; [lra|exact Hstrict].
Qed.

End LayerLookupFacts.



(** ** The tool order of the first layer *)

Lemma min_areas_fold (slices : list (Z * Q)) (m : gmap Z Q) (done : list (Z * Q)) :
  (forall e, match m !! e with
             | Some a => In (e, a) done /\ forall a', In (e, a') done -> (a <= a')%Q
             | None => forall a', ~ In (e, a') done
             end) ->
  let m' := fold_left
              (fun m slice =>
                 match m !! fst slice with
                 | None => <[fst slice := snd slice]> m
                 | Some area => if Qltb (snd slice) area then <[fst slice := snd slice]> m else m
                 end) slices m in
  forall e, match m' !! e with
            | Some a => In (e, a) (done ++ slices) /\
                        forall a', In (e, a') (done ++ slices) -> (a <= a')%Q
            | None => forall a', ~ In (e, a') (done ++ slices)
            end.
Proof.
  revert m done. induction slices as [|[k area] slices IH]; intros m done Hinv; simpl.
  - intros e. rewrite app_nil_r. apply Hinv.
  - replace (done ++ (k, area) :: slices) with ((done ++ [(k, area)]) ++ slices)
      by (now rewrite <- app_assoc).
    apply IH. intros e. pose proof (Hinv e) as He. pose proof (Hinv k) as Hk.
    destruct (m !! k) as [a0|] eqn:Hmk.
    + unfold Qltb. destruct (Qlt_le_dec area a0) as [Hlt|Hge].
      * destruct (decide (e = k)) as [->|Hne].
        -- rewrite lookup_insert_eq. split; [apply in_or_app; right; now left|].
           intros a' Ha'. apply in_app_or in Ha' as [Ha'|[[= <-]|[]]]; [|lra].
           destruct Hk as [_ Hmin]. specialize (Hmin a' Ha'). lra.
        -- rewrite lookup_insert_ne by congruence. destruct (m !! e) as [a|].
           ++ destruct He as [Hin Hmin]. split; [apply in_or_app; now left|].
              intros a' Ha'. apply in_app_or in Ha' as [Ha'|[[= ? ?]|[]]]; [auto|congruence].
           ++ intros a' Ha'. apply in_app_or in Ha' as [Ha'|[[= ? ?]|[]]];
                [now apply (He a')|congruence].
      * destruct (m !! e) as [a|] eqn:Hme.
        -- destruct He as [Hin Hmin]. split; [apply in_or_app; now left|].
           intros a' Ha'. apply in_app_or in Ha' as [Ha'|[[= <- <-]|[]]]; [auto|].
           rewrite Hmk in Hme. injection Hme as <-. exact Hge.
        -- intros a' Ha'. apply in_app_or in Ha' as [Ha'|[[= <- <-]|[]]];
             [now apply (He a')|congruence].
    + destruct (decide (e = k)) as [->|Hne].
      * rewrite lookup_insert_eq. split; [apply in_or_app; right; now left|].
        intros a' Ha'. apply in_app_or in Ha' as [Ha'|[[= <-]|[]]]; [|lra].
        exfalso. now apply (Hk a').
      * rewrite lookup_insert_ne by congruence. destruct (m !! e) as [a|].
        -- destruct He as [Hin Hmin]. split; [apply in_or_app; now left|].
           intros a' Ha'. apply in_app_or in Ha' as [Ha'|[[= ? ?]|[]]]; [auto|congruence].
        -- intros a' Ha'. apply in_app_or in Ha' as [Ha'|[[= ? ?]|[]]];
             [now apply (He a')|congruence].
Qed.

Lemma min_areas_spec (slices : list (Z * Q)) (e : Z) :
  match min_areas_per_extruder slices !! e with
  | Some a => In (e, a) slices /\ forall a', In (e, a') slices -> (a <= a')%Q
  | None => forall a', ~ In (e, a') slices
  end.
Proof.
  apply (min_areas_fold slices ∅ []). intros e'. rewrite lookup_empty. intros a' [].
Qed.

Lemma insert_tool_perm (m : gmap Z Q) (e : Z) (order : list Z) :
  Permutation (insert_tool m e order) (e :: order).
Proof.
  induction order as [|t rest IH]; simpl; [reflexivity|].
  destruct (Qltb (area_at m t) (area_at m e)); [reflexivity|].
  rewrite IH. apply perm_swap.
Qed.

Lemma insert_tool_sorted (m : gmap Z Q) (e : Z) (order : list Z) :
  StronglySorted (by_area m) order -> StronglySorted (by_area m) (insert_tool m e order).
Proof.
  induction order as [|t rest IH]; intros Hs; simpl.
  - constructor; constructor.
  - apply StronglySorted_inv in Hs as [Hs Hall]. unfold Qltb.
    destruct (Qlt_le_dec (area_at m t) (area_at m e)) as [Hlt|Hge].
    + constructor; [constructor; assumption|]. constructor; [unfold by_area; lra|].
      eapply List.Forall_impl; [|exact Hall]. unfold by_area. intros x Hx. lra.
    + constructor; [now apply IH|]. rewrite List.Forall_forall in *. intros x Hx.
      eapply Permutation_in in Hx; [|apply insert_tool_perm].
      destruct Hx as [<-|Hx]; [exact Hge|now apply Hall].
Qed.

Lemma insert_sorted_perm {A : Type} (leb : A -> A -> bool) (x : A) (l : list A) :
  Permutation (insert_sorted leb x l) (x :: l).
Proof.
  induction l as [|y rest IH]; simpl; [reflexivity|].
  destruct (leb x y); [reflexivity|]. rewrite IH. apply perm_swap.
Qed.

Lemma sort_list_perm {A : Type} (leb : A -> A -> bool) (l : list A) :
  Permutation (sort_list leb l) l.
Proof.
  induction l as [|x l IH]; simpl; [reflexivity|].
  rewrite insert_sorted_perm. now apply perm_skip.
Qed.

Lemma tool_order_fold (m : gmap Z Q) (keys order : list Z) :
  StronglySorted (by_area m) order ->
  StronglySorted (by_area m)
    (fold_left (fun tool_order extruder_id => insert_tool m extruder_id tool_order) keys order) /\
  Permutation
    (fold_left (fun tool_order extruder_id => insert_tool m extruder_id tool_order) keys order)
    (order ++ keys).
Proof.
  revert order. induction keys as [|k keys IH]; intros order Hs; simpl.
  - split; [exact Hs|]. now rewrite app_nil_r.
  - destruct (IH (insert_tool m k order) (insert_tool_sorted m k order Hs)) as [Hs' Hperm].
    split; [exact Hs'|]. rewrite Hperm, insert_tool_perm. apply Permutation_middle.
Qed.

Lemma tool_order_by_area_perm (slices : list (Z * Q)) :
  Permutation (tool_order_by_area slices) (elements (dom (min_areas_per_extruder slices))).
Proof.
  unfold tool_order_by_area.
  destruct (tool_order_fold (min_areas_per_extruder slices)
              (sort_list Z.leb (elements (dom (min_areas_per_extruder slices)))) []
              ltac:(constructor)) as [_ Hperm].
  simpl in Hperm. eapply Permutation_trans; [exact Hperm|apply sort_list_perm].
Qed.

Lemma tool_order_by_area_nodup (slices : list (Z * Q)) :
  List.NoDup (tool_order_by_area slices).
Proof.
  eapply Permutation_NoDup; [symmetry; apply tool_order_by_area_perm|].
  apply NoDup_ListNoDup, NoDup_elements.
Qed.

(** X15. The tool order [generate_first_layer_tool_order] builds before it
    looks at [first_layer_print_sequence]: it names every extruder that has a
    slice on the first layer exactly once, and the extruders are in order of
    decreasing smallest slice area, the extruder whose smallest contour is the
    largest coming first; the area compared is the smallest contour area among
    the slices of the extruder. Without [first_layer_print_sequence], or with
    one shorter than the tool order, this is the order returned. *)
Theorem tool_order_by_area_sorted (slices : list (Z * Q)) (short : list Z) :
  let m := min_areas_per_extruder slices in
  let order := tool_order_by_area slices in
  List.NoDup order /\
  (forall e, In e order <-> exists area, In (e, area) slices) /\
  StronglySorted (fun a b => (area_at m b <= area_at m a)%Q) order /\
  (forall e, In e order ->
     In (e, area_at m e) slices /\
     forall area, In (e, area) slices -> (area_at m e <= area)%Q) /\
  generate_first_layer_tool_order slices None = order /\
  ((length short < length order)%nat ->
   generate_first_layer_tool_order slices (Some short) = order).
Proof.
  intros m order. subst order. unfold tool_order_by_area. fold m.
  destruct (tool_order_fold m (sort_list Z.leb (elements (dom m))) [] ltac:(constructor))
    as [Hs Hperm].
  simpl in Hperm.
  apply (fun H => Permutation_trans H (sort_list_perm Z.leb (elements (dom m)))) in Hperm.
  set (order := fold_left _ _ []) in *.
  assert (Hkeys : forall e, In e order <-> is_Some (m !! e)).
  { intros e. split.
    - intros He. eapply Permutation_in in He; [|exact Hperm].
      apply list_elem_of_In, elem_of_elements, elem_of_dom in He. exact He.
    - intros He. eapply Permutation_in; [symmetry; exact Hperm|].
      apply list_elem_of_In, elem_of_elements, elem_of_dom. exact He. }
  split.
  { eapply Permutation_NoDup; [symmetry; exact Hperm|].
    apply NoDup_ListNoDup, NoDup_elements. }
  split.
  { intros e. rewrite Hkeys. pose proof (min_areas_spec slices e) as He. fold m in He. split.
    - intros [a Ha]. rewrite Ha in He. exists a. apply He.
    - intros [a Ha]. destruct (m !! e) as [a0|]; [eauto|]. exfalso. now apply (He a). }
  split; [exact Hs|]. split.
  { intros e He. apply Hkeys in He as [a Ha].
    pose proof (min_areas_spec slices e) as Hspec. fold m in Hspec.
    unfold area_at. rewrite Ha in *. exact Hspec. }
  unfold generate_first_layer_tool_order, tool_order_by_area. fold m. fold order.
  split; [reflexivity|]. intros Hshort.
  destruct (Nat.leb_spec (length order) (length short)) as [H|H]; [lia|reflexivity].
Qed.

(** The tool order of a first layer with slices of the extruders 2, 1, 2 and 3
    whose contour areas are 50, 30, 40 and 30: the smallest areas are 30, 40
    and 30, so extruder 2 comes first, then 1 and 3. *)
Example tool_order_by_area_sample :
  tool_order_by_area [(2, 50%Q); (1, 30%Q); (2, 40%Q); (3, 30%Q)] = [2; 1; 3].
Proof. reflexivity. Qed.

Section SortOn.
Context {A : Type} (leb : A -> A -> bool) (P : A -> Prop).
Hypothesis leb_total : forall a b, P a -> P b -> leb a b = true \/ leb b a = true.
Hypothesis leb_trans :
  forall a b c, P a -> P b -> P c -> leb a b = true -> leb b c = true -> leb a c = true.

Lemma insert_sorted_on (x : A) (l : list A) :
  P x -> Forall P l ->
  StronglySorted (fun a b => leb a b = true) l ->
  StronglySorted (fun a b => leb a b = true) (insert_sorted leb x l).
Proof using leb_total leb_trans.
  intros Hx. induction l as [|y rest IH]; intros HP Hs; simpl.
  - constructor; constructor.
  - inversion HP as [|? ? Hy HPrest]; subst.
    apply StronglySorted_inv in Hs as [Hs Hall].
    destruct (leb x y) eqn:Hxy.
    + constructor; [constructor; assumption|]. constructor; [exact Hxy|].
      rewrite List.Forall_forall in *. intros z Hz.
      apply (leb_trans x y z); auto.
    + assert (Hyx : leb y x = true).
      { destruct (leb_total x y Hx Hy) as [H|H]; [congruence|exact H]. }
      constructor; [now apply IH|]. rewrite List.Forall_forall in *. intros z Hz.
      apply (Permutation_in _ (insert_sorted_perm leb x rest)) in Hz.
      destruct Hz as [<-|Hz]; [exact Hyx|now apply Hall].
Qed.

Lemma sort_list_on (l : list A) :
  Forall P l -> StronglySorted (fun a b => leb a b = true) (sort_list leb l).
Proof using leb_total leb_trans.
  induction l as [|x l IH]; intros HP; simpl; [constructor|].
  inversion HP; subst. apply insert_sorted_on; auto.
  rewrite List.Forall_forall in *. intros z Hz. eapply Permutation_in in Hz;
    [|apply sort_list_perm]. auto.
Qed.

End SortOn.

Lemma sequence_position_found (print_sequence_1st : list Z) (e : Z) :
  In e print_sequence_1st ->
  find_index (Z.eqb e) print_sequence_1st 0 = Some (sequence_position print_sequence_1st e) /\
  print_sequence_1st !! sequence_position print_sequence_1st e = Some e.
Proof.
  intros Hin. unfold sequence_position.
  pose proof (find_index_spec (Z.eqb e) print_sequence_1st 0) as Hspec.
  destruct (find_index (Z.eqb e) print_sequence_1st 0) as [i|].
  - destruct Hspec as (e' & _ & Hlook & Heq). apply Z.eqb_eq in Heq. subst e'.
    rewrite Nat.sub_0_r in Hlook. auto.
  - rewrite List.Forall_forall in Hspec. specialize (Hspec e Hin).
    rewrite Z.eqb_refl in Hspec. discriminate.
Qed.

(** X16. With a [first_layer_print_sequence] that names every extruder of the
    tool order, [generate_first_layer_tool_order] returns the extruders of the
    tool order in the order in which the sequence first names them. *)
Theorem first_layer_sequence_followed (slices : list (Z * Q)) (print_sequence_1st : list Z) :
  (length (tool_order_by_area slices) <= length print_sequence_1st)%nat ->
  Forall (fun e => In e print_sequence_1st) (tool_order_by_area slices) ->
  let order := generate_first_layer_tool_order slices (Some print_sequence_1st) in
  Permutation order (tool_order_by_area slices) /\
  StronglySorted
    (fun a b => (sequence_position print_sequence_1st a
                 < sequence_position print_sequence_1st b)%nat) order.
Proof.
  intros Hlen Hall order. subst order. unfold generate_first_layer_tool_order.
  destruct (Nat.leb_spec (length (tool_order_by_area slices)) (length print_sequence_1st))
    as [_|H]; [|lia].
  set (leb := fun lh rh => negb (sequence_before print_sequence_1st rh lh)).
  split; [apply sort_list_perm|].
  assert (Hleb : forall a b, In a print_sequence_1st -> In b print_sequence_1st ->
            leb a b = true <->
            (sequence_position print_sequence_1st a
             <= sequence_position print_sequence_1st b)%nat).
  { intros a b Ha Hb. unfold leb, sequence_before.
    rewrite (proj1 (sequence_position_found _ a Ha)), (proj1 (sequence_position_found _ b Hb)).
    rewrite negb_true_iff, Nat.ltb_ge. reflexivity. }
  assert (Hsorted : StronglySorted (fun a b => leb a b = true)
                      (sort_list leb (tool_order_by_area slices))).
  { apply (sort_list_on leb (fun e => In e print_sequence_1st)); [| |exact Hall].
    - intros a b Ha Hb. rewrite !Hleb by assumption. lia.
    - intros a b c Ha Hb Hc. rewrite !Hleb by assumption. lia. }
  assert (Hnd : List.NoDup (sort_list leb (tool_order_by_area slices))).
  { eapply Permutation_NoDup; [symmetry; apply sort_list_perm|].
    apply (tool_order_by_area_nodup slices). }
  assert (Hmem : Forall (fun e => In e print_sequence_1st)
                   (sort_list leb (tool_order_by_area slices))).
  { rewrite List.Forall_forall in *. intros e He. apply Hall.
    eapply Permutation_in; [apply sort_list_perm|exact He]. }
  revert Hsorted Hnd Hmem. generalize (sort_list leb (tool_order_by_area slices)) as l.
  induction l as [|a l IH]; intros Hs Hnd Hmem; [constructor|].
  apply StronglySorted_inv in Hs as [Hs Hfirst].
  inversion Hnd as [|? ? Hnot Hnd']; subst. inversion Hmem as [|? ? Ha Hmem']; subst.
  constructor; [now apply IH|]. rewrite List.Forall_forall in *. intros b Hb.
  specialize (Hfirst b Hb). apply (Hleb a b Ha (Hmem' b Hb)) in Hfirst.
  assert (Hne : sequence_position print_sequence_1st a
                <> sequence_position print_sequence_1st b).
  { intros Heq. pose proof (proj2 (sequence_position_found _ a Ha)) as H1.
    pose proof (proj2 (sequence_position_found _ b (Hmem' b Hb))) as H2.
    rewrite Heq in H1. rewrite H1 in H2. injection H2 as ->. contradiction. }
  lia.
Qed.

(** X16 on the slices of the extruders 2, 1, 2 and 3 with the areas 50, 30,
    40 and 30 and the sequence [3; 1; 2; 4]: the tool order [2; 1; 3] becomes
    [3; 1; 2]. *)
Lemma first_layer_sequence_followed_witness :
  let slices := [(2, 50%Q); (1, 30%Q); (2, 40%Q); (3, 30%Q)] in
  (length (tool_order_by_area slices) <= length [3; 1; 2; 4])%nat /\
  Forall (fun e => In e [3; 1; 2; 4]) (tool_order_by_area slices) /\
  generate_first_layer_tool_order slices (Some [3; 1; 2; 4]) = [3; 1; 2] /\
  Permutation (generate_first_layer_tool_order slices (Some [3; 1; 2; 4]))
    (tool_order_by_area slices).
Proof.
  intros slices.
  assert (H1 : (length (tool_order_by_area slices) <= length [3; 1; 2; 4])%nat).
  { change (tool_order_by_area slices) with [2; 1; 3]. simpl. lia. }
  assert (H2 : Forall (fun e => In e [3; 1; 2; 4]) (tool_order_by_area slices)).
  { change (tool_order_by_area slices) with [2; 1; 3].
    repeat (constructor; [simpl; intuition reflexivity|]). constructor. }
  split; [exact H1|]. split; [exact H2|]. split; [reflexivity|].
  exact (proj1 (first_layer_sequence_followed slices [3; 1; 2; 4] H1 H2)).
Defined.

(** ** The layers of the wipe tower *)

Section WipeTowerLayers.
Variables (EPSILON : Q) (timelapse_smooth : bool).
Variables (object_bottom_z max_layer_height : Q).

Lemma tower_where_needed_flag (lts : list LayerTools) (j : nat) (lt : LayerTools) :
  Forall (tower_where_needed EPSILON timelapse_smooth object_bottom_z) lts ->
  Forall (tower_where_needed EPSILON timelapse_smooth object_bottom_z) (<[j := set_has_wipe_tower true lt]> lts).
Proof. intros H. apply Forall_insert; [exact H|]. intros _. reflexivity. Qed.

Lemma fill_raft_gap_needed (i : nat) (lt : LayerTools) (lts : list LayerTools) :
  Forall (tower_where_needed EPSILON timelapse_smooth object_bottom_z) lts ->
  Forall (tower_where_needed EPSILON timelapse_smooth object_bottom_z) (fill_raft_gap EPSILON max_layer_height i lt lts).
Proof.
  intros H. unfold fill_raft_gap.
  destruct (lts !! first_layer_from has_wipe_tower (S i) (drop (S i) lts)) as [lt_object|];
    [|exact H].
  destruct (Qltb _ _); [|exact H].
  match goal with
  | |- context [lts !! ?j] => set (j' := j)
  end.
  destruct (lts !! j') as [lt_next|] eqn:Hj; [|exact H].
  destruct (Qltb _ EPSILON); [now apply tower_where_needed_flag|].
  apply Forall_app. split; [now apply Forall_take|].
  constructor; [intros _; reflexivity|now apply Forall_drop].
Qed.

Lemma insert_raft_layer_needed (lts : list LayerTools) (i : nat) (from_i : list LayerTools) :
  Forall (tower_where_needed EPSILON timelapse_smooth object_bottom_z) lts ->
  Forall (tower_where_needed EPSILON timelapse_smooth object_bottom_z)
    (insert_raft_layer EPSILON object_bottom_z max_layer_height lts i from_i).
Proof.
  intros H. revert i. induction from_i as [|lt rest IH]; intros i; [exact H|].
  destruct rest as [|lt_next rest']; [exact H|].
  cbn [insert_raft_layer]. destruct (_ && _); [now apply fill_raft_gap_needed|apply IH].
Qed.

Lemma limit_wipe_tower_gap_needed (js : list nat) (lts : list LayerTools) (last_z : Q) :
  Forall (tower_where_needed EPSILON timelapse_smooth object_bottom_z) lts ->
  Forall (tower_where_needed EPSILON timelapse_smooth object_bottom_z) (limit_wipe_tower_gap EPSILON max_layer_height js lts last_z).
Proof.
  revert lts last_z. induction js as [|j js IH]; intros lts last_z H; simpl; [exact H|].
  destruct (lts !! j) as [lt|]; [|exact H].
  destruct (lts !! S j) as [above|]; [|exact H].
  destruct (has_wipe_tower lt); [exact H|].
  destruct (Qltb _ _); [|now apply IH].
  apply IH. now apply tower_where_needed_flag.
Qed.

Lemma mark_missed_wipe_tower_layers_needed (todo : list nat) (lts : list LayerTools) :
  Forall (tower_where_needed EPSILON timelapse_smooth object_bottom_z) lts ->
  Forall (tower_where_needed EPSILON timelapse_smooth object_bottom_z) (mark_missed_wipe_tower_layers EPSILON max_layer_height todo lts).
Proof.
  revert lts. induction todo as [|i todo IH]; intros lts H; simpl; [exact H|].
  destruct (lts !! i) as [lt|]; [|exact H].
  destruct (lts !! S i) as [lt_next|]; [|exact H].
  destruct (extruders lt); [exact H|]. destruct (extruders lt_next); [exact H|].
  apply IH, limit_wipe_tower_gap_needed.
  destruct (_ && _); [now apply tower_where_needed_flag|exact H].
Qed.

Lemma set_wipe_tower_layer_heights_needed (last : Q) (lts : list LayerTools) :
  Forall (tower_where_needed EPSILON timelapse_smooth object_bottom_z) lts ->
  Forall (tower_where_needed EPSILON timelapse_smooth object_bottom_z) (set_wipe_tower_layer_heights last lts).
Proof.
  revert last. induction lts as [|lt rest IH]; intros last H; simpl; [constructor|].
  inversion H as [|? ? Hlt Hrest]; subst.
  destruct (has_wipe_tower lt) eqn:Hw; constructor; auto.
Qed.

Lemma set_wipe_tower_layer_heights_take (k : nat) (last : Q) (lts : list LayerTools) :
  take k (set_wipe_tower_layer_heights last lts)
  = set_wipe_tower_layer_heights last (take k lts).
Proof.
  revert k last. induction lts as [|lt rest IH]; intros k last; [now destruct k|].
  destruct k as [|k]; [reflexivity|]. simpl.
  destruct (has_wipe_tower lt); simpl; now rewrite IH.
Qed.

Lemma set_wipe_tower_layer_heights_top (last start : Q) (lts : list LayerTools) :
  wipe_tower_top start (set_wipe_tower_layer_heights last lts) = wipe_tower_top start lts.
Proof.
  revert last start. induction lts as [|lt rest IH]; intros last start; [reflexivity|].
  simpl. destruct (has_wipe_tower lt) eqn:Hw; simpl; rewrite ?Hw; apply IH.
Qed.

Lemma set_wipe_tower_layer_heights_sum (last : Q) (lts : list LayerTools) :
  (wipe_tower_height (set_wipe_tower_layer_heights last lts)
   == wipe_tower_top last lts - last)%Q.
Proof.
  revert last. induction lts as [|lt rest IH]; intros last; simpl; [lra|].
  destruct (has_wipe_tower lt) eqn:Hw; simpl; rewrite Hw, IH; lra.
Qed.

End WipeTowerLayers.

(** X17. After [fill_wipe_tower_partitions] every layer that the test of
    lines 769-771 asks a wipe tower for has one: a layer with object
    extrusions and at least one wipe tower partition (or any layer with object
    extrusions under the smooth timelapse), and every layer below
    [object_bottom_z + EPSILON]. The later passes only add wipe tower layers;
    they never take the flag away. *)
Theorem wipe_tower_where_needed (EPSILON : Q) (timelapse_smooth : bool)
    (object_bottom_z max_layer_height : Q) (lts : list LayerTools) :
  Forall (fun lt =>
            needs_wipe_tower EPSILON timelapse_smooth object_bottom_z lt = true ->
            has_wipe_tower lt = true)
    (fill_wipe_tower_partitions EPSILON timelapse_smooth object_bottom_z max_layer_height lts).
Proof.
  unfold fill_wipe_tower_partitions.
  apply set_wipe_tower_layer_heights_needed, mark_missed_wipe_tower_layers_needed,
    insert_raft_layer_needed.
  unfold mark_wipe_tower_layers. rewrite List.Forall_map. apply List.Forall_forall.
  intros lt _. unfold tower_where_needed, needs_wipe_tower. simpl. auto.
Qed.

(** X18. The [wipe_tower_layer_height]s that [fill_wipe_tower_partitions]
    leaves add up: over the first [k] layers, for every [k], the heights of
    the wipe tower layers sum to the [print_z] of the last wipe tower layer
    among them (to 0 when there is none). So every wipe tower layer's height
    is its distance from the wipe tower layer below it, the first one's its
    distance from 0. *)
Theorem wipe_tower_layer_heights_add_up (EPSILON : Q) (timelapse_smooth : bool)
    (object_bottom_z max_layer_height : Q) (lts : list LayerTools) (k : nat) :
  let out := fill_wipe_tower_partitions EPSILON timelapse_smooth object_bottom_z
               max_layer_height lts in
  (wipe_tower_height (take k out) == wipe_tower_top 0 (take k out))%Q.
Proof.
  intros out. subst out. unfold fill_wipe_tower_partitions.
  rewrite set_wipe_tower_layer_heights_take, set_wipe_tower_layer_heights_sum,
    set_wipe_tower_layer_heights_top. lra.
Qed.

(** ** The driver on a single nozzle, and what it leaves alone *)

Lemma assign_sequences_frame (sequences : list (list Z)) (lts : list LayerTools) :
  Forall2 only_extruders_changed lts (assign_sequences sequences lts).
Proof.
  revert lts. induction sequences as [|s sequences IH]; intros lts.
  - destruct lts; apply only_extruders_changed_refl.
  - destruct lts as [|lt lts]; [constructor|]. simpl. constructor; [reflexivity|apply IH].
Qed.



(** X20. [reorder_extruders_for_minimum_flush_volume] leaves the layers alone
    when there is no configuration or no layer, and when it returns it has
    changed nothing but extruder lists: the number of layers, their heights,
    flags, partitions and custom g-code are as before. *)
Theorem driver_changes_extruders_only
    (grp : FilamentGroupContext -> list (list Z) -> list Z -> list Z)
    (sequencer : list Z -> list (list Z) -> bool -> list (list Z))
    (cfg : option GroupConfig) (print : PrintState) (flag : bool) (lts : list LayerTools) :
  let run := reorder_extruders_for_minimum_flush_volume grp sequencer cfg print flag lts in
  (cfg = None \/ lts = [] -> run = Ok lts) /\
  (forall out, run = Ok out ->
     length out = length lts /\ Forall2 only_extruders_changed lts out /\
     map print_z out = map print_z lts /\ map has_object out = map has_object lts).
Proof.
  intros run. subst run. unfold reorder_extruders_for_minimum_flush_volume. split.
  - intros [-> | ->]; [reflexivity|]. now destruct cfg.
  - assert (Hframe : forall out, Forall2 only_extruders_changed lts out ->
              length out = length lts /\ Forall2 only_extruders_changed lts out /\
              map print_z out = map print_z lts /\ map has_object out = map has_object lts).
    { intros out H. split; [symmetry; eapply Forall2_length; exact H|]. split; [exact H|].
      induction H as [|a b l1 l2 Hab _ [IH1 IH2]]; [auto|]. simpl.
      rewrite IH1, IH2, Hab. auto. }
    intros out. destruct cfg as [c|]; [|intros [= <-]; apply Hframe, only_extruders_changed_refl].
    destruct lts as [|lt rest] eqn:Hl; [intros [= <-]; apply Hframe; constructor|].
    rewrite <- Hl in *.
    destruct (get_physical_unprintables c _) as [physical|]; [|discriminate].
    destruct (settle_filament_maps grp c print _ _ physical _) as [[maps|]|]; [| |discriminate].
    + intros [= <-]. apply Hframe, assign_sequences_frame.
    + intros [= <-]. apply Hframe, only_extruders_changed_refl.
Qed.

(** ** The filament of an extrusion on a layer *)

(** X21. With the filaments of the region set, as [LayerTools::extruder]
    asserts, and an override that is an [unsigned int], [LayerTools::extruder]
    agrees with the accessor of the extrusion's kind: [solid_infill_filament]
    for an infill whose first entity is solid infill, [sparse_infill_filament]
    for any other infill, [wall_filament] otherwise; and under an extruder
    override all four return the override, zero-based, whatever the region. *)
Theorem layer_extruder_agrees (is_infill is_solid_infill : ExtrusionRole -> bool)
    (lt : LayerTools) (eec : ExtrusionEntityCollection) (r : PrintRegionConfig) :
  region_filaments_set r ->
  0 <= extruder_override lt <= UINT_MAX ->
  layer_extruder is_infill is_solid_infill lt eec r
  = (if is_infill (eec_role eec)
     then if is_solid_infill (eec_front_role eec)
          then layer_solid_infill_filament lt r
          else layer_sparse_infill_filament lt r
     else layer_wall_filament lt r) /\
  (extruder_override lt <> 0 ->
   layer_extruder is_infill is_solid_infill lt eec r = extruder_override lt - 1 /\
   layer_wall_filament lt r = extruder_override lt - 1 /\
   layer_sparse_infill_filament lt r = extruder_override lt - 1 /\
   layer_solid_infill_filament lt r = extruder_override lt - 1).
Proof.
  intros (Hw & Hs & Hso) Ho.
  unfold layer_extruder, layer_solid_infill_filament, layer_sparse_infill_filament,
    layer_wall_filament, UINT_MAX in *.
  destruct (Z.eqb_spec (extruder_override lt) 0) as [H0|H0].
  - split; [|contradiction].
    destruct (is_infill (eec_role eec)); [destruct (is_solid_infill (eec_front_role eec))|].
    + destruct (Z.eqb_spec (solid_infill_filament r) 0); [lia|]. rewrite Z.mod_small; lia.
    + destruct (Z.eqb_spec (sparse_infill_filament r) 0); [lia|]. rewrite Z.mod_small; lia.
    + destruct (Z.eqb_spec (wall_filament r) 0); [lia|]. rewrite Z.mod_small; lia.
  - assert (Hmod : (extruder_override lt - 1) mod 2 ^ 32 = extruder_override lt - 1)
      by (rewrite Z.mod_small; lia).
    rewrite Hmod. destruct (Z.eqb_spec (extruder_override lt) 0) as [|_]; [contradiction|].
    split; [|auto]. destruct (is_infill _); [destruct (is_solid_infill _)|]; reflexivity.
Qed.

(** X21 on a region with the wall filament 2 and the infill filaments 3 and
    1: a sparse infill prints with the zero-based filament 2. *)
Lemma layer_extruder_agrees_witness :
  let r := mkRegionConfig 2 3 1 in
  let lt := new_LayerTools (1 # 5) in
  let eec := mkEEC 7 erInternalInfill erInternalInfill 1 in
  region_filaments_set r /\ 0 <= extruder_override lt <= UINT_MAX /\
  layer_extruder (fun role => role_eqb role erInternalInfill) (fun _ => false) lt eec r = 2.
Proof.
  intros r lt eec.
  assert (Hr : region_filaments_set r) by (unfold region_filaments_set, UINT_MAX; simpl; lia).
  assert (Ho : 0 <= extruder_override lt <= UINT_MAX) by (unfold UINT_MAX; simpl; lia).
  split; [exact Hr|]. split; [exact Ho|].
  rewrite (proj1 (layer_extruder_agrees (fun role => role_eqb role erInternalInfill)
                    (fun _ => false) lt eec r Hr Ho)).
  reflexivity.
Defined.

(** ** The gaps of the skirt *)

Lemma skip_empty_down_here (lts : list LayerTools) (k : nat) (lt : LayerTools) :
  lts !! k = Some lt -> extruders lt <> [] -> skip_empty_down lts k = Some k.
Proof.
  intros Hk Hne. destruct k; simpl; rewrite Hk; destruct (extruders lt); congruence.
Qed.

Lemma skirt_upto_mark (bound : Q) (lts : list LayerTools) (p k : nat) (a ltk : LayerTools) :
  skirt_upto bound lts p -> lts !! p = Some a -> lts !! k = Some ltk -> (p < k)%nat ->
  skirt_within_reach bound lts p a k ->
  skirt_upto bound (<[k := set_has_skirt true ltk]> lts) k.
Proof.
  intros ((a0 & Ha0 & Hsa) & Habove & Hgap & Hne) Hp Hk Hpk Hreach.
  assert (a0 = a) as -> by congruence.
  pose proof (lookup_lt_Some _ _ _ Hk) as Hklen.
  split; [|split; [|split]].
  - exists (set_has_skirt true ltk). split; [now apply list_lookup_insert_eq|reflexivity].
  - intros m c Hm Hc. rewrite list_lookup_insert_ne in Hc by lia.
    apply (Habove m c); [lia|exact Hc].
  - intros m1 m2 x y Hlt Hx Hy Hsx Hsy Hbetween.
    destruct (lt_eq_lt_dec m2 k) as [[Hm2|Hm2]|Hm2].
    + rewrite list_lookup_insert_ne in Hx, Hy by lia.
      apply (Hgap m1 m2 x y Hlt Hx Hy Hsx Hsy).
      intros m c Hm Hc. apply (Hbetween m c Hm). now rewrite list_lookup_insert_ne by lia.
    + subst m2. rewrite list_lookup_insert_eq in Hy by exact Hklen. injection Hy as <-.
      rewrite list_lookup_insert_ne in Hx by lia.
      destruct (lt_eq_lt_dec m1 p) as [[Hm1|Hm1]|Hm1].
      * exfalso. assert (Hfalse : has_skirt a = false); [|congruence].
        apply (Hbetween p a); [lia|]. now rewrite list_lookup_insert_ne by lia.
      * subst m1. assert (x = a) as -> by congruence.
        destruct Hreach as [->|Hreach]; [now left|]. right. simpl. now apply Hreach.
      * exfalso. assert (Hfalse : has_skirt x = false); [|congruence].
        apply (Habove m1 x); [lia|exact Hx].
    + exfalso. rewrite list_lookup_insert_ne in Hy by lia.
      assert (Hfalse : has_skirt y = false); [|congruence].
      apply (Habove m2 y); [lia|exact Hy].
  - apply Forall_insert; [exact Hne|]. simpl.
    rewrite List.Forall_forall in Hne. apply Hne.
    apply list_elem_of_In. eapply list_elem_of_lookup_2. exact Hk.
Qed.

Lemma skirt_upto_first (bound : Q) (lts : list LayerTools) (i : nat) (lt : LayerTools) :
  Forall (fun lt => extruders lt <> []) lts ->
  (forall m c, lts !! m = Some c -> has_skirt c = false) ->
  lts !! i = Some lt ->
  skirt_upto bound (<[i := set_has_skirt true lt]> lts) i.
Proof.
  intros Hne Hnone Hi. pose proof (lookup_lt_Some _ _ _ Hi) as Hilen.
  split; [|split; [|split]].
  - exists (set_has_skirt true lt). split; [now apply list_lookup_insert_eq|reflexivity].
  - intros m c Hm Hc. rewrite list_lookup_insert_ne in Hc by lia. now apply (Hnone m).
  - intros m1 m2 x y Hlt Hx Hy Hsx Hsy _. exfalso.
    destruct (decide (m1 = i)) as [->|Hm1].
    + rewrite list_lookup_insert_ne in Hy by lia. rewrite (Hnone m2 y Hy) in Hsy. discriminate.
    + rewrite list_lookup_insert_ne in Hx by lia. rewrite (Hnone m1 x Hx) in Hsx. discriminate.
  - apply Forall_insert; [exact Hne|]. simpl.
    rewrite List.Forall_forall in Hne. apply Hne.
    apply list_elem_of_In. eapply list_elem_of_lookup_2. exact Hi.
Qed.

Section SkirtGaps.
Variables (EPSILON max_layer_height : Q).

Lemma mark_intermediate_gap (fuel : nat) (lts out : list LayerTools) (j k : nat) (last_z : Q)
    (p : nat) (a : LayerTools) :
  mark_intermediate EPSILON max_layer_height fuel lts j k last_z = Some out ->
  skirt_upto (max_layer_height + EPSILON) lts p ->
  lts !! p = Some a -> last_z = print_z a ->
  (p < k <= j)%nat -> (j < length lts)%nat ->
  skirt_within_reach (max_layer_height + EPSILON) lts p a k ->
  exists p' a',
    skirt_upto (max_layer_height + EPSILON) out p' /\ (p' < j)%nat /\
    out !! p' = Some a' /\
    skirt_within_reach (max_layer_height + EPSILON) out p' a' j.
Proof.
  revert lts k last_z p a.
  induction fuel as [|fuel IH]; intros lts k last_z p a; [discriminate|].
  simpl. intros Hrun Hinv Hp Hz Hk Hj Hreach.
  destruct (Nat.ltb_spec k j) as [Hkj|Hkj].
  - destruct (lookup_lt_is_Some_2 lts (S k) ltac:(lia)) as [next Hnext].
    rewrite Hnext in Hrun.
    destruct (Qlt_le_dec (max_layer_height + EPSILON) (print_z next - last_z)) as [Hfar|Hnear].
    + destruct (lookup_lt_is_Some_2 lts k ltac:(lia)) as [ltk Hltk].
      assert (Hne : extruders ltk <> []).
      { destruct Hinv as (_ & _ & _ & Hall). rewrite List.Forall_forall in Hall.
        apply Hall. apply list_elem_of_In. eapply list_elem_of_lookup_2. exact Hltk. }
      rewrite (skip_empty_down_here lts k ltk Hltk Hne), Hltk in Hrun.
      assert (Hs : has_skirt ltk = false).
      { destruct Hinv as (_ & Habove & _). apply (Habove k ltk); [lia|exact Hltk]. }
      rewrite Hs in Hrun.
      apply (IH _ _ _ k (set_has_skirt true ltk) Hrun).
      * now apply (skirt_upto_mark _ lts p k a ltk).
      * apply list_lookup_insert_eq. lia.
      * reflexivity.
      * lia.
      * now rewrite length_insert.
      * now left.
    + apply (IH _ _ _ p a Hrun Hinv Hp Hz); [lia|exact Hj|].
      right. intros b Hb. assert (b = next) as -> by congruence. now rewrite <- Hz.
  - injection Hrun as <-. exists p, a. split; [exact Hinv|]. split; [lia|].
    split; [exact Hp|]. now replace j with k by lia.
Qed.

Lemma mark_from_gap (fuel : nat) (lts out : list LayerTools) (i : nat) :
  mark_from EPSILON max_layer_height fuel lts i = Some out ->
  Forall (fun lt => extruders lt <> []) lts ->
  (forall m c, lts !! m = Some c -> has_skirt c = false) \/
  (exists p a, (p < i)%nat /\ skirt_upto (max_layer_height + EPSILON) lts p /\
               lts !! p = Some a /\
               skirt_within_reach (max_layer_height + EPSILON) lts p a i) ->
  skirt_gap_ok (max_layer_height + EPSILON) out.
Proof.
  revert lts i. induction fuel as [|fuel IH]; intros lts i; [discriminate|].
  rewrite mark_from_unfold. destruct (lts !! i) as [lt|] eqn:Hi; [|discriminate].
  intros Hrun Hne Hpre.
  set (lts1 := <[i := set_has_skirt true lt]> lts) in *.
  assert (Hinv1 : skirt_upto (max_layer_height + EPSILON) lts1 i).
  { destruct Hpre as [Hnone|(p & a & Hpi & Hinv & Hp & Hreach)].
    - now apply skirt_upto_first.
    - now apply (skirt_upto_mark _ lts p i a lt). }
  assert (Hlen1 : length lts1 = length lts) by apply length_insert.
  pose proof (lookup_lt_Some _ _ _ Hi) as Hilen.
  destruct (next_object_layer_spec (S i) (drop (S i) lts1)) as (Hrange & _ & _).
  rewrite length_drop in Hrange.
  set (j := next_object_layer (S i) (drop (S i) lts1)) in *.
  destruct (Nat.eqb_spec j (length lts1)) as [Hj|Hj].
  - injection Hrun as <-. apply Hinv1.
  - destruct (mark_intermediate EPSILON max_layer_height _ lts1 j (S i) (print_z lt))
      as [lts2|] eqn:Hinner; [|discriminate].
    destruct (mark_intermediate_gap _ lts1 lts2 j (S i) (print_z lt) i (set_has_skirt true lt)
                Hinner Hinv1) as (p' & a' & Hinv2 & Hp'j & Hp' & Hreach');
      [apply list_lookup_insert_eq; lia|reflexivity|lia|lia|now left|].
    apply (IH lts2 j Hrun); [apply Hinv2|].
    right. exists p', a'. auto.
Qed.

End SkirtGaps.

(** X22. On a layer list without empty layers, none of them marked
    beforehand, [mark_skirt_layers] leaves no gap in the skirt: two skirt
    layers with no skirt layer between them are neighbours in the layer list
    or lie at most [max_layer_height + EPSILON] apart. (With empty layers a
    larger gap can remain, which the source notes where it gives up.) *)
Theorem skirt_gaps_without_empty_layers (EPSILON max_layer_height : Q)
    (lts : list LayerTools) :
  Forall (fun lt => extruders lt <> [] /\ has_skirt lt = false) lts ->
  exists out,
    mark_skirt_layers EPSILON max_layer_height lts = Some out /\
    skirt_gap_ok (max_layer_height + EPSILON) out.
Proof.
  intros Hall.
  assert (Hne : Forall (fun lt => extruders lt <> []) lts).
  { eapply List.Forall_impl; [|exact Hall]. now intros lt [H _]. }
  assert (Hnone : forall m c, lts !! m = Some c -> has_skirt c = false).
  { intros m c Hc. rewrite List.Forall_forall in Hall. apply (Hall c).
    apply list_elem_of_In. eapply list_elem_of_lookup_2. exact Hc. }
  unfold mark_skirt_layers. destruct lts as [|lt0 rest] eqn:Hl.
  - exists []. split; [reflexivity|]. intros m1 m2 a b _ Ha. discriminate.
  - rewrite <- Hl in *. destruct (extruders lt0) as [|e es] eqn:He.
    { exfalso. rewrite Hl in Hne. inversion Hne; subst. congruence. }
    assert (Hfirst : first_layer_prints lts).
    { exists lt0. rewrite Hl. split; [reflexivity|]. rewrite He. discriminate. }
    destruct (mark_from_total EPSILON max_layer_height (S (length lts)) lts 0 Hfirst)
      as [out Hout]; [rewrite Hl; simpl; lia|lia|].
    exists out. split; [exact Hout|].
    apply (mark_from_gap EPSILON max_layer_height _ lts out 0 Hout Hne). now left.
Qed.

(** X22 on layers at 0.2, 0.4, 0.6, 0.8 and 1.0 of which the first and the
    last have object extrusions, with a maximum layer height of 0.45: the
    skirt is marked at 0.2, 0.6 and 1.0. *)
Lemma skirt_gaps_without_empty_layers_witness :
  let obj z := mkLayerTools z true false [0] 0 false false 0 0%Q None in
  let sup z := mkLayerTools z false true [0] 0 false false 0 0%Q None in
  let lts := [obj (1 # 5); sup (2 # 5); sup (3 # 5); sup (4 # 5); obj 1%Q] in
  Forall (fun lt => extruders lt <> [] /\ has_skirt lt = false) lts /\
  exists out,
    mark_skirt_layers (1 # 10000) (9 # 20) lts = Some out /\
    map has_skirt out = [true; false; true; false; true] /\
    skirt_gap_ok ((9 # 20) + (1 # 10000)) out.
Proof.
  intros obj sup lts.
  assert (Hall : Forall (fun lt => extruders lt <> [] /\ has_skirt lt = false) lts).
  { repeat constructor; discriminate. }
  split; [exact Hall|].
  destruct (skirt_gaps_without_empty_layers (1 # 10000) (9 # 20) lts Hall) as (out & Hout & Hgap).
  exists out. split; [exact Hout|]. split; [|exact Hgap].
  assert (Hrun : mark_skirt_layers (1 # 10000) (9 # 20) lts
                 = Some [set_has_skirt true (obj (1 # 5)); sup (2 # 5);
                         set_has_skirt true (sup (3 # 5)); sup (4 # 5);
                         set_has_skirt true (obj 1%Q)]) by reflexivity.
  rewrite Hrun in Hout. injection Hout as <-. reflexivity.
Defined.

(** ** Overrides are only added *)

Lemma resize_lookup (n : nat) (d : Z) (v : list Z) (c : nat) :
  resize n d v !! c = if (c <? n)%nat then Some (default d (v !! c)) else None.
Proof.
  unfold resize. destruct (Nat.ltb_spec c n) as [Hc|Hc].
  - destruct (Nat.lt_ge_cases c (length v)) as [Hv|Hv].
    + rewrite lookup_app_l by (rewrite length_take; lia).
      rewrite lookup_take_lt by lia.
      destruct (lookup_lt_is_Some_2 v c Hv) as [x ->]. reflexivity.
    + rewrite lookup_app_r by (rewrite length_take; lia).
      rewrite lookup_replicate_2 by (rewrite length_take; lia).
      rewrite (lookup_ge_None_2 v c) by lia. reflexivity.
  - apply lookup_ge_None_2. rewrite length_app, length_take, length_replicate. lia.
Qed.

Lemma override_at_set (e o : Z) (copy : nat) (x : Z) (n : nat) (w : WipingExtrusions)
    (e' o' : Z) (c : nat) :
  override_at (set_extruder_override e o copy x n w) e' o' c =
    if decide ((e', o') = (e, o)) then
      if (c <? n)%nat then
        if decide (c = copy) then (if x =? -1 then None else Some x)
        else override_at w e o c
      else None
    else override_at w e' o' c.
Proof.
  unfold override_at, set_extruder_override. cbn [entity_map].
  destruct (decide ((e', o') = (e, o))) as [Heq|Hne].
  - rewrite Heq, lookup_insert_eq.
    destruct (Nat.ltb_spec c n) as [Hc|Hc].
    + destruct (decide (c = copy)) as [->|Hcc].
      * rewrite list_lookup_insert_eq by (rewrite resize_length; lia). reflexivity.
      * rewrite list_lookup_insert_ne by congruence. rewrite resize_lookup.
        destruct (Nat.ltb_spec c n); [|lia].
        destruct (entity_map w !! (e, o)) as [v|]; simpl.
        -- destruct (v !! c); reflexivity.
        -- reflexivity.
    + rewrite (lookup_ge_None_2 _ c) by (rewrite length_insert, resize_length; lia).
      reflexivity.
  - rewrite lookup_insert_ne by congruence. reflexivity.
Qed.

Lemma is_entity_overridden_at (w : WipingExtrusions) (e o : Z) (c : nat) :
  is_entity_overridden w e o c
  = match override_at w e o c with Some _ => true | None => false end.
Proof.
  unfold is_entity_overridden, override_at.
  destruct (entity_map w !! (e, o)) as [v|]; [|reflexivity].
  rewrite nth_lookup. destruct (v !! c) as [z|]; simpl; [|reflexivity].
  destruct (z =? -1); reflexivity.
Qed.

Lemma overrides_added_refl (allowed : Z -> Prop) (objects : list PrintObject)
    (w : WipingExtrusions) : overrides_added allowed objects w w.
Proof. unfold overrides_added. repeat split; auto. Qed.

Lemma overrides_added_trans (allowed : Z -> Prop) (objects : list PrintObject)
    (w1 w2 w3 : WipingExtrusions) :
  overrides_added allowed objects w1 w2 -> overrides_added allowed objects w2 w3 ->
  overrides_added allowed objects w1 w3.
Proof.
  intros (A1 & A2 & A3 & A4 & A5 & A6) (B1 & B2 & B3 & B4 & B5 & B6).
  split; [|split; [|split; [|split; [|split]]]].
  - intros e o c x Hx Hc. apply B1; [|exact Hc]. now apply A1.
  - intros e o c y Hy. destruct (B2 e o c y Hy) as [H|H]; [now apply A2|now right].
  - intros o x Hx. now apply B3, A3.
  - intros o y Hy. destruct (B4 o y Hy) as [H|H]; [now apply A4|now right].
  - intros o x Hx. now apply B5, A5.
  - intros o y Hy. destruct (B6 o y Hy) as [H|H]; [now apply A6|now right].
Qed.

Lemma overrides_added_allowed (allowed allowed' : Z -> Prop) (objects : list PrintObject)
    (w w' : WipingExtrusions) :
  (forall y, allowed y -> allowed' y) ->
  overrides_added allowed objects w w' -> overrides_added allowed' objects w w'.
Proof.
  intros Hsub (A1 & A2 & A3 & A4 & A5 & A6).
  split; [exact A1|]. split; [|split; [exact A3|split; [|split; [exact A5|]]]].
  - intros e o c y Hy. destruct (A2 e o c y Hy); auto.
  - intros o y Hy. destruct (A4 o y Hy); auto.
  - intros o y Hy. destruct (A6 o y Hy); auto.
Qed.

Lemma overrides_added_overridden (allowed : Z -> Prop) (objects : list PrintObject)
    (w w' : WipingExtrusions) (e o : Z) (c : nat) :
  overrides_added allowed objects w w' -> has_copy objects o c ->
  is_entity_overridden w e o c = true -> is_entity_overridden w' e o c = true.
Proof.
  intros (A1 & _) Hc. rewrite !is_entity_overridden_at.
  destruct (override_at w e o c) as [x|] eqn:Hx; [|discriminate].
  intros _. now rewrite (A1 e o c x Hx Hc).
Qed.

Lemma set_extruder_override_added (allowed : Z -> Prop) (objects : list PrintObject)
    (object : PrintObject) (e : Z) (copy : nat) (x : Z) (w : WipingExtrusions) :
  In object objects ->
  is_entity_overridden w e (object_id object) copy = false ->
  (x <> -1 -> allowed x) ->
  overrides_added allowed objects w
    (set_extruder_override e (object_id object) copy x (instances object) w).
Proof.
  intros Hin Hnot Hx. rewrite is_entity_overridden_at in Hnot.
  split; [|split; [|repeat split; auto]].
  - intros e' o' c z Hz Hcopy. rewrite override_at_set.
    destruct (decide ((e', o') = (e, object_id object))) as [Heq|_]; [|exact Hz].
    injection Heq as -> ->. specialize (Hcopy object Hin eq_refl).
    destruct (Nat.ltb_spec c (instances object)); [|lia].
    destruct (decide (c = copy)) as [->|_]; [|exact Hz]. rewrite Hz in Hnot. discriminate.
  - intros e' o' c y. rewrite override_at_set.
    destruct (decide ((e', o') = (e, object_id object))) as [Heq|_]; [|auto].
    injection Heq as -> ->.
    destruct (c <? instances object)%nat; [|discriminate].
    destruct (decide (c = copy)); [|auto].
    destruct (Z.eqb_spec x (-1)); [discriminate|]. intros [= <-]. right. auto.
Qed.

Lemma set_support_extruder_override_added (allowed : Z -> Prop)
    (objects : list PrintObject) (o x : Z) (w : WipingExtrusions) :
  allowed x ->
  overrides_added allowed objects w (set_support_extruder_override o x w).
Proof.
  intros Hx. unfold overrides_added, set_support_extruder_override, override_at.
  cbn [entity_map support_map support_intf_map].
  split; [auto|]. split; [auto|]. split; [|split; [|auto]].
  - intros o' z Hz. destruct (support_map w !! o) eqn:Ho; [exact Hz|].
    rewrite lookup_insert_ne; [exact Hz|]. intros <-. congruence.
  - intros o' y. destruct (support_map w !! o) eqn:Ho; [auto|].
    destruct (decide (o = o')) as [<-|Hne].
    + rewrite lookup_insert_eq. intros [= <-]. now right.
    + rewrite lookup_insert_ne by exact Hne. auto.
Qed.

Lemma set_support_interface_extruder_override_added (allowed : Z -> Prop)
    (objects : list PrintObject) (o x : Z) (w : WipingExtrusions) :
  allowed x ->
  overrides_added allowed objects w (set_support_interface_extruder_override o x w).
Proof.
  intros Hx. unfold overrides_added, set_support_interface_extruder_override, override_at.
  cbn [entity_map support_map support_intf_map].
  split; [auto|]. split; [auto|]. split; [auto|]. split; [auto|]. split.
  - intros o' z Hz. destruct (support_intf_map w !! o) eqn:Ho; [exact Hz|].
    rewrite lookup_insert_ne; [exact Hz|]. intros <-. congruence.
  - intros o' y. destruct (support_intf_map w !! o) eqn:Ho; [auto|].
    destruct (decide (o = o')) as [<-|Hne].
    + rewrite lookup_insert_eq. intros [= <-]. now right.
    + rewrite lookup_insert_ne by exact Hne. auto.
Qed.

Lemma check_done_wiping (s : WipeState) : wiping (flow_state (check_done s)) = wiping s.
Proof. unfold check_done. destruct (Qlt_le_dec 0 (volume_to_wipe s)); reflexivity. Qed.

Lemma dedicated_prefix_In (o : PrintObject) (objects : list PrintObject) :
  In o (dedicated_prefix objects) -> In o objects.
Proof.
  induction objects as [|a objects IH]; simpl; [auto|].
  destruct (flush_into_objects a); [|contradiction].
  intros [->|H]; [now left|right; auto].
Qed.

Section WipingAdds.
Variables (is_infill is_solid_infill : ExtrusionRole -> bool).
Variables (lt : LayerTools) (cfg : WipeConfig) (old_extruder new_extruder : Z).
Variable objects : list PrintObject.

Lemma for_each_added {A : Type} (body : A -> WipeState -> flow) (l : list A) (s : WipeState) :
  (forall x s0, In x l ->
     overrides_added (eq new_extruder) objects (wiping s0) (wiping (flow_state (body x s0)))) ->
  overrides_added (eq new_extruder) objects (wiping s) (wiping (flow_state (for_each body l s))).
Proof.
  revert s. induction l as [|a l IH]; intros s Hbody; simpl.
  - apply overrides_added_refl.
  - pose proof (Hbody a s (or_introl eq_refl)) as Ha.
    destruct (body a s) as [s'|s']; simpl in Ha; [|exact Ha].
    eapply overrides_added_trans; [exact Ha|]. apply IH.
    intros x s0 Hx. apply Hbody. now right.
Qed.

Lemma and_then_added (w0 : WipingExtrusions) (f : flow) (k : WipeState -> flow) :
  overrides_added (eq new_extruder) objects w0 (wiping (flow_state f)) ->
  (forall s, overrides_added (eq new_extruder) objects (wiping s) (wiping (flow_state (k s)))) ->
  overrides_added (eq new_extruder) objects w0 (wiping (flow_state (and_then f k))).
Proof.
  intros Hf Hk. destruct f as [s|s]; simpl in *; [|exact Hf].
  eapply overrides_added_trans; [exact Hf|apply Hk].
Qed.

Lemma wipe_into_added (fill : ExtrusionEntityCollection) (object : PrintObject) (copy : nat)
    (s : WipeState) :
  In object objects ->
  is_entity_overridden (wiping s) (eec_id fill) (object_id object) copy = false ->
  overrides_added (eq new_extruder) objects (wiping s)
    (wiping (flow_state (wipe_into fill object copy new_extruder s))).
Proof.
  intros Hin Hnot. unfold wipe_into. rewrite check_done_wiping. simpl.
  now apply set_extruder_override_added.
Qed.

Lemma wipe_into_fill_added (object : PrintObject) (copy : nat) (r : PrintRegionConfig)
    (fill : ExtrusionEntityCollection) (s : WipeState) :
  In object objects ->
  overrides_added (eq new_extruder) objects (wiping s)
    (wiping (flow_state
       (wipe_into_fill is_infill is_solid_infill lt cfg new_extruder object copy r fill s))).
Proof.
  intros Hin. unfold wipe_into_fill.
  destruct (negb (is_overriddable _ _ _ _ _ _ _)); [apply overrides_added_refl|].
  destruct (_ && negb (is_extruder_order _ _ _)); [apply overrides_added_refl|].
  destruct (is_entity_overridden (wiping s) (eec_id fill) (object_id object) copy) eqn:Ho;
    simpl; [apply overrides_added_refl|].
  destruct (Qltb 0 (eec_total_volume fill)); [|apply overrides_added_refl].
  now apply wipe_into_added.
Qed.

Lemma wipe_into_perimeter_added (object : PrintObject) (copy : nat) (r : PrintRegionConfig)
    (fill : ExtrusionEntityCollection) (s : WipeState) :
  In object objects ->
  overrides_added (eq new_extruder) objects (wiping s)
    (wiping (flow_state
       (wipe_into_perimeter is_infill is_solid_infill lt cfg new_extruder object copy r fill s))).
Proof.
  intros Hin. unfold wipe_into_perimeter.
  destruct (is_overriddable _ _ _ _ _ _ _); simpl; [|apply overrides_added_refl].
  destruct (is_entity_overridden (wiping s) (eec_id fill) (object_id object) copy) eqn:Ho;
    simpl; [apply overrides_added_refl|].
  destruct (Qltb 0 (eec_total_volume fill)); [|apply overrides_added_refl].
  now apply wipe_into_added.
Qed.

Lemma wipe_into_region_added (perimeters_done : bool) (object : PrintObject) (copy : nat)
    (layerm : LayerRegion) (s : WipeState) :
  In object objects ->
  overrides_added (eq new_extruder) objects (wiping s)
    (wiping (flow_state
       (wipe_into_region is_infill is_solid_infill lt cfg new_extruder perimeters_done
          object copy layerm s))).
Proof.
  intros Hin. unfold wipe_into_region.
  destruct (_ && negb (flush_into_support object)); [apply overrides_added_refl|].
  apply and_then_added.
  - destruct (_ || _); [|apply overrides_added_refl].
    apply for_each_added. intros fill s0 _. now apply wipe_into_fill_added.
  - intros s1. destruct (_ && _); [|apply overrides_added_refl].
    apply for_each_added. intros fill s0 _. now apply wipe_into_perimeter_added.
Qed.

Lemma wipe_into_support_entity_added (counts : ExtrusionRole -> bool) (ee : SupportEntity)
    (s : WipeState) :
  overrides_added (eq new_extruder) objects (wiping s)
    (wiping (flow_state (wipe_into_support_entity counts ee s))).
Proof.
  unfold wipe_into_support_entity. rewrite check_done_wiping.
  destruct (counts (support_role ee)); apply overrides_added_refl.
Qed.

Lemma wipe_into_support_added (object : PrintObject) (s : WipeState) :
  overrides_added (eq new_extruder) objects (wiping s)
    (wiping (flow_state (wipe_into_support old_extruder new_extruder object s))).
Proof.
  unfold wipe_into_support.
  destruct (flush_into_support object); [|apply overrides_added_refl].
  destruct (this_support_layer object) as [entities|]; [|apply overrides_added_refl].
  destruct (_ && _); [apply overrides_added_refl|].
  apply and_then_added.
  - destruct (_ && _); [|apply overrides_added_refl].
    eapply overrides_added_trans;
      [apply (set_support_extruder_override_added _ _ (object_id object) new_extruder);
       reflexivity|].
    apply (for_each_added _ entities
             (mkWipeState (set_support_extruder_override (object_id object) new_extruder
                             (wiping s)) (volume_to_wipe s) (absorbed s))).
    intros ee s0 _. apply wipe_into_support_entity_added.
  - intros s1. destruct (_ && _); [|apply overrides_added_refl].
    eapply overrides_added_trans;
      [apply (set_support_interface_extruder_override_added _ _ (object_id object)
                new_extruder); reflexivity|].
    apply (for_each_added _ entities
             (mkWipeState (set_support_interface_extruder_override (object_id object)
                             new_extruder (wiping s1)) (volume_to_wipe s1) (absorbed s1))).
    intros ee s0 _. apply wipe_into_support_entity_added.
Qed.

Lemma wipe_into_object_added (perimeters_done : bool) (object : PrintObject)
    (s : WipeState) :
  In object objects ->
  overrides_added (eq new_extruder) objects (wiping s)
    (wiping (flow_state
       (wipe_into_object is_infill is_solid_infill lt cfg old_extruder new_extruder
          perimeters_done object s))).
Proof.
  intros Hin. unfold wipe_into_object.
  destruct (this_layer object) as [regions|]; [|apply overrides_added_refl].
  apply for_each_added. intros copy s0 _. apply and_then_added.
  - apply for_each_added. intros layerm s1 _. now apply wipe_into_region_added.
  - intros s1. apply wipe_into_support_added.
Qed.

End WipingAdds.

(** X23. [mark_wiping_extrusions] only adds overrides, and only of the new
    extruder: an extruder the entity table held before the call for a copy
    of an object is there after it, so no entity is overridden twice; an
    extruder the table holds after the call was there before or is
    [new_extruder]; and the same goes for the tables of the supports and of
    the support interfaces. *)
Theorem mark_wiping_extrusions_only_adds (is_infill is_solid_infill : ExtrusionRole -> bool)
    (lt : LayerTools) (cfg : WipeConfig) (old_extruder new_extruder : Z)
    (objects : list PrintObject) (w : WipingExtrusions) (volume : Q) :
  overrides_added (eq new_extruder) objects w
    (wiping (snd (mark_wiping_extrusions is_infill is_solid_infill lt cfg old_extruder
                    new_extruder objects w volume))).
Proof.
  unfold mark_wiping_extrusions. cbv zeta.
  destruct (_ || wipe_filament_soluble cfg new_extruder); [apply overrides_added_refl|].
  destruct (_ || wipe_filament_is_support cfg new_extruder); [apply overrides_added_refl|].
  assert (Hsorted : forall o, In o (sorted_objects objects) -> In o objects).
  { intros o Ho. unfold sorted_objects in Ho. now apply sort_list_elem in Ho. }
  assert (Hrun : overrides_added (eq new_extruder) objects w
            (wiping (flow_state
               (and_then
                  (for_each
                     (wipe_into_object is_infill is_solid_infill lt cfg old_extruder
                        new_extruder false)
                     (dedicated_prefix (sorted_objects objects)) (mkWipeState w volume []))
                  (for_each
                     (wipe_into_object is_infill is_solid_infill lt cfg old_extruder
                        new_extruder true)
                     (sorted_objects objects)))))).
  { apply and_then_added.
    - apply (for_each_added _ _ _ _ (mkWipeState w volume [])).
      intros o s0 Ho. apply wipe_into_object_added. now apply Hsorted, dedicated_prefix_In.
    - intros s. apply for_each_added. intros o s0 Ho. apply wipe_into_object_added.
      now apply Hsorted. }
  destruct (and_then _ _); exact Hrun.
Qed.

(** ** Forcing the order of perimeters and infills *)

Lemma fold_left_keeps {A S : Type} (f : S -> A -> S) (P : S -> Prop) (l : list A) (s : S) :
  (forall x s0, In x l -> P s0 -> P (f s0 x)) -> P s -> P (fold_left f l s).
Proof.
  revert s. induction l as [|a l IH]; intros s Hstep Hs; simpl; [exact Hs|].
  apply IH; [intros x s0 Hx; apply Hstep; now right|]. apply Hstep; [now left|exact Hs].
Qed.

Lemma fold_left_establishes {A S : Type} (f : S -> A -> S) (P : S -> Prop) (l : list A)
    (x0 : A) (s : S) :
  In x0 l -> (forall s0, P (f s0 x0)) ->
  (forall x s0, In x l -> P s0 -> P (f s0 x)) -> P (fold_left f l s).
Proof.
  revert s. induction l as [|a l IH]; intros s Hin Hx0 Hstep; [contradiction|]. simpl.
  destruct Hin as [->|Hin].
  - apply fold_left_keeps; [intros x s0 Hx; apply Hstep; now right|apply Hx0].
  - apply IH; [exact Hin|exact Hx0|]. intros x s0 Hx. apply Hstep. now right.
Qed.

Lemma fold_left_added {A : Type} (allowed : Z -> Prop) (objects : list PrintObject)
    (f : WipingExtrusions -> A -> WipingExtrusions) (l : list A) (w : WipingExtrusions) :
  (forall x w0, In x l -> overrides_added allowed objects w0 (f w0 x)) ->
  overrides_added allowed objects w (fold_left f l w).
Proof.
  intros Hstep. apply (fold_left_keeps f (overrides_added allowed objects w)).
  - intros x w0 Hx Hw0. eapply overrides_added_trans; [exact Hw0|now apply Hstep].
  - apply overrides_added_refl.
Qed.

Lemma object_id_unique (objects : list PrintObject) (a b : PrintObject) :
  List.NoDup (map object_id objects) -> In a objects -> In b objects ->
  object_id a = object_id b -> a = b.
Proof.
  induction objects as [|o objects IH]; [contradiction|]. simpl.
  intros Hnd Ha Hb Hid. apply List.NoDup_cons_iff in Hnd as [Hnotin Hnd].
  destruct Ha as [->|Ha], Hb as [->|Hb]; [reflexivity| | |now apply IH].
  - exfalso. apply Hnotin. rewrite Hid. now apply in_map.
  - exfalso. apply Hnotin. rewrite <- Hid. now apply in_map.
Qed.

Lemma as_int_as_unsigned (x : Z) : - 2 ^ 31 <= x < 2 ^ 31 -> as_int (as_unsigned x) = x.
Proof.
  intros Hx. unfold as_int, as_unsigned.
  destruct (Z_lt_le_dec x 0) as [Hneg|Hpos].
  - replace (x mod 2 ^ 32) with (x + 2 ^ 32)
      by (apply (Z.mod_unique _ _ (-1)); lia).
    destruct (Z.ltb_spec (x + 2 ^ 32) (2 ^ 31)); lia.
  - rewrite Z.mod_small by lia. destruct (Z.ltb_spec x (2 ^ 31)); lia.
Qed.

Lemma as_int_range (e : Z) : 0 <= e <= UINT_MAX -> - 2 ^ 31 <= as_int e < 2 ^ 31.
Proof.
  unfold as_int, UINT_MAX. intros He. destruct (Z.ltb_spec e (2 ^ 31)); lia.
Qed.

Lemma nonsoluble_extruder_range (cfg : WipeConfig) (lt : LayerTools) :
  Forall (fun e => 0 <= e <= UINT_MAX) (extruders lt) ->
  - 2 ^ 31 <= first_nonsoluble_extruder_on_layer cfg lt < 2 ^ 31 /\
  - 2 ^ 31 <= last_nonsoluble_extruder_on_layer cfg lt < 2 ^ 31.
Proof.
  intros Hall. rewrite List.Forall_forall in Hall.
  unfold first_nonsoluble_extruder_on_layer, last_nonsoluble_extruder_on_layer. split.
  - destruct (List.find _ (extruders lt)) as [e|] eqn:He; [|lia].
    apply List.find_some in He as [He _]. now apply as_int_range, Hall.
  - destruct (List.find _ (rev (extruders lt))) as [e|] eqn:He; [|lia].
    apply List.find_some in He as [He _]. apply as_int_range, Hall. now apply in_rev.
Qed.

Section EnsureFacts.
Variables (is_infill is_solid_infill : ExtrusionRole -> bool).
Variables (lt : LayerTools) (cfg : WipeConfig) (first last : Z).
Variable objects : list PrintObject.
Variable allowed : Z -> Prop.
Hypothesis allowed_first : allowed (as_int first).
Hypothesis allowed_last : allowed (as_int last).

Lemma force_fill_added (object : PrintObject) (copy : nat) (r : PrintRegionConfig)
    (w : WipingExtrusions) (fill : ExtrusionEntityCollection) :
  In object objects ->
  overrides_added allowed objects w
    (force_fill is_infill is_solid_infill lt cfg first last object copy r w fill).
Proof.
  intros Hin. unfold force_fill.
  destruct (negb (is_overriddable _ _ _ _ _ _ _)); simpl; [apply overrides_added_refl|].
  destruct (is_entity_overridden w (eec_id fill) (object_id object) copy) eqn:Ho;
    [apply overrides_added_refl|].
  destruct (is_infill_first cfg || _); [|apply overrides_added_refl].
  apply set_extruder_override_added; [exact Hin|exact Ho|].
  intros _. destruct (is_infill_first cfg); assumption.
Qed.

Lemma force_perimeter_added (object : PrintObject) (copy : nat) (r : PrintRegionConfig)
    (w : WipingExtrusions) (fill : ExtrusionEntityCollection) :
  In object objects ->
  overrides_added allowed objects w
    (force_perimeter is_infill is_solid_infill lt cfg first last object copy r w fill).
Proof.
  intros Hin. unfold force_perimeter.
  destruct (is_overriddable _ _ _ _ _ _ _); simpl; [|apply overrides_added_refl].
  destruct (is_entity_overridden w (eec_id fill) (object_id object) copy) eqn:Ho;
    [apply overrides_added_refl|]. simpl.
  apply set_extruder_override_added; [exact Hin|exact Ho|].
  intros _. destruct (is_infill_first cfg); assumption.
Qed.

Lemma force_region_added (object : PrintObject) (copy : nat) (w : WipingExtrusions)
    (layerm : LayerRegion) :
  In object objects ->
  overrides_added allowed objects w
    (force_region is_infill is_solid_infill lt cfg first last object copy w layerm).
Proof.
  intros Hin. unfold force_region.
  destruct (_ && _); [apply overrides_added_refl|].
  eapply overrides_added_trans.
  - apply (fold_left_added _ _
             (force_fill is_infill is_solid_infill lt cfg first last object copy
                (region layerm))
             (fills layerm) w).
    intros fill w0 _. now apply force_fill_added.
  - apply fold_left_added. intros fill w0 _. now apply force_perimeter_added.
Qed.

Lemma force_copy_added (object : PrintObject) (regions : list LayerRegion)
    (w : WipingExtrusions) (copy : nat) :
  In object objects ->
  overrides_added allowed objects w
    (fold_left (force_region is_infill is_solid_infill lt cfg first last object copy)
       regions w).
Proof.
  intros Hin. apply fold_left_added. intros layerm w0 _. now apply force_region_added.
Qed.

Lemma force_object_added (w : WipingExtrusions) (object : PrintObject) :
  In object objects ->
  overrides_added allowed objects w
    (force_object is_infill is_solid_infill lt cfg first last w object).
Proof.
  intros Hin. unfold force_object.
  destruct (this_layer object) as [regions|]; [|apply overrides_added_refl].
  apply fold_left_added. intros copy w0 _. now apply force_copy_added.
Qed.

Lemma force_objects_added (w : WipingExtrusions) :
  overrides_added allowed objects w
    (fold_left (force_object is_infill is_solid_infill lt cfg first last) objects w).
Proof.
  apply fold_left_added. intros object w0 Hin. now apply force_object_added.
Qed.

Lemma force_objects_supports (l : list PrintObject) (w : WipingExtrusions) :
  let w' := fold_left (force_object is_infill is_solid_infill lt cfg first last) l w in
  support_map w' = support_map w /\ support_intf_map w' = support_intf_map w /\
  something_overridable w' = something_overridable w.
Proof.
  set (P := fun w0 : WipingExtrusions =>
              support_map w0 = support_map w /\ support_intf_map w0 = support_intf_map w /\
              something_overridable w0 = something_overridable w).
  assert (Hset : forall e o c x n w0, P w0 -> P (set_extruder_override e o c x n w0)).
  { intros e o c x n w0 H. exact H. }
  apply (fold_left_keeps _ P); [|now unfold P].
  intros object w0 _ H0. unfold force_object. destruct (this_layer object); [|exact H0].
  apply (fold_left_keeps _ P); [|exact H0]. intros copy w1 _ H1.
  apply (fold_left_keeps _ P); [|exact H1]. intros layerm w2 _ H2.
  unfold force_region. destruct (_ && _); [exact H2|].
  apply (fold_left_keeps _ P).
  - intros p w3 _ H3. unfold force_perimeter. destruct (_ && _); [now apply Hset|exact H3].
  - apply (fold_left_keeps _ P); [|exact H2].
    intros p w3 _ H3. unfold force_fill. destruct (_ || _); [exact H3|].
    destruct (_ || _); [now apply Hset|exact H3].
Qed.

Hypothesis first_set : as_int first <> -1.
Hypothesis last_set : as_int last <> -1.
Hypothesis distinct_objects : List.NoDup (map object_id objects).

Variables (object : PrintObject) (regions : list LayerRegion) (layerm : LayerRegion).
Variable copy : nat.
Hypothesis object_listed : In object objects.
Hypothesis object_on_layer : this_layer object = Some regions.
Hypothesis object_flushes : flush_into_infill object || flush_into_objects object = true.
Hypothesis region_listed : In layerm regions.
Hypothesis copy_exists : (copy < instances object)%nat.

Lemma object_has_copy : has_copy objects (object_id object) copy.
Proof.
  intros obj Hobj Hid.
  now rewrite (object_id_unique objects obj object distinct_objects Hobj object_listed Hid).
Qed.

Lemma set_extruder_override_overridden (e x : Z) (w : WipingExtrusions) :
  x <> -1 ->
  is_entity_overridden
    (set_extruder_override e (object_id object) copy x (instances object) w)
    e (object_id object) copy = true.
Proof.
  intros Hx. rewrite is_entity_overridden_at, override_at_set.
  destruct (decide ((e, object_id object) = (e, object_id object))) as [_|H];
    [|contradiction].
  destruct (Nat.ltb_spec copy (instances object)); [|lia].
  destruct (decide (copy = copy)); [|contradiction].
  destruct (Z.eqb_spec x (-1)); [contradiction|reflexivity].
Qed.

Lemma forced_lifts (entity : Z) (w : WipingExtrusions) :
  (forall w0,
     is_entity_overridden
       (force_region is_infill is_solid_infill lt cfg first last object copy w0 layerm)
       entity (object_id object) copy = true) ->
  is_entity_overridden
    (fold_left (force_object is_infill is_solid_infill lt cfg first last) objects w)
    entity (object_id object) copy = true.
Proof.
  intros Hregion.
  apply (fold_left_establishes _
           (fun w0 => is_entity_overridden w0 entity (object_id object) copy = true)
           objects object); [exact object_listed| |].
  - intros w0. unfold force_object. rewrite object_on_layer.
    apply (fold_left_establishes _
             (fun w1 => is_entity_overridden w1 entity (object_id object) copy = true)
             (seq 0 (instances object)) copy).
    + apply in_seq. lia.
    + intros w1.
      apply (fold_left_establishes _
               (fun w2 => is_entity_overridden w2 entity (object_id object) copy = true)
               regions layerm); [exact region_listed|exact Hregion|].
      intros m w2 _. apply (overrides_added_overridden allowed objects);
        [now apply force_region_added|apply object_has_copy].
    + intros c w1 _. apply (overrides_added_overridden allowed objects);
        [now apply force_copy_added|apply object_has_copy].
  - intros o w0 Ho. apply (overrides_added_overridden allowed objects);
      [now apply force_object_added|apply object_has_copy].
Qed.

Lemma perimeter_forced (p : ExtrusionEntityCollection) (w : WipingExtrusions) :
  In p (perimeters layerm) ->
  is_overriddable is_infill is_solid_infill lt cfg p object (region layerm) = true ->
  is_entity_overridden
    (fold_left (force_object is_infill is_solid_infill lt cfg first last) objects w)
    (eec_id p) (object_id object) copy = true.
Proof.
  intros Hp Hable. apply forced_lifts. intros w0. unfold force_region.
  apply orb_true_iff in object_flushes.
  destruct (negb (flush_into_infill object) && negb (flush_into_objects object)) eqn:Hfl.
  { apply andb_true_iff in Hfl as [H1 H2]. apply negb_true_iff in H1, H2.
    destruct object_flushes; congruence. }
  apply (fold_left_establishes _
           (fun w1 => is_entity_overridden w1 (eec_id p) (object_id object) copy = true)
           (perimeters layerm) p); [exact Hp| |].
  - intros w1. unfold force_perimeter. rewrite Hable. simpl.
    destruct (is_entity_overridden w1 (eec_id p) (object_id object) copy) eqn:Ho;
      simpl; [exact Ho|].
    apply set_extruder_override_overridden. now destruct (is_infill_first cfg).
  - intros q w1 _. apply (overrides_added_overridden allowed objects);
      [now apply force_perimeter_added|apply object_has_copy].
Qed.

Lemma fill_forced (p : ExtrusionEntityCollection) (w : WipingExtrusions) :
  is_infill_first cfg = true ->
  In p (fills layerm) ->
  is_overriddable is_infill is_solid_infill lt cfg p object (region layerm) = true ->
  is_entity_overridden
    (fold_left (force_object is_infill is_solid_infill lt cfg first last) objects w)
    (eec_id p) (object_id object) copy = true.
Proof.
  intros Hfirst Hp Hable. apply forced_lifts. intros w0. unfold force_region.
  apply orb_true_iff in object_flushes.
  destruct (negb (flush_into_infill object) && negb (flush_into_objects object)) eqn:Hfl.
  { apply andb_true_iff in Hfl as [H1 H2]. apply negb_true_iff in H1, H2.
    destruct object_flushes; congruence. }
  apply (fold_left_keeps _
           (fun w1 => is_entity_overridden w1 (eec_id p) (object_id object) copy = true)).
  { intros q w1 _. apply (overrides_added_overridden allowed objects);
      [now apply force_perimeter_added|apply object_has_copy]. }
  apply (fold_left_establishes _
           (fun w1 => is_entity_overridden w1 (eec_id p) (object_id object) copy = true)
           (fills layerm) p); [exact Hp| |].
  - intros w1. unfold force_fill. rewrite Hable, Hfirst. simpl.
    destruct (is_entity_overridden w1 (eec_id p) (object_id object) copy) eqn:Ho;
      [exact Ho|].
    now apply set_extruder_override_overridden.
  - intros q w1 _. apply (overrides_added_overridden allowed objects);
      [now apply force_fill_added|apply object_has_copy].
Qed.

End EnsureFacts.

Lemma nonsoluble_extruder_found (cfg : WipeConfig) (lt : LayerTools) :
  Forall (fun e => 0 <= e < 2 ^ 31) (extruders lt) ->
  Exists (fun e => is_nonsoluble cfg e = true) (extruders lt) ->
  0 <= first_nonsoluble_extruder_on_layer cfg lt < 2 ^ 31 /\
  0 <= last_nonsoluble_extruder_on_layer cfg lt < 2 ^ 31.
Proof.
  intros Hall Hex. rewrite List.Forall_forall in Hall.
  apply List.Exists_exists in Hex as (x & Hx & Hnon).
  unfold first_nonsoluble_extruder_on_layer, last_nonsoluble_extruder_on_layer. split.
  - destruct (List.find _ (extruders lt)) as [e|] eqn:He.
    + apply List.find_some in He as [He _]. rewrite as_int_small; now apply Hall.
    + rewrite (List.find_none _ _ He x Hx) in Hnon. discriminate.
  - destruct (List.find _ (rev (extruders lt))) as [e|] eqn:He.
    + apply List.find_some in He as [He _]. apply in_rev in He.
      rewrite as_int_small; now apply Hall.
    + rewrite (List.find_none _ _ He x) in Hnon; [discriminate|]. now apply in_rev in Hx.
Qed.

(** X24. [ensure_perimeters_infills_order] only adds overrides: an extruder
    the entity table held before the call for a copy of an object is there
    after it, and an extruder the table holds after the call was there before
    or is what [first_nonsoluble_extruder_on_layer] or
    [last_nonsoluble_extruder_on_layer] returns. The tables of the supports
    are left as they are, and without [something_overridable] nothing
    changes at all. *)
Theorem ensure_perimeters_infills_order_only_adds
    (is_infill is_solid_infill : ExtrusionRole -> bool) (lt : LayerTools) (cfg : WipeConfig)
    (objects : list PrintObject) (w : WipingExtrusions) :
  Forall (fun e => 0 <= e <= UINT_MAX) (extruders lt) ->
  let w' := ensure_perimeters_infills_order is_infill is_solid_infill lt cfg objects w in
  overrides_added
    (fun y => y = first_nonsoluble_extruder_on_layer cfg lt \/
              y = last_nonsoluble_extruder_on_layer cfg lt)
    objects w w' /\
  support_map w' = support_map w /\ support_intf_map w' = support_intf_map w /\
  (something_overridable w = false -> w' = w).
Proof.
  intros Hall w'. subst w'. unfold ensure_perimeters_infills_order. cbv zeta.
  destruct (something_overridable w); simpl.
  - destruct (nonsoluble_extruder_range cfg lt Hall) as [Hf Hl]. split.
    + apply force_objects_added; rewrite as_int_as_unsigned by assumption; auto.
    + destruct (force_objects_supports is_infill is_solid_infill lt cfg
                  (as_unsigned (first_nonsoluble_extruder_on_layer cfg lt))
                  (as_unsigned (last_nonsoluble_extruder_on_layer cfg lt)) objects w)
        as (H1 & H2 & _).
      split; [exact H1|]. split; [exact H2|]. discriminate.
  - split; [apply overrides_added_refl|]. auto.
Qed.

(** X24 on a layer printing the extruders 0 and 1 with one object, dedicated
    to wiping, of two copies and one perimeter: both copies of the perimeter
    are given to extruder 0, the first extruder of the layer. *)
Lemma ensure_perimeters_infills_order_only_adds_witness :
  let cfg := mkWipeConfig (fun _ => false) (fun _ => false) false in
  let lt := set_extruders [0; 1] (new_LayerTools (1 # 5)) in
  let p := mkEEC 7 erPerimeter erPerimeter 1 in
  let layerm := mkLayerRegion (mkRegionConfig 1 1 1) [] [p] in
  let object := mkPrintObject 1 true false false 1 1 false 2 (Some [layerm]) None in
  let w := mkWiping ∅ ∅ ∅ false true in
  let w' := ensure_perimeters_infills_order (fun _ => false) (fun _ => false) lt cfg
              [object] w in
  Forall (fun e => 0 <= e <= UINT_MAX) (extruders lt) /\
  entity_map w' !! (7, 1) = Some [0; 0] /\
  overrides_added (fun y => y = 0 \/ y = 1) [object] w w'.
Proof.
  intros cfg lt p layerm object w w'.
  assert (Hall : Forall (fun e => 0 <= e <= UINT_MAX) (extruders lt)).
  { unfold UINT_MAX. simpl. repeat constructor; lia. }
  split; [exact Hall|]. split; [reflexivity|].
  exact (proj1 (ensure_perimeters_infills_order_only_adds (fun _ => false) (fun _ => false)
                  lt cfg [object] w Hall)).
Defined.

(** X25. With [something_overridable] set, a layer that prints some extruder
    that is neither soluble nor a support filament, and distinct print
    objects, [ensure_perimeters_infills_order] leaves no overridable
    perimeter without an override: for an object with a layer at this height
    that has [flush_into_infill] or [flush_into_objects] set, every copy of
    every perimeter that [is_overriddable] accepts is overridden afterwards;
    and so is every such infill when [is_infill_first] is set. *)
Theorem ensure_perimeters_infills_order_complete
    (is_infill is_solid_infill : ExtrusionRole -> bool) (lt : LayerTools) (cfg : WipeConfig)
    (objects : list PrintObject) (w : WipingExtrusions)
    (object : PrintObject) (regions : list LayerRegion) (layerm : LayerRegion)
    (p : ExtrusionEntityCollection) (copy : nat) :
  something_overridable w = true ->
  Forall (fun e => 0 <= e < 2 ^ 31) (extruders lt) ->
  Exists (fun e => is_nonsoluble cfg e = true) (extruders lt) ->
  List.NoDup (map object_id objects) ->
  In object objects -> this_layer object = Some regions ->
  flush_into_infill object || flush_into_objects object = true ->
  In layerm regions -> (copy < instances object)%nat ->
  is_overriddable is_infill is_solid_infill lt cfg p object (region layerm) = true ->
  In p (perimeters layerm) \/ (is_infill_first cfg = true /\ In p (fills layerm)) ->
  is_entity_overridden
    (ensure_perimeters_infills_order is_infill is_solid_infill lt cfg objects w)
    (eec_id p) (object_id object) copy = true.
Proof.
  intros Hable Hall Hex Hnd Hobj Hlayer Hflush Hregion Hcopy Hp Hwhere.
  unfold ensure_perimeters_infills_order. rewrite Hable. cbv zeta. simpl.
  destruct (nonsoluble_extruder_found cfg lt Hall Hex) as [Hf Hl].
  assert (Hf' : as_int (as_unsigned (first_nonsoluble_extruder_on_layer cfg lt)) <> -1)
    by (rewrite as_int_as_unsigned; lia).
  assert (Hl' : as_int (as_unsigned (last_nonsoluble_extruder_on_layer cfg lt)) <> -1)
    by (rewrite as_int_as_unsigned; lia).
  destruct Hwhere as [Hin|[Hfirst Hin]].
  - apply (perimeter_forced is_infill is_solid_infill lt cfg _ _ objects (fun _ => True)
             I I Hf' Hl' Hnd object regions layerm copy Hobj Hlayer Hflush Hregion Hcopy
             p w Hin Hp).
  - apply (fill_forced is_infill is_solid_infill lt cfg _ _ objects (fun _ => True)
             I I Hf' Hnd object regions layerm copy Hobj Hlayer Hflush Hregion Hcopy
             p w Hfirst Hin Hp).
Qed.

(** X25 on a layer printing the extruders 0 and 1 with one object, dedicated
    to wiping, of two copies and one perimeter: the second copy of the
    perimeter is overridden afterwards. *)
Lemma ensure_perimeters_infills_order_complete_witness :
  let cfg := mkWipeConfig (fun _ => false) (fun _ => false) false in
  let lt := set_extruders [0; 1] (new_LayerTools (1 # 5)) in
  let p := mkEEC 7 erPerimeter erPerimeter 1 in
  let layerm := mkLayerRegion (mkRegionConfig 1 1 1) [] [p] in
  let object := mkPrintObject 1 true false false 1 1 false 2 (Some [layerm]) None in
  let w := mkWiping ∅ ∅ ∅ false true in
  is_entity_overridden
    (ensure_perimeters_infills_order (fun _ => false) (fun _ => false) lt cfg [object] w)
    7 1 1 = true.
Proof.
  intros cfg lt p layerm object w.
  apply (ensure_perimeters_infills_order_complete (fun _ => false) (fun _ => false) lt cfg
           [object] w object [layerm] layerm p 1).
  - reflexivity.
  - simpl. repeat constructor; lia.
  - simpl. apply Exists_cons_hd. reflexivity.
  - simpl. repeat constructor. intros [].
  - now left.
  - reflexivity.
  - reflexivity.
  - now left.
  - simpl. lia.
  - reflexivity.
  - left. now left.
Defined.

(** ** [collect_extruders]: look-ups and what is collected *)

Lemma lower_bound_heights (z : Q) (a b : list LayerTools) :
  map print_z a = map print_z b -> lower_bound z a = lower_bound z b.
Proof.
  revert b. induction a as [|x a IH]; intros [|y b] H; try discriminate; [reflexivity|].
  simpl in H. injection H as Hxy Hab. simpl. rewrite Hxy, (IH b Hab). reflexivity.
Qed.

Lemma nearer_layers_heights (z d : Q) (i : nat) (a b : list LayerTools) :
  map print_z a = map print_z b -> nearer_layers z d i a = nearer_layers z d i b.
Proof.
  revert b d i. induction a as [|x a IH]; intros [|y b] d i H; try discriminate;
    [reflexivity|].
  simpl in H. injection H as Hxy Hab. rewrite !nearer_layers_cons, Hxy.
  destruct (Qlt_le_dec (Qabs (print_z y - z)) d); [apply IH; exact Hab|reflexivity].
Qed.

Lemma tools_for_layer_heights (EPSILON z : Q) (a b : list LayerTools) :
  map print_z a = map print_z b -> tools_for_layer EPSILON a z = tools_for_layer EPSILON b z.
Proof.
  intros H. unfold tools_for_layer. rewrite (lower_bound_heights _ a b H).
  set (i0 := lower_bound (z - EPSILON) b).
  assert (Hlook : print_z <$> a !! i0 = print_z <$> b !! i0).
  { rewrite <- !list_lookup_fmap. change (map print_z a !! i0 = map print_z b !! i0).
    now rewrite H. }
  assert (Hdrop : map print_z (drop (S i0) a) = map print_z (drop (S i0) b)).
  { rewrite <- !List.skipn_map. now rewrite H. }
  destruct (a !! i0) as [x|], (b !! i0) as [y|]; simpl in Hlook; try discriminate;
    [|reflexivity].
  injection Hlook as ->. now rewrite (nearer_layers_heights _ _ _ _ _ Hdrop).
Qed.

Lemma layer_grown_refl (a : LayerTools) : layer_grown a a.
Proof. unfold layer_grown. auto. Qed.

Lemma layer_grown_trans (a b c : LayerTools) :
  layer_grown a b -> layer_grown b c -> layer_grown a c.
Proof.
  intros (A1 & A2 & A3 & A4) (B1 & B2 & B3 & B4).
  split; [congruence|]. split; [auto|]. split; auto.
Qed.

Lemma layers_grown_refl (lts : list LayerTools) : Forall2 layer_grown lts lts.
Proof. induction lts; constructor; [apply layer_grown_refl|assumption]. Qed.

Lemma layers_grown_trans (a b c : list LayerTools) :
  Forall2 layer_grown a b -> Forall2 layer_grown b c -> Forall2 layer_grown a c.
Proof.
  intros Hab. revert c. induction Hab as [|x y a b Hxy Hab IH]; intros c Hbc.
  - inversion Hbc. constructor.
  - inversion Hbc as [|y' z b' c' Hyz Hbc']; subst. constructor.
    + eapply layer_grown_trans; eassumption.
    + now apply IH.
Qed.

Lemma layers_grown_heights (a b : list LayerTools) :
  Forall2 layer_grown a b -> map print_z a = map print_z b.
Proof.
  induction 1 as [|x y a b Hxy _ IH]; [reflexivity|]. simpl.
  destruct Hxy as [-> _]. now rewrite IH.
Qed.

Lemma layers_grown_lookup (a b : list LayerTools) (i : nat) (x : LayerTools) :
  Forall2 layer_grown a b -> a !! i = Some x ->
  exists y, b !! i = Some y /\ layer_grown x y.
Proof.
  intros H. revert i. induction H as [|x' y' a b Hxy _ IH]; intros i Hi; [discriminate|].
  destruct i as [|i]; simpl in *.
  - injection Hi as ->. eauto.
  - now apply IH.
Qed.

Lemma layers_grown_insert (lts : list LayerTools) (i : nat) (x y : LayerTools) :
  lts !! i = Some x -> layer_grown x y -> Forall2 layer_grown lts (<[i := y]> lts).
Proof.
  revert i. induction lts as [|a lts IH]; intros i Hi Hxy; [discriminate|].
  destruct i as [|i]; simpl in *.
  - injection Hi as ->. constructor; [exact Hxy|apply layers_grown_refl].
  - constructor; [apply layer_grown_refl|now apply IH].
Qed.

Lemma layers_grown_alter (f : LayerTools -> LayerTools) (lts : list LayerTools) (i : nat) :
  (forall x, layer_grown x (f x)) -> Forall2 layer_grown lts (alter f i lts).
Proof.
  intros Hf. revert i. induction lts as [|a lts IH]; intros i; [constructor|].
  destruct i as [|i]; simpl.
  - constructor; [apply Hf|apply layers_grown_refl].
  - constructor; [apply layer_grown_refl|apply IH].
Qed.

Lemma push_back_grown (e : Z) (lt : LayerTools) : layer_grown lt (push_back e lt).
Proof.
  unfold layer_grown, push_back. simpl. split; [reflexivity|].
  split; [intros x Hx; apply in_or_app; now left|auto].
Qed.

Lemma set_has_object_grown (lt : LayerTools) : layer_grown lt (set_has_object true lt).
Proof. unfold layer_grown. simpl. auto. Qed.

Lemma set_has_support_grown (lt : LayerTools) : layer_grown lt (set_has_support true lt).
Proof. unfold layer_grown. simpl. auto. Qed.

Lemma set_layer_extruder_override_grown (e : Z) (lt : LayerTools) :
  layer_grown lt (set_layer_extruder_override e lt).
Proof. unfold layer_grown. simpl. auto. Qed.

Lemma finish_collected_layer_grown (lt : LayerTools) :
  layer_grown lt (finish_collected_layer lt).
Proof.
  unfold layer_grown, finish_collected_layer.
  pose proof (fun e => sort_remove_duplicates_elem Z.leb Z.eqb Z.eqb_eq e (extruders lt)) as Hel.
  destruct (sort_remove_duplicates Z.leb Z.eqb (extruders lt)) as [|a es] eqn:Hs; simpl.
  - split; [reflexivity|]. split; [|auto]. intros e He. exfalso.
    now apply (proj2 (Hel e)) in He.
  - split; [reflexivity|]. split; [|auto]. intros e He. now apply Hel.
Qed.

Lemma finish_collected_grown (lts : list LayerTools) :
  Forall2 layer_grown lts (finish_collected lts).
Proof.
  unfold finish_collected. induction lts as [|lt lts IH]; simpl; constructor;
    [apply finish_collected_layer_grown|exact IH].
Qed.

Section CollectFacts.
Variable EPSILON : Q.
Variable is_solid_infill : ExtrusionRole -> bool.
Variable entities_empty : ExtrusionEntityCollection -> bool.
Variable is_overriddable_and_mark :
  LayerTools -> ExtrusionEntityCollection -> PrintObject -> PrintRegionConfig -> bool.
Variable has_print_config : bool.
Variable object : PrintObject.

Lemma collect_support_layer_grown (lts lts' : list LayerTools) (sl : SupportLayer) :
  collect_support_layer EPSILON object lts sl = Some lts' -> Forall2 layer_grown lts lts'.
Proof.
  unfold collect_support_layer.
  destruct (tools_for_layer EPSILON lts (support_print_z sl)) as [i|]; [|discriminate].
  intros [= <-]. apply layers_grown_alter. intros x.
  repeat match goal with
         | |- context [if ?c then _ else _] => destruct c
         end;
    repeat first [apply layer_grown_refl
                 | eapply layer_grown_trans; [|apply set_has_support_grown]
                 | eapply layer_grown_trans; [|apply push_back_grown]].
Qed.

Lemma collect_perimeters_grown (ov : Z) (layerm : LayerRegion) (lt : LayerTools) :
  layer_grown lt
    (fst (collect_perimeters is_overriddable_and_mark has_print_config object ov layerm lt)).
Proof.
  unfold collect_perimeters. destruct (perimeters layerm); [apply layer_grown_refl|].
  match goal with |- context [if ?c then (_, _) else _] => destruct c end; simpl.
  - eapply layer_grown_trans; [apply push_back_grown|apply set_has_object_grown].
  - apply set_has_object_grown.
Qed.

Lemma collect_fills_grown (ov : Z) (layerm : LayerRegion) (lt : LayerTools) :
  layer_grown lt
    (collect_fills is_solid_infill entities_empty is_overriddable_and_mark has_print_config
       object ov layerm lt).
Proof.
  unfold collect_fills.
  repeat match goal with
         | |- context [if ?c then _ else _] => destruct c
         end;
    repeat first [apply layer_grown_refl
                 | eapply layer_grown_trans; [|apply set_has_object_grown]
                 | eapply layer_grown_trans; [|apply push_back_grown]].
Qed.

Lemma collect_region_grown (ov : Z) (count : nat) (st : LayerTools * list Z)
    (layerm : LayerRegion) :
  layer_grown (fst st)
    (fst (collect_region is_solid_infill entities_empty is_overriddable_and_mark
            has_print_config object ov count st layerm)).
Proof.
  unfold collect_region.
  pose proof (collect_perimeters_grown ov layerm (fst st)) as Hp.
  destruct (collect_perimeters _ _ _ _ _ _) as [lt1 pushed]. simpl in *.
  eapply layer_grown_trans; [exact Hp|apply collect_fills_grown].
Qed.

Lemma collect_regions_grown (ov : Z) (count : nat) (regions : list LayerRegion)
    (st : LayerTools * list Z) :
  layer_grown (fst st)
    (fst (fold_left
            (collect_region is_solid_infill entities_empty is_overriddable_and_mark
               has_print_config object ov count) regions st)).
Proof.
  apply (fold_left_keeps _ (fun s => layer_grown (fst st) (fst s)));
    [|apply layer_grown_refl].
  intros layerm s _ Hs. eapply layer_grown_trans; [exact Hs|apply collect_region_grown].
Qed.

Lemma collect_object_layer_grown (st st' : CollectState) (layer : Layer) :
  collect_object_layer EPSILON is_solid_infill entities_empty is_overriddable_and_mark
    has_print_config object st layer = Some st' ->
  Forall2 layer_grown (collected_layers st) (collected_layers st').
Proof.
  unfold collect_object_layer.
  destruct (tools_for_layer EPSILON (collected_layers st) (layer_print_z layer)) as [i|];
    [|discriminate].
  destruct (collected_layers st !! i) as [lt|] eqn:Hi; [|discriminate].
  destruct (advance_override _ _ _ _) as [switches ov].
  pose proof (collect_regions_grown ov (layerCount st) (layer_regions layer)
                (set_layer_extruder_override ov lt, firstLayerExtruders st)) as Hg.
  destruct (fold_left _ _ _) as [lt' first]. simpl in Hg. intros [= <-]. simpl.
  apply (layers_grown_insert _ i lt); [exact Hi|].
  eapply layer_grown_trans; [apply set_layer_extruder_override_grown|exact Hg].
Qed.

End CollectFacts.

Lemma fold_left_option_total {A S : Type} (f : S -> A -> option S) (Inv : S -> Prop)
    (l : list A) (s : S) :
  (forall x s0, In x l -> Inv s0 -> exists s1, f s0 x = Some s1 /\ Inv s1) ->
  Inv s -> exists s', fold_left_option f l s = Some s' /\ Inv s'.
Proof.
  revert s. induction l as [|a l IH]; intros s Hstep Hs; simpl; [eauto|].
  destruct (Hstep a s (or_introl eq_refl) Hs) as (s1 & -> & Hs1).
  apply IH; [|exact Hs1]. intros x s0 Hx. apply Hstep. now right.
Qed.

Lemma fold_left_option_keeps {A S : Type} (f : S -> A -> option S) (P : S -> Prop)
    (l : list A) (s s' : S) :
  fold_left_option f l s = Some s' ->
  (forall x s0 s1, In x l -> f s0 x = Some s1 -> P s0 -> P s1) -> P s -> P s'.
Proof.
  revert s. induction l as [|a l IH]; intros s; simpl.
  - intros [= <-] _ H. exact H.
  - destruct (f s a) as [s1|] eqn:Hf; [|discriminate]. intros Hrun Hstep Hs.
    apply (IH _ Hrun); [intros x s0 s2 Hx; apply Hstep; now right|].
    apply (Hstep a s s1); [now left|exact Hf|exact Hs].
Qed.

Lemma fold_left_option_establishes {A S : Type} (f : S -> A -> option S)
    (Pre P : S -> Prop) (l : list A) (x0 : A) (s s' : S) :
  fold_left_option f l s = Some s' -> In x0 l ->
  (forall s0 s1, f s0 x0 = Some s1 -> Pre s0 -> P s1) ->
  (forall x s0 s1, In x l -> f s0 x = Some s1 -> Pre s0 -> Pre s1) ->
  (forall x s0 s1, In x l -> f s0 x = Some s1 -> P s0 -> P s1) ->
  Pre s -> P s'.
Proof.
  revert s. induction l as [|a l IH]; intros s Hrun Hin Hx0 Hpre Hkeep Hs; [contradiction|].
  simpl in Hrun. destruct (f s a) as [s1|] eqn:Hf; [|discriminate].
  destruct Hin as [->|Hin].
  - apply (fold_left_option_keeps f P l s1 s' Hrun).
    + intros x s0 s2 Hx. apply Hkeep. now right.
    + now apply (Hx0 s s1).
  - apply (IH s1 Hrun Hin Hx0).
    + intros x s0 s2 Hx. apply Hpre. now right.
    + intros x s0 s2 Hx. apply Hkeep. now right.
    + apply (Hpre a s s1); [now left|exact Hf|exact Hs].
Qed.

Lemma nearer_layers_bound (z d : Q) (i : nat) (rest : list LayerTools) :
  (fst (nearer_layers z d i rest) <= i + length rest)%nat.
Proof.
  revert d i. induction rest as [|lt rest IH]; intros d i; [simpl; lia|].
  rewrite nearer_layers_cons.
  destruct (Qlt_le_dec (Qabs (print_z lt - z)) d); [|simpl; lia].
  specialize (IH (Qabs (print_z lt - z)) (S i)). cbn [length]. lia.
Qed.

Lemma tools_for_layer_in_range (EPSILON z : Q) (lts : list LayerTools) (i : nat) :
  tools_for_layer EPSILON lts z = Some i -> exists lt, lts !! i = Some lt.
Proof.
  unfold tools_for_layer.
  destruct (lts !! lower_bound (z - EPSILON) lts) as [lt0|] eqn:H0; [|discriminate].
  pose proof (nearer_layers_bound z (Qabs (print_z lt0 - z)) (lower_bound (z - EPSILON) lts)
                (drop (S (lower_bound (z - EPSILON) lts)) lts)) as Hb.
  destruct (nearer_layers _ _ _ _) as [i' d]. simpl in Hb.
  destruct (Qltb d EPSILON); [|discriminate]. intros [= <-].
  apply lookup_lt_is_Some_2. apply lookup_lt_Some in H0. rewrite length_drop in Hb. lia.
Qed.

Lemma collected_at_grown (EPSILON z : Q) (holds : LayerTools -> Prop)
    (a b : list LayerTools) :
  (forall x y, layer_grown x y -> holds x -> holds y) ->
  Forall2 layer_grown a b ->
  collected_at EPSILON z holds a -> collected_at EPSILON z holds b.
Proof.
  intros Hup Hab (i & lt & Hfind & Hi & Hlt).
  destruct (layers_grown_lookup a b i lt Hab Hi) as (lt' & Hi' & Hg).
  exists i, lt'. split; [|split; [exact Hi'|now apply (Hup lt)]].
  now rewrite <- (tools_for_layer_heights EPSILON z a b (layers_grown_heights a b Hab)).
Qed.

Lemma support_collected_grown (object : PrintObject) (sl : SupportLayer)
    (x y : LayerTools) :
  layer_grown x y -> support_collected object sl x -> support_collected object sl y.
Proof.
  intros (_ & Hes & _ & Hsup) [H1 H2]. split; intros Hrole.
  - destruct (H1 Hrole). auto.
  - destruct (H2 Hrole). auto.
Qed.

Lemma region_collected_grown (is_solid_infill : ExtrusionRole -> bool)
    (fill_role : ExtrusionEntityCollection -> ExtrusionRole)
    (rejected : list ExtrusionEntityCollection -> Prop) (layerm : LayerRegion)
    (x y : LayerTools) :
  layer_grown x y ->
  region_collected is_solid_infill fill_role rejected layerm x ->
  region_collected is_solid_infill fill_role rejected layerm y.
Proof.
  intros (_ & Hes & Hobj & _) (H1 & H2 & H3 & H4).
  split; [auto|]. split; [auto|]. split; auto.
Qed.

Section CollectCovers.
Variable EPSILON : Q.
Variable is_solid_infill : ExtrusionRole -> bool.
Variable entities_empty : ExtrusionEntityCollection -> bool.
Variable is_overriddable_and_mark :
  LayerTools -> ExtrusionEntityCollection -> PrintObject -> PrintRegionConfig -> bool.
Variable has_print_config : bool.
Variable object : PrintObject.

Lemma collect_support_layer_collected (lts lts' : list LayerTools) (sl : SupportLayer) :
  collect_support_layer EPSILON object lts sl = Some lts' ->
  collected_at EPSILON (support_print_z sl) (support_collected object sl) lts'.
Proof.
  intros Hrun. pose proof (collect_support_layer_grown EPSILON object lts lts' sl Hrun) as Hg.
  revert Hrun. unfold collect_support_layer.
  destruct (tools_for_layer EPSILON lts (support_print_z sl)) as [i|] eqn:Hfind;
    [|discriminate].
  destruct (tools_for_layer_in_range _ _ _ _ Hfind) as [lt Hi].
  intros [= <-]. exists i. eexists. split; [|split].
  - rewrite <- Hfind. symmetry. apply tools_for_layer_heights, layers_grown_heights, Hg.
  - rewrite list_lookup_alter_eq, Hi. reflexivity.
  - unfold support_collected.
    destruct (support_fills_role sl); simpl;
      (split; [intros [H|[H|H]]|intros [H|H]]); try discriminate H;
      (split; [reflexivity|]); rewrite ?List.in_app_iff; simpl; auto 6.
Qed.

Lemma collect_perimeters_collected (layerm : LayerRegion) (lt : LayerTools) :
  let lt1 :=
    fst (collect_perimeters is_overriddable_and_mark has_print_config object 0 layerm lt) in
  (perimeters layerm <> [] -> has_object lt1 = true) /\
  (perimeters layerm <> [] ->
   (has_print_config = false \/
    exists p, In p (perimeters layerm) /\
              forall lt0, is_overriddable_and_mark lt0 p object (region layerm) = false) ->
   In (as_unsigned (wall_filament (region layerm))) (extruders lt1)).
Proof.
  unfold collect_perimeters.
  destruct (perimeters layerm) as [|p ps] eqn:Hp; [simpl; split; congruence|].
  destruct (if has_print_config
            then existsb
                   (fun eec =>
                      negb (is_overriddable_and_mark lt eec object (region layerm)))
                   (p :: ps)
            else true) eqn:Hc; simpl.
  - split; [reflexivity|]. intros _ _. apply in_or_app. right. now left.
  - split; [reflexivity|]. intros _ Hrej. exfalso.
    destruct has_print_config; [|discriminate].
    destruct Hrej as [H|(q & Hq & Hmark)]; [discriminate|].
    assert (Hex : existsb
                    (fun eec =>
                       negb (is_overriddable_and_mark lt eec object (region layerm)))
                    (p :: ps) = true).
    { apply existsb_exists. exists q. split; [exact Hq|]. now rewrite Hmark. }
    congruence.
Qed.

Lemma collect_fills_collected (layerm : LayerRegion) (lt : LayerTools) :
  let lt1 :=
    collect_fills is_solid_infill entities_empty is_overriddable_and_mark has_print_config
      object 0 layerm lt in
  let solid :=
    exists fill, In fill (fills layerm) /\
                 is_solid_infill (fill_role entities_empty fill) = true in
  let sparse :=
    exists fill, In fill (fills layerm) /\
                 is_solid_infill (fill_role entities_empty fill) = false /\
                 fill_role entities_empty fill <> erNone in
  let rejected :=
    has_print_config = false \/
    exists p, In p (fills layerm) /\
              forall lt0, is_overriddable_and_mark lt0 p object (region layerm) = false in
  (solid \/ sparse -> has_object lt1 = true) /\
  (solid -> rejected ->
   In (as_unsigned (solid_infill_filament (region layerm))) (extruders lt1)) /\
  (sparse -> rejected ->
   In (as_unsigned (sparse_infill_filament (region layerm))) (extruders lt1)).
Proof.
  intros lt1 solid sparse rejected. subst lt1. unfold collect_fills. cbv zeta.
  set (hs := existsb is_solid_infill (map (fill_role entities_empty) (fills layerm))).
  set (hi := existsb (fun role => negb (is_solid_infill role) && negb (role_eqb role erNone))
               (map (fill_role entities_empty) (fills layerm))).
  set (sn := has_print_config
             && existsb
                  (fun fill =>
                     negb (is_overriddable_and_mark lt fill object (region layerm)))
                  (fills layerm)).
  assert (Hhs : solid -> hs = true).
  { intros (fill & Hin & Hs). apply existsb_exists. exists (fill_role entities_empty fill).
    split; [now apply in_map|exact Hs]. }
  assert (Hhi : sparse -> hi = true).
  { intros (fill & Hin & Hs & Hnone). apply existsb_exists.
    exists (fill_role entities_empty fill). split; [now apply in_map|].
    rewrite Hs. simpl. destruct (fill_role entities_empty fill); try reflexivity.
    now contradiction Hnone. }
  assert (Hrej : rejected -> sn || negb has_print_config = true).
  { intros [->|(p & Hp & Hmark)]; [apply orb_true_r|]. subst sn.
    destruct has_print_config; [|reflexivity]. simpl. rewrite orb_false_r.
    apply existsb_exists. exists p. split; [exact Hp|]. now rewrite Hmark. }
  split; [|split].
  - intros Hany. assert (Hor : hs || hi = true).
    { destruct Hany as [H|H]; [rewrite (Hhs H); reflexivity|].
      rewrite (Hhi H). apply orb_true_r. }
    rewrite Hor. reflexivity.
  - intros Hs Hr. rewrite (Hhs Hs), (Hrej Hr). simpl.
    destruct hi; simpl; rewrite ?List.in_app_iff; simpl; auto.
  - intros Hs Hr. rewrite (Hhi Hs), (Hrej Hr). simpl.
    destruct hs; simpl; rewrite ?orb_true_r; simpl; rewrite ?List.in_app_iff; simpl; auto.
Qed.

Lemma collect_region_collected (count : nat) (st : LayerTools * list Z)
    (layerm : LayerRegion) :
  region_collected is_solid_infill (fill_role entities_empty)
    (fun entities =>
       has_print_config = false \/
       exists p, In p entities /\
                 forall lt0, is_overriddable_and_mark lt0 p object (region layerm) = false)
    layerm
    (fst (collect_region is_solid_infill entities_empty is_overriddable_and_mark
            has_print_config object 0 count st layerm)).
Proof.
  unfold collect_region.
  pose proof (collect_perimeters_collected layerm (fst st)) as [Hp1 Hp2].
  destruct (collect_perimeters _ _ _ _ _ _) as [lt1 pushed]. simpl in Hp1, Hp2.
  pose proof (collect_fills_collected layerm lt1) as (Hf1 & Hf2 & Hf3).
  pose proof (collect_fills_grown is_solid_infill entities_empty is_overriddable_and_mark
                has_print_config object 0 layerm lt1) as (_ & Hes & Hobj & _).
  cbn [fst]. unfold region_collected. cbv zeta.
  split; [|split; [|split]].
  - intros [H|H]; [apply Hobj; now apply Hp1|now apply Hf1].
  - intros Hne Hrej. apply Hes. now apply Hp2.
  - exact Hf2.
  - exact Hf3.
Qed.

Lemma collect_object_layer_collected (st st' : CollectState) (layer : Layer)
    (layerm : LayerRegion) :
  collect_object_layer EPSILON is_solid_infill entities_empty is_overriddable_and_mark
    has_print_config object st layer = Some st' ->
  remaining_switches st = [] -> current_override st = 0 ->
  In layerm (layer_regions layer) ->
  (remaining_switches st' = [] /\ current_override st' = 0) /\
  collected_at EPSILON (layer_print_z layer)
    (region_collected is_solid_infill (fill_role entities_empty)
       (fun entities =>
          has_print_config = false \/
          exists p, In p entities /\
                    forall lt0, is_overriddable_and_mark lt0 p object (region layerm) = false)
       layerm)
    (collected_layers st').
Proof.
  intros Hrun Hsw Hov Hin.
  pose proof (collect_object_layer_grown EPSILON is_solid_infill entities_empty
                is_overriddable_and_mark has_print_config object st st' layer Hrun) as Hg.
  revert Hrun. unfold collect_object_layer.
  destruct (tools_for_layer EPSILON (collected_layers st) (layer_print_z layer)) as [i|]
    eqn:Hfind; [|discriminate].
  destruct (collected_layers st !! i) as [lt|] eqn:Hi; [|discriminate].
  rewrite Hsw, Hov. cbn [advance_override].
  set (start := (set_layer_extruder_override 0 lt, firstLayerExtruders st)).
  assert (Hq : region_collected is_solid_infill (fill_role entities_empty)
                 (fun entities =>
                    has_print_config = false \/
                    exists p, In p entities /\
                      forall lt0,
                        is_overriddable_and_mark lt0 p object (region layerm) = false)
                 layerm
                 (fst (fold_left
                         (collect_region is_solid_infill entities_empty
                            is_overriddable_and_mark has_print_config object 0
                            (layerCount st))
                         (layer_regions layer) start))).
  { apply (fold_left_establishes _
             (fun s => region_collected is_solid_infill (fill_role entities_empty) _ layerm
                         (fst s))
             (layer_regions layer) layerm start Hin).
    - intros s0. apply collect_region_collected.
    - intros m s0 _. apply region_collected_grown, collect_region_grown. }
  destruct (fold_left _ (layer_regions layer) start) as [lt' first]. cbn [fst] in Hq.
  intros [= <-]. cbn [remaining_switches current_override collected_layers] in *.
  split; [auto|]. exists i, lt'. split; [|split; [|exact Hq]].
  - rewrite <- Hfind. symmetry. apply tools_for_layer_heights, layers_grown_heights, Hg.
  - apply list_lookup_insert_eq. now apply lookup_lt_Some in Hi.
Qed.

Lemma collect_object_layer_switches (st st' : CollectState) (layer : Layer) :
  collect_object_layer EPSILON is_solid_infill entities_empty is_overriddable_and_mark
    has_print_config object st layer = Some st' ->
  remaining_switches st = [] /\ current_override st = 0 ->
  remaining_switches st' = [] /\ current_override st' = 0.
Proof.
  unfold collect_object_layer. intros Hrun [Hsw Hov]. revert Hrun.
  destruct (tools_for_layer _ _ _) as [i|]; [|discriminate].
  destruct (collected_layers st !! i) as [lt|]; [|discriminate].
  rewrite Hsw, Hov. cbn [advance_override].
  destruct (fold_left _ _ _) as [lt' first]. intros [= <-]. auto.
Qed.

End CollectCovers.

Lemma initialize_layers_found (EPSILON : Q) (zs : list Q) (z : Q) :
  (0 < EPSILON)%Q -> In z zs ->
  exists i, tools_for_layer EPSILON (initialize_layers EPSILON zs) z = Some i.
Proof.
  intros Heps Hz.
  destruct (initialize_layers_covers EPSILON zs z ltac:(lra) Hz) as (lt0 & Hin & Hd).
  apply list_elem_of_In, list_elem_of_lookup in Hin as [j Hj].
  destruct (tools_for_layer_found EPSILON (initialize_layers EPSILON zs) z
              (initialize_layers_increasing EPSILON zs))
    as (i & lt & Hfind & _).
  { exists j, lt0. split; [exact Hj|lra]. }
  now exists i.
Qed.

(** X26. In both constructors no look-up of [collect_extruders] fails. Given
    the layers [initialize_layers] built from a list of heights that holds
    the heights of the object's layers and support layers (or those layers
    after earlier calls have collected into them), and a positive tolerance,
    [collect_extruders] passes every assertion of [tools_for_layer], whatever
    the extruder switches; and it only collects: every layer keeps its
    height and the extruders it had, and no [has_object] or [has_support] is
    taken away. *)
Theorem collect_extruders_returns (EPSILON : Q) (is_solid_infill : ExtrusionRole -> bool)
    (entities_empty : ExtrusionEntityCollection -> bool)
    (is_overriddable_and_mark :
       LayerTools -> ExtrusionEntityCollection -> PrintObject -> PrintRegionConfig -> bool)
    (has_print_config : bool) (object : SlicedObject) (switches : list (Q * Z))
    (zs : list Q) (lts : list LayerTools) :
  (0 < EPSILON)%Q ->
  (forall z, In z (object_heights object) -> In z zs) ->
  Forall2 layer_grown (initialize_layers EPSILON zs) lts ->
  exists out first,
    collect_extruders EPSILON is_solid_infill entities_empty is_overriddable_and_mark
      has_print_config object switches lts = Some (out, first) /\
    Forall2 layer_grown lts out.
Proof.
  intros Heps Hzs Hinit. unfold collect_extruders.
  assert (Hfind : forall z s, In z (object_heights object) -> Forall2 layer_grown lts s ->
            exists i lt, tools_for_layer EPSILON s z = Some i /\ s !! i = Some lt).
  { intros z s Hz Hs. destruct (initialize_layers_found EPSILON zs z Heps (Hzs z Hz)) as [i Hi].
    assert (Hsame : tools_for_layer EPSILON s z = Some i).
    { rewrite <- Hi. symmetry. apply tools_for_layer_heights, layers_grown_heights.
      eapply layers_grown_trans; eassumption. }
    destruct (tools_for_layer_in_range _ _ _ _ Hsame) as [lt Hlt]. eauto. }
  destruct (fold_left_option_total (collect_support_layer EPSILON (sliced_object object))
              (fun s => Forall2 layer_grown lts s) (object_support_layers object) lts)
    as (lts1 & -> & Hg1); [|apply layers_grown_refl|].
  { intros sl s Hsl Hs.
    destruct (Hfind (support_print_z sl) s) as (i & lt & Hi & _); [|exact Hs|].
    { apply in_or_app. right. now apply in_map. }
    destruct (collect_support_layer EPSILON (sliced_object object) s sl) as [s1|] eqn:Hrun.
    - exists s1. split; [reflexivity|]. eapply layers_grown_trans; [exact Hs|].
      eapply collect_support_layer_grown. exact Hrun.
    - exfalso. unfold collect_support_layer in Hrun. rewrite Hi in Hrun. discriminate. }
  destruct (fold_left_option_total
              (collect_object_layer EPSILON is_solid_infill entities_empty
                 is_overriddable_and_mark has_print_config (sliced_object object))
              (fun st => Forall2 layer_grown lts (collected_layers st))
              (object_layers object) (mkCollectState lts1 switches 0 0 []))
    as (st & -> & Hg2); [|exact Hg1|].
  { intros layer st Hlayer Hs.
    destruct (Hfind (layer_print_z layer) (collected_layers st)) as (i & lt & Hi & Hlt);
      [|exact Hs|].
    { apply in_or_app. left. now apply in_map. }
    destruct (collect_object_layer EPSILON is_solid_infill entities_empty
                is_overriddable_and_mark has_print_config (sliced_object object) st layer)
      as [st1|] eqn:Hrun.
    - exists st1. split; [reflexivity|]. eapply layers_grown_trans; [exact Hs|].
      eapply collect_object_layer_grown. exact Hrun.
    - exfalso. unfold collect_object_layer in Hrun. rewrite Hi, Hlt in Hrun.
      destruct (advance_override _ _ _ _) as [sw ov].
      destruct (fold_left _ _ _) as [lt' first]. discriminate. }
  eexists. eexists. split; [reflexivity|].
  eapply layers_grown_trans; [exact Hg2|apply finish_collected_grown].
Qed.

(** X26 on an object with layers at 0.2 and 0.4 and a support layer at 0.4,
    with the tolerance 1e-4. *)
Lemma collect_extruders_returns_witness :
  let wall := mkEEC 1 erPerimeter erPerimeter 1 in
  let layerm := mkLayerRegion (mkRegionConfig 2 3 3) [] [wall] in
  let config := mkPrintObject 1 false false false 4 4 false 1 None None in
  let object :=
    mkSlicedObject config [mkLayer (1 # 5) [layerm]; mkLayer (2 # 5) [layerm]]
      [mkSupportLayer (2 # 5) erSupportMaterial] in
  let lts := initialize_layers (1 # 10000) (object_heights object) in
  (0 < 1 # 10000)%Q /\
  exists out first,
    collect_extruders (1 # 10000) (fun _ => false) (fun _ => false) (fun _ _ _ _ => false)
      false object [] lts = Some (out, first) /\
    map extruders out = [[2]; [2; 4]] /\
    Forall2 layer_grown lts out.
Proof.
  intros wall layerm config object lts.
  assert (Heps : (0 < 1 # 10000)%Q) by reflexivity.
  split; [exact Heps|].
  destruct (collect_extruders_returns (1 # 10000) (fun _ => false) (fun _ => false)
              (fun _ _ _ _ => false) false object [] (object_heights object) lts Heps)
    as (out & first & Hrun & Hg); [auto|apply layers_grown_refl|].
  exists out, first. split; [exact Hrun|]. split; [|exact Hg].
  assert (Hout : option_map (fun r => map extruders (fst r))
                   (collect_extruders (1 # 10000) (fun _ => false) (fun _ => false)
                      (fun _ _ _ _ => false) false object [] lts)
                 = Some [[2]; [2; 4]]) by reflexivity.
  rewrite Hrun in Hout. now injection Hout.
Defined.

(** X27. What [collect_extruders] collects reaches the layer that
    [tools_for_layer] finds for it. When it returns, the layer found for the
    height of a support layer has [has_support] set and lists the support
    filament, respectively the support interface filament, that the role of
    the support layer asks for. Without extruder switches, the layer found
    for the height of an object layer has [has_object] set for every region
    with perimeters or infill, and lists the wall filament of a region with
    perimeters, its solid infill filament if it has solid infill and its
    sparse infill filament if it has other infill, in each case provided
    there is no print configuration or [is_overriddable_and_mark] turns one
    of the entities down. *)
Theorem collect_extruders_covers (EPSILON : Q) (is_solid_infill : ExtrusionRole -> bool)
    (entities_empty : ExtrusionEntityCollection -> bool)
    (is_overriddable_and_mark :
       LayerTools -> ExtrusionEntityCollection -> PrintObject -> PrintRegionConfig -> bool)
    (has_print_config : bool) (object : SlicedObject) (switches : list (Q * Z))
    (lts out : list LayerTools) (first : list Z) :
  collect_extruders EPSILON is_solid_infill entities_empty is_overriddable_and_mark
    has_print_config object switches lts = Some (out, first) ->
  (forall sl, In sl (object_support_layers object) ->
     collected_at EPSILON (support_print_z sl)
       (support_collected (sliced_object object) sl) out) /\
  (switches = [] ->
   forall layer layerm, In layer (object_layers object) -> In layerm (layer_regions layer) ->
     collected_at EPSILON (layer_print_z layer)
       (region_collected is_solid_infill (fill_role entities_empty)
          (fun entities =>
             has_print_config = false \/
             exists p, In p entities /\
                       forall lt0,
                         is_overriddable_and_mark lt0 p (sliced_object object)
                           (region layerm) = false)
          layerm)
       out).
Proof.
  unfold collect_extruders.
  destruct (fold_left_option (collect_support_layer EPSILON (sliced_object object))
              (object_support_layers object) lts) as [lts1|] eqn:Hsup; [|discriminate].
  destruct (fold_left_option _ (object_layers object) _) as [st|] eqn:Hobj; [|discriminate].
  intros [= <- _].
  assert (Hgrow : Forall2 layer_grown lts1 (collected_layers st)).
  { apply (fold_left_option_keeps _ (fun s => Forall2 layer_grown lts1 (collected_layers s))
             _ _ _ Hobj); [|apply layers_grown_refl].
    intros layer s0 s1 _ Hstep Hs0. eapply layers_grown_trans; [exact Hs0|].
    eapply collect_object_layer_grown. exact Hstep. }
  split.
  - intros sl Hsl.
    apply (collected_at_grown EPSILON _ _ lts1);
      [apply support_collected_grown
      |eapply layers_grown_trans; [exact Hgrow|apply finish_collected_grown]|].
    apply (fold_left_option_establishes _ (fun _ => True)
             (collected_at EPSILON (support_print_z sl)
                (support_collected (sliced_object object) sl))
             _ sl _ _ Hsup Hsl); [| |  |exact I].
    + intros s0 s1 Hstep _. eapply collect_support_layer_collected. exact Hstep.
    + auto.
    + intros x s0 s1 _ Hstep. apply collected_at_grown; [apply support_collected_grown|].
      eapply collect_support_layer_grown. exact Hstep.
  - intros -> layer layerm Hlayer Hregion.
    apply (collected_at_grown EPSILON _ _ (collected_layers st));
      [apply region_collected_grown|apply finish_collected_grown|].
    apply (fold_left_option_establishes _
             (fun s => remaining_switches s = [] /\ current_override s = 0)
             (fun s =>
                collected_at EPSILON (layer_print_z layer)
                  (region_collected is_solid_infill (fill_role entities_empty)
                     (fun entities =>
                        has_print_config = false \/
                        exists p, In p entities /\
                          forall lt0,
                            is_overriddable_and_mark lt0 p (sliced_object object)
                              (region layerm) = false)
                     layerm)
                  (collected_layers s))
             _ layer _ _ Hobj Hlayer); [| | |split; reflexivity].
    + intros s0 s1 Hstep [Hsw Hov].
      apply (collect_object_layer_collected EPSILON is_solid_infill entities_empty
               is_overriddable_and_mark has_print_config (sliced_object object)
               s0 s1 layer layerm Hstep Hsw Hov Hregion).
    + intros x s0 s1 _ Hstep. eapply collect_object_layer_switches. exact Hstep.
    + intros x s0 s1 _ Hstep. apply collected_at_grown; [apply region_collected_grown|].
      eapply collect_object_layer_grown. exact Hstep.
Qed.

(** X27 on an object with layers at 0.2 and 0.4 and a support layer at 0.4:
    the layer found for 0.4 lists the wall filament 2. *)
Lemma collect_extruders_covers_witness :
  let wall := mkEEC 1 erPerimeter erPerimeter 1 in
  let layerm := mkLayerRegion (mkRegionConfig 2 3 3) [] [wall] in
  let config := mkPrintObject 1 false false false 4 4 false 1 None None in
  let object :=
    mkSlicedObject config [mkLayer (1 # 5) [layerm]; mkLayer (2 # 5) [layerm]]
      [mkSupportLayer (2 # 5) erSupportMaterial] in
  let lts := [new_LayerTools (1 # 5); new_LayerTools (2 # 5)] in
  let out :=
    [set_has_object true (set_extruders [2] (new_LayerTools (1 # 5)));
     set_has_object true
       (set_has_support true (set_extruders [2; 4] (new_LayerTools (2 # 5))))] in
  collect_extruders (1 # 10000) (fun _ => false) (fun _ => false) (fun _ _ _ _ => false)
    false object [] lts = Some (out, [2]) /\
  collected_at (1 # 10000) (2 # 5)
    (region_collected (fun _ => false) (fill_role (fun _ => false))
       (fun entities =>
          false = false \/
          exists p, In p entities /\ forall lt0 : LayerTools, false = false)
       layerm)
    out.
Proof.
  intros wall layerm config object lts out.
  assert (Hrun : collect_extruders (1 # 10000) (fun _ => false) (fun _ => false)
                   (fun _ _ _ _ => false) false object [] lts = Some (out, [2]))
    by reflexivity.
  split; [exact Hrun|].
  apply (proj2 (collect_extruders_covers (1 # 10000) (fun _ => false) (fun _ => false)
                  (fun _ _ _ _ => false) false object [] lts out [2] Hrun) eq_refl
           (mkLayer (2 # 5) [layerm]) layerm).
  - right. now left.
  - now left.
Defined.

(** ** [generate_combinations]: every split, once *)

Section Combinations.
Local Open Scope nat_scope.

Lemma weight_cons (b : bool) (l : list bool) :
  weight (b :: l) = (if b then 1 else 0) + weight l.
Proof. unfold weight. simpl. destruct b; reflexivity. Qed.

Lemma flags_value_cons (b : bool) (l : list bool) :
  flags_value (b :: l) = (if b then 2 ^ length l else 0) + flags_value l.
Proof. reflexivity. Qed.

Lemma weight_le_length (l : list bool) : weight l <= length l.
Proof.
  induction l as [|b l IH]; [unfold weight; simpl; lia|].
  rewrite weight_cons. simpl. destruct b; lia.
Qed.

Lemma pow2_pos (k : nat) : 0 < 2 ^ k.
Proof. apply Nat.neq_0_lt_0, Nat.pow_nonzero. discriminate. Qed.

Lemma pow2_le (a b : nat) : a <= b -> 2 ^ a <= 2 ^ b.
Proof. intros H. apply Nat.pow_le_mono_r; [discriminate|exact H]. Qed.

Lemma flags_value_bound (l : list bool) : flags_value l < 2 ^ length l.
Proof.
  induction l as [|b l IH]; simpl; [lia|]. destruct b; lia.
Qed.

Lemma flags_value_inj (l l' : list bool) :
  length l = length l' -> flags_value l = flags_value l' -> l = l'.
Proof.
  revert l'. induction l as [|b l IH]; intros [|b' l'] Hlen Hval; try discriminate;
    [reflexivity|].
  simpl in Hlen, Hval. injection Hlen as Hlen.
  pose proof (flags_value_bound l) as Hb. pose proof (flags_value_bound l') as Hb'.
  rewrite Hlen in *.
  destruct b, b'; try (exfalso; lia); f_equal; apply IH; lia.
Qed.

Lemma flags_value_min (l : list bool) : 2 ^ weight l <= flags_value l + 1.
Proof.
  induction l as [|b l IH]; [unfold weight; simpl; lia|].
  rewrite weight_cons. simpl flags_value. destruct b.
  - replace (1 + weight l) with (S (weight l)) by lia. rewrite Nat.pow_succ_r'.
    pose proof (pow2_le (weight l) (length l) (weight_le_length l)). lia.
  - simpl. exact IH.
Qed.

Lemma flags_value_max (l : list bool) :
  flags_value l + 2 ^ (length l - weight l) <= 2 ^ length l.
Proof.
  induction l as [|b l IH]; [unfold weight; simpl; lia|].
  pose proof (weight_le_length l) as Hw.
  rewrite weight_cons. simpl flags_value. simpl length. destruct b.
  - replace (S (length l) - (1 + weight l)) with (length l - weight l) by lia.
    rewrite Nat.pow_succ_r'. lia.
  - replace (S (length l) - (0 + weight l)) with (S (length l - weight l)) by lia.
    rewrite !Nat.pow_succ_r'. lia.
Qed.

Lemma weight_app (l l' : list bool) : weight (l ++ l') = weight l + weight l'.
Proof. unfold weight. now rewrite List.filter_app, length_app. Qed.

Lemma weight_replicate (b : bool) (k : nat) :
  weight (replicate k b) = if b then k else 0.
Proof.
  induction k as [|k IH]; [now destruct b|].
  change (replicate (S k) b) with (b :: replicate k b). rewrite weight_cons, IH.
  destruct b; lia.
Qed.

Lemma flags_value_ones (b : nat) : flags_value (replicate b true) + 1 = 2 ^ b.
Proof.
  induction b as [|b IH]; [reflexivity|].
  change (replicate (S b) true) with (true :: replicate b true).
  simpl flags_value. rewrite length_replicate, Nat.pow_succ_r'. lia.
Qed.

Lemma flags_value_ascending (a b : nat) :
  flags_value (replicate a false ++ replicate b true) + 1 = 2 ^ b.
Proof.
  induction a as [|a IH]; [apply flags_value_ones|].
  change (replicate (S a) false ++ replicate b true)
    with (false :: (replicate a false ++ replicate b true)).
  simpl flags_value. exact IH.
Qed.

Lemma flags_value_zeros (d : nat) : flags_value (replicate d false) = 0.
Proof.
  induction d as [|d IH]; [reflexivity|].
  change (replicate (S d) false) with (false :: replicate d false). simpl. exact IH.
Qed.

Lemma flags_value_descending (c d : nat) :
  flags_value (replicate c true ++ replicate d false) + 2 ^ d = 2 ^ (c + d).
Proof.
  induction c as [|c IH]; [simpl; rewrite flags_value_zeros; lia|].
  change (replicate (S c) true ++ replicate d false)
    with (true :: (replicate c true ++ replicate d false)).
  simpl flags_value. rewrite length_app, !length_replicate.
  replace (S c + d) with (S (c + d)) by lia. rewrite Nat.pow_succ_r'. lia.
Qed.

Lemma replicate_snoc (x : bool) (n : nat) : replicate n x ++ [x] = x :: replicate n x.
Proof. induction n as [|n IH]; [reflexivity|]. simpl. now rewrite IH. Qed.

Lemma rev_replicate (x : bool) (n : nat) : rev (replicate n x) = replicate n x.
Proof.
  induction n as [|n IH]; [reflexivity|]. simpl. now rewrite IH, replicate_snoc.
Qed.

Lemma last_smaller_ones (b : nat) : last_smaller true (replicate b true) = None.
Proof.
  induction b as [|b IH]; [reflexivity|].
  change (replicate (S b) true) with (true :: replicate b true). simpl. now rewrite IH.
Qed.

Lemma last_smaller_ascending (a b : nat) :
  last_smaller true (replicate (S a) false ++ replicate b true) = Some a.
Proof.
  induction a as [|a IH].
  - change (replicate 1 false ++ replicate b true) with (false :: replicate b true).
    simpl. now rewrite last_smaller_ones.
  - change (replicate (S (S a)) false ++ replicate b true)
      with (false :: (replicate (S a) false ++ replicate b true)).
    cbn [last_smaller]. now rewrite IH.
Qed.

Lemma previous_permutation_None (l : list bool) :
  previous_permutation l = None ->
  exists a b, l = replicate a false ++ replicate b true.
Proof.
  induction l as [|x rest IH]; [exists 0, 0; reflexivity|].
  simpl. destruct (previous_permutation rest) as [rest'|]; [discriminate|].
  destruct (IH eq_refl) as (a & b & Hrest). intros Hnone.
  destruct rest as [|y rest0].
  - destruct x; [exists 0, 1|exists 1, 0]; reflexivity.
  - destruct x.
    + destruct y.
      * destruct a as [|a]; [|discriminate Hrest]. exists 0, (S b).
        simpl in Hrest. simpl. now rewrite Hrest.
      * exfalso. simpl in Hnone. destruct (last_smaller true rest0); discriminate Hnone.
    + exists (S a), b. now rewrite Hrest.
Qed.

Lemma previous_permutation_Some (l l' : list bool) :
  previous_permutation l = Some l' ->
  length l' = length l /\ weight l' = weight l /\ flags_value l' < flags_value l /\
  forall g, length g = length l -> weight g = weight l ->
    flags_value g < flags_value l -> flags_value g <= flags_value l'.
Proof.
  revert l'. induction l as [|x rest IH]; intros l'; [discriminate|].
  simpl previous_permutation.
  destruct (previous_permutation rest) as [rest'|] eqn:Hprev.
  - intros [= <-]. destruct (IH rest' eq_refl) as (Hlen & Hw & Hlt & Hpred).
    split; [simpl; lia|]. split; [rewrite !weight_cons; lia|].
    split; [simpl; rewrite Hlen; lia|].
    intros [|y g] Hg Hwg Hvg; [discriminate|].
    simpl in Hg. injection Hg as Hg. rewrite !weight_cons in Hwg.
    simpl in Hvg |- *. rewrite Hg, Hlen in *.
    pose proof (flags_value_bound g) as Hbg. rewrite Hg in Hbg.
    pose proof (flags_value_bound rest) as Hbr.
    destruct x, y; try lia.
    + assert (flags_value g <= flags_value rest') by (apply Hpred; lia). lia.
    + assert (flags_value g <= flags_value rest') by (apply Hpred; lia). lia.
  - destruct (previous_permutation_None rest Hprev) as (a & b & Hrest).
    destruct rest as [|y rest0]; [discriminate|].
    destruct x; [|destruct y; discriminate].
    destruct y; [discriminate|]. simpl bool_lt. cbv iota.
    destruct a as [|a]; [destruct b; discriminate Hrest|].
    rewrite Hrest, last_smaller_ascending.
    assert (Hnth : nth a (replicate (S a) false ++ replicate b true) true = false).
    { rewrite app_nth1 by (rewrite length_replicate; lia).
      rewrite nth_lookup, lookup_replicate_2 by lia. reflexivity. }
    assert (Hins : <[a := true]> (replicate (S a) false ++ replicate b true)
                   = replicate a false ++ replicate (S b) true).
    { rewrite insert_app_l by (rewrite length_replicate; lia).
      replace (S a) with (a + 1) by lia. rewrite replicate_add.
      rewrite insert_app_r_alt by (rewrite length_replicate; lia).
      rewrite length_replicate, Nat.sub_diag. simpl.
      rewrite <- app_assoc. reflexivity. }
    rewrite Hnth, Hins, rev_app_distr, !rev_replicate. intros Hsome.
    pose proof (flags_value_descending (S b) a) as Hd.
    pose proof (flags_value_ascending (S a) b) as Ha.
    pose proof (pow2_pos a) as Hpa. pose proof (pow2_pos b) as Hpb.
    replace (S b + a) with (S (a + b)) in Hd by lia.
    assert (HlenD : length (replicate (S b) true ++ replicate a false) = S (a + b))
      by (rewrite length_app, !length_replicate; lia).
    assert (HlenA : length (replicate (S a) false ++ replicate b true) = S (a + b))
      by (rewrite length_app, !length_replicate; lia).
    assert (HwD : weight (replicate (S b) true ++ replicate a false) = S b)
      by (rewrite weight_app, !weight_replicate; lia).
    assert (HwA : weight (replicate (S a) false ++ replicate b true) = b)
      by (rewrite weight_app, !weight_replicate; lia).
    remember (replicate (S b) true ++ replicate a false) as D.
    remember (replicate (S a) false ++ replicate b true) as A.
    injection Hsome as <-.
    rewrite !weight_cons, !flags_value_cons. cbn [length]. rewrite HlenD, HlenA, HwD, HwA.
    split; [reflexivity|]. split; [lia|]. split; [lia|].
    intros [|z g] Hg Hwg Hvg; [discriminate|].
    cbn [length] in Hg. injection Hg as Hg.
    rewrite weight_cons in Hwg. rewrite flags_value_cons in Hvg |- *. rewrite Hg in Hvg.
    destruct z.
    + exfalso. pose proof (flags_value_min g) as Hmin.
      replace (weight g) with b in Hmin by lia. lia.
    + pose proof (flags_value_max g) as Hmax.
      replace (length g - weight g) with a in Hmax by lia. rewrite Hg in Hmax. lia.
Qed.

Lemma split_by_flags_lengths (g : list bool) (extruders : list Z) :
  length g = length extruders ->
  length (fst (split_by_flags g extruders)) = weight g /\
  length (snd (split_by_flags g extruders)) = length extruders - weight g.
Proof.
  revert extruders. induction g as [|f g IH]; intros [|e es] Hlen; try discriminate;
    [unfold weight; simpl; lia|].
  simpl in Hlen. injection Hlen as Hlen. destruct (IH es Hlen) as [H1 H2].
  pose proof (weight_le_length g) as Hw.
  simpl. destruct (split_by_flags g es) as [g1 g2]. simpl in H1, H2.
  rewrite weight_cons. destruct f; simpl; lia.
Qed.

Lemma ordered_split_small (g : list bool) (extruders : list Z) :
  length g = length extruders -> weight g <= length extruders / 2 ->
  ordered_split g extruders = split_by_flags g extruders.
Proof.
  intros Hlen Hw. unfold ordered_split.
  destruct (split_by_flags_lengths g extruders Hlen) as [H1 H2].
  destruct (split_by_flags g extruders) as [g1 g2]. simpl in H1, H2.
  destruct (Nat.ltb_spec (length g2) (length g1)) as [Hlt|_]; [|reflexivity].
  exfalso. pose proof (Nat.Div0.mul_div_le (length extruders) 2). lia.
Qed.

Lemma combinations_loop_spec (extruders : list Z) (fuel : nat) (flags : list bool)
    (acc : gset (list Z * list Z)) :
  flags_value flags < fuel ->
  exists combinations,
    combinations_loop fuel extruders flags acc = Some combinations /\
    forall p, p ∈ combinations <->
      p ∈ acc \/
      exists g, length g = length flags /\ weight g = weight flags /\
                flags_value g <= flags_value flags /\ p = ordered_split g extruders.
Proof.
  revert flags acc. induction fuel as [|fuel IH]; intros flags acc Hfuel; [lia|].
  simpl. unfold prev_permutation.
  destruct (previous_permutation flags) as [flags'|] eqn:Hprev.
  - destruct (previous_permutation_Some flags flags' Hprev) as (Hlen & Hw & Hlt & Hpred).
    destruct (IH flags' ({[ordered_split flags extruders]} ∪ acc)) as (S & Hrun & Hmem);
      [lia|].
    exists S. split; [exact Hrun|]. intros p. rewrite Hmem, elem_of_union, elem_of_singleton.
    split.
    + intros [[->|Hacc]|(g & Hg & Hwg & Hvg & ->)].
      * right. exists flags. auto.
      * now left.
      * right. exists g. repeat split; [congruence|congruence|lia].
    + intros [Hacc|(g & Hg & Hwg & Hvg & ->)]; [left; now right|].
      destruct (Nat.eq_dec (flags_value g) (flags_value flags)) as [Heq|Hne].
      * left. left. now rewrite (flags_value_inj g flags Hg Heq).
      * right. exists g. repeat split; [congruence|congruence|].
        apply Hpred; [exact Hg|exact Hwg|lia].
  - eexists. split; [reflexivity|]. intros p. rewrite elem_of_union, elem_of_singleton.
    split.
    + intros [->|Hacc]; [|now left]. right. exists flags. auto.
    + intros [Hacc|(g & Hg & Hwg & Hvg & ->)]; [now right|]. left.
      destruct (previous_permutation_None flags Hprev) as (a & b & Hflags).
      pose proof (flags_value_min g) as Hmin.
      assert (Hval : flags_value flags + 1 = 2 ^ weight flags).
      { rewrite Hflags, flags_value_ascending, weight_app, !weight_replicate. reflexivity. }
      rewrite Hwg in Hmin.
      now rewrite (flags_value_inj g flags Hg ltac:(lia)).
Qed.

Lemma combinations_fold_spec (extruders : list Z) (sizes : list nat)
    (acc : gset (list Z * list Z)) :
  Forall (fun i => i <= length extruders) sizes ->
  exists combinations,
    fold_left_option
      (fun unique_combinations i =>
         combinations_loop (2 ^ length extruders) extruders
           (replicate i true ++ replicate (length extruders - i) false) unique_combinations)
      sizes acc = Some combinations /\
    forall p, p ∈ combinations <->
      p ∈ acc \/
      exists i g, In i sizes /\ length g = length extruders /\ weight g = i /\
                  p = ordered_split g extruders.
Proof.
  revert acc. induction sizes as [|i sizes IH]; intros acc Hall.
  - exists acc. split; [reflexivity|]. intros p. split; [now left|].
    intros [H|(i & g & [] & _)]. exact H.
  - apply Forall_cons in Hall as [Hi Hall].
    set (start := replicate i true ++ replicate (length extruders - i) false).
    assert (Hlen : length start = length extruders).
    { unfold start. rewrite length_app, !length_replicate. lia. }
    assert (Hw : weight start = i).
    { unfold start. rewrite weight_app, !weight_replicate. lia. }
    destruct (combinations_loop_spec extruders (2 ^ length extruders) start acc)
      as (S1 & Hrun1 & Hmem1).
    { rewrite <- Hlen. apply flags_value_bound. }
    destruct (IH S1 Hall) as (S & Hrun & Hmem).
    exists S. split; [simpl; fold start; rewrite Hrun1; exact Hrun|].
    intros p. rewrite Hmem, Hmem1. split.
    + intros [[Hacc|(g & Hg & Hwg & _ & ->)]|(j & g & Hj & Hg & Hwg & ->)].
      * now left.
      * right. exists i, g. split; [now left|]. split; [congruence|]. split; [congruence|auto].
      * right. exists j, g. split; [now right|auto].
    + intros [Hacc|(j & g & [<-|Hj] & Hg & Hwg & ->)].
      * left. now left.
      * left. right. exists g. split; [congruence|]. split; [congruence|].
        split; [|reflexivity].
        pose proof (flags_value_max g) as Hmax. rewrite Hg, Hwg in Hmax.
        pose proof (flags_value_descending i (length extruders - i)) as Hd.
        fold start in Hd. replace (i + (length extruders - i)) with (length extruders) in Hd
          by lia.
        lia.
      * right. exists j, g. auto.
Qed.

Lemma split_by_flags_negb (flags : list bool) (extruders : list Z) :
  split_by_flags (map negb flags) extruders
  = (snd (split_by_flags flags extruders), fst (split_by_flags flags extruders)).
Proof.
  revert extruders. induction flags as [|f flags IH]; intros [|e es]; try reflexivity.
  simpl. rewrite IH. destruct (split_by_flags flags es) as [g1 g2]. now destruct f.
Qed.

End Combinations.

(** X28. [generate_combinations] returns, with fuel for two to the power of
    the number of extruders rounds of each loop, exactly the splits of the
    extruders into a group of some of them, at least one and at most half,
    and the group of the others, each group in the order of the input: a
    pair is in the set if and only if some choice of flags yields it with a
    first group of such a size. The first group is thus never the larger
    one, and a split into two groups of equal size is in the set in both
    orders. *)
Theorem generate_combinations_splits (extruders : list Z) :
  exists combinations,
    generate_combinations (2 ^ length extruders) extruders = Some combinations /\
    (forall group1 group2, (group1, group2) ∈ combinations <->
       exists flags, length flags = length extruders /\
                     split_by_flags flags extruders = (group1, group2) /\
                     (1 <= length group1 <= length extruders / 2)%nat) /\
    (forall group1 group2, (group1, group2) ∈ combinations ->
       length group1 = length group2 -> (group2, group1) ∈ combinations).
Proof.
  assert (Hboth : forall combinations : gset (list Z * list Z),
            (forall group1 group2, (group1, group2) ∈ combinations <->
               exists flags, length flags = length extruders /\
                             split_by_flags flags extruders = (group1, group2) /\
                             (1 <= length group1 <= length extruders / 2)%nat) ->
            forall group1 group2, (group1, group2) ∈ combinations ->
              length group1 = length group2 -> (group2, group1) ∈ combinations).
  { intros S Hmem g1 g2 Hin Hsame. apply Hmem in Hin as (flags & Hlen & Hsplit & Hsize).
    apply Hmem. exists (map negb flags). split; [now rewrite length_map|].
    split; [now rewrite split_by_flags_negb, Hsplit|]. lia. }
  enough (exists combinations,
            generate_combinations (2 ^ length extruders) extruders = Some combinations /\
            forall group1 group2, (group1, group2) ∈ combinations <->
              exists flags, length flags = length extruders /\
                            split_by_flags flags extruders = (group1, group2) /\
                            (1 <= length group1 <= length extruders / 2)%nat)
    as (S & Hrun & Hmem).
  { exists S. split; [exact Hrun|]. split; [exact Hmem|]. now apply Hboth. }
  clear Hboth.
  unfold generate_combinations. destruct extruders as [|e es] eqn:Hext.
  - exists ∅. split; [reflexivity|]. intros g1 g2. split; [intros H; now apply elem_of_empty in H|].
    intros (flags & _ & _ & Hsize). simpl in Hsize. lia.
  - rewrite <- Hext.
    assert (Hhalf : (length extruders / 2 <= length extruders)%nat)
      by (apply Nat.Div0.div_le_upper_bound; lia).
    destruct (combinations_fold_spec extruders (seq 1 (length extruders / 2)) ∅)
      as (S & Hrun & Hmem).
    { apply List.Forall_forall. intros i Hi. apply in_seq in Hi. lia. }
    exists S. split; [exact Hrun|]. intros g1 g2. rewrite Hmem. split.
    + intros [H|(i & g & Hi & Hg & Hw & Hp)]; [now apply elem_of_empty in H|].
      apply in_seq in Hi. exists g. split; [exact Hg|].
      rewrite ordered_split_small in Hp by (rewrite ?Hw; lia || exact Hg).
      split; [now symmetry|].
      destruct (split_by_flags_lengths g extruders Hg) as [H1 _].
      rewrite <- Hp in H1. simpl in H1. lia.
    + intros (flags & Hlen & Hsplit & Hsize). right.
      destruct (split_by_flags_lengths flags extruders Hlen) as [H1 _].
      rewrite Hsplit in H1. simpl in H1.
      exists (weight flags), flags. split; [apply in_seq; lia|].
      split; [exact Hlen|]. split; [reflexivity|].
      rewrite ordered_split_small by (exact Hlen || lia). now symmetry.
Qed.

(** X28 on three extruders, the three splits with a group of one, and on
    two, the split in both orders. *)
Example generate_combinations_sample :
  generate_combinations 8 [1; 2; 3]
  = Some {[([1], [2; 3]); ([2], [1; 3]); ([3], [1; 2])]} /\
  generate_combinations 4 [1; 2] = Some {[([1], [2]); ([2], [1])]}.
Proof. split; vm_compute; reflexivity. Qed.
